(** * nlutestframework: a shallow embedding of the benchmark core

    The development follows the Python sources of [nlutestframework]:

    - [parallel_exception.py]  : [run_in_parallel], [ParallelException]
    - [nlu_intent_rating.py]   : [NLUIntentRating]
    - [nlu_data_set.py]        : [NLUDataSet] (split and reshuffle)
    - [nlu_framework.py]       : [NLUFramework.benchmark]
    - [nlu_benchmarker.py]     : [NLUBenchmarker] (metrics and life cycle)
    - [intent_threshold_optimizer.py] : [IntentThresholdOptimizer]

    Python floats are IEEE 754 binary64 numbers and are modelled by Rocq's
    primitive floats, which are the same numbers with the same rounding.
    Python dictionaries keep insertion order and are modelled by association
    lists without duplicate keys.  Exceptions are values of an error type and
    fallible functions return an [outcome]. *)

From Stdlib Require Import ZArith List String Bool Lia Floats Permutation.
Import ListNotations.

Set Implicit Arguments.
Set Warnings "-inexact-float,-register-all".

Local Open Scope string_scope.
Local Open Scope list_scope.

(** ** Outcomes of fallible Python code *)

(** The built-in exceptions that the modelled code can raise by itself or
    that the event loop treats in a way of their own, and [EngineError] for
    anything else a collaborator (an NLU engine adapter) raises. *)
Inductive pyerr : Type :=
| IndexError
| KeyError
| ZeroDivisionError
| ValueError (msg : string)
| KeyboardInterrupt
| SystemExit
| CancelledError
| EngineError (code : nat).

Inductive outcome (E A : Type) : Type :=
| Return (a : A)
| Raise (e : E).

Arguments Return {E A} a.
Arguments Raise {E A} e.

Definition obind {E A B} (x : outcome E A) (k : A -> outcome E B) : outcome E B :=
  match x with
  | Return a => k a
  | Raise e => Raise e
  end.

Definition is_raise {E A} (x : outcome E A) : bool :=
  match x with
  | Return _ => false
  | Raise _ => true
  end.

(** [for x in xs: acc = f(acc, x)] where the body may raise. *)
Fixpoint ofold {E A B} (f : B -> A -> outcome E B) (xs : list A) (acc : B) : outcome E B :=
  match xs with
  | [] => Return acc
  | x :: xs' => obind (f acc x) (ofold f xs')
  end.

(** [[f(x) for x in xs]] where [f] may raise. *)
Fixpoint omapM {E A B} (f : A -> outcome E B) (xs : list A) : outcome E (list B) :=
  match xs with
  | [] => Return []
  | x :: xs' => obind (f x) (fun y => obind (omapM f xs') (fun ys => Return (y :: ys)))
  end.

(** ** types.py *)

(** [Intent = Optional[str]]: [None] is the None-intent. *)
Definition Intent : Type := option string.

Definition intent_eqb (a b : Intent) : bool :=
  match a, b with
  | None, None => true
  | Some x, Some y => String.eqb x y
  | _, _ => false
  end.

(** ** The order of binary64 numbers *)

(** An embedding of the numbers other than NaN into triples of integers
    under the lexicographic order: the class (infinities, negative, zero,
    positive), then exponent and mantissa, negated for negative numbers. *)
Definition sf_key (x : spec_float) : option (Z * Z * Z) :=
  match x with
  | S754_nan => None
  | S754_infinity s => Some ((if s then -2 else 2)%Z, 0%Z, 0%Z)
  | S754_zero _ => Some (0%Z, 0%Z, 0%Z)
  | S754_finite s m e => if s then Some ((-1)%Z, (- e)%Z, Z.neg m) else Some (1%Z, e, Z.pos m)
  end.

Definition lexcmp (a b : Z * Z * Z) : comparison :=
  match (fst (fst a) ?= fst (fst b))%Z with
  | Eq => match (snd (fst a) ?= snd (fst b))%Z with
          | Eq => (snd a ?= snd b)%Z
          | r => r
          end
  | r => r
  end.

(** Zero and the positive finite numbers. *)
Definition nonneg (x : spec_float) : bool :=
  match x with
  | S754_zero _ | S754_finite false _ _ => true
  | _ => false
  end.

(** The numbers with a sign bit, NaN apart. *)
Definition signed (x : spec_float) : bool :=
  match x with
  | S754_zero true | S754_finite true _ _ | S754_infinity true => true
  | _ => false
  end.

(** ** nlu_intent_rating.py *)

Module Rating.

(** [sorted(rated_intents, key=lambda x: x[1], reverse=True)]: a stable
    sort in descending order of confidence.  Python compares keys with [<]
    only; entries with equal confidence keep their relative order. *)
Fixpoint insert_desc (x : Intent * float) (l : list (Intent * float)) : list (Intent * float) :=
  match l with
  | [] => [x]
  | y :: l' =>
      if PrimFloat.ltb (snd x) (snd y) then y :: insert_desc x l' else x :: l
  end.

Definition sorted_desc (l : list (Intent * float)) : list (Intent * float) :=
  fold_right insert_desc [] l.

(** The object state: [__sentence] and [__sorted_intents]. *)
Record NLUIntentRating : Type := mkRating {
  sentence : string;
  sorted_intents : list (Intent * float)
}.

(** [NLUIntentRating.__init__] *)
Definition init (sentence : string) (rated_intents : list (Intent * float)) : NLUIntentRating :=
  {| sentence := sentence; sorted_intents := sorted_desc rated_intents |}.

(** [detected_intent]: [self.__sorted_intents[0][0]]. *)
Definition detected_intent (r : NLUIntentRating) : outcome pyerr Intent :=
  match sorted_intents r with
  | [] => Raise IndexError
  | top :: _ => Return (fst top)
  end.

(** [noneIfBelow]: the rating object is mutated in place; the function
    returns the state of the object after the call. *)
Definition noneIfBelow (threshold : float) (r : NLUIntentRating) : outcome pyerr NLUIntentRating :=
  match sorted_intents r with
  | [] => Raise IndexError
  | top :: _ =>
      if PrimFloat.leb (snd top) threshold
      then Return {| sentence := sentence r;
                     sorted_intents := (None, 1.0%float) :: sorted_intents r |}
      else Return r
  end.

End Rating.

(** ** Python numbers *)

(** A Python number is an [int] or a [float].  [Z2float] is the conversion
    [float(z)], rounding to nearest-even; it is exact up to [2^53]. *)
Inductive pynum : Type :=
| PInt (z : Z)
| PFloat (f : float).

Definition Z2float (z : Z) : float :=
  SF2Prim (binary_normalize prec emax z 0 false).

Definition to_float (a : pynum) : float :=
  match a with
  | PInt z => Z2float z
  | PFloat f => f
  end.

Definition py_add (a b : pynum) : pynum :=
  match a, b with
  | PInt x, PInt y => PInt (x + y)
  | _, _ => PFloat (to_float a + to_float b)
  end.

Definition py_sub (a b : pynum) : pynum :=
  match a, b with
  | PInt x, PInt y => PInt (x - y)
  | _, _ => PFloat (to_float a - to_float b)
  end.

Definition py_mul (a b : pynum) : pynum :=
  match a, b with
  | PInt x, PInt y => PInt (x * y)
  | _, _ => PFloat (to_float a * to_float b)
  end.

(** [a == 0] *)
Definition py_eq0 (a : pynum) : bool :=
  match a with
  | PInt z => Z.eqb z 0
  | PFloat f => PrimFloat.eqb f 0
  end.

(** [a == b] between numbers whose integers are exactly representable. *)
Definition py_eqb (a b : pynum) : bool :=
  match a, b with
  | PInt x, PInt y => Z.eqb x y
  | _, _ => PrimFloat.eqb (to_float a) (to_float b)
  end.

(** An integer as a number with the exponent 0, whatever its size. *)
Definition Z2SF (z : Z) : spec_float :=
  match z with
  | Z0 => S754_zero false
  | Zpos p => S754_finite false p 0
  | Zneg p => S754_finite true p 0
  end.

(** [a / b] between integers: Python rounds the exact quotient, once. *)
Definition int_truediv (a b : Z) : float :=
  SF2Prim (SFdiv prec emax (Z2SF a) (Z2SF b)).

(** True division [a / b]: always a float, and [ZeroDivisionError] for a
    zero divisor, also between floats.  Between integers the exact quotient
    is rounded; otherwise an integer operand is converted first.  A
    quotient of integers that is too large for a float, for which Python
    raises [OverflowError], is left out: it is infinite here. *)
Definition py_truediv (a b : pynum) : outcome pyerr pynum :=
  if py_eq0 b then Raise ZeroDivisionError
  else match a, b with
       | PInt x, PInt y => Return (PFloat (int_truediv x y))
       | _, _ => Return (PFloat (to_float a / to_float b))
       end.

(** [sum(xs)]: starts from the integer 0 and adds from the left. *)
Definition py_sum (xs : list pynum) : pynum :=
  fold_left py_add xs (PInt 0).

(** [len(xs)] *)
Definition py_len {A} (xs : list A) : pynum := PInt (Z.of_nat (List.length xs)).

(** ** Python dictionaries *)

(** A [dict] keeps its keys in insertion order; assigning to a key that is
    present replaces the value in place. *)
Module Dict.
Section Dict.

Variables (K V : Type) (eqb : K -> K -> bool).

Definition t : Type := list (K * V).

(** [d.get(k, None)] *)
Fixpoint get (d : t) (k : K) : option V :=
  match d with
  | [] => None
  | (k', v) :: d' => if eqb k' k then Some v else get d' k
  end.

(** [d[k]] *)
Definition item (d : t) (k : K) : outcome pyerr V :=
  match get d k with
  | Some v => Return v
  | None => Raise KeyError
  end.

(** [d[k] = v] *)
Fixpoint set (d : t) (k : K) (v : V) : t :=
  match d with
  | [] => [(k, v)]
  | (k', v') :: d' => if eqb k' k then (k', v) :: d' else (k', v') :: set d' k v
  end.

(** [d.keys()], [d.values()]; [d.items()] is the list itself. *)
Definition keys (d : t) : list K := map fst d.
Definition values (d : t) : list V := map snd d.

End Dict.
End Dict.

(** ** nlu_data_entry.py *)

Record NLUDataEntry : Type := mkEntry {
  entry_sentence : string;
  entry_intent : Intent
}.

(** ** nlu_benchmarker.py: the metrics *)

(** [ConfusionMatrix = Dict[Optional[str], Dict[Optional[str], int]]] *)
Definition ConfusionMatrix : Type := Dict.t Intent (Dict.t Intent Z).

Definition DataSetTitle : Type := string.
Definition FrameworkTitle : Type := string.

(** [_Performance] *)
Record Performance : Type := mkPerformance {
  mean : pynum;
  variance : pynum
}.

Module Metrics.

(** [__safeDivide] *)
Definition safeDivide (dividend divisor : pynum) : outcome pyerr pynum :=
  if py_eq0 dividend && py_eq0 divisor then Return (PInt 0)
  else py_truediv dividend divisor.

(** The four counters of [__prepareF1Score], in the order of the returned
    tuple. *)
Record counts : Type := mkCounts {
  true_positives : Z;
  true_negatives : Z;
  false_positives : Z;
  false_negatives : Z
}.

(** The body of the inner loop of [__prepareF1Score]. *)
Definition count_cell (intent expected : Intent) (c : counts) (cell : Intent * Z) : counts :=
  let (detected, amount) := cell in
  if intent_eqb intent expected then
    if intent_eqb detected intent
    then mkCounts (true_positives c + amount) (true_negatives c)
                  (false_positives c) (false_negatives c)
    else mkCounts (true_positives c) (true_negatives c)
                  (false_positives c) (false_negatives c + amount)
  else
    if intent_eqb detected intent
    then mkCounts (true_positives c) (true_negatives c)
                  (false_positives c + amount) (false_negatives c)
    else mkCounts (true_positives c) (true_negatives c + amount)
                  (false_positives c) (false_negatives c).

(** [__prepareF1Score] *)
Definition prepareF1Score (intent : Intent) (confusion_matrix : ConfusionMatrix) : counts :=
  fold_left
    (fun c (row : Intent * Dict.t Intent Z) =>
       fold_left (count_cell intent (fst row)) (snd row) c)
    confusion_matrix (mkCounts 0 0 0 0).

(** The body of the loop of [confusionMatrixToF1Scores] for one intent. *)
Definition f1_score (intent : Intent) (confusion_matrix : ConfusionMatrix) : outcome pyerr pynum :=
  let c := prepareF1Score intent confusion_matrix in
  obind (safeDivide (PInt (true_positives c))
                    (PInt (true_positives c + false_positives c))) (fun precision =>
  obind (safeDivide (PInt (true_positives c))
                    (PInt (true_positives c + false_negatives c))) (fun recall =>
  safeDivide (py_mul (py_mul (py_mul (PInt 100) (PInt 2)) precision) recall)
             (py_add precision recall))).

(** [confusionMatrixToF1Scores] *)
Definition confusionMatrixToF1Scores (confusion_matrix : ConfusionMatrix)
  : outcome pyerr (Dict.t Intent pynum) :=
  ofold (fun f1_scores intent =>
           obind (f1_score intent confusion_matrix) (fun s =>
           Return (Dict.set intent_eqb f1_scores intent s)))
        (Dict.keys confusion_matrix) [].

(** [__confusionMatricesToF1Scores] *)
Definition confusionMatricesToF1Scores
  (iterations : list (Dict.t DataSetTitle (Dict.t FrameworkTitle ConfusionMatrix)))
  : outcome pyerr (list (Dict.t DataSetTitle (Dict.t FrameworkTitle (Dict.t Intent pynum)))) :=
  omapM (fun iteration =>
    ofold (fun iteration_result (e : DataSetTitle * Dict.t FrameworkTitle ConfusionMatrix) =>
      obind (ofold (fun performances_result (p : FrameworkTitle * ConfusionMatrix) =>
                      obind (confusionMatrixToF1Scores (snd p)) (fun s =>
                      Return (Dict.set String.eqb performances_result (fst p) s)))
                   (snd e) []) (fun performances_result =>
      Return (Dict.set String.eqb iteration_result (fst e) performances_result)))
      iteration [])
    iterations.

End Metrics.

(** Equality of two score dictionaries as Python's [==] decides it: the same
    keys, in any order, with equal numbers ([0 == 0.0] holds). *)
Definition scores_eqb (d1 d2 : Dict.t Intent pynum) : bool :=
  Nat.eqb (List.length d1) (List.length d2)
  && forallb (fun kv : Intent * pynum =>
                match Dict.get intent_eqb d2 (fst kv) with
                | Some v => py_eqb (snd kv) v
                | None => false
                end) d1.


(** ** nlu_benchmarker.py: means and variances over the iterations *)

(** What [__f1ScoreMeansAndVariances] reads of a data set: its title and its
    current validation data. *)
Record DataSetView : Type := mkView {
  view_title : DataSetTitle;
  view_validation_data : list NLUDataEntry
}.

(** [{ x for x in l }]: the members of [l], each once.  Python fixes no
    iteration order for a set; the last occurrences are kept here. *)
Fixpoint intent_set (l : list Intent) : list Intent :=
  match l with
  | [] => []
  | x :: l' => if existsb (intent_eqb x) l' then intent_set l' else x :: intent_set l'
  end.

(** [filter(lambda x: x is not None, scores)] *)
Definition filter_not_None {A} (scores : list (option A)) : list A :=
  flat_map (fun s => match s with Some x => [x] | None => [] end) scores.

Module Aggregation.
Section Aggregation.

(** [x ** 2] on a float is the C library's [pow(x, 2.0)], which the
    language does not pin down to the last bit; it is a parameter. *)
Variable libm_pow2 : float -> float.

Definition py_pow2 (a : pynum) : pynum :=
  match a with
  | PInt z => PInt (z * z)
  | PFloat f => PFloat (libm_pow2 f)
  end.

Definition Scores : Type :=
  Dict.t DataSetTitle (Dict.t FrameworkTitle (Dict.t Intent pynum)).

Definition Performances : Type :=
  Dict.t DataSetTitle (Dict.t FrameworkTitle (Dict.t Intent Performance)).

(** [score_getter]: [x[data_set.title][framework.title].get(intent, None)] *)
Definition score_getter (data_set_title : DataSetTitle) (framework_title : FrameworkTitle)
    (intent : Intent) (x : Scores) : outcome pyerr (option pynum) :=
  obind (Dict.item String.eqb x data_set_title) (fun by_framework =>
  obind (Dict.item String.eqb by_framework framework_title) (fun by_intent =>
  Return (Dict.get intent_eqb by_intent intent))).

(** [sum(xs) / len(xs)] and [sum(map(lambda x: (x - mean) ** 2, xs)) / len(xs)] *)
Definition mean_of (xs : list pynum) : outcome pyerr pynum :=
  py_truediv (py_sum xs) (py_len xs).

Definition variance_of (mean : pynum) (xs : list pynum) : outcome pyerr pynum :=
  py_truediv (py_sum (map (fun x => py_pow2 (py_sub x mean)) xs)) (py_len xs).

(** The body of the loop over the intents: [None] stands for [continue]. *)
Definition intent_performance (iterations : list Scores)
    (data_set_title : DataSetTitle) (framework_title : FrameworkTitle) (intent : Intent)
  : outcome pyerr (option Performance) :=
  obind (omapM (score_getter data_set_title framework_title intent) iterations) (fun scores =>
  let filtered_scores := filter_not_None scores in
  if Nat.eqb (List.length filtered_scores) 0 then Return None
  else
    obind (mean_of filtered_scores) (fun mean =>
    obind (variance_of mean filtered_scores) (fun variance =>
    Return (Some (mkPerformance mean variance))))).

(** The loop [for intent in intents], filling
    [performances[data_set.title][framework.title]]. *)
Definition framework_performances (iterations : list Scores)
    (data_set_title : DataSetTitle) (intents : list Intent) (framework_title : FrameworkTitle)
  : outcome pyerr (Dict.t Intent Performance) :=
  ofold (fun d intent =>
           obind (intent_performance iterations data_set_title framework_title intent)
                 (fun p => match p with
                           | None => Return d
                           | Some p => Return (Dict.set intent_eqb d intent p)
                           end))
        intents [].

(** The loop [for framework in frameworks], filling
    [performances[data_set.title]]. *)
Definition data_set_performances (frameworks : list FrameworkTitle)
    (iterations : list Scores) (data_set : DataSetView)
  : outcome pyerr (Dict.t FrameworkTitle (Dict.t Intent Performance)) :=
  let intents := intent_set (map entry_intent (view_validation_data data_set)) in
  ofold (fun d framework_title =>
           obind (framework_performances iterations (view_title data_set) intents
                                         framework_title)
                 (fun by_intent => Return (Dict.set String.eqb d framework_title by_intent)))
        frameworks [].

(** [__f1ScoreMeansAndVariances]; of a framework only the title is read. *)
Definition f1ScoreMeansAndVariances (frameworks : list FrameworkTitle)
    (data_sets : list DataSetView) (iterations : list Scores)
  : outcome pyerr Performances :=
  ofold (fun performances data_set =>
           obind (data_set_performances frameworks iterations data_set)
                 (fun by_framework =>
                    Return (Dict.set String.eqb performances (view_title data_set)
                                     by_framework)))
        data_sets [].

(** *** The aggregation as the specification words it *)

(** The score of an intent in one iteration, when the intent was part of
    that iteration's validation data. *)
Definition iteration_score (data_set_title : DataSetTitle) (framework_title : FrameworkTitle)
    (intent : Intent) (x : Scores) : option pynum :=
  match Dict.get String.eqb x data_set_title with
  | Some by_framework =>
      match Dict.get String.eqb by_framework framework_title with
      | Some by_intent => Dict.get intent_eqb by_intent intent
      | None => None
      end
  | None => None
  end.

(** The scores of the iterations in which the intent was present. *)
Definition present_scores (iterations : list Scores) (data_set_title : DataSetTitle)
    (framework_title : FrameworkTitle) (intent : Intent) : list pynum :=
  flat_map (fun x => match iteration_score data_set_title framework_title intent x with
                     | Some s => [s]
                     | None => []
                     end) iterations.

(** Population mean: the sum of the samples over their number. *)
Definition population_mean (xs : list pynum) : outcome pyerr pynum :=
  py_truediv (py_sum xs) (py_len xs).

(** The square of a number: its product with itself. *)
Definition squared (a : pynum) : pynum := py_mul a a.

(** Population variance: the mean of the squared deviations from [m]. *)
Definition population_variance (m : pynum) (xs : list pynum) : outcome pyerr pynum :=
  population_mean (map (fun x => squared (py_sub x m)) xs).

(** The entry of the result for a triple. *)
Definition reported (performances : Performances) (data_set_title : DataSetTitle)
    (framework_title : FrameworkTitle) (intent : Intent) : option Performance :=
  match Dict.get String.eqb performances data_set_title with
  | Some by_framework =>
      match Dict.get String.eqb by_framework framework_title with
      | Some by_intent => Dict.get intent_eqb by_intent intent
      | None => None
      end
  | None => None
  end.

End Aggregation.
End Aggregation.

(** The examples of the specification. *)
Module Examples.

(** [{"A": {"B": 1}, "B": {}}] *)
Definition matrix_AB : ConfusionMatrix :=
  [(Some "A", [(Some "B", 1%Z)]); (Some "B", [])].

(** [NLUIntentRating("x", [("A", 0.2), ("B", 0.9)])] *)
Definition rating_x : Rating.NLUIntentRating :=
  Rating.init "x" [(Some "A", 0.2%float); (Some "B", 0.9%float)].

(** [NLUIntentRating("y", [("A", 0.2)])] *)
Definition rating_y : Rating.NLUIntentRating :=
  Rating.init "y" [(Some "A", 0.2%float)].


(** Two iterations of one framework on one data set; the None-intent is
    scored in the first iteration only. *)
Definition two_iterations : list (Dict.t DataSetTitle (Dict.t FrameworkTitle (Dict.t Intent pynum))) :=
  [ [("ds", [("fw", [(Some "greet", PFloat 100); (None, PInt 0)])])];
    [("ds", [("fw", [(Some "greet", PFloat 50)])])] ].

Definition view_ds : DataSetView :=
  mkView "ds" [mkEntry "hello" (Some "greet"); mkEntry "bla" None;
               mkEntry "good bye" (Some "bye")].

End Examples.

(** ** nlu_data_set.py *)

(** Python slices [l[i:]] and [l[:i]] for an integer [i] of either sign: a
    negative index counts from the end, and indices are clamped to the list. *)
Definition slice_index (n : nat) (i : Z) : nat :=
  if (i <? 0)%Z then Z.to_nat (Z.max 0 (Z.of_nat n + i))
  else Z.to_nat (Z.min i (Z.of_nat n)).

Definition slice_from {A} (l : list A) (i : Z) : list A :=
  skipn (slice_index (List.length l) i) l.

Definition slice_to {A} (l : list A) (i : Z) : list A :=
  firstn (slice_index (List.length l) i) l.

Definition intent_is_None (x : NLUDataEntry) : bool :=
  match entry_intent x with
  | None => true
  | Some _ => false
  end.

Module DataSet.
Section DataSet.

(** [random.shuffle] permutes a list in place, driven by the state of the
    random number generator. *)
Variable Rng : Type.
Variable shuffle : Rng -> list NLUDataEntry -> Rng * list NLUDataEntry.

(** The attributes [__title], [__data], [__none_data], [__validation_size],
    [__training] and [__validation] of an [NLUDataSet]. *)
Record NLUDataSet : Type := mkDataSet {
  title : DataSetTitle;
  data : list NLUDataEntry;
  none_data : list NLUDataEntry;
  validation_size : Z;
  training : list NLUDataEntry;
  validation : list NLUDataEntry
}.

Definition split_empty : pyerr := ValueError "Validation or training data is empty.".

(** [reshuffle]: the state of the generator and of the object after the
    call, and whether the call returned or raised.  When it raises, the
    attributes assigned before the [raise] keep their new values. *)
Definition reshuffle (g : Rng) (d : NLUDataSet) : (Rng * NLUDataSet) * outcome pyerr unit :=
  let (g', shuffled) := shuffle g (data d) in
  let training' := slice_from shuffled (validation_size d) in
  let validation' := slice_to shuffled (validation_size d) in
  if Nat.eqb (List.length validation') 0 || Nat.eqb (List.length training') 0
  then ((g', mkDataSet (title d) shuffled (none_data d) (validation_size d)
                       training' validation'),
        Raise split_empty)
  else ((g', mkDataSet (title d) shuffled (none_data d) (validation_size d)
                       training' (validation' ++ none_data d)),
        Return tt).

(** The object as [__init__] has it when it calls [reshuffle]: [entries] is
    what [_loadData] or the cache delivered. *)
Definition loaded (title : DataSetTitle) (entries : list NLUDataEntry)
    (validation_percentage : Z) : NLUDataSet :=
  let data := filter (fun x => negb (intent_is_None x)) entries in
  let none_data := filter intent_is_None entries in
  mkDataSet title data none_data
            ((validation_percentage * Z.of_nat (List.length data)) / 100)
            [] [].

(** [__init__], after the data was loaded. *)
Definition init (g : Rng) (title : DataSetTitle) (entries : list NLUDataEntry)
    (validation_percentage : Z) : (Rng * NLUDataSet) * outcome pyerr unit :=
  reshuffle g (loaded title entries validation_percentage).

(** The states of a data set that was constructed from [entries] with
    validation percentage [P]. *)
Definition built_from (entries : list NLUDataEntry) (P : Z) (d : NLUDataSet) : Prop :=
  Permutation (data d) (filter (fun x => negb (intent_is_None x)) entries)
  /\ none_data d = filter intent_is_None entries
  /\ validation_size d
     = ((P * Z.of_nat (List.length (filter (fun x => negb (intent_is_None x)) entries)))
        / 100)%Z.

(** The states an object goes through by calls of [reshuffle], whatever the
    state of the generator at each call. *)
Inductive after_reshuffles (d0 : NLUDataSet) : NLUDataSet -> Prop :=
| reshuffled_0 : after_reshuffles d0 d0
| reshuffled_S (d : NLUDataSet) (g : Rng) :
    after_reshuffles d0 d -> after_reshuffles d0 (snd (fst (reshuffle g d))).

End DataSet.
End DataSet.

(** ** Awaitable computations *)

(** A coroutine is a function of the state of the world that returns the
    new state and an outcome.  Awaitables that are gathered run to
    completion one after the other: [gather] in the order of the argument
    list, [gather_by] in any given order.  [asyncio.gather] may moreover
    interleave them at their suspension points, which the embedding leaves
    out; it returns the results in argument order whatever the schedule.

    The program runs its coroutines with [asyncio.run] ([__main__.py]).
    [asyncio.gather] wraps each awaitable in a task.  A task keeps the
    exception its coroutine raises as its result, except
    [KeyboardInterrupt] and [SystemExit]: these it raises again, out of the
    event loop.  [asyncio.run] then cancels every task and runs the loop
    until all are done: an awaitable that has not started never starts, and
    the coroutine that awaits the [gather] is resumed with [CancelledError],
    so that its [finally] clauses run.  When during this a task raises such
    an exception again, the loop is closed and no coroutine is resumed any
    more.  The gathered awaitables are taken not to gather themselves. *)
Inductive loop_state : Type :=
| Running
| Cancelling
| Closed.

(** The state of the event loop, as a part of the state of the world. *)
Class Loop (W : Type) : Type := {
  loop : W -> loop_state;
  set_loop : loop_state -> W -> W
}.

(** The exceptions that leave the event loop, [KeyboardInterrupt] and
    [SystemExit], and [asyncio.CancelledError]. *)
Class Interrupts (X : Type) : Type := {
  leaves_loop : X -> bool;
  cancelled_error : X
}.

Module Async.
Section Async.

Variables (W X : Type).
Context {L : Loop W} {I : Interrupts X}.

Definition M (A : Type) : Type := W -> W * outcome X A.

Definition ret {A} (a : A) : M A := fun w => (w, Return a).

Definition raise {A} (e : X) : M A := fun w => (w, Raise e).

Definition bind {A B} (m : M A) (k : A -> M B) : M B :=
  fun w => match m w with
           | (w', Return a) => k a w'
           | (w', Raise e) => (w', Raise e)
           end.

(** Lifting of a pure fallible computation. *)
Definition lift {A} (x : outcome X A) : M A := fun w => (w, x).

(** [try: body finally: finalizer].  The finalizer runs whether the body
    returns or raises, unless the event loop was closed in the body, after
    which nothing runs; when the finalizer raises, its exception replaces
    the outcome of the body. *)
Definition try_finally {A B} (body : M A) (finalizer : M B) : M A :=
  fun w => match body w with
           | (w1, r) =>
               match loop w1 with
               | Closed => (w1, r)
               | _ =>
                   match finalizer w1 with
                   | (w2, Return _) => (w2, r)
                   | (w2, Raise e) => (w2, Raise e)
                   end
               end
           end.

(** The exception of an outcome that a task raises again instead of
    keeping it as its result. *)
Definition leaving {A} (r : outcome X A) : option X :=
  match r with
  | Return _ => None
  | Raise e => if leaves_loop e then Some e else None
  end.

(** An outcome that a task keeps as its result. *)
Definition captured {A} (r : outcome X A) : bool :=
  match leaving r with
  | Some _ => false
  | None => true
  end.

(** The exception [e] leaves the event loop.  From a running loop,
    [asyncio.run] cancels the tasks: the awaiting coroutine is resumed with
    [CancelledError].  From a loop in which the tasks are being cancelled,
    the loop is closed: the awaiting coroutine is not resumed, and [e] is
    what [asyncio.run] raises. *)
Definition interrupt {A} (e : X) : M A :=
  fun w => match loop w with
           | Running => (set_loop Cancelling w, Raise cancelled_error)
           | _ => (set_loop Closed w, Raise e)
           end.

(** [await asyncio.gather] with [return_exceptions=True]: an exception
    that a task keeps is its entry in the result list; at the first
    exception that leaves the event loop, the awaitables after it do not
    start and there is no result list. *)
Fixpoint gather {A} (ms : list (M A)) : M (list (outcome X A)) :=
  fun w => match ms with
           | [] => (w, Return [])
           | m :: ms' =>
               match m w with
               | (w1, r) =>
                   match leaving r with
                   | Some e => interrupt e w1
                   | None =>
                       match gather ms' w1 with
                       | (w2, Return rs) => (w2, Return (r :: rs))
                       | (w2, Raise e) => (w2, Raise e)
                       end
                   end
               end
           end.

(** The awaitables at the positions [order] of [ms], run to completion one
    after the other, up to the first whose exception leaves the event loop;
    each result is kept with its position. *)
Fixpoint run_by {A} (ms : list (M A)) (order : list nat)
  : M (list (nat * outcome X A)) :=
  fun w => match order with
           | [] => (w, Return [])
           | i :: rest =>
               match nth_error ms i with
               | Some m =>
                   match m w with
                   | (w1, r) =>
                       match leaving r with
                       | Some e => interrupt e w1
                       | None =>
                           match run_by ms rest w1 with
                           | (w2, Return rs) => (w2, Return ((i, r) :: rs))
                           | (w2, Raise e) => (w2, Raise e)
                           end
                       end
                   end
               | None => run_by ms rest w
               end
           end.

(** The result kept for position [i]. *)
Definition result_at {A} (rs : list (nat * outcome X A)) (i : nat) : option (outcome X A) :=
  option_map snd (find (fun x => Nat.eqb (fst x) i) rs).

(** The results kept for the positions below [n], by position. *)
Definition by_position {A} (n : nat) (rs : list (nat * outcome X A)) : list (outcome X A) :=
  flat_map (fun i => match result_at rs i with
                     | Some r => [r]
                     | None => []
                     end) (seq 0 n).

(** [await asyncio.gather] with [return_exceptions=True] when the
    awaitables complete in the order [order], a permutation of their
    positions: the result list is by position, whatever the order. *)
Definition gather_by {A} (order : list nat) (ms : list (M A)) : M (list (outcome X A)) :=
  fun w => match run_by ms order w with
           | (w', Return rs) => (w', Return (by_position (List.length ms) rs))
           | (w', Raise e) => (w', Raise e)
           end.

(** [for x in xs: body(x)] *)
Fixpoint for_each {A} (xs : list A) (body : A -> M unit) : M unit :=
  match xs with
  | [] => ret tt
  | x :: xs' => bind (body x) (fun _ => for_each xs' body)
  end.

(** [for x in xs: acc = body(acc, x)] *)
Fixpoint fold_M {A B} (body : B -> A -> M B) (xs : list A) (acc : B) : M B :=
  match xs with
  | [] => ret acc
  | x :: xs' => bind (body acc x) (fold_M body xs')
  end.

End Async.
End Async.

Arguments Async.ret {W X A} a.
Arguments Async.raise {W X A} e.
Arguments Async.lift {W X A} x.
Arguments Async.leaving {X I A} r.
Arguments Async.captured {X I A} r.
Arguments Async.interrupt {W X L I A} e w.
Arguments Async.try_finally {W X L A B} body finalizer w.
Arguments Async.gather {W X L I A} ms w.
Arguments Async.run_by {W X L I A} ms order w.
Arguments Async.gather_by {W X L I A} order ms w.

(** ** parallel_exception.py *)

(** [ParallelException]: the message and the two lists handed to the
    constructor; [X] is the type of the exceptions it carries. *)
Record ParallelException (O R X : Type) : Type := mkParallelException {
  message : string;
  operation_exceptions : list (X * O);
  rollback_exceptions : list (X * O * R)
}.

(** The exceptions of a program that runs operations on objects of type [O]
    with results of type [R]. *)
Inductive pyexc (O R : Type) : Type :=
| Builtin (e : pyerr)
| Parallel (p : ParallelException O R (pyexc O R)).

Arguments Builtin {O R} e.
Arguments Parallel {O R} p.

(** [KeyboardInterrupt] and [SystemExit] leave the event loop; every
    other exception, [CancelledError] and [ParallelException] included, is
    kept by the task that raises it. *)
#[export] Instance pyexc_Interrupts (O R : Type) : Interrupts (pyexc O R) := {
  leaves_loop := fun e => match e with
                          | Builtin KeyboardInterrupt => true
                          | Builtin SystemExit => true
                          | _ => false
                          end;
  cancelled_error := Builtin CancelledError
}.

Module Parallel.
Section Parallel.

Variables (W O R X : Type).
Context {L : Loop W} {I : Interrupts X}.

(** [ParallelException] is an exception class. *)
Variable as_exception : ParallelException O R X -> X.

(** [filter(lambda x: not isinstance(x[1], BaseException), zip(objects, results))]:
    an entry of [results] is an exception when the operation raised it. *)
Definition succeeded_of (pairs : list (O * outcome X R)) : list (O * R) :=
  flat_map (fun x => match snd x with
                     | Return r => [(fst x, r)]
                     | Raise _ => []
                     end) pairs.

(** [filter(lambda x: isinstance(x[0], BaseException), zip(results, objects))] *)
Definition failed_of (pairs : list (outcome X R * O)) : list (X * O) :=
  flat_map (fun x => match fst x with
                     | Return _ => []
                     | Raise e => [(e, snd x)]
                     end) pairs.

(** [filter(lambda x: isinstance(x[0], BaseException), results)] on the
    triples [(rollback_result, object, operation_result)]. *)
Definition failed_rollbacks {A} (triples : list (outcome X A * O * R)) : list (X * O * R) :=
  flat_map (fun x => match fst (fst x) with
                     | Return _ => []
                     | Raise e => [(e, snd (fst x), snd x)]
                     end) triples.

(** The list [results] when none of its entries is an exception. *)
Definition returned_of (results : list (outcome X R)) : list R :=
  flat_map (fun x => match x with
                     | Return r => [r]
                     | Raise _ => []
                     end) results.

(** [run_in_parallel], given what its two calls of [asyncio.gather] do. *)
Definition run_in_parallel_with {A}
    (gather_operations : list (Async.M W X R) -> Async.M W X (list (outcome X R)))
    (gather_rollbacks : list (Async.M W X A) -> Async.M W X (list (outcome X A)))
    (objects : list O) (op : O -> Async.M W X R)
    (rollback_op : option (O -> R -> Async.M W X A)) (message : string)
  : Async.M W X (list R) :=
  Async.bind (gather_operations (map op objects)) (fun results =>
  let succeeded := succeeded_of (combine objects results) in
  let failed := failed_of (combine results objects) in
  if Nat.eqb (List.length failed) 0 then Async.ret (returned_of results)
  else
    Async.bind
      match rollback_op with
      | Some rollback =>
          Async.bind
            (gather_rollbacks (map (fun x => rollback (fst x) (snd x)) succeeded))
            (fun results' =>
             let triples :=
               map (fun x => (fst x, fst (snd x), snd (snd x)))
                   (combine results' succeeded) in
             Async.ret (failed_rollbacks triples))
      | None => Async.ret []
      end
      (fun rollback_failures =>
       Async.raise
         (as_exception (mkParallelException message failed rollback_failures)))).

(** [run_in_parallel] when the awaitables complete in list order. *)
Definition run_in_parallel {A} (objects : list O) (op : O -> Async.M W X R)
    (rollback_op : option (O -> R -> Async.M W X A)) (message : string)
  : Async.M W X (list R) :=
  run_in_parallel_with (Async.gather (A := R)) (Async.gather (A := A))
                       objects op rollback_op message.

(** [run_in_parallel] when the operations complete in the order [order] and
    the rollback operations in the order [order']. *)
Definition run_in_parallel_by {A} (order order' : list nat) (objects : list O)
    (op : O -> Async.M W X R) (rollback_op : option (O -> R -> Async.M W X A))
    (message : string) : Async.M W X (list R) :=
  run_in_parallel_with (Async.gather_by (A := R) order) (Async.gather_by (A := A) order')
                       objects op rollback_op message.

End Parallel.
End Parallel.

(** ** Observing calls *)

(** A world that records the calls made on collaborators: [env] is the
    state the collaborators act on, [trace] the calls so far, oldest first,
    and [event_loop] the state of the event loop. *)
Record traced (Env Ev : Type) : Type := mkTraced {
  env : Env;
  trace : list Ev;
  event_loop : loop_state
}.

#[export] Instance traced_Loop (Env Ev : Type) : Loop (traced Env Ev) := {
  loop := fun w => event_loop w;
  set_loop := fun s w => mkTraced (env w) (trace w) s
}.

(** A call [ev] on a collaborator whose behaviour is [body]. *)
Definition invoke {Env Ev X A} (ev : Ev) (body : Env -> Env * outcome X A)
  : Async.M (traced Env Ev) X A :=
  fun w => let (e', r) := body (env w) in (mkTraced e' (trace w ++ [ev]) (event_loop w), r).

(** Reading the state without a call on a collaborator. *)
Definition observe {Env Ev X A} (f : Env -> A) : Async.M (traced Env Ev) X A :=
  fun w => (w, Return (f (env w))).

(** The calls that [run_in_parallel] makes. *)
Inductive invocation (O R : Type) : Type :=
| Op (o : O)
| Rollback (o : O) (r : R).

Arguments Op {O R} o.
Arguments Rollback {O R} o r.

Definition is_Rollback {O R} (i : invocation O R) : bool :=
  match i with
  | Op _ => false
  | Rollback _ _ => true
  end.

(** The outcomes of a collaborator [body] on each of [xs] in turn, and the
    state it leaves. *)
Fixpoint outcomes {Env X I B} (body : I -> Env -> Env * outcome X B) (xs : list I) (e : Env)
  : Env * list (outcome X B) :=
  match xs with
  | [] => (e, [])
  | x :: xs' =>
      let (e1, r) := body x e in
      let (e2, rs) := outcomes body xs' e1 in
      (e2, r :: rs)
  end.

(** The outcomes of a collaborator [body] on the entries of [xs] at the
    positions [order], in this order, each with its position, and the state
    it leaves. *)
Fixpoint outcomes_by {Env X I B} (body : I -> Env -> Env * outcome X B) (xs : list I)
    (order : list nat) (e : Env) : Env * list (nat * outcome X B) :=
  match order with
  | [] => (e, [])
  | i :: rest =>
      match nth_error xs i with
      | Some x =>
          let (e1, r) := body x e in
          let (e2, rs) := outcomes_by body xs rest e1 in
          (e2, (i, r) :: rs)
      | None => outcomes_by body xs rest e
      end
  end.

(** The entries of [xs] at the positions [order]. *)
Definition at_positions {I} (xs : list I) (order : list nat) : list I :=
  flat_map (fun i => match nth_error xs i with
                     | Some x => [x]
                     | None => []
                     end) order.

(** The objects whose operation returned, each with its result; the
    objects whose operation raised, each with its exception; and the
    rollbacks that raised. *)
Fixpoint succeeded_objects {O R X} (objects : list O) (results : list (outcome X R))
  : list (O * R) :=
  match objects, results with
  | o :: os, Return r :: rs => (o, r) :: succeeded_objects os rs
  | _ :: os, Raise _ :: rs => succeeded_objects os rs
  | _, _ => []
  end.

Fixpoint failed_objects {O R X} (objects : list O) (results : list (outcome X R))
  : list (X * O) :=
  match objects, results with
  | _ :: os, Return _ :: rs => failed_objects os rs
  | o :: os, Raise e :: rs => (e, o) :: failed_objects os rs
  | _, _ => []
  end.

Fixpoint failed_rollback_objects {O R X A} (succeeded : list (O * R))
    (results : list (outcome X A)) : list (X * O * R) :=
  match succeeded, results with
  | _ :: ss, Return _ :: rs => failed_rollback_objects ss rs
  | (o, r) :: ss, Raise e :: rs => (e, o, r) :: failed_rollback_objects ss rs
  | _, _ => []
  end.

Definition is_return {X A} (x : outcome X A) : bool := negb (is_raise x).

(** An operation and a rollback operation whose calls are recorded. *)
Definition observed_op {Env O R X} (op_body : O -> Env -> Env * outcome X R)
  : O -> Async.M (traced Env (invocation O R)) X R :=
  fun o => invoke (Op o) (op_body o).

Definition observed_rollback {Env O R X A}
    (rollback_body : option (O -> R -> Env -> Env * outcome X A))
  : option (O -> R -> Async.M (traced Env (invocation O R)) X A) :=
  match rollback_body with
  | Some body => Some (fun o r => invoke (Rollback o r) (body o r))
  | None => None
  end.

(** ** nlu_framework.py and nlu_benchmarker.py: the life cycle *)

(** A result of an operation, as the value that [run_in_parallel] hands
    on: [None] or a confusion matrix. *)
Inductive value : Type :=
| VNone
| VMatrix (m : ConfusionMatrix).

Module Benchmarker.
Section Benchmarker.

(** [Env] is the state of everything outside the benchmarker: the engines,
    the data sets and the cancel flag; [F] and [D] are the framework and
    data set objects. *)
Variables (Env F D : Type).

(** The life cycle methods of [NLUFramework], as calls with arguments. *)
Inductive call : Type :=
| Prepare (f : F) (d : D)
| Unprepare (f : F)
| Train (f : F) (training_data : list NLUDataEntry)
| Rate (f : F) (sentence : string)
| Cleanup (f : F)
| Destruct (f : F).

Definition exc : Type := pyexc F value.

(** What the implementations do: [engine] for the methods that return
    [None], [rate] for [rateIntents]. *)
Variable engine : call -> Env -> Env * outcome exc unit.
Variable rate : F -> string -> Env -> Env * outcome exc Rating.NLUIntentRating.

Variable fw_title : F -> FrameworkTitle.
Variable ds_title : D -> DataSetTitle.
Variable training_data : D -> Env -> list NLUDataEntry.
Variable validation_data : D -> Env -> list NLUDataEntry.
Variable ds_reshuffle : D -> Env -> Env * outcome exc unit.

(** [self.__cancel_flag] *)
Variable cancel_flag : Env -> bool.

Definition world : Type := traced Env call.

Definition prepareDataSet (f : F) (d : D) : Async.M world exc unit :=
  invoke (Prepare f d) (engine (Prepare f d)).

Definition unprepareDataSet (f : F) : Async.M world exc unit :=
  invoke (Unprepare f) (engine (Unprepare f)).

Definition train (f : F) (td : list NLUDataEntry) : Async.M world exc unit :=
  invoke (Train f td) (engine (Train f td)).

Definition rateIntents (f : F) (s : string) : Async.M world exc Rating.NLUIntentRating :=
  invoke (Rate f s) (rate f s).

Definition cleanupTraining (f : F) : Async.M world exc unit :=
  invoke (Cleanup f) (engine (Cleanup f)).

Definition destruct (f : F) : Async.M world exc unit :=
  invoke (Destruct f) (engine (Destruct f)).

(** No method of a framework raises [KeyboardInterrupt] or [SystemExit],
    the exceptions that leave the event loop. *)
Definition stays_in_loop : Prop :=
  (forall c e, Async.captured (snd (engine c e)) = true)
  /\ (forall f s e, Async.captured (snd (rate f s e)) = true).

(** [data_set.reshuffle()]: acts on the state, is not a call on an engine. *)
Definition reshuffle (d : D) : Async.M world exc unit :=
  fun w => let (e', r) := ds_reshuffle d (env w) in
           (mkTraced e' (trace w) (event_loop w), r).

(** A built-in exception, raised. *)
Definition builtin {A} (x : outcome pyerr A) : Async.M world exc A :=
  Async.lift (match x with
              | Return a => Return a
              | Raise e => Raise (Builtin e)
              end).

(** The body of the loop of [__validate] for one datum. *)
Definition validate_datum (f : F) (confusion_matrix : ConfusionMatrix) (datum : NLUDataEntry)
  : Async.M world exc ConfusionMatrix :=
  let row0 := match Dict.get intent_eqb confusion_matrix (entry_intent datum) with
              | Some row => row
              | None => []
              end in
  Async.bind (rateIntents f (entry_sentence datum)) (fun rating =>
  Async.bind (builtin (Rating.detected_intent rating)) (fun detected =>
  let count := match Dict.get intent_eqb row0 detected with
               | Some n => n
               | None => 0%Z
               end in
  Async.ret (Dict.set intent_eqb confusion_matrix (entry_intent datum)
                      (Dict.set intent_eqb row0 detected (count + 1)%Z)))).

(** [NLUFramework.__validate] *)
Definition validate (f : F) (validation_data : list NLUDataEntry)
  : Async.M world exc ConfusionMatrix :=
  Async.fold_M (validate_datum f) validation_data [].

(** [NLUFramework.benchmark] *)
Definition benchmark (f : F) (d : D) : Async.M world exc ConfusionMatrix :=
  Async.try_finally
    (Async.bind (observe (training_data d)) (fun td =>
     Async.bind (train f td) (fun _ =>
     Async.bind (observe (validation_data d)) (fun vd =>
     validate f vd))))
    (cleanupTraining f).

(** A [ParallelException] whose rollback results are of type [R], as an
    exception. *)
Definition as_exception {R} (inj : R -> value) (p : ParallelException F R exc) : exc :=
  Parallel (mkParallelException (message p) (operation_exceptions p)
              (map (fun x => (fst (fst x), snd (fst x), inj (snd x)))
                   (rollback_exceptions p))).

(** The type of [iterations] in [__run]. *)
Definition Iterations : Type :=
  list (Dict.t DataSetTitle (Dict.t FrameworkTitle ConfusionMatrix)).

(** [l[i] = v] *)
Fixpoint list_set {A} (l : list A) (i : nat) (v : A) : list A :=
  match l, i with
  | [], _ => []
  | _ :: l', O => v :: l'
  | x :: l', S i' => x :: list_set l' i' v
  end.

(** The body of [for i in range(num_iterations)] in [__run]. *)
Definition iteration (frameworks : list F) (data_set : D) (iterations : Iterations) (i : nat)
  : Async.M world exc Iterations :=
  Async.bind (Parallel.run_in_parallel (as_exception VMatrix) frameworks
                (fun x => benchmark x data_set)
                (@None (F -> ConfusionMatrix -> Async.M world exc unit))
                "Error while benchmarking all frameworks.") (fun performances =>
  Async.bind (reshuffle data_set) (fun _ =>
  let iterations1 := if Nat.eqb (List.length iterations) i then iterations ++ [[]]
                     else iterations in
  Async.bind (builtin (match nth_error iterations1 i with
                       | Some it => Return it
                       | None => Raise IndexError
                       end)) (fun it =>
  let by_framework :=
    fold_left (fun acc (fp : F * ConfusionMatrix) =>
                 Dict.set String.eqb acc (fw_title (fst fp)) (snd fp))
              (combine frameworks performances) [] in
  let iterations2 :=
    list_set iterations1 i (Dict.set String.eqb it (ds_title data_set) by_framework) in
  Async.bind (observe cancel_flag) (fun cancelled =>
  if cancelled then Async.raise (Builtin KeyboardInterrupt)
  else Async.ret iterations2)))).

(** The body of [for data_set in data_sets] in [__run]. *)
Definition run_data_set (frameworks : list F) (num_iterations : nat)
    (iterations : Iterations) (data_set : D) : Async.M world exc Iterations :=
  Async.bind (Parallel.run_in_parallel (as_exception (fun _ : unit => VNone)) frameworks
                (fun x => prepareDataSet x data_set)
                (Some (fun x (_ : unit) => unprepareDataSet x))
                (String.append "Error while preparing all frameworks for the "
                   (String.append (ds_title data_set) " data set."))) (fun _ =>
  Async.try_finally
    (Async.bind (observe cancel_flag) (fun cancelled =>
     if cancelled then Async.raise (Builtin KeyboardInterrupt)
     else Async.fold_M (iteration frameworks data_set) (seq 0 num_iterations) iterations))
    (Parallel.run_in_parallel (as_exception (fun _ : unit => VNone)) frameworks
       (fun x => unprepareDataSet x)
       (@None (F -> unit -> Async.M world exc unit))
       "Error unpreparing all frameworks.")).

(** [NLUBenchmarker.__run] *)
Definition run_iterations (frameworks : list F) (data_sets : list D) (num_iterations : nat)
  : Async.M world exc Iterations :=
  Async.fold_M (run_data_set frameworks num_iterations) data_sets [].

(** [NLUBenchmarker.run] up to the end of its [try ... finally] statement.
    The statements that follow compute the report from [iterations] with
    the functions of the metrics and call no method of a framework. *)
Definition run (frameworks : list F) (data_sets : list D) (num_iterations : nat)
  : Async.M world exc Iterations :=
  Async.try_finally
    (run_iterations frameworks data_sets num_iterations)
    (Parallel.run_in_parallel (as_exception (fun _ : unit => VNone)) frameworks
       (fun x => destruct x)
       (@None (F -> unit -> Async.M world exc unit))
       "Error deconstructing all frameworks.").

(** *** The calls of a run *)

Definition is_Prepare (c : call) : bool :=
  match c with
  | Prepare _ _ => true
  | _ => false
  end.

Definition is_Destruct (c : call) : bool :=
  match c with
  | Destruct _ => true
  | _ => false
  end.

(** [prepareDataSet d] on every framework, in order. *)
Definition prepares (frameworks : list F) (d : D) : list call :=
  map (fun f => Prepare f d) frameworks.

(** The calls of one [benchmark] of [f] on [d] that starts in state [e]:
    one [train] on the training data, [rateIntents] on the sentences of the
    validation data as it is after training, in order, and one
    [cleanupTraining].  A benchmark that does not complete stops rating
    after some sentence, possibly before the first. *)
Definition benchmark_calls (f : F) (d : D) (e : Env) (completed : bool) (c : list call)
  : Prop :=
  let td := training_data d e in
  let sentences :=
    map entry_sentence (validation_data d (fst (engine (Train f td) e))) in
  if completed
  then c = Train f td :: map (Rate f) sentences ++ [Cleanup f]
  else exists k, k <= List.length sentences
                 /\ c = Train f td :: map (Rate f) (firstn k sentences) ++ [Cleanup f].

(** The calls of one iteration: a benchmark for every framework, in the
    order of the list; all benchmarks are complete in a completed iteration. *)
Definition iteration_calls (frameworks : list F) (d : D) (completed : bool) (c : list call)
  : Prop :=
  exists parts,
    c = List.concat parts
    /\ Forall2 (fun f p => exists e b, benchmark_calls f d e b p
                                      /\ (completed = true -> b = true))
               frameworks parts.

(** The calls for one data set whose preparation starts in state [e].
    Either the preparation failed: after the [prepareDataSet] calls, the
    frameworks whose [prepareDataSet] returned are unprepared, and no
    other.  Or [prepareDataSet] returned for every framework: the
    iterations follow, at most [num_iterations], and then
    [unprepareDataSet] on every framework.  When the data set is done
    ([ok]), all [num_iterations] iterations are there and complete. *)
Definition data_set_calls (frameworks : list F) (num_iterations : nat) (d : D) (e : Env)
    (ok : bool) (c : list call) : Prop :=
  let prepared := snd (outcomes (fun f => engine (Prepare f d)) frameworks e) in
  (ok = false
   /\ forallb is_return prepared = false
   /\ c = prepares frameworks d
          ++ map (fun x => Unprepare (fst x)) (succeeded_objects frameworks prepared))
  \/ (forallb is_return prepared = true
      /\ exists its : list (list call),
           c = prepares frameworks d ++ List.concat its ++ map Unprepare frameworks
           /\ List.length its <= num_iterations
           /\ Forall (fun p => exists b, iteration_calls frameworks d b p
                                         /\ (ok = true -> b = true)) its
           /\ (ok = true -> List.length its = num_iterations)).

(** The calls of [__run] that starts in state [e]: the data sets in order,
    up to the first that is not done; [e'] is the state in which the next
    data set starts. *)
Inductive data_sets_calls (frameworks : list F) (num_iterations : nat)
  : list D -> Env -> bool -> list call -> Prop :=
| calls_done (e : Env) : data_sets_calls frameworks num_iterations [] e true []
| calls_next (d : D) (ds : list D) (e e' : Env) (ok : bool) (c cs : list call) :
    data_set_calls frameworks num_iterations d e true c ->
    data_sets_calls frameworks num_iterations ds e' ok cs ->
    data_sets_calls frameworks num_iterations (d :: ds) e ok (c ++ cs)
| calls_stop (d : D) (ds : list D) (e : Env) (c : list call) :
    data_set_calls frameworks num_iterations d e false c ->
    data_sets_calls frameworks num_iterations (d :: ds) e false c.

End Benchmarker.

Arguments Prepare {F D} f d.
Arguments Unprepare {F D} f.
Arguments Train {F D} f training_data.
Arguments Rate {F D} f sentence.
Arguments Cleanup {F D} f.
Arguments Destruct {F D} f.

End Benchmarker.

(** ** intent_threshold_optimizer.py *)

(** [a > b] on numbers, as the comparison of their float values. *)
Definition py_gtb (a b : pynum) : bool := PrimFloat.ltb (to_float b) (to_float a).

Module Optimizer.
Section Optimizer.

Variable libm_pow2 : float -> float.

(** The list [ratings] of [__iteration]: the expected intent and the rating
    of every validation sentence. *)
Definition Ratings : Type := list (Intent * Rating.NLUIntentRating).

(** A grid: thresholds with their score; float keys are equal when [==]
    holds. *)
Definition Grid : Type := Dict.t float pynum.

(** [__toConfusionMatrix] *)
Definition toConfusionMatrix (ratings : Ratings) : outcome pyerr ConfusionMatrix :=
  ofold (fun (confusion_matrix : ConfusionMatrix) (ir : Intent * Rating.NLUIntentRating) =>
           let row := match Dict.get intent_eqb confusion_matrix (fst ir) with
                      | Some row => row
                      | None => []
                      end in
           obind (Rating.detected_intent (snd ir)) (fun detected =>
           let count := match Dict.get intent_eqb row detected with
                        | Some n => n
                        | None => 0%Z
                        end in
           Return (Dict.set intent_eqb confusion_matrix (fst ir)
                            (Dict.set intent_eqb row detected (count + 1)%Z))))
        ratings [].

(** [calc_f1_for_threshold]: the ratings are copied, so the ratings of the
    iteration are the same for every threshold. *)
Definition calc_f1_for_threshold (ratings : Ratings) (threshold : float)
  : outcome pyerr pynum :=
  obind (omapM (fun ir : Intent * Rating.NLUIntentRating =>
                  obind (Rating.noneIfBelow threshold (snd ir)) (fun r =>
                  Return (fst ir, r))) ratings) (fun thresholded_ratings =>
  obind (toConfusionMatrix thresholded_ratings) (fun confusion_matrix =>
  obind (Metrics.confusionMatrixToF1Scores confusion_matrix) (fun f1 =>
  let f1_scores := Dict.values f1 in
  py_truediv (py_sum f1_scores) (py_len f1_scores)))).

(** The grid search [while thresh < 1.: ...] of [__iteration], started at
    [thresh] with the grid filled so far.  [None] when the loop is not over
    after [fuel] rounds. *)
Fixpoint grid_search (fuel : nat) (calc : float -> outcome pyerr pynum)
    (grid_step_size thresh : float) (grid : Grid) : option (outcome pyerr Grid) :=
  match fuel with
  | O => None
  | S fuel' =>
      if PrimFloat.ltb thresh 1
      then match calc thresh with
           | Return score =>
               grid_search fuel' calc grid_step_size (thresh + grid_step_size)%float
                           (Dict.set PrimFloat.eqb grid thresh score)
           | Raise e => Some (Raise e)
           end
      else Some (Return grid)
  end.

(** The part of [__iteration] that follows the classification. *)
Definition iteration_grid (fuel : nat) (ratings : Ratings) (grid_step_size : float)
  : option (outcome pyerr Grid) :=
  grid_search fuel (calc_f1_for_threshold ratings) grid_step_size 0%float [].

(** [for thresh, score in grid.items(): grids[thresh] = grids.get(thresh, []);
    grids[thresh].append(score)] *)
Definition collect (grids : Dict.t float (list pynum)) (grid : Grid)
  : Dict.t float (list pynum) :=
  fold_left (fun gs (ts : float * pynum) =>
               let scores := match Dict.get PrimFloat.eqb gs (fst ts) with
                             | Some l => l
                             | None => []
                             end in
               Dict.set PrimFloat.eqb gs (fst ts) (scores ++ [snd ts]))
            grid grids.

(** The mean and the variance of the scores of one threshold. *)
Definition average_scores (scores : list pynum) : outcome pyerr Performance :=
  obind (Aggregation.mean_of scores) (fun m =>
  obind (Aggregation.variance_of libm_pow2 m scores) (fun v =>
  Return (mkPerformance m v))).

(** The loop that fills [grids_avg]. *)
Definition average (grids : Dict.t float (list pynum))
  : outcome pyerr (Dict.t float Performance) :=
  ofold (fun grids_avg (e : float * list pynum) =>
           obind (average_scores (snd e)) (fun p =>
           Return (Dict.set PrimFloat.eqb grids_avg (fst e) p)))
        grids [].

(** [t_max]: its score and its threshold. *)
Definition select (grids_avg : Dict.t float Performance) : pynum * float :=
  fold_left (fun (t_max : pynum * float) (e : float * Performance) =>
               if py_gtb (mean (snd e)) (fst t_max) then (mean (snd e), fst e)
               else t_max)
            grids_avg (PFloat 0, 0%float).

(** [optimize], from the grids of its iterations on. *)
Definition optimize_grids (grids_of_iterations : list Grid) : outcome pyerr float :=
  obind (average (fold_left collect grids_of_iterations [])) (fun grids_avg =>
  Return (snd (select grids_avg))).

(** The grids of the iterations whose ratings are [ratings_of_iterations]. *)
Fixpoint iteration_grids (fuel : nat) (ratings_of_iterations : list Ratings)
    (grid_step_size : float) : option (outcome pyerr (list Grid)) :=
  match ratings_of_iterations with
  | [] => Some (Return [])
  | ratings :: rest =>
      match iteration_grid fuel ratings grid_step_size with
      | None => None
      | Some (Raise e) => Some (Raise e)
      | Some (Return grid) =>
          match iteration_grids fuel rest grid_step_size with
          | None => None
          | Some (Raise e) => Some (Raise e)
          | Some (Return grids) => Some (Return (grid :: grids))
          end
      end
  end.

(** [optimize], from the ratings of its iterations on. *)
Definition optimize_ratings (fuel : nat) (ratings_of_iterations : list Ratings)
    (grid_step_size : float) : option (outcome pyerr float) :=
  match iteration_grids fuel ratings_of_iterations grid_step_size with
  | None => None
  | Some (Raise e) => Some (Raise e)
  | Some (Return grids) => Some (optimize_grids grids)
  end.

(** *** The grid as the specification words it *)

(** The thresholds of the loop that starts at [thresh]. *)
Fixpoint thresholds_from (fuel : nat) (grid_step_size thresh : float) : option (list float) :=
  match fuel with
  | O => None
  | S fuel' =>
      if PrimFloat.ltb thresh 1
      then match thresholds_from fuel' grid_step_size (thresh + grid_step_size)%float with
           | Some ts => Some (thresh :: ts)
           | None => None
           end
      else Some []
  end.

(** [ts] starts at [t], goes on in steps of [grid_step_size] while the
    value is below 1, and ends before the first value that is not. *)
Fixpoint stepped (grid_step_size t : float) (ts : list float) : Prop :=
  match ts with
  | [] => PrimFloat.ltb t 1 = false
  | x :: rest =>
      x = t /\ PrimFloat.ltb t 1 = true
      /\ stepped grid_step_size (t + grid_step_size)%float rest
  end.

(** Each threshold is below the next. *)
Fixpoint ascending (ts : list float) : bool :=
  match ts with
  | [] => true
  | t :: rest =>
      match rest with
      | [] => true
      | t' :: _ => PrimFloat.ltb t t' && ascending rest
      end
  end.

(** The scores of one threshold over the iterations, when [scores] holds,
    for each iteration, the scores of the thresholds in order. *)
Fixpoint transpose (n : nat) (scores : list (list pynum)) : list (list pynum) :=
  match n with
  | O => []
  | S n' => map (hd (PInt 0)) scores :: transpose n' (map (@tl pynum) scores)
  end.

End Optimizer.
End Optimizer.

(** *** The optimizer on a framework *)

(** [IntentThresholdOptimizer] against the world of the life cycle; printing
    and plotting are left out. *)
Module OptimizerRun.
Section OptimizerRun.

Variables (Env F D : Type).
Variable engine : Benchmarker.call F D -> Env -> Env * outcome (Benchmarker.exc F) unit.
Variable rate :
  F -> string -> Env -> Env * outcome (Benchmarker.exc F) Rating.NLUIntentRating.
Variable training_data : D -> Env -> list NLUDataEntry.
Variable validation_data : D -> Env -> list NLUDataEntry.
Variable ds_reshuffle : D -> Env -> Env * outcome (Benchmarker.exc F) unit.
Variable libm_pow2 : float -> float.

(** The [try ... finally] statement of [__iteration]: train, classify every
    validation sentence, and clean up in any case. *)
Definition classify (f : F) (d : D)
  : Async.M (Benchmarker.world Env F D) (Benchmarker.exc F) Optimizer.Ratings :=
  Async.try_finally
    (Async.bind (observe (training_data d)) (fun td =>
     Async.bind (Benchmarker.train engine f td) (fun _ =>
     Async.bind (observe (validation_data d)) (fun vd =>
     Async.fold_M
       (fun (ratings : Optimizer.Ratings) (datum : NLUDataEntry) =>
          Async.bind (Benchmarker.rateIntents rate f (entry_sentence datum)) (fun r =>
          Async.ret (ratings ++ [(entry_intent datum, r)])))
       vd []))))
    (Benchmarker.cleanupTraining engine f).

(** [__iteration]; [None] when the grid search is not over after [fuel]
    rounds. *)
Definition iteration (fuel : nat) (f : F) (d : D) (grid_step_size : float)
  : Async.M (Benchmarker.world Env F D) (Benchmarker.exc F) (option Optimizer.Grid) :=
  Async.bind (classify f d) (fun ratings =>
  Async.bind (Benchmarker.reshuffle ds_reshuffle d) (fun _ =>
  match Optimizer.iteration_grid fuel ratings grid_step_size with
  | None => Async.ret None
  | Some x => Async.bind (Benchmarker.builtin x) (fun grid => Async.ret (Some grid))
  end)).

(** The loop [for i in range(iterations)] of [optimize], which fills
    [grids]. *)
Fixpoint collect_iterations (fuel : nat) (f : F) (d : D) (iterations : nat)
    (grid_step_size : float) (grids : Dict.t float (list pynum))
  : Async.M (Benchmarker.world Env F D) (Benchmarker.exc F)
            (option (Dict.t float (list pynum))) :=
  match iterations with
  | O => Async.ret (Some grids)
  | S iterations' =>
      Async.bind (iteration fuel f d grid_step_size) (fun og =>
      match og with
      | None => Async.ret None
      | Some grid =>
          collect_iterations fuel f d iterations' grid_step_size
                             (Optimizer.collect grids grid)
      end)
  end.

(** [optimize] *)
Definition optimize (fuel : nat) (f : F) (d : D) (iterations : nat) (grid_step_size : float)
  : Async.M (Benchmarker.world Env F D) (Benchmarker.exc F) (option float) :=
  Async.bind (collect_iterations fuel f d iterations grid_step_size []) (fun og =>
  match og with
  | None => Async.ret None
  | Some grids =>
      Async.bind (Benchmarker.builtin (Optimizer.average libm_pow2 grids)) (fun grids_avg =>
      Async.ret (Some (snd (Optimizer.select grids_avg))))
  end).

End OptimizerRun.
End OptimizerRun.

(** Ratings of two iterations with three validation sentences each, and of
    an iteration with a single sentence that every threshold classifies
    correctly. *)
Module OptimizerExamples.

Definition square (x : float) : float := (x * x)%float.

Definition ratings_1 : Optimizer.Ratings :=
  [(Some "greet", Rating.init "hello" [(Some "greet", 0.9%float); (Some "bye", 0.1%float)]);
   (None, Rating.init "bla" [(Some "greet", 0.4%float); (Some "bye", 0.3%float)]);
   (Some "bye", Rating.init "ciao" [(Some "bye", 0.6%float); (Some "greet", 0.2%float)])].

Definition ratings_2 : Optimizer.Ratings :=
  [(Some "greet", Rating.init "hi" [(Some "greet", 0.7%float); (Some "bye", 0.1%float)]);
   (None, Rating.init "blub" [(Some "greet", 0.2%float); (Some "bye", 0.3%float)]);
   (Some "bye", Rating.init "bye" [(Some "bye", 0.8%float); (Some "greet", 0.2%float)])].

Definition ratings_tie : Optimizer.Ratings :=
  [(Some "greet", Rating.init "hello" [(Some "greet", 0.9%float)])].

Definition quarter_grids : list Optimizer.Grid :=
  Eval vm_compute in
    match Optimizer.iteration_grids 10 [ratings_1; ratings_2] 0.25 with
    | Some (Return gs) => gs
    | _ => []
    end.

Definition tie_grids : list Optimizer.Grid :=
  Eval vm_compute in
    match Optimizer.iteration_grids 10 [ratings_tie] 0.25 with
    | Some (Return gs) => gs
    | _ => []
    end.

(** Two iterations that disagree: the first is scored best at the
    threshold 0.75, the second at 0.25. *)
Definition ratings_high : Optimizer.Ratings :=
  [(Some "greet", Rating.init "hello" [(Some "greet", 0.9%float); (Some "bye", 0.1%float)]);
   (None, Rating.init "bla" [(Some "greet", 0.6%float); (Some "bye", 0.3%float)])].

Definition ratings_low : Optimizer.Ratings :=
  [(Some "greet", Rating.init "hi" [(Some "greet", 0.4%float); (Some "bye", 0.1%float)]);
   (Some "bye", Rating.init "bye" [(Some "bye", 0.3%float); (Some "greet", 0.2%float)]);
   (None, Rating.init "blub" [(Some "greet", 0.2%float); (Some "bye", 0.1%float)])].

Definition mixed_grids : list Optimizer.Grid :=
  Eval vm_compute in
    match Optimizer.iteration_grids 10 [ratings_high; ratings_low] 0.25 with
    | Some (Return gs) => gs
    | _ => []
    end.

End OptimizerExamples.

(** ** Python's [sorted] *)

(** [sorted(l, key=key, reverse=True)] for float keys: a stable sort in
    descending order of the key.  Keys are compared with [<] only; entries
    with equal keys keep their relative order. *)
Module Sorted.
Section Sorted.

Variable A : Type.
Variable key : A -> float.

Fixpoint insert_desc (x : A) (l : list A) : list A :=
  match l with
  | [] => [x]
  | y :: l' => if PrimFloat.ltb (key x) (key y) then y :: insert_desc x l' else x :: l
  end.

Definition sorted_desc (l : list A) : list A := fold_right insert_desc [] l.

(** No key is a NaN: every key equals itself. *)
Definition no_nan (l : list A) : bool :=
  forallb (fun x => PrimFloat.eqb (key x) (key x)) l.

(** Each key is at least the next one. *)
Fixpoint descending (l : list A) : bool :=
  match l with
  | [] => true
  | x :: rest =>
      match rest with
      | [] => true
      | y :: _ => PrimFloat.leb (key y) (key x) && descending rest
      end
  end.

End Sorted.
End Sorted.

(** ** Totals of a confusion matrix *)

(** The cells of a confusion matrix: expected intent, detected intent and
    count. *)
Definition matrix_cells (cm : ConfusionMatrix) : list (Intent * Intent * Z) :=
  flat_map (fun row : Intent * Dict.t Intent Z =>
              map (fun cell : Intent * Z => (fst row, fst cell, snd cell)) (snd row)) cm.

(** The sum of the counts of the cells whose expected and detected intent
    [p] selects. *)
Definition cells_total (p : Intent -> Intent -> bool) (cells : list (Intent * Intent * Z))
  : Z :=
  fold_right Z.add 0%Z
    (map (fun c : Intent * Intent * Z =>
            if p (fst (fst c)) (snd (fst c)) then snd c else 0%Z) cells).

Definition matrix_total (p : Intent -> Intent -> bool) (cm : ConfusionMatrix) : Z :=
  cells_total p (matrix_cells cm).

(** [confusion_matrix[expected][detected]], and 0 where the matrix has no
    such entry. *)
Definition matrix_cell (cm : ConfusionMatrix) (expected detected : Intent) : Z :=
  match Dict.get intent_eqb cm expected with
  | Some row => match Dict.get intent_eqb row detected with
                | Some n => n
                | None => 0%Z
                end
  | None => 0%Z
  end.

(** The sentence was expected to be [expected] and rated as [detected]. *)
Definition rated_as (expected detected : Intent) (ir : Intent * Rating.NLUIntentRating)
  : bool :=
  intent_eqb (fst ir) expected
  && match Rating.detected_intent (snd ir) with
     | Return d => intent_eqb d detected
     | Raise _ => false
     end.

(** The rating holds no intent. *)
Definition no_intents (r : Rating.NLUIntentRating) : bool :=
  match Rating.sorted_intents r with
  | [] => true
  | _ :: _ => false
  end.

(** ** nlu_benchmarker.py: the report *)

Module Report.

(** The performance of a framework on a data set:
    [_Performance(mean = sum(means) / len(means),
                  variance = sum(variances) / len(variances))]. *)
Definition merge_intents (intent_performances : Dict.t Intent Performance)
  : outcome pyerr Performance :=
  let means := map mean (Dict.values intent_performances) in
  let variances := map variance (Dict.values intent_performances) in
  obind (py_truediv (py_sum means) (py_len means)) (fun m =>
  obind (py_truediv (py_sum variances) (py_len variances)) (fun v =>
  Return (mkPerformance m v))).

(** [__mergeIntentPerformances] *)
Definition mergeIntentPerformances
    (performances : Dict.t DataSetTitle (Dict.t FrameworkTitle (Dict.t Intent Performance)))
  : outcome pyerr (Dict.t DataSetTitle (Dict.t FrameworkTitle Performance)) :=
  ofold (fun result (e : DataSetTitle * Dict.t FrameworkTitle (Dict.t Intent Performance)) =>
           obind (ofold (fun by_framework (fp : FrameworkTitle * Dict.t Intent Performance) =>
                           obind (merge_intents (snd fp)) (fun p =>
                           Return (Dict.set String.eqb by_framework (fst fp) p)))
                        (snd e) []) (fun by_framework =>
           Return (Dict.set String.eqb result (fst e) by_framework)))
        performances [].

(** The sort key of [__sortPerformances]: [x[1].mean], a float, being the
    quotient of a true division. *)
Definition mean_key (x : FrameworkTitle * Performance) : float := to_float (mean (snd x)).

(** [__sortPerformances] *)
Definition sortPerformances
    (performances : Dict.t DataSetTitle (Dict.t FrameworkTitle Performance))
  : Dict.t DataSetTitle (list (FrameworkTitle * Performance)) :=
  fold_left (fun result (e : DataSetTitle * Dict.t FrameworkTitle Performance) =>
               Dict.set String.eqb result (fst e) (Sorted.sorted_desc mean_key (snd e)))
            performances [].

(** [max(xs)] of a sequence without elements. *)
Definition max_of_nothing : pyerr := ValueError "max() arg is an empty sequence".

(** [__printWinner]: what it logs for each data set, namely the title, the
    title of the best framework, and that framework's mean and variance.
    The layout of the lines is left out. *)
Definition printWinner
    (performances : Dict.t DataSetTitle (list (FrameworkTitle * Performance)))
    (data_sets : list DataSetView)
  : outcome pyerr (list (DataSetTitle * FrameworkTitle * Performance)) :=
  match data_sets with
  | [] => Raise max_of_nothing
  | _ :: _ =>
      omapM (fun e : DataSetTitle * list (FrameworkTitle * Performance) =>
               match snd e with
               | [] => Raise IndexError
               | best :: _ => Return (fst e, fst best, snd best)
               end) performances
  end.

Section Report.

Variable libm_pow2 : float -> float.

(** The body of the loop of [__plot]: the chart of one data set, drawn with
    matplotlib from the performances of the frameworks on it. *)
Variable chart : Dict.t FrameworkTitle (Dict.t Intent Performance) -> outcome pyerr unit.

(** [__plot]: one chart per data set. *)
Definition plot (performances : Aggregation.Performances) : outcome pyerr unit :=
  ofold (fun (_ : unit) framework_performances => chart framework_performances)
        (Dict.values performances) tt.

(** The statements of [run] that follow its [try ... finally] statement:
    from the confusion matrices of the iterations to the lines of
    [__printWinner]. *)
Definition report (frameworks : list FrameworkTitle) (data_sets : list DataSetView)
    (iterations : list (Dict.t DataSetTitle (Dict.t FrameworkTitle ConfusionMatrix)))
  : outcome pyerr (list (DataSetTitle * FrameworkTitle * Performance)) :=
  obind (Metrics.confusionMatricesToF1Scores iterations) (fun iterations_ =>
  obind (Aggregation.f1ScoreMeansAndVariances libm_pow2 frameworks data_sets iterations_)
        (fun performances =>
  obind (plot performances) (fun _ =>
  obind (mergeIntentPerformances performances) (fun performances_ =>
  printWinner (sortPerformances performances_) data_sets)))).

End Report.

(** What [__f1ScoreMeansAndVariances] holds for a data set when no intent
    has a score: every framework, without a performance. *)
Definition no_scores (frameworks : list FrameworkTitle)
  : Dict.t FrameworkTitle (Dict.t Intent Performance) :=
  fold_left (fun d framework_title => Dict.set String.eqb d framework_title [])
            frameworks [].

End Report.

(** ** Matrices of counts *)

(** Zero, the finite numbers and infinity with a clear sign bit. *)
Definition plus_sign (x : spec_float) : bool :=
  match x with
  | S754_zero false | S754_finite false _ _ | S754_infinity false => true
  | _ => false
  end.

(** No count of the matrix is negative. *)
Definition no_negative_count (cm : ConfusionMatrix) : bool :=
  forallb (fun row : Intent * Dict.t Intent Z =>
             forallb (fun cell : Intent * Z => (0 <=? snd cell)%Z) (snd row)) cm.

(** The precisions and recalls: the integer 0 of [__safeDivide], or a
    float that is not negative. *)
Definition ratio (p : pynum) : Prop :=
  p = PInt 0 \/ exists x, p = PFloat x /\ signed (Prim2SF x) = false.

(** ** nlu_data_entry.py and nlu_data_set.py: the data and its cache *)

Module Stored.

(** The values that [json.load] returns and [json.dump] accepts. *)
Inductive json : Type :=
| JNull
| JBool (b : bool)
| JInt (z : Z)
| JFloat (f : float)
| JStr (s : string)
| JList (items : list json)
| JObj (members : Dict.t string json).

(** The exceptions of loading data. *)
Inductive exception : Type :=
| KeyError (key : string)
| TypeError
| AttributeError
| ValueError (msg : string)
| OSError
| OtherError (code : nat).

(** [value[key]] for a string [key]: only a [dict] can be subscripted with
    a string. *)
Definition subscript (value : json) (key : string) : outcome exception json :=
  match value with
  | JObj members =>
      match Dict.get String.eqb members key with
      | Some v => Return v
      | None => Raise (KeyError key)
      end
  | _ => Raise TypeError
  end.

(** The characters of a string, each a string. *)
Fixpoint characters (s : string) : list json :=
  match s with
  | EmptyString => []
  | String c s' => JStr (String c EmptyString) :: characters s'
  end.

(** [for x in value]: the elements of a list, the keys of a [dict], the
    characters of a string. *)
Definition iterate (value : json) : outcome exception (list json) :=
  match value with
  | JList items => Return items
  | JObj members => Return (map (@JStr) (Dict.keys members))
  | JStr s => Return (characters s)
  | _ => Raise TypeError
  end.

(** [x is None] *)
Definition is_None (value : json) : bool :=
  match value with
  | JNull => true
  | _ => false
  end.

(** An [NLUDataEntry] with the values it was constructed from, which are
    not checked. *)
Record Entry : Type := mkRaw {
  sentence : json;
  intent : json
}.

(** The entry with a sentence and an intent. *)
Definition raw (x : NLUDataEntry) : Entry :=
  mkRaw (JStr (entry_sentence x))
        (match entry_intent x with
         | Some i => JStr i
         | None => JNull
         end).

(** [NLUDataEntry.serialize] *)
Definition serialize (x : Entry) : json :=
  JObj [("sentence", sentence x); ("intent", intent x)].

(** [NLUDataEntry.fromSerialized] *)
Definition fromSerialized (serialized : json) : outcome exception Entry :=
  obind (subscript serialized "sentence") (fun s =>
  obind (subscript serialized "intent") (fun i =>
  Return (mkRaw s i))).

(** The value of [self.__language]: [None] or a tag. *)
Definition language_value (language : option string) : json :=
  match language with
  | Some tag => JStr tag
  | None => JNull
  end.

(** [self.__language is None or self.__language == language], where
    [self.__language] is [None] or a string. *)
Definition language_fits (language : option string) (cached : json) : bool :=
  match language with
  | None => true
  | Some tag => match cached with
                | JStr tag' => String.eqb tag tag'
                | _ => false
                end
  end.

(** [__loadCachedData], given what reading and parsing the cache file
    gives: the value of [self.__language] after the call and, when the call
    returns [True], the lists assigned to [self.__data] and
    [self.__none_data].  Every exception is caught; the warning is left
    out. *)
Definition loadCachedData (language : option string) (cache_file : outcome exception json)
  : json * option (list Entry * list Entry) :=
  match cache_file with
  | Raise _ => (language_value language, None)
  | Return data =>
      match subscript data "language" with
      | Raise _ => (language_value language, None)
      | Return cached =>
          if language_fits language cached
          then match obind (subscript data "entries") (fun entries =>
                     obind (iterate entries) (omapM fromSerialized)) with
               | Return entries =>
                   (cached, Some (filter (fun x => negb (is_None (intent x))) entries,
                                  filter (fun x => is_None (intent x)) entries))
               | Raise _ => (cached, None)
               end
          else (language_value language, None)
      end
  end.

(** The value that [__cacheData] dumps to the cache file. *)
Definition cacheData (language : json) (data none_data : list Entry) : json :=
  JObj [("language", language);
        ("entries", JList (map serialize (data ++ none_data)))].

Section Init.

(** [Language.get(language).maximize().to_tag()] *)
Variable tag : json -> outcome exception string.

(** [os.path.exists(data_path)], and what reading and parsing the cache
    file and dumping to it give. *)
Variable path_exists : bool.
Variable cache_file : outcome exception json.
Variable write_cache : json -> outcome exception unit.

(** [_setLanguage]: the tag that becomes the value of [self.__language]. *)
Definition setLanguage (current : json) (language : json) : outcome exception string :=
  if is_None current
  then tag language
  else Raise (ValueError "The language for this data set was already set.").

(** [_loadData] of the subclass, which may set the language: from the
    value of [self.__language] to its new value and the entries. *)
Variable loadData : json -> outcome exception (json * list Entry).

(** The attributes after the data was loaded, and what was written to the
    cache file, if it was written. *)
Record Loaded : Type := mkLoaded {
  language : json;
  data : list Entry;
  none_data : list Entry;
  written : option json
}.

Definition no_path : exception :=
  ValueError "The data path does not point to an existing file or directory.".

(** [__init__] up to the computation of the validation size. *)
Definition load (language : option string) (ignore_cache : bool) : outcome exception Loaded :=
  obind (match language with
         | Some l => obind (setLanguage JNull (JStr l)) (fun t => Return (Some t))
         | None => Return None
         end) (fun language1 =>
  if negb path_exists then Raise no_path
  else
    let (language2, cached) :=
      if ignore_cache then (language_value language1, None)
      else loadCachedData language1 cache_file in
    match cached with
    | Some (data, none_data) => Return (mkLoaded language2 data none_data None)
    | None =>
        obind (loadData language2) (fun loaded =>
        let data := filter (fun x => negb (is_None (intent x))) (snd loaded) in
        let none_data := filter (fun x => is_None (intent x)) (snd loaded) in
        let dumped := cacheData (fst loaded) data none_data in
        obind (write_cache dumped) (fun _ =>
        Return (mkLoaded (fst loaded) data none_data (Some dumped))))
    end).

End Init.

(** *** implementations/simple_json_data_set.py *)

Section SimpleJSON.

Variable tag : json -> outcome exception string.

(** What reading and parsing the data file gives. *)
Variable data_file : outcome exception json.

(** [entry["intent"] == "None"] *)
Definition is_None_word (value : json) : bool :=
  match value with
  | JStr s => String.eqb s "None"
  | _ => false
  end.

(** [SimpleJSONDataSet._loadData] *)
Definition simple_loadData (current : json) : outcome exception (json * list Entry) :=
  obind data_file (fun data =>
  obind (subscript data "lang") (fun lang =>
  obind (setLanguage tag current lang) (fun language =>
  obind (subscript data "sentences") (fun sentences =>
  obind (iterate sentences) (fun entries =>
  obind (omapM (fun entry =>
                  obind (subscript entry "text") (fun text =>
                  obind (subscript entry "intent") (fun i =>
                  Return (mkRaw text (if is_None_word i then JNull else i)))))
               entries) (fun loaded =>
  Return (JStr language, loaded))))))).

End SimpleJSON.

End Stored.

(** ** nlu_benchmarker.py: the configuration *)

Module Config.
Import Stored.

(** The character [.] *)
Definition dot : Ascii.ascii := Eval compute in Ascii.ascii_of_nat 46.

(** ["." in s] *)
Fixpoint has_dot (s : string) : bool :=
  match s with
  | EmptyString => false
  | String c s' => Ascii.eqb c dot || has_dot s'
  end.

(** [s.rsplit(".", 1)]: [s] split at its last dot, or [s] alone. *)
Fixpoint rsplit_dot (s : string) : list string :=
  match s with
  | EmptyString => [EmptyString]
  | String c s' =>
      match rsplit_dot s' with
      | [a; b] => [String c a; b]
      | _ => if Ascii.eqb c dot then [EmptyString; s'] else [s]
      end
  end.

Definition too_few : exception :=
  ValueError "not enough values to unpack (expected 2, got 1)".

(** [module, class_name = s.rsplit(".", 1)] *)
Definition module_and_class (s : string) : outcome exception (string * string) :=
  match rsplit_dot s with
  | [module; class_name] => Return (module, class_name)
  | _ => Raise too_few
  end.

(** The convenience of [runFromConfigFile]: a class name without a dot
    names an implementation of this library; [kind] is ["DataSet"] or
    ["NLUFramework"]. *)
Definition qualified (kind class : string) : string :=
  if has_dot class then class
  else ("nlutestframework.implementations." ++ class ++ kind)%string.

(** [del d[key]], the key being there. *)
Definition del (d : Dict.t string json) (key : string) : Dict.t string json :=
  filter (fun e => negb (String.eqb (fst e) key)) d.

Section Load.

(** The classes and the data sets. *)
Variables (C I : Type).

(** [getattr(importlib.import_module(module), class_name)] *)
Variable resolve : string -> string -> outcome exception C.

(** [cls(title, **config)] *)
Variable construct : C -> DataSetTitle -> Dict.t string json -> outcome exception I.

(** The body of the loop of [loadDataSets]: the configuration of the data
    set after it, which is the object of the caller, and the instance. *)
Definition load_one (global_ignore_cache : bool) (title : DataSetTitle) (config : json)
  : json * outcome exception I :=
  match config with
  | JObj members =>
      match Dict.get String.eqb members "class" with
      | None => (config, Raise (KeyError "class"))
      | Some (JStr class) =>
          match module_and_class class with
          | Raise e => (config, Raise e)
          | Return (module, class_name) =>
              let members1 := del members "class" in
              match resolve module class_name with
              | Raise e => (JObj members1, Raise e)
              | Return cls =>
                  let members2 :=
                    if global_ignore_cache
                    then Dict.set String.eqb members1 "ignore_cache" (JBool true)
                    else members1 in
                  (JObj members2, construct cls title members2)
              end
          end
      | Some _ => (config, Raise AttributeError)
      end
  | _ => (config, Raise TypeError)
  end.

(** [loadDataSets]: the configurations after the call, and the instances.
    Each configuration is an object of its own. *)
Fixpoint loadDataSets (configs : Dict.t DataSetTitle json) (global_ignore_cache : bool)
  : Dict.t DataSetTitle json * outcome exception (list I) :=
  match configs with
  | [] => ([], Return [])
  | (title, config) :: rest =>
      match load_one global_ignore_cache title config with
      | (config', Raise e) => ((title, config') :: rest, Raise e)
      | (config', Return instance) =>
          match loadDataSets rest global_ignore_cache with
          | (rest', Return instances) => ((title, config') :: rest', Return (instance :: instances))
          | (rest', Raise e) => ((title, config') :: rest', Raise e)
          end
      end
  end.

End Load.

End Config.

(** ** nlu_benchmarker.py: the result of a run *)

(** The keys of [d] are the titles [titles]. *)
Definition keyed_by {V} (titles : list string) (d : Dict.t string V) : Prop :=
  forall t, In t (Dict.keys d) <-> In t titles.

(** An entry of [iterations] that holds a value for each of the data sets
    [data_set_titles] and each of the frameworks [framework_titles]. *)
Definition complete_iteration {V} (framework_titles data_set_titles : list string)
    (iteration : Dict.t DataSetTitle (Dict.t FrameworkTitle V)) : Prop :=
  keyed_by data_set_titles iteration
  /\ Forall (fun e => keyed_by framework_titles (snd e)) iteration.

(** No matrix of the entry has a negative count. *)
Definition counted (iteration : Dict.t DataSetTitle (Dict.t FrameworkTitle ConfusionMatrix))
  : bool :=
  forallb (fun e : DataSetTitle * Dict.t FrameworkTitle ConfusionMatrix =>
             forallb (fun fp : FrameworkTitle * ConfusionMatrix =>
                        no_negative_count (snd fp)) (snd e)) iteration.

(** ** nlu_benchmarker.py: a run from a configuration *)

Module FromConfig.
Section FromConfig.

(** [Cfg] is the type of the items of [framework_configs]: a title with a
    configuration. *)
Variables (Env F D Cfg : Type).

Variable engine : Benchmarker.call F D -> Env -> Env * outcome (Benchmarker.exc F) unit.
Variable rate :
  F -> string -> Env -> Env * outcome (Benchmarker.exc F) Rating.NLUIntentRating.
Variable fw_title : F -> FrameworkTitle.
Variable ds_title : D -> DataSetTitle.
Variable training_data : D -> Env -> list NLUDataEntry.
Variable validation_data : D -> Env -> list NLUDataEntry.
Variable ds_reshuffle : D -> Env -> Env * outcome (Benchmarker.exc F) unit.
Variable cancel_flag : Env -> bool.

(** What [create_framework] does: the class is looked up and its [create]
    awaited, which instantiates the class and awaits [construct].  None of
    the calls of [Benchmarker.call] is made. *)
Variable create : Cfg -> Env -> Env * outcome (Benchmarker.exc F) F.

(** What precedes [createFrameworks] in [runFromConfig]: the global
    configuration and [loadDataSets], which give the number of iterations
    and the data sets. *)
Variable configure : Env -> Env * outcome (Benchmarker.exc F) (nat * list D).

(** The [ParallelException] of [createFrameworks] as an exception. *)
Variable creation_failed :
  ParallelException Cfg F (Benchmarker.exc F) -> Benchmarker.exc F.

(** A computation that makes none of the calls of [Benchmarker.call]. *)
Definition quietly {A} (body : Env -> Env * outcome (Benchmarker.exc F) A)
  : Async.M (Benchmarker.world Env F D) (Benchmarker.exc F) A :=
  fun w => let (e', r) := body (env w) in (mkTraced e' (trace w) (event_loop w), r).

(** [createFrameworks] *)
Definition createFrameworks (framework_configs : list Cfg)
  : Async.M (Benchmarker.world Env F D) (Benchmarker.exc F) (list F) :=
  Parallel.run_in_parallel creation_failed framework_configs
    (fun x => quietly (create x))
    (Some (fun (_ : Cfg) (x : F) => Benchmarker.destruct engine x))
    "Failed to create framework instances.".

(** [runFromConfig], up to the end of the [try] statement of [run]. *)
Definition runFromConfig (framework_configs : list Cfg)
  : Async.M (Benchmarker.world Env F D) (Benchmarker.exc F) Benchmarker.Iterations :=
  Async.bind (quietly configure) (fun configured =>
  Async.bind (createFrameworks framework_configs) (fun frameworks =>
  Benchmarker.run engine rate fw_title ds_title training_data validation_data
                  ds_reshuffle cancel_flag frameworks (snd configured) (fst configured))).

End FromConfig.
End FromConfig.

(** * Properties *)

Lemma intent_eqb_eq (a b : Intent) : intent_eqb a b = true <-> a = b.
Proof.
  destruct a as [x|], b as [y|]; simpl; try (split; congruence).
  rewrite String.eqb_eq. split; congruence.
Qed.

Lemma intent_eqb_refl (a : Intent) : intent_eqb a a = true.
Proof. now apply intent_eqb_eq. Qed.

Lemma intent_eqb_neq (a b : Intent) : intent_eqb a b = false <-> a <> b.
Proof.
  rewrite <- intent_eqb_eq. destruct (intent_eqb a b); split; congruence.
Qed.

(** ** Facts on the comparison of binary64 numbers *)

Module FloatOrder.

Lemma SFcompare_Lt_Gt (x y : spec_float) :
  SFcompare x y = Some Lt -> SFcompare y x = Some Gt.
Proof.
  destruct x as [sx|sx| |sx mx ex], y as [sy|sy| |sy my ey]; simpl;
    try discriminate; try (destruct sx; try destruct sy; simpl; congruence).
  destruct sx, sy; simpl; try congruence;
    rewrite (Z.compare_antisym ex ey);
    destruct (ex ?= ey)%Z; simpl; try congruence;
    replace (Pos.compare_cont Eq my mx) with (CompOpp (Pos.compare_cont Eq mx my))
      by (apply (Pos.compare_cont_antisym mx my Eq));
    destruct (Pos.compare_cont Eq mx my); simpl; congruence.
Qed.

(** [t < c] excludes [c <= t]; this also holds when one side is a NaN,
    because then [t < c] is already false. *)
Lemma ltb_not_leb (t c : float) :
  PrimFloat.ltb t c = true -> PrimFloat.leb c t = false.
Proof.
  rewrite ltb_spec, leb_spec. unfold SFltb, SFleb.
  destruct (SFcompare (Prim2SF t) (Prim2SF c)) as [[]|] eqn:E; try discriminate.
  intros _. now rewrite (SFcompare_Lt_Gt _ _ E).
Qed.

Lemma eqb_leb (c t : float) :
  PrimFloat.eqb c t = true -> PrimFloat.leb c t = true.
Proof.
  rewrite eqb_spec, leb_spec. unfold SFeqb, SFleb.
  now destruct (SFcompare (Prim2SF c) (Prim2SF t)) as [[]|].
Qed.

Lemma SFcompare_key (x y : spec_float) :
  SFcompare x y = match sf_key x, sf_key y with
                  | Some a, Some b => Some (lexcmp a b)
                  | _, _ => None
                  end.
Proof.
  destruct x as [[]|[]| |[] mx ex], y as [[]|[]| |[] my ey]; simpl; try reflexivity;
    unfold lexcmp; simpl.
  rewrite Z.compare_opp. rewrite (Z.compare_antisym ex ey).
  destruct (ex ?= ey)%Z; simpl; reflexivity.
Qed.

Lemma lexcmp_Lt_trans (a b c : Z * Z * Z) :
  lexcmp a b = Lt -> lexcmp b c <> Gt -> lexcmp a c = Lt.
Proof.
  destruct a as [[a1 a2] a3], b as [[b1 b2] b3], c as [[c1 c2] c3].
  unfold lexcmp. simpl.
  destruct (Z.compare_spec a1 b1), (Z.compare_spec b1 c1), (Z.compare_spec a1 c1);
    try lia; try congruence;
  destruct (Z.compare_spec a2 b2), (Z.compare_spec b2 c2), (Z.compare_spec a2 c2);
    try lia; try congruence;
  destruct (Z.compare_spec a3 b3), (Z.compare_spec b3 c3), (Z.compare_spec a3 c3);
    try lia; try congruence.
Qed.

Lemma lexcmp_refl (a : Z * Z * Z) : lexcmp a a = Eq.
Proof. unfold lexcmp. now rewrite !Z.compare_refl. Qed.

Lemma ltb_leb (a b : float) : PrimFloat.ltb a b = true -> PrimFloat.leb a b = true.
Proof.
  rewrite ltb_spec, leb_spec. unfold SFltb, SFleb.
  now destruct (SFcompare (Prim2SF a) (Prim2SF b)) as [[]|].
Qed.

Lemma ltb_leb_trans (a b c : float) :
  PrimFloat.ltb a b = true -> PrimFloat.leb b c = true -> PrimFloat.ltb a c = true.
Proof.
  rewrite !ltb_spec, leb_spec. unfold SFltb, SFleb. rewrite !SFcompare_key.
  destruct (sf_key (Prim2SF a)) as [ka|], (sf_key (Prim2SF b)) as [kb|],
    (sf_key (Prim2SF c)) as [kc|]; try discriminate.
  intros H1 H2.
  rewrite (@lexcmp_Lt_trans ka kb kc); [reflexivity| |].
  - now destruct (lexcmp ka kb).
  - now destruct (lexcmp kb kc).
Qed.

Lemma ltb_trans (a b c : float) :
  PrimFloat.ltb a b = true -> PrimFloat.ltb b c = true -> PrimFloat.ltb a c = true.
Proof. intros H1 H2. apply (ltb_leb_trans H1). now apply ltb_leb. Qed.

(** Numbers in the relation [<] are different, and equal to themselves. *)
Lemma ltb_eqb (a b : float) :
  PrimFloat.ltb a b = true ->
  PrimFloat.eqb a b = false /\ PrimFloat.eqb b a = false
  /\ PrimFloat.eqb a a = true /\ PrimFloat.eqb b b = true.
Proof.
  rewrite ltb_spec, !eqb_spec. unfold SFltb, SFeqb.
  destruct (SFcompare (Prim2SF a) (Prim2SF b)) as [[]|] eqn:E; try discriminate.
  intros _. rewrite (SFcompare_Lt_Gt _ _ E).
  rewrite SFcompare_key in E. rewrite !SFcompare_key.
  destruct (sf_key (Prim2SF a)) as [ka|], (sf_key (Prim2SF b)) as [kb|];
    try discriminate.
  now rewrite !lexcmp_refl.
Qed.

Lemma lexcmp_Eq_sym (a b : Z * Z * Z) : lexcmp a b = Eq -> lexcmp b a = Eq.
Proof.
  destruct a as [[a1 a2] a3], b as [[b1 b2] b3]. unfold lexcmp. simpl.
  destruct (Z.compare_spec a1 b1); try discriminate. subst.
  destruct (Z.compare_spec a2 b2); try discriminate. subst.
  intros H. apply Z.compare_eq in H. subst. now rewrite !Z.compare_refl.
Qed.

Lemma eqb_leb_sym (a b : float) :
  PrimFloat.eqb a b = true -> PrimFloat.leb b a = true.
Proof.
  rewrite eqb_spec, leb_spec. unfold SFeqb, SFleb. rewrite !SFcompare_key.
  destruct (sf_key (Prim2SF a)) as [ka|], (sf_key (Prim2SF b)) as [kb|];
    try discriminate.
  destruct (lexcmp ka kb) eqn:E; try discriminate.
  now rewrite (lexcmp_Eq_sym _ _ E).
Qed.

End FloatOrder.

(** ** Facts on the rounding of binary64 sums *)

(** The sum of two finite numbers is their exact sum, rounded to the
    nearest number of the format, ties to even; all that is needed of it
    here is that the sum of two numbers of one sign keeps the sign and
    that adding a positive number does not lead below the first summand. *)
Module Rounding.
Local Open Scope Z_scope.

Section Rounding.

Variables prec emax : Z.
Hypothesis prec_pos : 0 < prec.

Lemma digits2_pos_size (p : positive) : digits2_pos p = Pos.size p.
Proof. induction p; simpl; congruence. Qed.

Lemma digits2_bounds (p : positive) :
  2 ^ (Z.pos (digits2_pos p) - 1) <= Z.pos p < 2 ^ Z.pos (digits2_pos p).
Proof.
  rewrite digits2_pos_size. split.
  - pose proof (Pos.size_le p) as H.
    assert (H' : 2 ^ Z.pos (Pos.size p) <= 2 * Z.pos p).
    { change 2 with (Z.pos 2) at 1. rewrite <- Pos2Z.inj_pow. 
      change (2 * Z.pos p) with (Z.pos p~0). now apply Pos2Z.pos_le_pos. }
    replace (Z.pos (Pos.size p)) with (Z.succ (Z.pos (Pos.size p) - 1)) in H' by lia.
    rewrite Z.pow_succ_r in H' by lia. lia.
  - pose proof (Pos.size_gt p) as H.
    change 2 with (Z.pos 2). rewrite <- Pos2Z.inj_pow. now apply Pos2Z.pos_lt_pos.
Qed.

Lemma shr_1_div (r : shr_record) :
  0 <= shr_m r -> shr_m (shr_1 r) = shr_m r / 2.
Proof.
  destruct r as [m r s]. simpl. intros H.
  destruct m as [|[p|p|]|p]; cbn [shr_m]; try reflexivity; try lia.
  - apply Z.div_unique with (r := 1); lia.
  - apply Z.div_unique with (r := 0); lia.
Qed.

Lemma iter_shr_1_div (p : positive) :
  forall r : shr_record,
    0 <= shr_m r -> shr_m (iter_pos shr_1 p r) = shr_m r / 2 ^ Z.pos p.
Proof.
  induction p as [p IH|p IH|]; intros r H; cbn [iter_pos].
  - assert (H1 : 0 <= shr_m (shr_1 r)) by (rewrite shr_1_div by assumption; apply Z.div_pos; lia).
    assert (H2 : 0 <= shr_m (iter_pos shr_1 p (shr_1 r)))
      by (rewrite IH by assumption; apply Z.div_pos; [assumption|apply Z.pow_pos_nonneg; lia]).
    rewrite IH by assumption. rewrite IH by assumption. rewrite shr_1_div by assumption.
    rewrite !Z.div_div by (try apply Z.pow_pos_nonneg; lia).
    f_equal. replace (Z.pos p~1) with (1 + Z.pos p + Z.pos p) by lia.
    rewrite !Z.pow_add_r by lia. change (2 ^ 1) with 2. ring.
  - assert (H2 : 0 <= shr_m (iter_pos shr_1 p r))
      by (rewrite IH by assumption; apply Z.div_pos; [assumption|apply Z.pow_pos_nonneg; lia]).
    rewrite IH by assumption. rewrite IH by assumption.
    rewrite !Z.div_div by (try apply Z.pow_pos_nonneg; lia).
    f_equal. replace (Z.pos p~0) with (Z.pos p + Z.pos p) by lia.
    rewrite !Z.pow_add_r by lia. ring.
  - rewrite shr_1_div by assumption. reflexivity.
Qed.


Lemma shr_m_of_loc (m : Z) (l : location) : shr_m (shr_record_of_loc m l) = m.
Proof. now destruct l as [|[]]. Qed.

Lemma round_nearest_even_ge (m : Z) (l : location) : m <= round_nearest_even m l.
Proof. destruct l as [|[]]; simpl; try destruct (Z.even m); lia. Qed.

Lemma fexp_ge_emin (e : Z) : SpecFloat.emin prec emax <= fexp prec emax e.
Proof. unfold fexp. lia. Qed.

Lemma fexp_mono (e e' : Z) : e <= e' -> fexp prec emax e <= fexp prec emax e'.
Proof. unfold fexp. lia. Qed.

(** The mantissa is shifted to the exponent [fexp] asks for, when that is
    above the given one. *)
Lemma shr_fexp_spec (pm : positive) (e : Z) (l : location) :
  snd (shr_fexp prec emax (Z.pos pm) e l)
  = Z.max e (fexp prec emax (Z.pos (digits2_pos pm) + e))
  /\ shr_m (fst (shr_fexp prec emax (Z.pos pm) e l))
     = Z.pos pm / 2 ^ (Z.max e (fexp prec emax (Z.pos (digits2_pos pm) + e)) - e).
Proof.
  unfold shr_fexp, shr. cbn [Zdigits2].
  set (f := fexp prec emax (Z.pos (digits2_pos pm) + e)).
  destruct (f - e) as [|p|p] eqn:E; cbn [fst snd].
  - replace (Z.max e f) with e by lia.
    rewrite Z.sub_diag, shr_m_of_loc. split; [reflexivity|]. now rewrite Z.div_1_r.
  - replace (Z.max e f) with (e + Z.pos p) by lia. split; [reflexivity|].
    rewrite iter_shr_1_div by (rewrite shr_m_of_loc; lia).
    rewrite shr_m_of_loc. f_equal. f_equal. lia.
  - replace (Z.max e f) with e by lia.
    rewrite Z.sub_diag, shr_m_of_loc. split; [reflexivity|]. now rewrite Z.div_1_r.
Qed.

Lemma shr_fexp_pos (pm : positive) (e : Z) (l : location) :
  SpecFloat.emin prec emax <= e -> 1 <= shr_m (fst (shr_fexp prec emax (Z.pos pm) e l)).
Proof.
  intros He. rewrite (proj2 (shr_fexp_spec pm e l)).
  pose proof (digits2_bounds pm) as [B _].
  set (d := Z.pos (digits2_pos pm)) in *.
  assert (K : 0 <= Z.max e (fexp prec emax (d + e)) - e <= d - 1)
    by (unfold fexp; subst d; lia).
  set (k := Z.max e (fexp prec emax (d + e)) - e) in *.
  assert (P : 2 ^ k <= 2 ^ (d - 1)) by (apply Z.pow_le_mono_r; lia).
  apply Z.div_le_lower_bound; [apply Z.pow_pos_nonneg; lia|lia].
Qed.

(** Rounding a positive mantissa gives a number of the same sign, finite or
    infinite, at the exponent [fexp] asks for or above, and not below the
    mantissa rounded down. *)
Lemma binary_round_aux_pos (sx : bool) (pm : positive) (e : Z) :
  SpecFloat.emin prec emax <= e ->
  exists (m3 : positive) (e3 : Z),
    binary_round_aux prec emax sx (Z.pos pm) e loc_Exact
    = (if e3 <=? emax - prec then S754_finite sx m3 e3 else S754_infinity sx)
    /\ Z.max e (fexp prec emax (Z.pos (digits2_pos pm) + e)) <= e3
    /\ (e3 = Z.max e (fexp prec emax (Z.pos (digits2_pos pm) + e)) ->
        Z.pos pm / 2 ^ (e3 - e) <= Z.pos m3).
Proof.
  intros He. unfold binary_round_aux.
  pose proof (shr_fexp_spec pm e loc_Exact) as [S1 S2].
  pose proof (shr_fexp_pos pm loc_Exact He) as P1.
  destruct (shr_fexp prec emax (Z.pos pm) e loc_Exact) as [mrs' e'].
  cbn [fst snd] in S1, S2, P1.
  pose proof (round_nearest_even_ge (shr_m mrs') (loc_of_shr_record mrs')) as R.
  destruct (round_nearest_even (shr_m mrs') (loc_of_shr_record mrs')) as [|p2|p2];
    try lia.
  assert (He' : SpecFloat.emin prec emax <= e') by lia.
  pose proof (shr_fexp_spec p2 e' loc_Exact) as [T1 T2].
  pose proof (shr_fexp_pos p2 loc_Exact He') as P2.
  destruct (shr_fexp prec emax (Z.pos p2) e' loc_Exact) as [mrs'' e''].
  cbn [fst snd] in T1, T2, P2.
  destruct (shr_m mrs'') as [|m3|m3] eqn:M3; try lia.
  exists m3, e''. split; [reflexivity|]. split; [lia|].
  intros E. replace (Z.max e' (fexp prec emax (Z.pos (digits2_pos p2) + e')) - e')
    with 0 in T2 by lia.
  rewrite Z.div_1_r in T2. rewrite E, <- S2. lia.
Qed.

Lemma binary_round_signed (sx : bool) (pm : positive) (e : Z) :
  SpecFloat.emin prec emax <= e ->
  (exists m3 e3, binary_round prec emax sx pm e = S754_finite sx m3 e3)
  \/ binary_round prec emax sx pm e = S754_infinity sx.
Proof.
  intros He. unfold binary_round, shl_align.
  set (f := fexp prec emax (Z.pos (digits2_pos pm) + e)).
  assert (Hf : SpecFloat.emin prec emax <= f) by apply fexp_ge_emin.
  destruct (f - e) as [|p|p];
    match goal with
    | |- context [binary_round_aux prec emax sx (Z.pos ?m) ?x loc_Exact] =>
        destruct (@binary_round_aux_pos sx m x ltac:(assumption)) as (m3 & e3 & R & _)
    end; rewrite R; destruct (e3 <=? emax - prec); eauto.
Qed.

Lemma binary_round_no_shift (sx : bool) (pm : positive) (e : Z) :
  e <= fexp prec emax (Z.pos (digits2_pos pm) + e) ->
  binary_round prec emax sx pm e = binary_round_aux prec emax sx (Z.pos pm) e loc_Exact.
Proof.
  intros H. unfold binary_round, shl_align.
  destruct (fexp prec emax (Z.pos (digits2_pos pm) + e) - e) eqn:E; try reflexivity. lia.
Qed.

Lemma iter_xO (m d : positive) : Z.pos (Pos.iter xO m d) = Z.pos m * 2 ^ Z.pos d.
Proof.
  apply (@Pos.iter_ind positive xO m (fun p a => Z.pos a = Z.pos m * 2 ^ Z.pos p)).
  - change (2 ^ 1) with 2. lia.
  - intros p a IH. rewrite Pos2Z.inj_succ, Z.pow_succ_r by lia. lia.
Qed.

Lemma shl_align_fst (mx : positive) (ex ez : Z) :
  ez <= ex -> Z.pos (fst (shl_align mx ex ez)) = Z.pos mx * 2 ^ (ex - ez).
Proof.
  intros H. unfold shl_align. destruct (ez - ex) as [|p|p] eqn:E; cbn [fst].
  - replace (ex - ez) with 0 by lia. lia.
  - lia.
  - rewrite iter_xO. f_equal. f_equal. lia.
Qed.

Lemma bounded_canonical (m : positive) (e : Z) :
  bounded prec emax m e = true -> fexp prec emax (Z.pos (digits2_pos m) + e) = e.
Proof.
  unfold bounded, canonical_mantissa. intros H.
  apply andb_true_iff in H. now apply Z.eqb_eq.
Qed.

(** The sum of two positive numbers is positive, finite or infinite, and
    not below the first one, nor below the first one moved [c] units in
    the last place when the second one amounts to these. *)
Lemma SFadd_pos_by (c : Z) (mx my : positive) (ex ey : Z) :
  bounded prec emax mx ex = true -> bounded prec emax my ey = true ->
  0 <= c ->
  c * 2 ^ (ex - Z.min ex ey) <= Z.pos my * 2 ^ (ey - Z.min ex ey) ->
  SFadd prec emax (S754_finite false mx ex) (S754_finite false my ey) = S754_infinity false
  \/ exists mz ez,
       SFadd prec emax (S754_finite false mx ex) (S754_finite false my ey)
       = S754_finite false mz ez
       /\ (ex < ez \/ (ex = ez /\ Z.pos mx + c <= Z.pos mz)).
Proof.
  intros Bx By C0 C.
  pose proof (bounded_canonical _ _ Bx) as Cx.
  pose proof (bounded_canonical _ _ By) as Cy.
  pose proof (fexp_ge_emin (Z.pos (digits2_pos mx) + ex)) as Ex.
  pose proof (fexp_ge_emin (Z.pos (digits2_pos my) + ey)) as Ey.
  unfold SFadd. cbn [cond_Zopp].
  set (ez := Z.min ex ey) in *.
  pose proof (@shl_align_fst mx ex ez ltac:(lia)) as Ha.
  pose proof (@shl_align_fst my ey ez ltac:(lia)) as Hb.
  set (a := fst (shl_align mx ex ez)) in *.
  set (b := fst (shl_align my ey ez)) in *.
  change (Z.pos a + Z.pos b) with (Z.pos (a + b)). cbn [binary_normalize].
  assert (M : Z.pos mx * 2 ^ (ex - ez) < Z.pos (a + b)) by lia.
  assert (M' : (Z.pos mx + c) * 2 ^ (ex - ez) <= Z.pos (a + b)) by lia.
  pose proof (digits2_bounds mx) as [Dx _].
  pose proof (digits2_bounds (a + b)) as [_ DM].
  set (dx := Z.pos (digits2_pos mx)) in *.
  set (dM := Z.pos (digits2_pos (a + b))) in *.
  assert (D : dx + ex <= dM + ez).
  { assert (P : 2 ^ (dx - 1 + (ex - ez)) < 2 ^ dM).
    { rewrite Z.pow_add_r by (subst dx; lia).
      assert (0 < 2 ^ (ex - ez)) by (apply Z.pow_pos_nonneg; lia). nia. }
    apply Z.pow_lt_mono_r_iff in P; subst dM; lia. }
  pose proof (fexp_mono D) as F.
  rewrite binary_round_no_shift by (fold dM; lia).
  destruct (@binary_round_aux_pos false (a + b) ez ltac:(lia)) as (m3 & e3 & R & L & G).
  fold dM in L, G. rewrite R.
  destruct (e3 <=? emax - prec); [right|now left].
  exists m3, e3. split; [reflexivity|].
  destruct (Z.eq_dec ex e3) as [E|E]; [right|left; lia].
  split; [assumption|].
  assert (G' : Z.pos (a + b) / 2 ^ (e3 - ez) <= Z.pos m3) by (apply G; lia).
  assert (Z.pos mx + c <= Z.pos (a + b) / 2 ^ (e3 - ez)); [|lia].
  rewrite <- E. apply Z.div_le_lower_bound; [apply Z.pow_pos_nonneg; lia|lia].
Qed.

Lemma SFadd_pos (mx my : positive) (ex ey : Z) :
  bounded prec emax mx ex = true -> bounded prec emax my ey = true ->
  SFadd prec emax (S754_finite false mx ex) (S754_finite false my ey) = S754_infinity false
  \/ exists mz ez,
       SFadd prec emax (S754_finite false mx ex) (S754_finite false my ey)
       = S754_finite false mz ez
       /\ (ex < ez \/ (ex = ez /\ Z.pos mx <= Z.pos mz)).
Proof.
  intros Bx By.
  destruct (@SFadd_pos_by 0 mx my ex ey Bx By ltac:(lia)) as [I|(mz & ez & R & O)].
  - assert (0 < 2 ^ (ey - Z.min ex ey)) by (apply Z.pow_pos_nonneg; lia). lia.
  - now left.
  - right. exists mz, ez. split; [exact R|lia].
Qed.

(** A mantissa of a number of the format has at most [prec] digits, and
    exactly [prec] above the least exponent. *)
Lemma bounded_digits (m : positive) (e : Z) :
  bounded prec emax m e = true ->
  SpecFloat.emin prec emax <= e
  /\ Z.pos m < 2 ^ prec
  /\ (SpecFloat.emin prec emax < e -> 2 ^ (prec - 1) <= Z.pos m).
Proof.
  intros B. pose proof (bounded_canonical _ _ B) as C.
  pose proof (digits2_bounds m) as [D1 D2].
  set (d := Z.pos (digits2_pos m)) in *. unfold fexp in C.
  split; [lia|]. split.
  - assert (2 ^ d <= 2 ^ prec) by (apply Z.pow_le_mono_r; lia). lia.
  - intros H. replace (prec - 1) with (d - 1) by lia. exact D1.
Qed.

(** The value of a positive number in units of the least exponent. *)
Definition units (m : positive) (e : Z) : Z := Z.pos m * 2 ^ (e - SpecFloat.emin prec emax).

(** On the numbers of the format, the order by exponent and mantissa is
    the order of the values. *)
Lemma units_lt (mx mz : positive) (ex ez : Z) :
  bounded prec emax mx ex = true -> bounded prec emax mz ez = true ->
  ex < ez \/ (ex = ez /\ Z.pos mx < Z.pos mz) ->
  units mx ex < units mz ez.
Proof.
  intros Bx Bz H. unfold units.
  destruct (bounded_digits _ _ Bx) as (Ex & Ux & _).
  destruct (bounded_digits _ _ Bz) as (Ez & _ & Lz).
  set (emin := SpecFloat.emin prec emax) in *.
  destruct H as [H|[-> H]].
  - specialize (Lz ltac:(lia)).
    replace (ez - emin) with ((ez - ex - 1) + 1 + (ex - emin)) by lia.
    rewrite !Z.pow_add_r by lia. change (2 ^ 1) with 2.
    assert (P : 0 < 2 ^ (ex - emin)) by (apply Z.pow_pos_nonneg; lia).
    assert (Q : 0 < 2 ^ (ez - ex - 1)) by (apply Z.pow_pos_nonneg; lia).
    assert (T : 2 ^ prec = 2 * 2 ^ (prec - 1)).
    { replace prec with (1 + (prec - 1)) at 1 by lia.
      rewrite Z.pow_add_r by lia. reflexivity. }
    rewrite T in Ux.
    generalize dependent (2 ^ (prec - 1)). generalize dependent (2 ^ (ex - emin)).
    generalize dependent (2 ^ (ez - ex - 1)). intros q Q p P h Ux Lz _.
    assert (A1 : Z.pos mx * p < 2 * h * p) by nia.
    assert (A2 : 2 * h * p <= 2 * Z.pos mz * p) by nia.
    assert (A3 : 2 * Z.pos mz * p <= Z.pos mz * (q * 2 * p)) by nia.
    lia.
  - assert (P : 0 < 2 ^ (ez - emin)) by (apply Z.pow_pos_nonneg; lia). nia.
Qed.

(** The sum of two negative numbers is negative, finite or infinite. *)
Lemma SFadd_neg (mx my : positive) (ex ey : Z) :
  bounded prec emax mx ex = true -> bounded prec emax my ey = true ->
  (exists mz ez,
     SFadd prec emax (S754_finite true mx ex) (S754_finite true my ey)
     = S754_finite true mz ez)
  \/ SFadd prec emax (S754_finite true mx ex) (S754_finite true my ey)
     = S754_infinity true.
Proof.
  intros Bx By.
  pose proof (bounded_canonical _ _ Bx) as Cx.
  pose proof (bounded_canonical _ _ By) as Cy.
  pose proof (fexp_ge_emin (Z.pos (digits2_pos mx) + ex)) as Ex.
  pose proof (fexp_ge_emin (Z.pos (digits2_pos my) + ey)) as Ey.
  unfold SFadd. cbn [cond_Zopp Z.opp].
  set (ez := Z.min ex ey).
  set (a := fst (shl_align mx ex ez)).
  set (b := fst (shl_align my ey ez)).
  change (Z.neg a + Z.neg b) with (Z.neg (a + b)). cbn [binary_normalize].
  apply binary_round_signed. lia.
Qed.

Lemma SFltb_pos (mx mz : positive) (ex ez : Z) :
  ex < ez \/ (ex = ez /\ Z.pos mx <= Z.pos mz) ->
  S754_finite false mz ez = S754_finite false mx ex
  \/ SFltb (S754_finite false mx ex) (S754_finite false mz ez) = true.
Proof.
  unfold SFltb, SFcompare. intros [H|[H1 H2]].
  - right. apply Z.compare_lt_iff in H. now rewrite H.
  - subst ez. rewrite Z.compare_refl.
    change (Pos.compare_cont Eq mx mz) with (Pos.compare mx mz).
    destruct (Pos.compare_spec mx mz) as [E|E|E]; [left; now subst|now right|lia].
Qed.

Lemma SFltb_finite (mx my : positive) (ex ey : Z) :
  SFltb (S754_finite false mx ex) (S754_finite false my ey) = true ->
  ex < ey \/ (ex = ey /\ Z.pos mx < Z.pos my).
Proof.
  unfold SFltb, SFcompare.
  destruct (Z.compare_spec ex ey) as [E|E|E]; try discriminate; [|now left].
  change (Pos.compare_cont Eq mx my) with (Pos.compare mx my).
  destruct (Pos.compare_spec mx my) as [M|M|M]; try discriminate.
  intros _. right. split; [exact E|lia].
Qed.

Lemma SFleb_finite (mx my : positive) (ex ey : Z) :
  SFleb (S754_finite false mx ex) (S754_finite false my ey) = true ->
  ex < ey \/ (ex = ey /\ Z.pos mx <= Z.pos my).
Proof.
  unfold SFleb, SFcompare.
  destruct (Z.compare_spec ex ey) as [E|E|E]; try discriminate; [|now left].
  change (Pos.compare_cont Eq mx my) with (Pos.compare mx my).
  destruct (Pos.compare_spec mx my) as [M|M|M]; try discriminate;
    intros _; right; (split; [exact E|lia]).
Qed.

End Rounding.
End Rounding.

(** ** Facts on stepping a binary64 number *)

Module FloatSteps.

Lemma prec_pos : (0 < prec)%Z.
Proof. reflexivity. Qed.

Lemma one_finite : Prim2SF 1 = S754_finite false 4503599627370496 (-52).
Proof. reflexivity. Qed.

Lemma valid_bounded (t : float) (s : bool) (m : positive) (e : Z) :
  Prim2SF t = S754_finite s m e -> bounded prec emax m e = true.
Proof. intros H. pose proof (Prim2SF_valid t) as V. now rewrite H in V. Qed.

(** Adding a positive finite step to a number that is not negative gives
    the number itself or a greater one, and never a negative one. *)
Lemma add_pos_step (t s : float) (ms : positive) (es : Z) :
  Prim2SF s = S754_finite false ms es ->
  nonneg (Prim2SF t) = true ->
  ((t + s)%float = t \/ PrimFloat.ltb t (t + s) = true)
  /\ (nonneg (Prim2SF (t + s)) = true \/ Prim2SF (t + s) = S754_infinity false).
Proof.
  intros Hs Ht. rewrite ltb_spec.
  assert (E : (t + s)%float = t <-> Prim2SF (t + s) = Prim2SF t)
    by (split; [now intros ->|apply Prim2SF_inj]).
  rewrite E, add_spec. unfold SF64add.
  pose proof (valid_bounded _ Hs) as Bs. rewrite Hs.
  destruct (Prim2SF t) as [b|b| |[] mx ex] eqn:Pt; try discriminate.
  - cbn [SFadd]. split; [right; reflexivity|left; reflexivity].
  - pose proof (valid_bounded _ Pt) as Bt.
    destruct (@Rounding.SFadd_pos _ _ prec_pos _ _ _ _ Bt Bs) as [I|(mz & ez & R & O)];
      [rewrite I; split; [right; reflexivity|right; reflexivity]|].
    rewrite R. split; [|left; reflexivity].
    now apply Rounding.SFltb_pos.
Qed.

(** Adding a negative step to a number with a sign bit gives one with a
    sign bit. *)
Lemma add_neg_step (t s : float) :
  signed (Prim2SF s) = true -> Prim2SF s <> S754_zero true ->
  signed (Prim2SF t) = true ->
  signed (Prim2SF (t + s)) = true.
Proof.
  intros Hs Zs Ht. rewrite add_spec. unfold SF64add.
  destruct (Prim2SF s) as [[]|[]| |[] ms es] eqn:Ps; try discriminate; try congruence;
    destruct (Prim2SF t) as [[]|[]| |[] mx ex] eqn:Pt; try discriminate;
    try reflexivity.
  destruct (@Rounding.SFadd_neg _ _ prec_pos _ _ _ _ (valid_bounded _ Pt) (valid_bounded _ Ps))
    as [(mz & ez & R)|R]; now rewrite R.
Qed.

Lemma signed_below_1 (t : float) :
  signed (Prim2SF t) = true -> PrimFloat.ltb t 1 = true.
Proof.
  rewrite ltb_spec, one_finite.
  now destruct (Prim2SF t) as [[]|[]| |[] mx ex].
Qed.

Lemma infinity_not_below (t c : float) :
  Prim2SF t = S754_infinity false -> PrimFloat.ltb t c = false.
Proof.
  rewrite ltb_spec. intros ->. now destruct (Prim2SF c) as [[]|[]| |[] mx ex].
Qed.

Lemma nan_not_below (t c : float) :
  Prim2SF t = S754_nan -> PrimFloat.ltb t c = false.
Proof. rewrite ltb_spec. now intros ->. Qed.


(** The value of a number that is not negative, in units of the least
    exponent. *)
Definition height (x : spec_float) : Z :=
  match x with
  | S754_finite false m e => Rounding.units prec emax m e
  | _ => 0%Z
  end.

Lemma half_ulp_finite : Prim2SF 0x1p-53 = S754_finite false 4503599627370496 (-105).
Proof. reflexivity. Qed.

(** A positive number below 1 has an exponent below that of 1. *)
Lemma below_1_exponent (mx : positive) (ex : Z) :
  bounded prec emax mx ex = true ->
  SFltb (S754_finite false mx ex) (S754_finite false 4503599627370496 (-52)) = true ->
  (ex <= -53)%Z.
Proof.
  intros B L. destruct (@Rounding.bounded_digits _ emax prec_pos _ _ B) as (_ & _ & N).
  destruct (@Rounding.SFltb_finite _ _ _ _ L) as [E|[E M]]; [lia|]. subst ex.
  assert (N' : (2 ^ (prec - 1) <= Z.pos mx)%Z) by (apply N; reflexivity).
  change (2 ^ (prec - 1))%Z with 4503599627370496%Z in N'. lia.
Qed.

Lemma below_1_height (t : float) :
  nonneg (Prim2SF t) = true -> PrimFloat.ltb t 1 = true ->
  (height (Prim2SF t) < height (Prim2SF 1))%Z.
Proof.
  rewrite ltb_spec, one_finite. intros N L.
  destruct (Prim2SF t) as [b|b| |[] mx ex] eqn:Pt; try discriminate.
  - reflexivity.
  - cbn [height].
    exact (@Rounding.units_lt _ emax prec_pos mx 4503599627370496 ex (-52)
             (valid_bounded _ Pt) eq_refl (@Rounding.SFltb_finite _ _ _ _ L)).
Qed.

(** Below 1, a step of at least 2^-53 leads to a number that is higher,
    or not below 1 any more. *)
Lemma step_up (t s : float) :
  PrimFloat.leb 0x1p-53 s = true ->
  nonneg (Prim2SF t) = true -> PrimFloat.ltb t 1 = true ->
  PrimFloat.ltb (t + s) 1 = false
  \/ (nonneg (Prim2SF (t + s)) = true
      /\ (height (Prim2SF t) < height (Prim2SF (t + s)))%Z).
Proof.
  rewrite leb_spec, half_ulp_finite. intros Ls N L.
  pose proof (Prim2SF_valid (t + s)) as V. revert V.
  rewrite !ltb_spec, one_finite in *. rewrite add_spec. unfold SF64add.
  destruct (Prim2SF s) as [b|[]| |[] ms es] eqn:Ps; try discriminate.
  - intros _. left.
    now destruct (Prim2SF t) as [b|b| |[] mx ex].
  - pose proof (valid_bounded _ Ps) as Bs.
    destruct (@Rounding.bounded_digits _ emax prec_pos _ _ Bs) as (_ & _ & Ns).
    change (2 ^ (prec - 1))%Z with 4503599627370496%Z in Ns.
    change (SpecFloat.emin prec emax) with (-1074)%Z in Ns.
    assert (S1 : (-105 <= es)%Z /\ (4503599627370496 <= Z.pos ms)%Z).
    { destruct (@Rounding.SFleb_finite _ _ _ _ Ls) as [E|[E M]]; split; lia. }
    destruct S1 as [S1 S2].
    destruct (Prim2SF t) as [b|b| |[] mx ex] eqn:Pt; try discriminate.
    + cbn [SFadd]. intros _. right. split; [reflexivity|].
      cbn [height]. unfold Rounding.units.
      assert (0 < 2 ^ (es - SpecFloat.emin prec emax))%Z
        by (apply Z.pow_pos_nonneg; [lia|change (SpecFloat.emin prec emax) with (-1074)%Z; lia]).
      lia.
    + pose proof (valid_bounded _ Pt) as Bt.
      pose proof (@below_1_exponent mx ex Bt L) as Xt.
      assert (C : (1 * 2 ^ (ex - Z.min ex es) <= Z.pos ms * 2 ^ (es - Z.min ex es))%Z).
      { assert (P : (2 ^ (ex - Z.min ex es) <= 2 ^ (52 + (es - Z.min ex es)))%Z)
          by (apply Z.pow_le_mono_r; lia).
        rewrite Z.pow_add_r in P by lia.
        change (2 ^ 52)%Z with 4503599627370496%Z in P.
        assert (0 < 2 ^ (es - Z.min ex es))%Z by (apply Z.pow_pos_nonneg; lia).
        nia. }
      destruct (@Rounding.SFadd_pos_by _ emax prec_pos 1 mx ms ex es Bt Bs ltac:(lia) C)
        as [I|(mz & ez & R & O)]; [rewrite I; intros _; left; reflexivity|].
      rewrite R. intros V. right. split; [reflexivity|].
      cbn [height]. apply (@Rounding.units_lt _ emax prec_pos _ _ _ _ Bt V). lia.
Qed.

End FloatSteps.


(** ** NLUIntentRating *)

Module RatingFacts.
Import Rating.

(** The claim of the specification that a second [noneIfBelow] with a
    lower threshold inserts the None-intent again, as a proposition. *)
Definition falling_threshold_double_insert : Prop :=
  forall (r r1 : NLUIntentRating) (t1 t2 : float),
    PrimFloat.ltb t2 t1 = true ->
    noneIfBelow t1 r = Return r1 ->
    sorted_intents r1 = (None, 1.0%float) :: sorted_intents r ->
    exists r2,
      noneIfBelow t2 r1 = Return r2 /\
      sorted_intents r2 = (None, 1.0%float) :: (None, 1.0%float) :: sorted_intents r.

(** C6. For a non-empty rating whose first (highest) entry is [top]:
    if [top]'s confidence is [<= t] (in particular if it equals [t]),
    [noneIfBelow t] prepends [(None, 1.0)] and the detected intent becomes
    the None-intent; if it is [> t] the rating is unchanged.  The rating
    [("x", [("A", 0.2), ("B", 0.9)])] detects ["B"], and the None-intent
    after [noneIfBelow 0.9]. *)
Theorem noneIfBelow_threshold (r : NLUIntentRating) (t : float)
    (top : Intent * float) (rest : list (Intent * float)) :
  sorted_intents r = top :: rest ->
  (PrimFloat.leb (snd top) t = true ->
     noneIfBelow t r
       = Return (mkRating (sentence r) ((None, 1.0%float) :: top :: rest))
     /\ obind (noneIfBelow t r) detected_intent = Return None)
  /\ (PrimFloat.eqb (snd top) t = true ->
        obind (noneIfBelow t r) detected_intent = Return None)
  /\ (PrimFloat.ltb t (snd top) = true -> noneIfBelow t r = Return r)
  /\ detected_intent Examples.rating_x = Return (Some "B")
  /\ obind (noneIfBelow 0.9 Examples.rating_x) detected_intent = Return None.
Proof.
  intros Hr.
  assert (Hle : PrimFloat.leb (snd top) t = true ->
                noneIfBelow t r
                = Return (mkRating (sentence r) ((None, 1.0%float) :: top :: rest))).
  { intros H. unfold noneIfBelow. rewrite Hr, H. reflexivity. }
  split.
  { intros H. split; [now apply Hle | rewrite (Hle H); reflexivity]. }
  split.
  { intros H. rewrite (Hle (FloatOrder.eqb_leb H)). reflexivity. }
  split.
  { intros H. unfold noneIfBelow. rewrite Hr.
    now rewrite (FloatOrder.ltb_not_leb H). }
  split; reflexivity.
Qed.

Lemma noneIfBelow_threshold_witness :
  sorted_intents Examples.rating_x = [(Some "B", 0.9%float); (Some "A", 0.2%float)]
  /\ noneIfBelow 0.9 Examples.rating_x
      = Return (mkRating "x" [(None, 1.0%float); (Some "B", 0.9%float); (Some "A", 0.2%float)])
  /\ noneIfBelow 0.5 Examples.rating_x = Return Examples.rating_x.
Proof.
  pose proof (@noneIfBelow_threshold Examples.rating_x 0.9 (Some "B", 0.9%float)
                [(Some "A", 0.2%float)] eq_refl) as H9.
  pose proof (@noneIfBelow_threshold Examples.rating_x 0.5 (Some "B", 0.9%float)
                [(Some "A", 0.2%float)] eq_refl) as H5.
  split; [reflexivity|]. split.
  - exact (proj1 (proj1 H9 eq_refl)).
  - exact (proj1 (proj2 (proj2 H5)) eq_refl).
Defined.

(** C7, as stated, fails: on [("y", [("A", 0.2)])], [noneIfBelow 0.5]
    inserts the None-intent and the following [noneIfBelow 0.3] does not
    insert it again, because the new top confidence is [1.0 > 0.3]. *)
Lemma falling_threshold_single_insert :
  PrimFloat.ltb 0.3 0.5 = true
  /\ noneIfBelow 0.5 Examples.rating_y
      = Return (mkRating "y" [(None, 1.0%float); (Some "A", 0.2%float)])
  /\ noneIfBelow 0.3 (mkRating "y" [(None, 1.0%float); (Some "A", 0.2%float)])
      = Return (mkRating "y" [(None, 1.0%float); (Some "A", 0.2%float)])
  /\ ~ falling_threshold_double_insert.
Proof.
  split; [reflexivity|]. split; [reflexivity|]. split; [reflexivity|].
  intros H.
  destruct (H Examples.rating_y
              (mkRating "y" [(None, 1.0%float); (Some "A", 0.2%float)])
              0.5%float 0.3%float eq_refl eq_refl eq_refl) as [r2 [H1 H2]].
  vm_compute in H1. injection H1 as <-. discriminate H2.
Qed.

(** C7, amended. After a [noneIfBelow t1] that performed the replacement,
    a second [noneIfBelow t2] inserts the None-intent again exactly when
    [1.0 <= t2]; for any other [t2], in particular for every [t2 < 1.0],
    it leaves the rating with its single None entry. *)
Theorem noneIfBelow_twice (r r1 : NLUIntentRating) (t1 t2 : float) :
  noneIfBelow t1 r = Return r1 ->
  sorted_intents r1 = (None, 1.0%float) :: sorted_intents r ->
  noneIfBelow t2 r1
  = Return (if PrimFloat.leb 1.0 t2
            then mkRating (sentence r1)
                          ((None, 1.0%float) :: (None, 1.0%float) :: sorted_intents r)
            else r1)
  /\ (PrimFloat.ltb t2 1.0 = true -> noneIfBelow t2 r1 = Return r1).
Proof.
  intros _ H1.
  assert (E : noneIfBelow t2 r1
              = Return (if PrimFloat.leb 1.0 t2
                        then mkRating (sentence r1)
                               ((None, 1.0%float) :: (None, 1.0%float) :: sorted_intents r)
                        else r1)).
  { unfold noneIfBelow. rewrite H1. simpl.
    destruct (PrimFloat.leb 1.0 t2); reflexivity. }
  split; [exact E|].
  intros H. rewrite E. now rewrite (FloatOrder.ltb_not_leb H).
Qed.

Lemma noneIfBelow_twice_witness :
  noneIfBelow 0.3 (mkRating "y" [(None, 1.0%float); (Some "A", 0.2%float)])
  = Return (mkRating "y" [(None, 1.0%float); (Some "A", 0.2%float)])
  /\ noneIfBelow 1.0 (mkRating "y" [(None, 1.0%float); (Some "A", 0.2%float)])
    = Return (mkRating "y" [(None, 1.0%float); (None, 1.0%float); (Some "A", 0.2%float)]).
Proof.
  split.
  - exact (proj2 (@noneIfBelow_twice Examples.rating_y
             (mkRating "y" [(None, 1.0%float); (Some "A", 0.2%float)])
             0.5 0.3 eq_refl eq_refl) eq_refl).
  - exact (proj1 (@noneIfBelow_twice Examples.rating_y
             (mkRating "y" [(None, 1.0%float); (Some "A", 0.2%float)])
             0.5 1.0 eq_refl eq_refl)).
Defined.

End RatingFacts.

(** ** Dictionaries and loops that fill them *)

Module DictFacts.
Section DictFacts.

Variables (K V : Type) (eqb : K -> K -> bool).
Hypothesis eqb_eq : forall a b, eqb a b = true <-> a = b.

Lemma eqb_refl (k : K) : eqb k k = true.
Proof. now apply eqb_eq. Qed.

Lemma eqb_neq (a b : K) : a <> b -> eqb a b = false.
Proof.
  intros H. destruct (eqb a b) eqn:E; [|reflexivity].
  now apply eqb_eq in E.
Qed.

Lemma get_set_same (d : Dict.t K V) (k : K) (v : V) :
  Dict.get eqb (Dict.set eqb d k v) k = Some v.
Proof.
  induction d as [|[k' v'] d IH]; simpl.
  - now rewrite eqb_refl.
  - destruct (eqb k' k) eqn:E; simpl; rewrite E; auto.
Qed.

Lemma get_set_other (d : Dict.t K V) (k k' : K) (v : V) :
  k <> k' -> Dict.get eqb (Dict.set eqb d k v) k' = Dict.get eqb d k'.
Proof.
  intros Hn. induction d as [|[k0 v0] d IH]; simpl.
  - now rewrite (eqb_neq Hn).
  - destruct (eqb k0 k) eqn:E; simpl.
    + apply eqb_eq in E. subst k0. now rewrite (eqb_neq Hn).
    + destruct (eqb k0 k'); auto.
Qed.

Lemma get_In_keys (d : Dict.t K V) (k : K) (v : V) :
  Dict.get eqb d k = Some v -> In k (Dict.keys d).
Proof.
  induction d as [|[k0 v0] d IH]; simpl; [discriminate|].
  destruct (eqb k0 k) eqn:E; auto.
  apply eqb_eq in E. auto.
Qed.

Lemma In_keys_get (d : Dict.t K V) (k : K) :
  In k (Dict.keys d) -> exists v, Dict.get eqb d k = Some v.
Proof.
  induction d as [|[k0 v0] d IH]; simpl; [tauto|].
  intros [->|H].
  - rewrite eqb_refl. eauto.
  - destruct (eqb k0 k); eauto.
Qed.

Lemma keys_set (d : Dict.t K V) (k : K) (v : V) :
  Dict.keys (Dict.set eqb d k v)
  = if existsb (fun k' => eqb k' k) (Dict.keys d) then Dict.keys d
    else Dict.keys d ++ [k].
Proof.
  induction d as [|[k0 v0] d IH]; simpl; [reflexivity|].
  destruct (eqb k0 k) eqn:E; simpl; [reflexivity|].
  unfold Dict.keys in *. rewrite IH.
  now destruct (existsb (fun k' => eqb k' k) (map fst d)).
Qed.

Lemma In_split_last (k : K) (xs : list K) :
  In k xs -> exists l1 l2, xs = l1 ++ k :: l2 /\ ~ In k l2.
Proof.
  induction xs as [|x xs IH]; simpl; [tauto|].
  intros H.
  destruct (existsb (eqb k) xs) eqn:E.
  - apply existsb_exists in E. destruct E as [y [Hy Ey]].
    apply eqb_eq in Ey. subst y.
    destruct (IH Hy) as [l1 [l2 [-> N]]].
    exists (x :: l1), l2. auto.
  - destruct H as [->|H].
    + exists [], xs. split; [reflexivity|].
      intros C. assert (T : existsb (eqb k) xs = true).
      { apply existsb_exists. exists k. split; [exact C|apply eqb_refl]. }
      congruence.
    + exfalso. assert (T : existsb (eqb k) xs = true).
      { apply existsb_exists. exists k. split; [exact H|apply eqb_refl]. }
      congruence.
Qed.

(** *** A loop that assigns [d[key x] = f x] for every [x] *)

Section Fill.
Variables (A : Type) (key : A -> K) (f : A -> outcome pyerr V).

Definition fill (xs : list A) (d0 : Dict.t K V) : outcome pyerr (Dict.t K V) :=
  ofold (fun d x => obind (f x) (fun v => Return (Dict.set eqb d (key x) v))) xs d0.

Lemma fill_get (xs : list A) (d0 d : Dict.t K V) (k : K) (v : V) :
  fill xs d0 = Return d ->
  Dict.get eqb d k = Some v ->
  Dict.get eqb d0 k = Some v \/ exists x, In x xs /\ key x = k /\ f x = Return v.
Proof.
  unfold fill. revert d0. induction xs as [|x xs IH]; simpl; intros d0 H G.
  - injection H as <-. auto.
  - destruct (f x) as [w|e] eqn:F; simpl in H; [|discriminate].
    destruct (IH _ H G) as [G0|[y [Hy [Hk Hf]]]].
    + assert (D : key x = k \/ key x <> k).
      { destruct (eqb (key x) k) eqn:E; [left; now apply eqb_eq|right].
        intros C. apply eqb_eq in C. congruence. }
      destruct D as [D|D].
      * subst k. rewrite get_set_same in G0. injection G0 as ->.
        right. exists x. auto.
      * rewrite (get_set_other _ _ D) in G0. auto.
    + right. exists y. auto.
Qed.

Lemma fill_app (xs ys : list A) (d0 : Dict.t K V) :
  fill (xs ++ ys) d0 = obind (fill xs d0) (fill ys).
Proof.
  unfold fill. revert d0. induction xs as [|x xs IH]; simpl; intros d0; [reflexivity|].
  destruct (f x); simpl; auto.
Qed.

Lemma fill_keep (xs : list A) (d0 d : Dict.t K V) (k : K) :
  fill xs d0 = Return d ->
  (forall y, In y xs -> key y <> k) ->
  Dict.get eqb d k = Dict.get eqb d0 k.
Proof.
  unfold fill. revert d0. induction xs as [|x xs IH]; simpl; intros d0 H N.
  - now injection H as <-.
  - destruct (f x) as [w|e] eqn:F; simpl in H; [|discriminate].
    rewrite (IH _ H) by auto.
    apply get_set_other. auto.
Qed.

(** The last element with a given key decides the entry. *)
Lemma fill_last (xs ys : list A) (x : A) (d0 d : Dict.t K V) :
  fill (xs ++ x :: ys) d0 = Return d ->
  (forall y, In y ys -> key y <> key x) ->
  exists v, f x = Return v /\ Dict.get eqb d (key x) = Some v.
Proof.
  intros H N. rewrite fill_app in H. unfold fill in H at 2. simpl in H.
  destruct (fill xs d0) as [d1|] eqn:F1; simpl in H; [|discriminate].
  destruct (f x) as [v|] eqn:Fx; simpl in H; [|discriminate].
  exists v. split; [reflexivity|].
  rewrite (fill_keep _ _ H N). apply get_set_same.
Qed.
End Fill.

(** *** A loop that assigns [d[k] = v] when [g k] is [Some v] and skips
    [k] otherwise *)

Section FillSome.
Variable g : K -> outcome pyerr (option V).

Definition fill_some (ks : list K) (d0 : Dict.t K V) : outcome pyerr (Dict.t K V) :=
  ofold (fun d k => obind (g k) (fun p => match p with
                                          | None => Return d
                                          | Some p => Return (Dict.set eqb d k p)
                                          end)) ks d0.

Lemma fill_some_get (ks : list K) (d0 d : Dict.t K V) (k : K) (v : V) :
  fill_some ks d0 = Return d ->
  Dict.get eqb d k = Some v ->
  Dict.get eqb d0 k = Some v \/ (In k ks /\ g k = Return (Some v)).
Proof.
  unfold fill_some. revert d0. induction ks as [|x ks IH]; simpl; intros d0 H G.
  - injection H as <-. auto.
  - destruct (g x) as [[w|]|e] eqn:F; simpl in H; try discriminate.
    + destruct (IH _ H G) as [G0|[Hy Hf]]; [|now auto].
      assert (D : x = k \/ x <> k).
      { destruct (eqb x k) eqn:E; [left; now apply eqb_eq|right].
        intros C. apply eqb_eq in C. congruence. }
      destruct D as [D|D].
      * subst k. rewrite get_set_same in G0. injection G0 as ->. auto.
      * rewrite (get_set_other _ _ D) in G0. auto.
    + destruct (IH _ H G) as [G0|[Hy Hf]]; auto.
Qed.

Lemma fill_some_set (ks : list K) (d0 d : Dict.t K V) (k : K) (v : V) :
  fill_some ks d0 = Return d ->
  g k = Return (Some v) ->
  In k ks \/ Dict.get eqb d0 k = Some v ->
  Dict.get eqb d k = Some v.
Proof.
  unfold fill_some. revert d0. induction ks as [|x ks IH]; simpl; intros d0 H G I.
  - injection H as <-. tauto.
  - assert (D : x = k \/ x <> k).
    { destruct (eqb x k) eqn:E; [left; now apply eqb_eq|right].
      intros C. apply eqb_eq in C. congruence. }
    destruct D as [D|D].
    + subst x. rewrite G in H. simpl in H.
      apply (IH _ H G). right. apply get_set_same.
    + destruct (g x) as [[w|]|e] eqn:F; simpl in H; try discriminate.
      * apply (IH _ H G). destruct I as [[I|I]|I]; [congruence|auto|].
        right. now rewrite (get_set_other _ _ D).
      * apply (IH _ H G). destruct I as [[I|I]|I]; [congruence|auto|auto].
Qed.

Lemma fill_some_total (ks : list K) (d0 d : Dict.t K V) (k : K) :
  fill_some ks d0 = Return d -> In k ks -> exists p, g k = Return p.
Proof.
  unfold fill_some. revert d0. induction ks as [|x ks IH]; simpl; intros d0 H I; [tauto|].
  destruct (g x) as [p|e] eqn:F; simpl in H; [|discriminate].
  destruct I as [->|I]; [eauto|].
  destruct p; eapply IH; eauto.
Qed.
End FillSome.

End DictFacts.
End DictFacts.

(** ** The metrics *)

Module MetricsFacts.

(** Between integers the exact quotient is rounded once: dividing the
    conversions of [3 * 2^53 + 3] and [3] would give [2^53 + 2]. *)
Lemma int_truediv_rounds_once :
  py_truediv (PInt 27021597764222979) (PInt 3) = Return (PFloat 9007199254740992)
  /\ (Z2float 27021597764222979 / Z2float 3)%float = 9007199254740994%float
  /\ py_truediv (PInt (10 ^ 400)) (PInt (2 * 10 ^ 400)) = Return (PFloat 0.5).
Proof. split; [|split]; vm_compute; reflexivity. Qed.
Import Metrics.

Lemma safeDivide_zero : safeDivide (PInt 0) (PInt 0) = Return (PInt 0).
Proof. reflexivity. Qed.

Lemma safeDivide_quotient (dividend divisor : pynum) :
  py_eq0 dividend && py_eq0 divisor = false ->
  safeDivide dividend divisor = py_truediv dividend divisor.
Proof. unfold safeDivide. now intros ->. Qed.

(** C5, as stated, fails: the result for [{"A": {"B": 1}, "B": {}}] also
    has the key ["B"], so it is not equal to [{"A": 0.0}]. *)
Lemma f1_scores_AB_not_only_A :
  ~ (exists d, confusionMatrixToF1Scores Examples.matrix_AB = Return d
               /\ scores_eqb d [(Some "A", PFloat 0)] = true).
Proof.
  intros [d [H E]]. vm_compute in H. injection H as <-. discriminate E.
Qed.

(** C5, amended. [confusionMatrixToF1Scores] scores every key of the
    matrix: on [{"A": {"B": 1}, "B": {}}] it returns [{"A": 0, "B": 0}],
    which Python's [==] identifies with [{"A": 0.0, "B": 0.0}].  ["A"] has
    no true and no false positive, so its precision is [safeDivide 0 0 = 0],
    and its score is [safeDivide] of two zeros again. *)
Theorem f1_scores_AB :
  confusionMatrixToF1Scores Examples.matrix_AB
  = Return [(Some "A", PInt 0); (Some "B", PInt 0)]
  /\ scores_eqb [(Some "A", PInt 0); (Some "B", PInt 0)]
                [(Some "A", PFloat 0); (Some "B", PFloat 0)] = true
  /\ prepareF1Score (Some "A") Examples.matrix_AB = mkCounts 0 0 0 1
  /\ safeDivide (PInt 0) (PInt (0 + 0)) = Return (PInt 0)
  /\ f1_score (Some "A") Examples.matrix_AB = Return (PInt 0).
Proof. repeat split; reflexivity. Qed.

End MetricsFacts.

(** ** Means and variances over the iterations *)

Module AggregationFacts.
Import Aggregation.

Section WithPow.

Variable libm_pow2 : float -> float.

Lemma string_eqb_eq (a b : string) : String.eqb a b = true <-> a = b.
Proof. apply String.eqb_eq. Qed.

Lemma intent_set_In (l : list Intent) (x : Intent) :
  In x (intent_set l) <-> In x l.
Proof.
  induction l as [|y l IH]; simpl; [tauto|].
  destruct (existsb (intent_eqb y) l) eqn:E; simpl; rewrite IH.
  - split; [tauto|]. intros [->|H]; [|exact H].
    apply existsb_exists in E. destruct E as [z [Hz Ez]].
    apply intent_eqb_eq in Ez. now subst z.
  - tauto.
Qed.

Lemma score_getter_iteration_score (dt : DataSetTitle) (ft : FrameworkTitle)
    (i : Intent) (x : Scores) (o : option pynum) :
  score_getter dt ft i x = Return o -> o = iteration_score dt ft i x.
Proof.
  unfold score_getter, iteration_score, Dict.item.
  destruct (Dict.get String.eqb x dt) as [bf|]; simpl; [|discriminate].
  destruct (Dict.get String.eqb bf ft) as [bi|]; simpl; [|discriminate].
  congruence.
Qed.

Lemma scores_present (dt : DataSetTitle) (ft : FrameworkTitle) (i : Intent)
    (its : list Scores) (scores : list (option pynum)) :
  omapM (score_getter dt ft i) its = Return scores ->
  filter_not_None scores = present_scores its dt ft i.
Proof.
  revert scores. induction its as [|x its IH]; simpl; intros scores H.
  - now injection H as <-.
  - destruct (score_getter dt ft i x) as [o|] eqn:S; simpl in H; [|discriminate].
    destruct (omapM (score_getter dt ft i) its) as [os|]; simpl in H; [|discriminate].
    injection H as <-. apply score_getter_iteration_score in S. subst o.
    unfold filter_not_None, present_scores in *. simpl.
    now rewrite (IH os eq_refl).
Qed.

Lemma length_eqb_0 {A} (l : list A) : Nat.eqb (List.length l) 0 = true <-> l = [].
Proof. destruct l; simpl; split; congruence. Qed.

Lemma py_len_nonzero {A} (l : list A) : l <> [] -> py_eq0 (py_len l) = false.
Proof. destruct l; [congruence|reflexivity]. Qed.

(** A division by the length of a list that is not empty returns. *)
Lemma truediv_len {A} (a : pynum) (l : list A) :
  l <> [] -> exists q, py_truediv a (py_len l) = Return (PFloat q).
Proof.
  intros N. unfold py_truediv. rewrite (py_len_nonzero N).
  destruct a; cbn [py_len]; eauto.
Qed.

(** [pow(d, 2.0)] is the product [d * d], rounded once. *)
Definition pow_is_square : Prop := forall d, libm_pow2 d = (d * d)%float.

Lemma py_pow2_squared (a : pynum) : pow_is_square -> py_pow2 libm_pow2 a = squared a.
Proof. intros H. destruct a as [z|f]; cbn; [reflexivity|]. now rewrite H. Qed.

Lemma intent_performance_Some (its : list Scores) (dt : DataSetTitle)
    (ft : FrameworkTitle) (i : Intent) (p : Performance) :
  pow_is_square ->
  intent_performance libm_pow2 its dt ft i = Return (Some p) ->
  present_scores its dt ft i <> []
  /\ population_mean (present_scores its dt ft i) = Return (mean p)
  /\ population_variance (mean p) (present_scores its dt ft i) = Return (variance p).
Proof.
  intros Hp. unfold intent_performance.
  destruct (omapM (score_getter dt ft i) its) as [scores|] eqn:S; simpl; [|discriminate].
  rewrite (scores_present _ _ _ _ S).
  set (xs := present_scores its dt ft i).
  destruct (Nat.eqb (List.length xs) 0) eqn:L; [discriminate|].
  unfold population_variance, population_mean, mean_of, variance_of.
  destruct (py_truediv (py_sum xs) (py_len xs)) as [m|]; simpl; [|discriminate].
  unfold py_len at 2. rewrite length_map. fold (py_len xs).
  rewrite (map_ext (fun x => py_pow2 libm_pow2 (py_sub x m))
                   (fun x => squared (py_sub x m)))
    by (intros x; now apply py_pow2_squared).
  destruct (py_truediv _ (py_len xs)) as [v|] eqn:V; simpl; [|discriminate].
  intros H. injection H as <-. simpl. rewrite V.
  repeat split. intros C. apply length_eqb_0 in C. congruence.
Qed.

Lemma intent_performance_None (its : list Scores) (dt : DataSetTitle)
    (ft : FrameworkTitle) (i : Intent) :
  intent_performance libm_pow2 its dt ft i = Return None ->
  present_scores its dt ft i = [].
Proof.
  unfold intent_performance.
  destruct (omapM (score_getter dt ft i) its) as [scores|] eqn:S; simpl; [|discriminate].
  rewrite (scores_present _ _ _ _ S).
  destruct (Nat.eqb _ 0) eqn:L; [intros _; now apply length_eqb_0|].
  destruct (mean_of _); simpl; [|discriminate].
  destruct (variance_of _ _ _); simpl; discriminate.
Qed.

Lemma intent_performance_present (its : list Scores) (dt : DataSetTitle)
    (ft : FrameworkTitle) (i : Intent) (r : option Performance) :
  intent_performance libm_pow2 its dt ft i = Return r ->
  present_scores its dt ft i <> [] ->
  exists p, r = Some p.
Proof.
  destruct r as [p|]; [eauto|].
  intros H N. apply intent_performance_None in H. contradiction.
Qed.


End WithPow.


(** One iteration, in which the data set was validated on an entry of the
    intent [greet] and one of the intent [bye], both rated as they should
    be. *)
Definition matrices_with_bye
  : list (Dict.t DataSetTitle (Dict.t FrameworkTitle ConfusionMatrix)) :=
  [ [("ds", [("fw", [(Some "greet", [(Some "greet", 1%Z)]);
                     (Some "bye", [(Some "bye", 1%Z)])])])] ].

(** The data set after the [reshuffle] that follows the iteration: its
    validation data has two entries of the intent [greet]. *)
Definition view_without_bye : DataSetView :=
  mkView "ds" [mkEntry "hello" (Some "greet"); mkEntry "hi" (Some "greet")].

(** C4. [__f1ScoreMeansAndVariances] takes the intents from the validation
    data that the data set holds when the report is computed, which
    [__run] has reshuffled after the last iteration.  Here the intent
    [bye] has the score 100 in every iteration, and the report has no
    entry for it; the intent [greet] is reported with mean 100 and
    variance 0. *)
Lemma scored_intent_dropped :
  exists scores performances,
    Metrics.confusionMatricesToF1Scores matrices_with_bye = Return scores
    /\ present_scores scores "ds" "fw" (Some "bye") = [PFloat 100]
    /\ f1ScoreMeansAndVariances (fun x => (x * x)%float) ["fw"] [view_without_bye] scores
       = Return performances
    /\ reported performances "ds" "fw" (Some "bye") = None
    /\ reported performances "ds" "fw" (Some "greet")
       = Some (mkPerformance (PFloat 100) (PFloat 0)).
Proof.
  do 2 eexists. split; [reflexivity|]. split; [reflexivity|].
  split; [reflexivity|]. split; reflexivity.
Qed.

(** When the validation data of the iteration has the intent [bye] only,
    no intent is reported, and the report that [run] computes ends in the
    [ZeroDivisionError] of [__mergeIntentPerformances]. *)
Lemma report_of_dropped_intent :
  Report.report (fun x => (x * x)%float) (fun _ => Return tt) ["fw"]
    [mkView "ds" [mkEntry "hello" (Some "greet")]]
    [ [("ds", [("fw", [(Some "bye", [(Some "bye", 1%Z)])])])] ]
  = Raise ZeroDivisionError.
Proof. reflexivity. Qed.

End AggregationFacts.

(** ** NLUDataSet *)

Module DataSetFacts.
Import DataSet.

Lemma slice_index_le (n : nat) (i : Z) : slice_index n i <= n.
Proof. unfold slice_index. destruct (i <? 0)%Z eqn:E; lia. Qed.

Lemma slice_index_nonneg (n : nat) (i : Z) :
  (0 <= i)%Z -> slice_index n i = Nat.min (Z.to_nat i) n.
Proof. intros H. unfold slice_index. destruct (i <? 0)%Z eqn:E; lia. Qed.

Lemma slice_to_length {A} (l : list A) (i : Z) :
  List.length (slice_to l i) = slice_index (List.length l) i.
Proof.
  unfold slice_to. rewrite length_firstn.
  pose proof (slice_index_le (List.length l) i). lia.
Qed.

Lemma slice_from_length {A} (l : list A) (i : Z) :
  List.length (slice_from l i) = List.length l - slice_index (List.length l) i.
Proof. unfold slice_from. now rewrite length_skipn. Qed.

Lemma slice_to_from {A} (l : list A) (i : Z) : slice_to l i ++ slice_from l i = l.
Proof. apply firstn_skipn. Qed.

Lemma length_0_nil {A} (l : list A) : Nat.eqb (List.length l) 0 = false <-> l <> [].
Proof. destruct l; simpl; split; congruence. Qed.

Lemma filter_None_In (entries : list NLUDataEntry) (x : NLUDataEntry) :
  In x entries -> entry_intent x = None -> In x (filter intent_is_None entries).
Proof.
  intros H E. apply filter_In. split; [exact H|].
  unfold intent_is_None. now rewrite E.
Qed.

Lemma filter_not_None_intent (entries : list NLUDataEntry) (x : NLUDataEntry) :
  In x (filter (fun x => negb (intent_is_None x)) entries) -> entry_intent x <> None.
Proof.
  intros H E. apply filter_In in H. destruct H as [_ H].
  unfold intent_is_None in H. now rewrite E in H.
Qed.

Section WithShuffle.

Variable Rng : Type.
Variable shuffle : Rng -> list NLUDataEntry -> Rng * list NLUDataEntry.
Hypothesis shuffle_perm : forall g l, Permutation (snd (shuffle g l)) l.

(** Whether [reshuffle] raises depends on the number of entries and on the
    validation size only. *)
Lemma reshuffle_outcome (g : Rng) (d : NLUDataSet) :
  snd (reshuffle shuffle g d)
  = if Nat.eqb (slice_index (List.length (data d)) (validation_size d)) 0
       || Nat.eqb (List.length (data d)
                   - slice_index (List.length (data d)) (validation_size d)) 0
    then Raise split_empty else Return tt.
Proof.
  unfold reshuffle. pose proof (shuffle_perm g (data d)) as P.
  destruct (shuffle g (data d)) as [g' sh]. simpl in P.
  rewrite slice_to_length, slice_from_length, (Permutation_length P).
  now destruct (_ || _).
Qed.

Lemma reshuffle_data (g : Rng) (d : NLUDataSet) :
  let d' := snd (fst (reshuffle shuffle g d)) in
  Permutation (data d') (data d)
  /\ none_data d' = none_data d
  /\ validation_size d' = validation_size d
  /\ title d' = title d.
Proof.
  unfold reshuffle. pose proof (shuffle_perm g (data d)) as P.
  destruct (shuffle g (data d)) as [g' sh]. simpl in P.
  destruct (_ || _); simpl; auto.
Qed.

Lemma reshuffle_built_from (entries : list NLUDataEntry) (P : Z) (g : Rng) (d : NLUDataSet) :
  built_from entries P d -> built_from entries P (snd (fst (reshuffle shuffle g d))).
Proof.
  intros [B1 [B2 B3]]. destruct (reshuffle_data g d) as [R1 [R2 [R3 _]]].
  repeat split; [now rewrite R1|congruence|congruence].
Qed.

Lemma loaded_built_from (t : DataSetTitle) (entries : list NLUDataEntry) (P : Z) :
  built_from entries P (loaded t entries P).
Proof. repeat split. apply Permutation_refl. Qed.

(** C9. For a data set built from [entries] with a validation percentage
    [P >= 0] (the constructor documents [0..100]; above 100 every call
    raises), and for any state of the random generator: a [reshuffle] that
    returns leaves a non-empty training list and a validation list made of
    a non-empty part [v] without None-intent followed by all None-intent
    entries; [v] and the training list partition the labelled entries; the
    size of [v] is within one of [P * N / 100] and the size of the training
    list within one of [(100 - P) * N / 100]; no training entry has the
    None-intent.  [reshuffle] raises the split-empty [ValueError] when the
    validation part, [P * N // 100] entries, or the rest would be empty, and
    raises nothing else. *)
Theorem reshuffle_split (entries : list NLUDataEntry) (P : Z) (g g' : Rng)
    (d d' : NLUDataSet) (r : outcome pyerr unit) :
  (0 <= P)%Z ->
  built_from entries P d ->
  reshuffle shuffle g d = ((g', d'), r) ->
  let labelled := filter (fun x => negb (intent_is_None x)) entries in
  let N := Z.of_nat (List.length labelled) in
  (r = Return tt ->
     exists v,
       validation d' = v ++ filter intent_is_None entries
       /\ v <> [] /\ training d' <> []
       /\ Permutation (v ++ training d') labelled
       /\ (100 * Z.of_nat (List.length v) <= P * N
           < 100 * Z.of_nat (List.length v) + 100)%Z
       /\ ((100 - P) * N <= 100 * Z.of_nat (List.length (training d'))
           < (100 - P) * N + 100)%Z
       /\ (forall x, In x entries -> entry_intent x = None -> In x (validation d'))
       /\ (forall x, In x (training d') -> entry_intent x <> None))
  /\ ((P * N / 100 = 0 \/ N <= P * N / 100)%Z -> r = Raise split_empty)
  /\ (r = Return tt \/ r = Raise split_empty)
  /\ built_from entries P d'.
Proof.
  intros HP B R labelled N.
  pose proof (reshuffle_built_from g B) as B'.
  pose proof (reshuffle_outcome g d) as O.
  rewrite R in B', O. simpl in B', O.
  destruct B as [B1 [B2 B3]].
  pose proof (Permutation_length B1) as L. fold labelled in B1, B3, L.
  assert (V : (0 <= validation_size d)%Z).
  { rewrite B3. apply Z.div_pos; lia. }
  rewrite (slice_index_nonneg _ V), L in O.
  fold N in B3.
  split; [|split; [|split]]; [| | |exact B'].
  - intros ->.
    destruct (Nat.eqb (Nat.min (Z.to_nat (validation_size d)) (List.length labelled)) 0
              || Nat.eqb (List.length labelled
                          - Nat.min (Z.to_nat (validation_size d)) (List.length labelled)) 0)
      eqn:E; [discriminate|].
    apply orb_false_iff in E. destruct E as [E1 E2].
    apply Nat.eqb_neq in E1, E2.
    unfold reshuffle in R.
    pose proof (shuffle_perm g (data d)) as Psh.
    destruct (shuffle g (data d)) as [g1 sh]. simpl in Psh.
    pose proof (Permutation_length Psh) as Lsh.
    assert (Lv : List.length (slice_to sh (validation_size d))
                 = Z.to_nat (validation_size d)).
    { rewrite slice_to_length, (slice_index_nonneg _ V). lia. }
    assert (Lt : List.length (slice_from sh (validation_size d))
                 = List.length labelled - Z.to_nat (validation_size d)).
    { rewrite slice_from_length, (slice_index_nonneg _ V). lia. }
    rewrite Lv, Lt in R.
    destruct (Nat.eqb (Z.to_nat (validation_size d)) 0) eqn:F1;
      [apply Nat.eqb_eq in F1; lia|].
    destruct (Nat.eqb (List.length labelled - Z.to_nat (validation_size d)) 0) eqn:F2;
      [apply Nat.eqb_eq in F2; lia|].
    simpl in R. injection R as _ <-. cbn [validation training].
    exists (slice_to sh (validation_size d)).
    assert (Pvt : Permutation (slice_to sh (validation_size d)
                               ++ slice_from sh (validation_size d)) labelled).
    { rewrite slice_to_from. now rewrite Psh. }
    split; [now rewrite B2|].
    split; [intros C; rewrite C in Lv; simpl in Lv; lia|].
    split; [intros C; rewrite C in Lt; simpl in Lt; lia|].
    split; [exact Pvt|].
    rewrite Lv, Lt.
    assert (Hv : Z.of_nat (Z.to_nat (validation_size d)) = (P * N / 100)%Z) by lia.
    assert (Ht : Z.of_nat (List.length labelled - Z.to_nat (validation_size d))
                 = (N - P * N / 100)%Z) by lia.
    rewrite Hv, Ht.
    assert (Q1 : (100 * (P * N / 100) <= P * N)%Z) by (apply Z.mul_div_le; lia).
    assert (Q2 : (P * N < 100 * Z.succ (P * N / 100))%Z)
      by (apply Z.mul_succ_div_gt; lia).
    split; [lia|].
    split; [lia|].
    split.
    + intros x Hx Ex. apply in_or_app. right. rewrite B2.
      now apply filter_None_In.
    + intros x Hx. apply (@filter_not_None_intent entries).
      apply (Permutation_in _ Pvt). apply in_or_app. now right.
  - intros H. rewrite O.
    destruct H as [H|H].
    + replace (Z.to_nat (validation_size d)) with 0%nat by lia. reflexivity.
    + replace (Nat.min (Z.to_nat (validation_size d)) (List.length labelled))
        with (List.length labelled) by lia.
      rewrite Nat.sub_diag. simpl. now rewrite orb_true_r.
  - rewrite O. destruct (_ || _); auto.
Qed.

(** C10. Once the constructor has returned, every later [reshuffle]
    returns as well, whatever the state of the random generator and however
    many calls came before: the outcome depends only on the number of
    labelled entries and on the validation size, and neither changes. *)
Theorem reshuffle_after_init (g g1 : Rng) (t : DataSetTitle)
    (entries : list NLUDataEntry) (P : Z) (d1 : NLUDataSet) :
  init shuffle g t entries P = ((g1, d1), Return tt) ->
  forall d, after_reshuffles shuffle d1 d ->
  forall g2, snd (reshuffle shuffle g2 d) = Return tt.
Proof.
  intros I d A g2. unfold init in I.
  remember (loaded t entries P) as d0 eqn:Ed0. clear Ed0.
  pose proof (reshuffle_outcome g d0) as O0. rewrite I in O0. simpl in O0.
  assert (Inv : List.length (data d) = List.length (data d0)
                /\ validation_size d = validation_size d0).
  { induction A as [|d g3 A IH].
    - destruct (reshuffle_data g d0) as [R1 [_ [R3 _]]].
      rewrite I in R1, R3. simpl in R1, R3.
      split; [apply (Permutation_length R1)|exact R3].
    - destruct (reshuffle_data g3 d) as [R1 [_ [R3 _]]].
      destruct IH as [IH1 IH2].
      split; [rewrite (Permutation_length R1)|]; congruence. }
  destruct Inv as [I1 I2].
  rewrite reshuffle_outcome, I1, I2. now rewrite <- O0.
Qed.

End WithShuffle.

(** A generator without state whose shuffle reverses the list. *)
Definition rev_shuffle (g : unit) (l : list NLUDataEntry) : unit * list NLUDataEntry :=
  (g, rev l).

Lemma rev_shuffle_perm (g : unit) (l : list NLUDataEntry) :
  Permutation (snd (rev_shuffle g l)) l.
Proof. apply Permutation_sym, Permutation_rev. Qed.

(** Four labelled entries and one with the None-intent. *)
Definition five_entries : list NLUDataEntry :=
  [mkEntry "hello" (Some "greet"); mkEntry "bla" None; mkEntry "hi" (Some "greet");
   mkEntry "bye" (Some "bye"); mkEntry "see you" (Some "bye")].

Lemma reshuffle_split_witness :
  exists v,
    v ++ [mkEntry "bla" None]
    = [mkEntry "see you" (Some "bye"); mkEntry "bye" (Some "bye"); mkEntry "bla" None]
    /\ List.length v = 2
    /\ List.length
         (training (snd (fst (init rev_shuffle tt "ds" five_entries 50)))) = 2.
Proof.
  destruct (proj1 (@reshuffle_split unit rev_shuffle rev_shuffle_perm five_entries 50 tt tt
              (loaded "ds" five_entries 50)
              (snd (fst (init rev_shuffle tt "ds" five_entries 50)))
              (Return tt) ltac:(lia) (loaded_built_from "ds" five_entries 50) eq_refl)
            eq_refl) as [v [Hv [_ [_ [_ [[H1 H2] _]]]]]].
  exists v. split; [symmetry; exact Hv|].
  split; [|reflexivity].
  change (Z.of_nat (List.length
            (filter (fun x => negb (intent_is_None x)) five_entries))) with 4%Z in H1, H2.
  lia.
Defined.

Lemma reshuffle_after_init_witness :
  snd (reshuffle rev_shuffle tt (snd (fst (init rev_shuffle tt "ds" five_entries 50))))
  = Return tt.
Proof.
  exact (@reshuffle_after_init unit rev_shuffle rev_shuffle_perm tt tt "ds" five_entries 50
           (snd (fst (init rev_shuffle tt "ds" five_entries 50))) eq_refl
           _ (reshuffled_0 rev_shuffle _) tt).
Defined.

(** Outside the documented range of the percentage the slices take their
    indices from the end: with -50 percent of four labelled entries
    [__validation_size] is -2, the call returns, the validation set is
    everything but the last two entries of the shuffled data, followed by
    the None-entry, and the training set is the last two. *)
Remark reshuffle_negative_percentage :
  init rev_shuffle tt "ds" five_entries (-50)
  = (tt,
     mkDataSet "ds"
       [mkEntry "see you" (Some "bye"); mkEntry "bye" (Some "bye");
        mkEntry "hi" (Some "greet"); mkEntry "hello" (Some "greet")]
       [mkEntry "bla" None]
       (-2)
       [mkEntry "hi" (Some "greet"); mkEntry "hello" (Some "greet")]
       [mkEntry "see you" (Some "bye"); mkEntry "bye" (Some "bye"); mkEntry "bla" None],
     Return tt).
Proof. reflexivity. Qed.

End DataSetFacts.

(** ** run_in_parallel *)

Module ParallelFacts.
Import Parallel.

Section Gather.

Variables (Env Ev X : Type).
Context {IX : Interrupts X}.

Lemma captured_return {B} (r : outcome X B) : is_return r = true -> Async.captured r = true.
Proof. now destruct r. Qed.

Lemma captured_leaving {B} (r : outcome X B) :
  Async.captured r = true -> Async.leaving r = None.
Proof. unfold Async.captured. now destruct (Async.leaving r). Qed.

Lemma forallb_captured_return {B} (rs : list (outcome X B)) :
  forallb is_return rs = true -> forallb Async.captured rs = true.
Proof.
  rewrite !forallb_forall. intros H r Hr. apply captured_return, H, Hr.
Qed.

(** Gathered calls none of which raises an exception that leaves the event
    loop. *)
Lemma gather_invoke {J B} (ev : J -> Ev) (body : J -> Env -> Env * outcome X B)
    (xs : list J) (w : traced Env Ev) :
  forallb Async.captured (snd (outcomes body xs (env w))) = true ->
  Async.gather (map (fun x => invoke (ev x) (body x)) xs) w
  = (mkTraced (fst (outcomes body xs (env w))) (trace w ++ map ev xs) (event_loop w),
     Return (snd (outcomes body xs (env w)))).
Proof.
  revert w. induction xs as [|x xs IH]; intros [e t s]; cbn [map Async.gather outcomes env].
  - intros _. cbn. now rewrite app_nil_r.
  - unfold invoke at 1. cbn [env trace event_loop].
    destruct (body x e) as [e1 r]. specialize (IH (mkTraced e1 (t ++ [ev x]) s)).
    cbn [env trace event_loop] in IH.
    destruct (outcomes body xs e1) as [e2 rs]. cbn [fst snd forallb] in IH |- *.
    intros H. apply andb_true_iff in H. destruct H as [H1 H2].
    rewrite (captured_leaving _ H1), (IH H2). now rewrite <- app_assoc.
Qed.

Lemma outcomes_length {J B} (body : J -> Env -> Env * outcome X B) (xs : list J) (e : Env) :
  List.length (snd (outcomes body xs e)) = List.length xs.
Proof.
  revert e. induction xs as [|x xs IH]; intros e; simpl; [reflexivity|].
  destruct (body x e) as [e1 r]. specialize (IH e1).
  destruct (outcomes body xs e1). simpl in *. now rewrite IH.
Qed.

End Gather.

Section Partition.

Variables (O R X : Type).

Lemma succeeded_of_combine (objects : list O) (results : list (outcome X R)) :
  succeeded_of (combine objects results) = succeeded_objects objects results.
Proof.
  revert results. induction objects as [|o os IH]; intros [|[r|e] rs]; simpl; auto.
  now rewrite IH.
Qed.

Lemma failed_of_combine (objects : list O) (results : list (outcome X R)) :
  failed_of (combine results objects) = failed_objects objects results.
Proof.
  revert results. induction objects as [|o os IH]; intros [|[r|e] rs]; simpl; auto.
  now rewrite IH.
Qed.

Lemma failed_rollbacks_combine {A} (succeeded : list (O * R)) (results : list (outcome X A)) :
  failed_rollbacks (map (fun x => (fst x, fst (snd x), snd (snd x))) (combine results succeeded))
  = failed_rollback_objects succeeded results.
Proof.
  revert succeeded. induction results as [|[a|e] rs IH]; intros [|[o r] ss]; simpl; auto.
  now rewrite IH.
Qed.

Lemma failed_objects_nil (objects : list O) (results : list (outcome X R)) :
  List.length objects = List.length results ->
  (failed_objects objects results = [] <-> forallb is_return results = true).
Proof.
  revert results. induction objects as [|o os IH]; intros [|[r|e] rs]; simpl;
    try discriminate; intros L; try tauto.
  - apply IH. lia.
  - split; discriminate.
Qed.

Lemma returned_of_aligned (results : list (outcome X R)) :
  forallb is_return results = true ->
  map Return (returned_of results) = results.
Proof.
  induction results as [|[r|e] rs IH]; simpl; intros H; try discriminate; auto.
  now rewrite IH.
Qed.

End Partition.

Section General.

Variables (W O R A X : Type).
Context {L : Loop W} {IX : Interrupts X}.
Variable as_exception : ParallelException O R X -> X.

(** A result list has an entry for every awaitable. *)
Lemma gather_length {B} (ms : list (Async.M W X B)) (w w' : W) (rs : list (outcome X B)) :
  Async.gather ms w = (w', Return rs) -> List.length rs = List.length ms.
Proof.
  revert w w' rs. induction ms as [|m ms IH]; intros w w' rs; cbn [Async.gather].
  - intros H. now injection H as _ <-.
  - destruct (m w) as [w1 r]. destruct (Async.leaving r) as [e|].
    + unfold Async.interrupt. destruct (loop w1); discriminate.
    + specialize (IH w1). destruct (Async.gather ms w1) as [w2 [rs'|e]]; [|discriminate].
      intros H. injection H as _ <-. simpl. now rewrite (IH w2 rs' eq_refl).
Qed.

Lemma failed_objects_length (objects : list O) (results : list (outcome X R)) :
  List.length objects = List.length results ->
  Nat.eqb (List.length (failed_objects objects results)) 0 = forallb is_return results.
Proof.
  intros L'. destruct (forallb is_return results) eqn:E.
  - apply (failed_objects_nil _ _ L') in E. now rewrite E.
  - destruct (failed_objects objects results) eqn:F; [|reflexivity].
    apply (failed_objects_nil _ _ L') in F. congruence.
Qed.

(** Without a rollback operation. *)
Lemma run_in_parallel_None (objects : list O) (op : O -> Async.M W X R)
    (message : string) (w : W) :
  run_in_parallel as_exception objects op (@None (O -> R -> Async.M W X A)) message w
  = match Async.gather (map op objects) w with
    | (w1, Return results) =>
        (w1, if forallb is_return results
             then Return (returned_of results)
             else Raise (as_exception
                           (mkParallelException message
                              (failed_objects objects results) [])))
    | (w1, Raise e) => (w1, Raise e)
    end.
Proof.
  unfold run_in_parallel, run_in_parallel_with, Async.bind.
  pose proof (@gather_length _ (map op objects) w) as G. rewrite length_map in G.
  destruct (Async.gather (map op objects) w) as [w1 [results|e]]; [|reflexivity].
  specialize (G w1 results eq_refl).
  rewrite failed_of_combine, failed_objects_length by (now rewrite G).
  now destruct (forallb is_return results).
Qed.

End General.

Section Invoked.

Variables (Env Ev O R A X : Type).
Context {IX : Interrupts X}.
Variable as_exception : ParallelException O R X -> X.
Variable ev : O -> Ev.
Variable body : O -> Env -> Env * outcome X R.

(** Without a rollback operation, the operation being one call that raises
    no exception that leaves the event loop. *)
Lemma run_in_parallel_invoke_None (objects : list O) (message : string)
    (w : traced Env Ev) :
  forallb Async.captured (snd (outcomes body objects (env w))) = true ->
  let m := run_in_parallel as_exception objects (fun x => invoke (ev x) (body x))
             (@None (O -> R -> Async.M (traced Env Ev) X A)) message w in
  trace (fst m) = trace w ++ map ev objects
  /\ event_loop (fst m) = event_loop w
  /\ is_return (snd m) = forallb is_return (snd (outcomes body objects (env w))).
Proof.
  intros H. cbv zeta. rewrite run_in_parallel_None, (gather_invoke _ _ _ _ H).
  cbn [fst snd trace event_loop]. split; [reflexivity|]. split; [reflexivity|].
  now destruct (forallb is_return _).
Qed.

Variable ev' : O -> R -> Ev.
Variable body' : O -> R -> Env -> Env * outcome X A.

(** With a rollback operation, both operations being one call that raises
    no exception that leaves the event loop. *)
Lemma run_in_parallel_invoke_Some (objects : list O) (message : string)
    (w : traced Env Ev) :
  let ran := outcomes body objects (env w) in
  let results := snd ran in
  let m := run_in_parallel as_exception objects (fun x => invoke (ev x) (body x))
             (Some (fun x r => invoke (ev' x r) (body' x r))) message w in
  forallb Async.captured results = true ->
  forallb Async.captured
    (snd (outcomes (fun x => body' (fst x) (snd x)) (succeeded_objects objects results)
            (fst ran))) = true ->
  List.length results = List.length objects
  /\ is_return (snd m) = forallb is_return results
  /\ event_loop (fst m) = event_loop w
  /\ trace (fst m)
     = trace w ++ map ev objects
       ++ (if forallb is_return results then []
           else map (fun x => ev' (fst x) (snd x)) (succeeded_objects objects results)).
Proof.
  intros ran results m H H'. subst m.
  pose proof (outcomes_length body objects (env w)) as Ln. fold ran results in Ln.
  split; [exact Ln|].
  unfold run_in_parallel, run_in_parallel_with, Async.bind.
  rewrite (gather_invoke _ _ _ _ H). fold ran results.
  rewrite failed_of_combine, succeeded_of_combine.
  rewrite failed_objects_length by (now rewrite Ln).
  destruct (forallb is_return results).
  - cbn. now rewrite app_nil_r.
  - rewrite (gather_invoke (fun x => ev' (fst x) (snd x)) (fun x => body' (fst x) (snd x)))
      by exact H'.
    cbn. now rewrite <- app_assoc.
Qed.

End Invoked.

Section Schedules.

Variables (Env Ev X : Type).
Context {IX : Interrupts X}.

Lemma run_by_invoke {J B} (ev : J -> Ev) (body : J -> Env -> Env * outcome X B)
    (xs : list J) (order : list nat) (w : traced Env Ev) :
  forallb (fun x => Async.captured (snd x)) (snd (outcomes_by body xs order (env w))) = true ->
  Async.run_by (map (fun x => invoke (ev x) (body x)) xs) order w
  = (mkTraced (fst (outcomes_by body xs order (env w)))
              (trace w ++ map ev (at_positions xs order)) (event_loop w),
     Return (snd (outcomes_by body xs order (env w)))).
Proof.
  revert w. induction order as [|i rest IH]; intros [e t s];
    cbn [Async.run_by outcomes_by env at_positions flat_map].
  - intros _. cbn. now rewrite app_nil_r.
  - rewrite nth_error_map. destruct (nth_error xs i) as [x|]; cbn [option_map app].
    + unfold invoke at 1. cbn [env trace event_loop].
      destruct (body x e) as [e1 r]. specialize (IH (mkTraced e1 (t ++ [ev x]) s)).
      cbn [env trace event_loop] in IH.
      destruct (outcomes_by body xs rest e1) as [e2 rs]. cbn [fst snd forallb] in IH |- *.
      intros H. apply andb_true_iff in H. destruct H as [H1 H2].
      rewrite (captured_leaving _ H1), (IH H2). cbn [map]. now rewrite <- app_assoc.
    + intros H. exact (IH (mkTraced e t s) H).
Qed.

Lemma outcomes_by_positions {J B} (body : J -> Env -> Env * outcome X B) (xs : list J)
    (order : list nat) (e : Env) :
  Forall (fun i => i < List.length xs) order ->
  map fst (snd (outcomes_by body xs order e)) = order.
Proof.
  revert e. induction order as [|i rest IH]; intros e F; simpl; [reflexivity|].
  inversion F as [|? ? Hi F']; subst.
  destruct (nth_error xs i) as [x|] eqn:N; [|apply nth_error_None in N; lia].
  destruct (body x e) as [e1 r]. specialize (IH e1 F').
  destruct (outcomes_by body xs rest e1) as [e2 rs]. simpl in *. now rewrite IH.
Qed.

(** Every outcome kept is that of the collaborator on the entry at its
    position, in some state. *)
Lemma outcomes_by_In {J B} (body : J -> Env -> Env * outcome X B) (xs : list J)
    (order : list nat) (e : Env) (i : nat) (r : outcome X B) :
  In (i, r) (snd (outcomes_by body xs order e)) ->
  exists x e', nth_error xs i = Some x /\ snd (body x e') = r.
Proof.
  revert e. induction order as [|j rest IH]; intros e; simpl; [tauto|].
  destruct (nth_error xs j) as [x|] eqn:N; [|apply IH].
  destruct (body x e) as [e1 r1] eqn:Bx. specialize (IH e1).
  destruct (outcomes_by body xs rest e1) as [e2 rs]. simpl in *.
  intros [H|H]; [|now apply IH].
  injection H as <- <-. exists x, e. now rewrite Bx.
Qed.

Lemma result_at_In {B} (rs : list (nat * outcome X B)) (i : nat) (r : outcome X B) :
  NoDup (map fst rs) -> In (i, r) rs -> Async.result_at rs i = Some r.
Proof.
  unfold Async.result_at. induction rs as [|[j r'] rs IH]; simpl; [tauto|].
  intros D H. inversion D as [|? ? Nj D']; subst.
  destruct (Nat.eqb_spec j i) as [->|Ne].
  - destruct H as [H|H]; [now injection H as ->|].
    exfalso. apply Nj. now apply (in_map fst) in H.
  - destruct H as [H|H]; [congruence|]. now apply IH.
Qed.

Lemma result_at_Some {B} (rs : list (nat * outcome X B)) (i : nat) (r : outcome X B) :
  Async.result_at rs i = Some r -> In (i, r) rs.
Proof.
  unfold Async.result_at. induction rs as [|[j r'] rs IH]; simpl; [discriminate|].
  destruct (Nat.eqb_spec j i) as [->|Ne]; simpl.
  - intros H. injection H as ->. now left.
  - intros H. right. now apply IH.
Qed.

Lemma result_at_covered {B} (rs : list (nat * outcome X B)) (i : nat) :
  In i (map fst rs) -> exists r, Async.result_at rs i = Some r.
Proof.
  unfold Async.result_at. induction rs as [|[j r'] rs IH]; simpl; [tauto|].
  destruct (Nat.eqb_spec j i) as [->|Ne]; simpl; [eauto|].
  intros [H|H]; [congruence|]. now apply IH.
Qed.

(** When every position from [a] on has a result, the results by position
    are as many as the positions, each at its place. *)
Lemma by_position_from {B} (rs : list (nat * outcome X B)) (n a : nat) :
  (forall i, a <= i < a + n -> In i (map fst rs)) ->
  let l := flat_map (fun i => match Async.result_at rs i with
                              | Some r => [r]
                              | None => []
                              end) (seq a n) in
  List.length l = n
  /\ forall k, k < n -> nth_error l k = Async.result_at rs (a + k).
Proof.
  revert a. induction n as [|n IH]; intros a C; simpl.
  - split; [reflexivity|]. intros k Hk. lia.
  - destruct (@result_at_covered _ rs a (C a ltac:(lia))) as [r Hr]. rewrite Hr.
    destruct (IH (S a)) as [Ln N]; [intros i Hi; apply C; lia|].
    simpl. split; [now rewrite Ln|].
    intros [|k] Hk; simpl.
    + now rewrite Nat.add_0_r.
    + rewrite N by lia. f_equal. lia.
Qed.

Lemma by_position_spec {B} (rs : list (nat * outcome X B)) (n : nat) :
  Permutation (map fst rs) (seq 0 n) ->
  List.length (Async.by_position n rs) = n
  /\ forall i r, In (i, r) rs <-> nth_error (Async.by_position n rs) i = Some r.
Proof.
  intros P. unfold Async.by_position.
  assert (D : NoDup (map fst rs))
    by (apply (Permutation_NoDup (Permutation_sym P)), seq_NoDup).
  destruct (@by_position_from _ rs n 0) as [Ln N].
  { intros i Hi. apply (Permutation_in _ (Permutation_sym P)), in_seq. lia. }
  split; [exact Ln|]. intros i r. split.
  - intros H. assert (Hi : i < n).
    { apply (in_map fst) in H. apply (Permutation_in _ P) in H.
      apply in_seq in H. simpl in H. lia. }
    rewrite (N i Hi). simpl. now apply result_at_In.
  - intros H. assert (Hi : i < n).
    { rewrite <- Ln. apply nth_error_Some. congruence. }
    rewrite (N i Hi) in H. simpl in H. now apply result_at_Some.
Qed.

Lemma at_positions_all {J} (xs : list J) : at_positions xs (seq 0 (List.length xs)) = xs.
Proof.
  unfold at_positions. induction xs as [|x xs IH]; [reflexivity|].
  cbn [List.length seq flat_map nth_error app]. f_equal.
  rewrite <- seq_shift, flat_map_concat_map, map_map, <- flat_map_concat_map.
  exact IH.
Qed.

(** A schedule that is a permutation of the positions reaches every entry
    exactly once. *)
Lemma at_positions_perm {J} (xs : list J) (order : list nat) :
  Permutation order (seq 0 (List.length xs)) -> Permutation (at_positions xs order) xs.
Proof.
  intros P. rewrite <- (at_positions_all xs) at 2.
  unfold at_positions. now apply Permutation_flat_map.
Qed.

Lemma gather_by_invoke {J B} (ev : J -> Ev) (body : J -> Env -> Env * outcome X B)
    (xs : list J) (order : list nat) (w : traced Env Ev) :
  forallb (fun x => Async.captured (snd x)) (snd (outcomes_by body xs order (env w))) = true ->
  Async.gather_by order (map (fun x => invoke (ev x) (body x)) xs) w
  = (mkTraced (fst (outcomes_by body xs order (env w)))
              (trace w ++ map ev (at_positions xs order)) (event_loop w),
     Return (Async.by_position (List.length xs) (snd (outcomes_by body xs order (env w))))).
Proof. intros H. unfold Async.gather_by. now rewrite (run_by_invoke _ _ _ _ _ H), length_map. Qed.

Lemma schedule_positions {J B} (body : J -> Env -> Env * outcome X B) (xs : list J)
    (order : list nat) (e : Env) :
  Permutation order (seq 0 (List.length xs)) ->
  Permutation (map fst (snd (outcomes_by body xs order e))) (seq 0 (List.length xs)).
Proof.
  intros P. rewrite outcomes_by_positions; [exact P|].
  apply Forall_forall. intros i Hi. apply (Permutation_in _ P) in Hi.
  apply in_seq in Hi. lia.
Qed.

Lemma by_position_forallb {B} (p : outcome X B -> bool) (rs : list (nat * outcome X B))
    (n : nat) :
  Permutation (map fst rs) (seq 0 n) ->
  forallb p (Async.by_position n rs) = forallb (fun x => p (snd x)) rs.
Proof.
  intros P. destruct (@by_position_spec _ rs n P) as [_ S].
  apply Bool.eq_iff_eq_true. rewrite !forallb_forall. split.
  - intros H [i r] Hx. apply H. apply S in Hx. now apply nth_error_In in Hx.
  - intros H r Hr. destruct (In_nth_error _ _ Hr) as [i Hi].
    apply S in Hi. exact (H _ Hi).
Qed.

Lemma combine_seq_In {B} (rs : list B) (a i : nat) (r : B) :
  nth_error rs i = Some r -> In (a + i, r) (combine (seq a (List.length rs)) rs).
Proof.
  revert a i. induction rs as [|x rs IH]; intros a [|i]; simpl; try discriminate.
  - intros H. injection H as ->. left. now rewrite Nat.add_0_r.
  - intros H. right. replace (a + S i) with (S a + i) by lia. now apply IH.
Qed.

End Schedules.

Section InOrder.

Variables (W X : Type).
Context {L : Loop W} {IX : Interrupts X}.

Lemma run_by_seq {A} (post : list (Async.M W X A)) :
  forall (pre : list (Async.M W X A)) (w : W),
    Async.run_by (pre ++ post) (seq (List.length pre) (List.length post)) w
    = match Async.gather post w with
      | (w', Return rs) =>
          (w', Return (combine (seq (List.length pre) (List.length post)) rs))
      | (w', Raise e) => (w', Raise e)
      end.
Proof.
  induction post as [|m post IH]; intros pre w; [reflexivity|].
  cbn [List.length seq Async.run_by Async.gather].
  rewrite nth_error_app2, Nat.sub_diag by lia. cbn [nth_error].
  destruct (m w) as [w1 r]. destruct (Async.leaving r) as [e|].
  - unfold Async.interrupt. now destruct (loop w1).
  - replace (pre ++ m :: post) with ((pre ++ [m]) ++ post) by now rewrite <- app_assoc.
    replace (S (List.length pre)) with (List.length (pre ++ [m]))
      by (rewrite length_app; simpl; lia).
    rewrite IH. now destruct (Async.gather post w1) as [w2 [rs|e]].
Qed.

(** In list order the schedule is the one of [Async.gather]. *)
Lemma gather_by_seq {A} (ms : list (Async.M W X A)) (w : W) :
  Async.gather_by (seq 0 (List.length ms)) ms w = Async.gather ms w.
Proof.
  unfold Async.gather_by.
  pose proof (run_by_seq ms [] w) as Rn. cbn [app List.length] in Rn. rewrite Rn. clear Rn.
  pose proof (@gather_length W X _ _ _ ms w) as Ln.
  destruct (Async.gather ms w) as [w' [rs|e]]; [|reflexivity].
  specialize (Ln w' rs eq_refl). f_equal. f_equal.
  assert (P : Permutation (map fst (combine (seq 0 (List.length ms)) rs))
                          (seq 0 (List.length ms))).
  { rewrite <- Ln at 1. rewrite <- Ln at 1.
    replace (map fst (combine (seq 0 (List.length rs)) rs)) with (seq 0 (List.length rs));
      [now rewrite Ln|].
    generalize 0. clear. induction rs as [|r rs IH]; intros a; simpl; [reflexivity|].
    now rewrite <- IH. }
  destruct (@by_position_spec _ _ _ _ P) as [Ln' S].
  apply nth_error_ext. intros i.
  destruct (nth_error rs i) as [r|] eqn:N.
  - apply S. rewrite <- Ln. exact (combine_seq_In rs 0 i N).
  - apply nth_error_None. apply nth_error_None in N. lia.
Qed.

End InOrder.

Section Run.

Variables (Env O R A X : Type).
Context {IX : Interrupts X}.
Variable as_exception : ParallelException O R X -> X.
Variable op_body : O -> Env -> Env * outcome X R.

Lemma succeeded_failed_length (objects : list O) (results : list (outcome X R)) :
  List.length objects = List.length results ->
  List.length (succeeded_objects objects results)
  + List.length (failed_objects objects results) = List.length objects.
Proof.
  revert results. induction objects as [|o os IH]; intros [|[r|e] rs]; simpl;
    try discriminate; auto; intros Ln; specialize (IH rs); lia.
Qed.

Lemma no_Rollback_in_ops (objects : list O) :
  existsb is_Rollback (map (@Op O R) objects) = false.
Proof. induction objects; simpl; auto. Qed.

Lemma all_return_captured {B} (rs : list (nat * outcome X B)) :
  forallb (fun x => is_return (snd x)) rs = true ->
  forallb (fun x => Async.captured (snd x)) rs = true.
Proof.
  rewrite !forallb_forall. intros H x Hx. apply captured_return, H, Hx.
Qed.

(** In list order [run_in_parallel_by] is [run_in_parallel]. *)
Lemma run_in_parallel_in_order {W} {L : Loop W} (objects : list O)
    (op : O -> Async.M W X R) (rollback_op : option (O -> R -> Async.M W X A))
    (message : string) (w : W) :
  run_in_parallel_by as_exception
    (seq 0 (List.length objects))
    (seq 0 (List.length
              (succeeded_of
                 (combine objects
                    match snd (Async.gather (map op objects) w) with
                    | Return results => results
                    | Raise _ => []
                    end))))
    objects op rollback_op message w
  = run_in_parallel as_exception objects op rollback_op message w.
Proof.
  unfold run_in_parallel_by, run_in_parallel, run_in_parallel_with, Async.bind.
  rewrite <- (length_map op objects) at 1. rewrite gather_by_seq.
  destruct (Async.gather (map op objects) w) as [w1 [results|e]]; [|reflexivity].
  cbn [snd].
  destruct (Nat.eqb _ 0); [reflexivity|].
  destruct rollback_op as [rollback|]; [|reflexivity].
  rewrite <- (length_map (fun x => rollback (fst x) (snd x))
                         (succeeded_of (combine objects results))).
  now rewrite gather_by_seq.
Qed.

(** C2. Let the operations complete in any order, and let the operation
    return on every object.  Then [run_in_parallel] returns a list [rs] that
    is index-aligned with the objects, whatever the order: it has their
    number, and its [i]-th entry is what the operation returned on the
    [i]-th object.  The calls made are the operation on each object, once;
    the rollback operation, whether given or [None], is not called. *)
Theorem run_in_parallel_all_succeed
    (rollback_body : option (O -> R -> Env -> Env * outcome X A))
    (order order' : list nat) (objects : list O) (message : string)
    (w : traced Env (invocation O R)) :
  Permutation order (seq 0 (List.length objects)) ->
  forallb (fun x => is_return (snd x)) (snd (outcomes_by op_body objects order (env w)))
  = true ->
  exists rs,
    run_in_parallel_by as_exception order order' objects (observed_op op_body)
                       (observed_rollback rollback_body) message w
    = (mkTraced (fst (outcomes_by op_body objects order (env w)))
                (trace w ++ map Op (at_positions objects order)) (event_loop w),
       Return rs)
    /\ List.length rs = List.length objects
    /\ (forall i o, nth_error objects i = Some o ->
          exists r, nth_error rs i = Some r
                    /\ In (i, Return r) (snd (outcomes_by op_body objects order (env w)))
                    /\ exists e, snd (op_body o e) = Return r)
    /\ Permutation (map (@Op O R) (at_positions objects order)) (map Op objects)
    /\ existsb is_Rollback (map (@Op O R) (at_positions objects order)) = false.
Proof.
  intros P H.
  pose proof (schedule_positions op_body objects (env w) P) as Ps.
  pose proof (all_return_captured _ H) as Hc.
  set (ran := outcomes_by op_body objects order (env w)) in *.
  set (results := Async.by_position (List.length objects) (snd ran)).
  destruct (@by_position_spec _ _ _ _ Ps) as [Ln S]. fold results in Ln, S.
  assert (H' : forallb is_return results = true)
    by (unfold results; rewrite by_position_forallb by exact Ps; exact H).
  pose proof (returned_of_aligned _ H') as Al.
  exists (returned_of results).
  split; [|split; [|split; [|split]]].
  - unfold run_in_parallel_by, run_in_parallel_with, observed_op, Async.bind.
    rewrite gather_by_invoke by exact Hc. fold ran. fold results.
    rewrite failed_of_combine.
    assert (F : failed_objects objects results = []).
    { apply failed_objects_nil; [now rewrite Ln|exact H']. }
    now rewrite F.
  - pose proof (f_equal (@List.length _) Al) as E. rewrite length_map in E. congruence.
  - intros i o Hi.
    assert (Hlt : i < List.length results).
    { rewrite Ln. apply nth_error_Some. congruence. }
    destruct (nth_error results i) as [out|] eqn:N;
      [|apply nth_error_None in N; lia].
    pose proof N as N'. rewrite <- Al, nth_error_map in N'.
    destruct (nth_error (returned_of results) i) as [r|]; simpl in N'; [|discriminate].
    injection N' as <-. exists r. split; [reflexivity|].
    apply S in N. split; [exact N|].
    destruct (outcomes_by_In _ _ _ _ _ _ N) as (x & e & Hx & Hr).
    exists e. congruence.
  - apply Permutation_map. now apply at_positions_perm.
  - apply no_Rollback_in_ops.
Qed.

(** C1, amended. Let the operations complete in any order, and the
    rollback operations in any order, let the operation raise on at least
    one object, and let no operation and no rollback raise
    [KeyboardInterrupt] or [SystemExit], which leave the event loop.  Then
    [run_in_parallel] raises a [ParallelException] with the given message
    and the list of the objects that failed, each with its exception.  With
    a rollback operation the calls made are the operation on each object,
    once, and then the rollback on each object whose operation returned,
    once, with that object and its result; the exception lists the
    rollbacks that raised, with object and result, and is raised whether or
    not a rollback raised.  Without a rollback operation no further call is
    made and that list is empty.  Every object is either rolled back or
    listed as failed. *)
Theorem run_in_parallel_some_fail
    (rollback_body : option (O -> R -> Env -> Env * outcome X A))
    (order order' : list nat) (objects : list O) (message : string)
    (w : traced Env (invocation O R)) :
  Permutation order (seq 0 (List.length objects)) ->
  forallb (fun x => is_return (snd x)) (snd (outcomes_by op_body objects order (env w)))
  = false ->
  forallb (fun x => Async.captured (snd x)) (snd (outcomes_by op_body objects order (env w)))
  = true ->
  let ran := outcomes_by op_body objects order (env w) in
  let results := Async.by_position (List.length objects) (snd ran) in
  let succeeded := succeeded_objects objects results in
  let failed := failed_objects objects results in
  Permutation order' (seq 0 (List.length succeeded)) ->
  match rollback_body with
  | Some body =>
      let rolled := outcomes_by (fun x => body (fst x) (snd x)) succeeded order' (fst ran) in
      forallb (fun x => Async.captured (snd x)) (snd rolled) = true ->
      run_in_parallel_by as_exception order order' objects (observed_op op_body)
                         (observed_rollback rollback_body) message w
      = (mkTraced (fst rolled)
                  (trace w ++ map Op (at_positions objects order)
                   ++ map (fun x => Rollback (fst x) (snd x))
                          (at_positions succeeded order'))
                  (event_loop w),
         Raise (as_exception
                  (mkParallelException message failed
                     (failed_rollback_objects succeeded
                        (Async.by_position (List.length succeeded) (snd rolled))))))
  | None =>
      run_in_parallel_by as_exception order order' objects (observed_op op_body)
                         (observed_rollback rollback_body) message w
      = (mkTraced (fst ran) (trace w ++ map Op (at_positions objects order)) (event_loop w),
         Raise (as_exception (mkParallelException message failed [])))
  end
  /\ failed <> []
  /\ List.length succeeded + List.length failed = List.length objects
  /\ Permutation (at_positions objects order) objects
  /\ Permutation (at_positions succeeded order') succeeded.
Proof.
  intros P H Hc ran results succeeded failed P'.
  pose proof (schedule_positions op_body objects (env w) P) as Ps. fold ran in Ps.
  destruct (@by_position_spec _ _ _ _ Ps) as [Ln _]. fold results in Ln.
  assert (H' : forallb is_return results = false)
    by (unfold results; rewrite by_position_forallb by exact Ps; exact H).
  assert (F : failed <> []).
  { intros C. apply failed_objects_nil in C; [|now rewrite Ln]. congruence. }
  split; [|split; [exact F|split; [apply succeeded_failed_length; now rewrite Ln|]]].
  - assert (N : Nat.eqb (List.length failed) 0 = false).
    { destruct failed; [congruence|reflexivity]. }
    destruct rollback_body as [body|]; [intros rolled Hr|]; cbn [observed_rollback];
      unfold run_in_parallel_by, run_in_parallel_with, observed_op, Async.bind;
      rewrite gather_by_invoke by exact Hc; fold ran; fold results;
      rewrite failed_of_combine, ?succeeded_of_combine;
      fold failed; fold succeeded; rewrite N.
    + rewrite (gather_by_invoke (fun x => Rollback (fst x) (snd x))
                                (fun x => body (fst x) (snd x))) by exact Hr.
      cbn. rewrite failed_rollbacks_combine. now rewrite <- app_assoc.
    + reflexivity.
  - split; now apply at_positions_perm.
Qed.

End Run.

(** Three objects; the operation doubles a number and fails on odd ones,
    the rollback fails on 4. *)
Definition double_even (o : nat) (e : unit) : unit * outcome (pyexc nat nat) nat :=
  (e, if Nat.even o then Return (2 * o) else Raise (Builtin (EngineError o))).

Definition undo_but_4 (o r : nat) (e : unit) : unit * outcome (pyexc nat nat) unit :=
  (e, if Nat.eqb o 4 then Raise (Builtin (EngineError r)) else Return tt).

Lemma run_in_parallel_all_succeed_witness :
  exists rs,
    run_in_parallel_by (@Parallel nat nat) [2; 0; 1] [] [2; 4; 6] (observed_op double_even)
                       (observed_rollback (Some undo_but_4)) "failed"
                       (mkTraced tt [] Running)
    = (mkTraced tt [Op 6; Op 2; Op 4] Running, Return rs)
    /\ nth_error rs 0 = Some 4 /\ nth_error rs 1 = Some 8 /\ nth_error rs 2 = Some 12.
Proof.
  destruct (@run_in_parallel_all_succeed unit nat nat unit (pyexc nat nat) _
              (@Parallel nat nat)
              double_even (Some undo_but_4) [2; 0; 1] [] [2; 4; 6] "failed"
              (mkTraced tt [] Running)
              (Permutation_cons_append [0; 1] 2) eq_refl)
    as [rs [H1 [_ [H2 _]]]].
  exists rs. split; [exact H1|].
  destruct (H2 0 2 eq_refl) as [r0 [N0 [I0 _]]].
  destruct (H2 1 4 eq_refl) as [r1 [N1 [I1 _]]].
  destruct (H2 2 6 eq_refl) as [r2 [N2 [I2 _]]].
  vm_compute in I0, I1, I2.
  repeat split.
  - rewrite N0. destruct I0 as [I|[I|[I|[]]]]; congruence.
  - rewrite N1. destruct I1 as [I|[I|[I|[]]]]; congruence.
  - rewrite N2. destruct I2 as [I|[I|[I|[]]]]; congruence.
Defined.

Lemma run_in_parallel_some_fail_witness :
  run_in_parallel_by (@Parallel nat nat) [1; 2; 0] [1; 0] [2; 3; 4] (observed_op double_even)
                     (observed_rollback (Some undo_but_4)) "failed" (mkTraced tt [] Running)
  = (mkTraced tt [Op 3; Op 4; Op 2; Rollback 4 8; Rollback 2 4] Running,
     Raise (Parallel (mkParallelException "failed"
                        [(Builtin (EngineError 3), 3)]
                        [(Builtin (EngineError 8), 4, 8)]))).
Proof.
  exact (proj1 (@run_in_parallel_some_fail unit nat nat unit (pyexc nat nat) _
                  (@Parallel nat nat) double_even (Some undo_but_4) [1; 2; 0] [1; 0]
                  [2; 3; 4] "failed" (mkTraced tt [] Running)
                  (Permutation_sym (Permutation_cons_append [1; 2] 0)) eq_refl eq_refl
                  (perm_swap 0 1 [])) eq_refl).
Defined.

(** Three objects; the operation raises [KeyboardInterrupt] on 3. *)
Definition interrupted_on_3 (o : nat) (e : unit) : unit * outcome (pyexc nat nat) nat :=
  (e, if Nat.eqb o 3 then Raise (Builtin KeyboardInterrupt) else Return (2 * o)).

Definition undo (o r : nat) (e : unit) : unit * outcome (pyexc nat nat) unit :=
  (e, Return tt).

Definition run_interrupted_on_3
  : traced unit (invocation nat nat) * outcome (pyexc nat nat) (list nat) :=
  run_in_parallel (@Parallel nat nat) [2; 3; 4] (observed_op interrupted_on_3)
                  (observed_rollback (Some undo)) "failed" (mkTraced tt [] Running).

(** C1, as stated, fails: the operation returns on 2 and raises
    [KeyboardInterrupt] on 3.  The exception leaves the event loop: the
    operation on 4 does not start, the rollback is not called on 2, and what
    [run_in_parallel] raises is [CancelledError], not a
    [ParallelException]. *)
Lemma interrupt_skips_rollback :
  snd (interrupted_on_3 2 tt) = Return 4
  /\ is_raise (snd (interrupted_on_3 3 tt)) = true
  /\ trace (fst run_interrupted_on_3) = [Op 2; Op 3]
  /\ existsb is_Rollback (trace (fst run_interrupted_on_3)) = false
  /\ snd run_interrupted_on_3 = Raise (Builtin CancelledError)
  /\ ~ exists p, snd run_interrupted_on_3 = Raise (Parallel p).
Proof.
  repeat split. intros [p H]. discriminate.
Qed.

End ParallelFacts.

(** ** The life cycle of a run *)

Module BenchmarkerFacts.
Import Benchmarker.
Import ParallelFacts.

Section LifeCycle.

Variables (Env F D : Type).
Variable engine : call F D -> Env -> Env * outcome (exc F) unit.
Variable rate : F -> string -> Env -> Env * outcome (exc F) Rating.NLUIntentRating.
Variable fw_title : F -> FrameworkTitle.
Variable ds_title : D -> DataSetTitle.
Variable training_data : D -> Env -> list NLUDataEntry.
Variable validation_data : D -> Env -> list NLUDataEntry.
Variable ds_reshuffle : D -> Env -> Env * outcome (exc F) unit.
Variable cancel_flag : Env -> bool.

(** While the event loop is not closed, the finalizer runs. *)
Lemma try_finally_open {A B} (body : Async.M (world Env F D) (exc F) A)
    (finalizer : Async.M (world Env F D) (exc F) B) (w : world Env F D) :
  event_loop (fst (body w)) <> Closed ->
  Async.try_finally body finalizer w
  = match finalizer (fst (body w)) with
    | (w2, Return _) => (w2, snd (body w))
    | (w2, Raise e) => (w2, Raise e)
    end.
Proof.
  unfold Async.try_finally. destruct (body w) as [w1 r]. cbn [fst snd loop traced_Loop].
  destruct (event_loop w1); try reflexivity. now intros H.
Qed.

Lemma outcomes_captured {J B} (body : J -> Env -> Env * outcome (exc F) B) (xs : list J)
    (e : Env) :
  (forall x e', Async.captured (snd (body x e')) = true) ->
  forallb Async.captured (snd (outcomes body xs e)) = true.
Proof.
  intros H. revert e. induction xs as [|x xs IH]; intros e; cbn [outcomes]; [reflexivity|].
  specialize (H x e). destruct (body x e) as [e1 r]. specialize (IH e1).
  destruct (outcomes body xs e1) as [e2 rs]. cbn [fst snd forallb] in *.
  now rewrite H, IH.
Qed.

Hypothesis kept : stays_in_loop engine rate.

Lemma validate_datum_trace (f : F) (cm : ConfusionMatrix) (x : NLUDataEntry)
    (w : world Env F D) :
  let m := validate_datum rate f cm x w in
  trace (fst m) = trace w ++ [Rate f (entry_sentence x)]
  /\ event_loop (fst m) = event_loop w
  /\ Async.captured (snd m) = true.
Proof.
  unfold validate_datum, Async.bind, rateIntents, invoke, builtin, Async.lift, Async.ret.
  cbv zeta. pose proof (proj2 kept f (entry_sentence x) (env w)) as K.
  destruct (rate f (entry_sentence x) (env w)) as [e1 [rating|ex]];
    cbn [fst snd trace event_loop] in *; [|auto].
  unfold Rating.detected_intent. destruct (Rating.sorted_intents rating); cbn; auto.
Qed.

Lemma validate_trace (f : F) (vd : list NLUDataEntry) (cm : ConfusionMatrix)
    (w : world Env F D) :
  let m := Async.fold_M (validate_datum rate f) vd cm w in
  event_loop (fst m) = event_loop w
  /\ Async.captured (snd m) = true
  /\ exists k,
       k <= List.length vd
       /\ trace (fst m) = trace w ++ map (Rate f) (firstn k (map entry_sentence vd))
       /\ (is_return (snd m) = true -> k = List.length vd).
Proof.
  revert cm w. induction vd as [|x vd IH]; intros cm w; cbn [Async.fold_M].
  - cbn. split; [reflexivity|]. split; [reflexivity|].
    exists 0. cbn. rewrite app_nil_r. auto.
  - unfold Async.bind.
    destruct (validate_datum_trace f cm x w) as (T & Lp & C).
    destruct (validate_datum rate f cm x w) as [w1 [cm1|ex]]; cbn [fst snd] in T, Lp, C |- *.
    + destruct (IH cm1 w1) as (Lp1 & C1 & k & K1 & K2 & K3).
      split; [congruence|]. split; [exact C1|].
      exists (S k). split; [simpl; lia|]. split.
      * rewrite K2, T. simpl. now rewrite <- app_assoc.
      * intros H. simpl. now rewrite (K3 H).
    + split; [exact Lp|]. split; [exact C|].
      exists 1. split; [simpl; lia|]. split; [exact T|discriminate].
Qed.

Lemma benchmark_trace (f : F) (d : D) (w : world Env F D) :
  event_loop w <> Closed ->
  let m := benchmark engine rate training_data validation_data f d w in
  event_loop (fst m) = event_loop w
  /\ Async.captured (snd m) = true
  /\ exists c,
       trace (fst m) = trace w ++ c
       /\ benchmark_calls engine training_data validation_data f d (env w)
            (is_return (snd m)) c.
Proof.
  intros Op. cbv zeta. unfold benchmark. rewrite try_finally_open.
  - unfold benchmark_calls, Async.bind, observe, train, cleanupTraining, invoke, validate.
    cbn [fst snd env trace event_loop].
    pose proof (proj1 kept (Train f (training_data d (env w))) (env w)) as KT.
    destruct (engine (Train f (training_data d (env w))) (env w)) as [e1 [u|ex]];
      cbn [fst snd env trace event_loop] in *.
    + set (w1 := mkTraced e1 (trace w ++ [Train f (training_data d (env w))])
                          (event_loop w) : world Env F D).
      destruct (validate_trace f (validation_data d e1) [] w1)
        as (Lp & C & k & K1 & K2 & K3).
      destruct (Async.fold_M (validate_datum rate f) (validation_data d e1) [] w1)
        as [w2 r]. cbn [fst snd] in Lp, C, K2, K3 |- *.
      pose proof (proj1 kept (Cleanup f) (env w2)) as KC.
      assert (T : forall e3 s t, trace (mkTraced e3 (trace w2 ++ t) s : world Env F D)
                  = trace w ++ Train f (training_data d (env w))
                    :: map (Rate f) (firstn k (map entry_sentence (validation_data d e1)))
                    ++ t).
      { intros e3 s t. cbn [trace]. rewrite K2. unfold w1. cbn [trace].
        rewrite <- !app_assoc. reflexivity. }
      destruct (engine (Cleanup f) (env w2)) as [e3 [u3|ex3]]; cbn [fst snd event_loop] in *;
        (split; [exact Lp|]); (split; [assumption|]);
        exists (Train f (training_data d (env w))
                :: map (Rate f) (firstn k (map entry_sentence (validation_data d e1)))
                ++ [Cleanup f]);
        (split; [apply T|]).
      * destruct r as [cm|ex]; cbn [is_return is_raise negb].
        -- rewrite (K3 eq_refl), <- length_map with (f := entry_sentence), firstn_all.
           reflexivity.
        -- exists k. rewrite length_map. auto.
      * exists k. rewrite length_map. auto.
    + pose proof (proj1 kept (Cleanup f) e1) as KC.
      destruct (engine (Cleanup f) e1) as [e3 [u3|ex3]]; cbn [fst snd event_loop trace] in *;
        (split; [reflexivity|]); (split; [assumption|]);
        exists [Train f (training_data d (env w)); Cleanup f];
        (split; [now rewrite <- app_assoc|]);
        exists 0; split; try lia; reflexivity.
  - unfold Async.bind, observe, train, invoke, validate. cbn [fst snd env].
    destruct (engine (Train f (training_data d (env w))) (env w)) as [e1 [u|ex]];
      cbn [fst snd event_loop]; [|exact Op].
    match goal with
    | |- event_loop (fst (Async.fold_M _ ?vd ?cm ?w1)) <> _ =>
        destruct (validate_trace f vd cm w1) as (Lp & _); rewrite Lp
    end.
    exact Op.
Qed.

(** Gathered awaitables that keep their exceptions and leave the event
    loop as it is. *)
Lemma gather_parts {J A} (op : J -> Async.M (world Env F D) (exc F) A)
    (Q : J -> bool -> list (call F D) -> Prop) :
  (forall x w, event_loop w <> Closed ->
               event_loop (fst (op x w)) = event_loop w
               /\ Async.captured (snd (op x w)) = true
               /\ exists c, trace (fst (op x w)) = trace w ++ c
                            /\ Q x (is_return (snd (op x w))) c) ->
  forall xs w,
    event_loop w <> Closed ->
    exists w' rs parts,
      Async.gather (map op xs) w = (w', Return rs)
      /\ event_loop w' = event_loop w
      /\ trace w' = trace w ++ List.concat parts
      /\ Forall2 (fun x p => exists b, Q x b p /\ (forallb is_return rs = true -> b = true))
                 xs parts.
Proof.
  intros H xs. induction xs as [|x xs IH]; intros w Op; cbn [map Async.gather].
  - exists w, [], []. cbn. rewrite app_nil_r. auto.
  - destruct (H x w Op) as (Lp & C & c & C1 & C2).
    destruct (op x w) as [w1 r]. cbn [fst snd] in Lp, C, C1, C2.
    rewrite (captured_leaving _ C).
    destruct (IH w1) as (w2 & rs & parts & G & Lp2 & P1 & P2); [now rewrite Lp|].
    rewrite G. exists w2, (r :: rs), (c :: parts).
    split; [reflexivity|]. split; [congruence|]. split.
    + cbn [List.concat]. rewrite P1, C1. now rewrite <- app_assoc.
    + constructor.
      * exists (is_return r). split; [exact C2|].
        cbn [forallb]. intros E. now apply andb_true_iff in E.
      * eapply Forall2_impl; [|exact P2].
        intros y p [b [B1 B2]]. exists b. split; [exact B1|].
        cbn [forallb]. intros E. apply B2. now apply andb_true_iff in E.
Qed.

Lemma iteration_trace (frameworks : list F) (d : D) (its : Iterations) (i : nat)
    (w : world Env F D) :
  event_loop w <> Closed ->
  let m := iteration engine rate fw_title ds_title training_data validation_data
             ds_reshuffle cancel_flag frameworks d its i w in
  event_loop (fst m) = event_loop w
  /\ exists c b,
       trace (fst m) = trace w ++ c
       /\ iteration_calls engine training_data validation_data frameworks d b c
       /\ (is_return (snd m) = true -> b = true).
Proof.
  intros Op. cbv zeta.
  destruct (gather_parts
              (fun x => benchmark engine rate training_data validation_data x d)
              (fun f b c => exists e, benchmark_calls engine training_data validation_data
                                         f d e b c)
              (fun x w0 Op0 => match benchmark_trace x d w0 Op0 with
                               | conj Lp (conj C (ex_intro _ c (conj C1 C2))) =>
                                   conj Lp (conj C (ex_intro _ c
                                     (conj C1 (ex_intro _ (env w0) C2))))
                               end)
              frameworks w Op) as (w1 & rs & parts & G & Lp & P1 & P2).
  unfold iteration, Async.bind. rewrite run_in_parallel_None, G.
  assert (IC : iteration_calls engine training_data validation_data frameworks d
                 (forallb is_return rs) (List.concat parts)).
  { exists parts. split; [reflexivity|].
    eapply Forall2_impl; [|exact P2].
    intros f p [b [[e B1] B2]]. exists e, b. auto. }
  destruct (forallb is_return rs); cbn [fst snd].
  - unfold reshuffle, builtin, Async.lift, observe, Async.raise, Async.ret.
    destruct (ds_reshuffle d (env w1)) as [e1 [u|ex]]; cbn [fst snd event_loop trace env].
    + destruct (nth_error _ i); cbn [fst snd event_loop trace env].
      * destruct (cancel_flag e1); cbn [fst snd event_loop trace];
          (split; [exact Lp|]); exists (List.concat parts), true; auto.
      * split; [exact Lp|]. exists (List.concat parts), true. auto.
    + split; [exact Lp|]. exists (List.concat parts), true. auto.
  - split; [exact Lp|]. exists (List.concat parts), false.
    split; [exact P1|]. split; [exact IC|discriminate].
Qed.

Lemma iterations_trace (frameworks : list F) (d : D) (l : list nat) (its : Iterations)
    (w : world Env F D) :
  event_loop w <> Closed ->
  let m := Async.fold_M
             (iteration engine rate fw_title ds_title training_data validation_data
                ds_reshuffle cancel_flag frameworks d) l its w in
  event_loop (fst m) = event_loop w
  /\ exists parts,
       trace (fst m) = trace w ++ List.concat parts
       /\ List.length parts <= List.length l
       /\ Forall (fun p => exists b,
                    iteration_calls engine training_data validation_data frameworks d b p
                    /\ (is_return (snd m) = true -> b = true)) parts
       /\ (is_return (snd m) = true -> List.length parts = List.length l).
Proof.
  revert its w. induction l as [|i l IH]; intros its w Op; cbn [Async.fold_M].
  - cbn. split; [reflexivity|]. exists []. cbn. rewrite app_nil_r. auto.
  - unfold Async.bind.
    destruct (iteration_trace frameworks d its i w Op) as (Lp & c & b & C1 & C2 & C3).
    destruct (iteration engine rate fw_title ds_title training_data validation_data
                ds_reshuffle cancel_flag frameworks d its i w) as [w1 [its1|ex]];
      cbn [fst snd] in Lp, C1, C3 |- *.
    + destruct (IH its1 w1) as (Lp1 & parts & P1 & P2 & P3 & P4); [now rewrite Lp|].
      split; [congruence|].
      exists (c :: parts). cbn [List.concat List.length]. split; [|split; [lia|split]].
      * rewrite P1, C1. now rewrite <- app_assoc.
      * constructor; [|exact P3]. exists b. split; [exact C2|]. intros _. now apply C3.
      * intros H. now rewrite (P4 H).
    + split; [exact Lp|].
      exists [c]. cbn. rewrite app_nil_r. split; [exact C1|split; [lia|split]].
      * constructor; [|constructor]. exists b. split; [exact C2|discriminate].
      * discriminate.
Qed.

(** A [finally] clause that calls one method on every framework. *)
Lemma try_finally_invoke {A} (body : Async.M (world Env F D) (exc F) A)
    (ev : F -> call F D) (frameworks : list F) (msg : string) (w : world Env F D) :
  event_loop (fst (body w)) <> Closed ->
  let m := Async.try_finally body
             (Parallel.run_in_parallel (as_exception (F := F) (fun _ : unit => VNone))
                frameworks (fun x => invoke (ev x) (engine (ev x)))
                (@None (F -> unit -> Async.M (world Env F D) (exc F) unit)) msg) w in
  trace (fst m) = trace (fst (body w)) ++ map ev frameworks
  /\ event_loop (fst m) = event_loop (fst (body w))
  /\ (is_return (snd m) = true -> is_return (snd (body w)) = true).
Proof.
  intros Op. cbv zeta. rewrite try_finally_open by exact Op.
  destruct (body w) as [w2 r]. cbn [fst snd] in *.
  destruct (@run_in_parallel_invoke_None _ _ _ _ unit _ _
              (as_exception (F := F) (fun _ : unit => VNone)) ev
              (fun x => engine (ev x)) frameworks msg w2) as (T & Lp & _).
  { apply outcomes_captured. intros x e'. apply (proj1 kept). }
  unfold world, exc in T, Lp |- *. revert T Lp.
  match goal with
  | |- context [@Parallel.run_in_parallel ?W ?O ?R ?X ?L ?I ?ae ?B ?objs ?op None ?m w2] =>
      destruct (@Parallel.run_in_parallel W O R X L I ae B objs op None m w2)
        as [w3 [u3|ex3]]
  end; intros T Lp; cbn [fst snd] in T, Lp |- *; (split; [exact T|]);
    (split; [exact Lp|]); [auto|discriminate].
Qed.

Lemma iterations_or_cancel_trace (frameworks : list F) (n : nat) (its : Iterations) (d : D)
    (w : world Env F D) :
  event_loop w <> Closed ->
  let m := Async.bind (observe cancel_flag)
             (fun cancelled : bool =>
                if cancelled then Async.raise (Builtin KeyboardInterrupt)
                else Async.fold_M
                       (iteration engine rate fw_title ds_title training_data
                          validation_data ds_reshuffle cancel_flag frameworks d)
                       (seq 0 n) its) w in
  event_loop (fst m) = event_loop w
  /\ exists parts,
       trace (fst m) = trace w ++ List.concat parts
       /\ List.length parts <= n
       /\ Forall (fun p => exists b,
                    iteration_calls engine training_data validation_data frameworks d b p
                    /\ (is_return (snd m) = true -> b = true)) parts
       /\ (is_return (snd m) = true -> List.length parts = n).
Proof.
  intros Op. unfold Async.bind, observe. cbv beta iota zeta. destruct (cancel_flag (env w)).
  - cbn. split; [reflexivity|]. exists []. cbn. rewrite app_nil_r.
    split; [reflexivity|split; [lia|split; [constructor|discriminate]]].
  - destruct (iterations_trace frameworks d (seq 0 n) its w Op)
      as (Lp & parts & P1 & P2 & P3 & P4).
    rewrite length_seq in P2, P4. split; [exact Lp|]. exists parts. auto.
Qed.

Lemma run_data_set_trace (frameworks : list F) (n : nat) (its : Iterations) (d : D)
    (w : world Env F D) :
  event_loop w <> Closed ->
  let m := run_data_set engine rate fw_title ds_title training_data validation_data
             ds_reshuffle cancel_flag frameworks n its d w in
  event_loop (fst m) = event_loop w
  /\ exists c,
       trace (fst m) = trace w ++ c
       /\ data_set_calls engine training_data validation_data frameworks n d (env w)
            (is_return (snd m)) c.
Proof.
  intros Op. cbv zeta.
  unfold run_data_set. unfold Async.bind at 1 3 5. unfold prepareDataSet, unprepareDataSet.
  destruct (@run_in_parallel_invoke_Some _ _ _ _ unit _ _
              (as_exception (F := F) (fun _ : unit => VNone))
              (fun x => Prepare x d) (fun x => engine (Prepare x d))
              (fun x (_ : unit) => Unprepare x) (fun x (_ : unit) => engine (Unprepare x))
              frameworks
              (String.append "Error while preparing all frameworks for the "
                 (String.append (ds_title d) " data set.")) w) as (Ln & R & Lp & T).
  { apply outcomes_captured. intros x e'. apply (proj1 kept). }
  { apply outcomes_captured. intros x e'. apply (proj1 kept). }
  unfold world, exc in R, Lp, T |- *. revert R Lp T.
  match goal with
  | |- context [@Parallel.run_in_parallel ?W ?O ?R ?X ?L ?I ?ae ?A ?objs ?op (Some ?rb) ?msg w] =>
      destruct (@Parallel.run_in_parallel W O R X L I ae A objs op (Some rb) msg w)
        as [w1 [u|ex]]
  end; intros R Lp T; cbn [fst snd] in R, Lp, T; cbv beta iota.
  - (* preparation succeeded *)
    rewrite <- R in T. cbv iota in T. rewrite app_nil_r in T.
    assert (Op1 : event_loop w1 <> Closed) by (now rewrite Lp).
    match goal with
    | |- context [@Async.try_finally ?W ?X ?L ?A ?B ?body ?fin w1] =>
        assert (P : event_loop (fst (body w1)) = event_loop w1
                    /\ exists parts,
                         trace (fst (body w1)) = trace w1 ++ List.concat parts
                         /\ List.length parts <= n
                         /\ Forall (fun p => exists b,
                                      iteration_calls engine training_data validation_data
                                        frameworks d b p
                                      /\ (is_return (snd (body w1)) = true -> b = true))
                                   parts
                         /\ (is_return (snd (body w1)) = true -> List.length parts = n))
          by exact (iterations_or_cancel_trace frameworks n its d w1 Op1);
        destruct P as (LpB & parts & P1 & P2 & P3 & P4);
        assert (OpB : event_loop (fst (body w1)) <> Closed) by (now rewrite LpB);
        assert (U : trace (fst (@Async.try_finally W X L A B body fin w1))
                    = trace (fst (body w1)) ++ map (fun x => Unprepare x) frameworks
                    /\ event_loop (fst (@Async.try_finally W X L A B body fin w1))
                       = event_loop (fst (body w1))
                    /\ (is_return (snd (@Async.try_finally W X L A B body fin w1)) = true ->
                        is_return (snd (body w1)) = true))
          by exact (try_finally_invoke body (fun x => Unprepare x) frameworks
                      "Error unpreparing all frameworks." w1 OpB);
        destruct U as (U1 & LpU & U2);
        destruct (body w1) as [w2 r2];
        destruct (@Async.try_finally W X L A B body fin w1) as [w3 r3]
    end.
    cbn [fst snd] in U1, LpU, U2, LpB, P1, P3, P4 |- *.
    split; [congruence|].
    exists (prepares frameworks d ++ List.concat parts ++ map Unprepare frameworks).
    split.
    + rewrite U1, P1, T. unfold prepares.
      now rewrite <- !app_assoc.
    + right. split; [symmetry; exact R|].
      exists parts. split; [reflexivity|split; [exact P2|split]].
      * eapply Forall_impl; [|exact P3].
        intros p [b [B1 B2]]. exists b. split; [exact B1|].
        intros H. apply B2. apply U2. exact H.
      * intros H. apply P4. apply U2. exact H.
  - (* preparation failed *)
    rewrite <- R in T. cbv iota in T.
    split; [exact Lp|].
    exists (prepares frameworks d
            ++ map (fun x => Unprepare (fst x))
                   (succeeded_objects frameworks
                      (snd (outcomes (fun x => engine (Prepare x d)) frameworks (env w))))).
    split; [exact T|].
    left. split; [reflexivity|]. split; [symmetry; exact R|reflexivity].
Qed.

Lemma run_iterations_trace (frameworks : list F) (n : nat) (dss : list D)
    (its : Iterations) (w : world Env F D) :
  event_loop w <> Closed ->
  let m := Async.fold_M
             (run_data_set engine rate fw_title ds_title training_data validation_data
                ds_reshuffle cancel_flag frameworks n) dss its w in
  event_loop (fst m) = event_loop w
  /\ exists c ok,
       trace (fst m) = trace w ++ c
       /\ data_sets_calls engine training_data validation_data frameworks n dss (env w) ok c
       /\ (is_return (snd m) = true -> ok = true).
Proof.
  revert its w. induction dss as [|d dss IH]; intros its w Op; cbn [Async.fold_M].
  - cbn. split; [reflexivity|].
    exists [], true. rewrite app_nil_r. split; [reflexivity|split; [constructor|auto]].
  - unfold Async.bind.
    destruct (run_data_set_trace frameworks n its d w Op) as (Lp & c & C1 & C2).
    destruct (run_data_set engine rate fw_title ds_title training_data validation_data
                ds_reshuffle cancel_flag frameworks n its d w) as [w1 [its1|ex]];
      cbn [fst snd] in Lp, C1, C2 |- *.
    + destruct (IH its1 w1) as (Lp1 & cs & ok & S1 & S2 & S3); [now rewrite Lp|].
      split; [congruence|].
      exists (c ++ cs), ok. split; [rewrite S1, C1; now rewrite <- app_assoc|].
      split; [exact (calls_next C2 S2)|exact S3].
    + split; [exact Lp|].
      exists c, false. split; [exact C1|]. split; [now constructor|discriminate].
Qed.

(** *** Which calls are [prepareDataSet] and [destruct] calls *)

(** Neither a [prepareDataSet] nor a [destruct] call. *)
Definition quiet (c : list (call F D)) : Prop :=
  filter (@is_Prepare F D) c = [] /\ filter (@is_Destruct F D) c = [].

Lemma quiet_app (c1 c2 : list (call F D)) : quiet c1 -> quiet c2 -> quiet (c1 ++ c2).
Proof.
  intros [A1 A2] [B1 B2]. unfold quiet. rewrite !filter_app, A1, A2, B1, B2. auto.
Qed.

Lemma quiet_concat (parts : list (list (call F D))) :
  Forall quiet parts -> quiet (List.concat parts).
Proof.
  induction 1 as [|p parts P _ IH]; simpl; [split; reflexivity|].
  now apply quiet_app.
Qed.

Lemma quiet_map {J} (ev : J -> call F D) (l : list J) :
  (forall x, is_Prepare (ev x) = false /\ is_Destruct (ev x) = false) ->
  quiet (map ev l).
Proof.
  intros H. induction l as [|x l [IH1 IH2]]; [split; reflexivity|].
  destruct (H x) as [H1 H2]. unfold quiet. simpl. now rewrite H1, H2.
Qed.

Lemma benchmark_calls_quiet (f : F) (d : D) (e : Env) (b : bool) (c : list (call F D)) :
  benchmark_calls engine training_data validation_data f d e b c -> quiet c.
Proof.
  unfold benchmark_calls.
  assert (Q : forall td ss, quiet (Train f td :: map (Rate f) ss ++ [@Cleanup F D f])).
  { intros td ss.
    change (quiet ([@Train F D f td] ++ (map (Rate f) ss ++ [@Cleanup F D f]))).
    apply quiet_app; [split; reflexivity|].
    apply quiet_app; [apply quiet_map; auto|split; reflexivity]. }
  destruct b; [intros ->; apply Q|intros [k [_ ->]]; apply Q].
Qed.

Lemma iteration_calls_quiet (frameworks : list F) (d : D) (b : bool)
    (c : list (call F D)) :
  iteration_calls engine training_data validation_data frameworks d b c -> quiet c.
Proof.
  intros [parts [-> H]]. apply quiet_concat.
  induction H as [|f p fs ps [e [b' [B _]]] _ IH]; constructor; [|exact IH].
  now apply benchmark_calls_quiet in B.
Qed.

Lemma filter_prepares (frameworks : list F) (d : D) :
  filter (@is_Prepare F D) (prepares frameworks d) = prepares frameworks d
  /\ filter (@is_Destruct F D) (prepares frameworks d) = [].
Proof.
  unfold prepares. induction frameworks as [|f fs [IH1 IH2]]; simpl; [auto|].
  now rewrite IH1, IH2.
Qed.

Lemma data_set_calls_filter (frameworks : list F) (n : nat) (d : D) (e : Env) (ok : bool)
    (c : list (call F D)) :
  data_set_calls engine training_data validation_data frameworks n d e ok c ->
  filter (@is_Prepare F D) c = prepares frameworks d
  /\ filter (@is_Destruct F D) c = [].
Proof.
  destruct (filter_prepares frameworks d) as [P1 P2].
  intros [[_ [_ ->]]|[_ [its [-> [_ [H _]]]]]].
  - match goal with
    | |- context [succeeded_objects frameworks ?results] =>
        destruct (quiet_map (fun x : F * unit => Unprepare (fst x))
                    (succeeded_objects frameworks results)) as [Q1 Q2]; [auto|]
    end.
    rewrite !filter_app, P1, P2, Q1, Q2, app_nil_r. auto.
  - destruct (quiet_map (@Unprepare F D) frameworks) as [Q1 Q2]; [auto|].
    destruct (@quiet_concat its) as [I1 I2].
    { eapply Forall_impl; [|exact H]. intros p [b [B _]].
      now apply iteration_calls_quiet in B. }
    rewrite !filter_app, P1, P2, Q1, Q2, I1, I2, !app_nil_r. auto.
Qed.

Lemma data_sets_calls_filter (frameworks : list F) (n : nat) (dss : list D) (e : Env)
    (ok : bool) (c : list (call F D)) :
  data_sets_calls engine training_data validation_data frameworks n dss e ok c ->
  filter (@is_Destruct F D) c = []
  /\ exists k, k <= List.length dss
               /\ filter (@is_Prepare F D) c
                  = flat_map (prepares frameworks) (firstn k dss)
               /\ (ok = true -> k = List.length dss).
Proof.
  induction 1 as [e|d ds e e' ok c cs Hd _ [I1 [k [K1 [K2 K3]]]]|d ds e c Hd].
  - split; [reflexivity|]. exists 0. simpl. auto.
  - destruct (data_set_calls_filter Hd) as [P1 P2].
    split; [now rewrite filter_app, P2, I1|].
    exists (S k). simpl. split; [lia|]. split; [now rewrite filter_app, P1, K2|].
    intros E. now rewrite (K3 E).
  - destruct (data_set_calls_filter Hd) as [P1 P2].
    split; [exact P2|]. exists 1. simpl. rewrite app_nil_r.
    split; [lia|]. split; [exact P1|discriminate].
Qed.

Lemma filter_destructs (frameworks : list F) :
  filter (@is_Destruct F D) (map (@Destruct F D) frameworks)
  = map (@Destruct F D) frameworks
  /\ filter (@is_Prepare F D) (map (@Destruct F D) frameworks) = [].
Proof. induction frameworks as [|f fs [IH1 IH2]]; simpl; [auto|]. now rewrite IH1. Qed.

(** The calls of a run: [c] followed by one [destruct] per framework. *)
Lemma run_trace (frameworks : list F) (data_sets : list D) (n : nat) (w : world Env F D) :
  event_loop w <> Closed ->
  let m := run engine rate fw_title ds_title training_data validation_data
             ds_reshuffle cancel_flag frameworks data_sets n w in
  event_loop (fst m) = event_loop w
  /\ exists c ok,
       trace (fst m) = trace w ++ c ++ map (@Destruct F D) frameworks
       /\ data_sets_calls engine training_data validation_data frameworks n data_sets
            (env w) ok c
       /\ (is_return (snd m) = true -> ok = true).
Proof.
  intros Op. cbv zeta. unfold run, Benchmarker.destruct.
  destruct (run_iterations_trace frameworks n data_sets [] w Op)
    as (LpB & c & ok & S1 & S2 & S3).
  match goal with
  | |- context [@Async.try_finally ?W ?X ?L ?A ?B ?body ?fin w] =>
      assert (OpB : event_loop (fst (body w)) <> Closed)
        by (intros C; apply Op; etransitivity; [symmetry; exact LpB|exact C]);
      assert (U : trace (fst (@Async.try_finally W X L A B body fin w))
                  = trace (fst (body w)) ++ map (fun x => Destruct x) frameworks
                  /\ event_loop (fst (@Async.try_finally W X L A B body fin w))
                     = event_loop (fst (body w))
                  /\ (is_return (snd (@Async.try_finally W X L A B body fin w)) = true ->
                      is_return (snd (body w)) = true))
        by exact (try_finally_invoke body (fun x => Destruct x) frameworks
                    "Error deconstructing all frameworks." w OpB);
      destruct U as (U1 & LpU & U2)
  end.
  split; [etransitivity; [exact LpU|exact LpB]|].
  exists c, ok. split; [|split; [exact S2|]].
  - etransitivity; [exact U1|].
    etransitivity; [apply f_equal2; [exact S1|reflexivity]|]. now rewrite <- app_assoc.
  - intros H. apply S3, U2, H.
Qed.


End LifeCycle.

(** Two frameworks, two data sets; [prepareDataSet] fails on the first data
    set for the first framework.  The engines have no state. *)
Definition failing_prepare (c : call nat nat) (e : unit) : unit * outcome (exc nat) unit :=
  (e, match c with
      | Prepare 0 0 => Raise (Builtin (EngineError 1))
      | _ => Return tt
      end).

Definition rate_greet (f : nat) (s : string) (e : unit)
  : unit * outcome (exc nat) Rating.NLUIntentRating :=
  (e, Return (Rating.init s [(Some "greet", 0.9%float)])).

Definition run_failing_prepare : world unit nat nat * outcome (exc nat) Iterations :=
  run failing_prepare rate_greet (fun _ => "fw") (fun _ => "ds")
      (fun _ _ => [mkEntry "hello" (Some "greet")])
      (fun _ _ => [mkEntry "hi" (Some "greet"); mkEntry "bla" None])
      (fun _ e => (e, Return tt)) (fun _ => false)
      [0] [0; 1] 1 (mkTraced tt [] Running).


Lemma failing_prepare_stays : stays_in_loop failing_prepare rate_greet.
Proof.
  split; [|reflexivity]. intros [[|f] [|d]|f|f td|f s|f|f] e; reflexivity.
Qed.

Definition run_two_failing_prepare : world unit nat nat * outcome (exc nat) Iterations :=
  run failing_prepare rate_greet (fun _ => "fw") (fun _ => "ds")
      (fun _ _ => [mkEntry "hello" (Some "greet")])
      (fun _ _ => [mkEntry "hi" (Some "greet"); mkEntry "bla" None])
      (fun _ e => (e, Return tt)) (fun _ => false)
      [0; 1] [0; 1] 1 (mkTraced tt [] Running).


(** Two frameworks and a data set; [prepareDataSet] raises
    [KeyboardInterrupt] for the first framework. *)
Definition interrupted_prepare (c : call nat nat) (e : unit)
  : unit * outcome (exc nat) unit :=
  (e, match c with
      | Prepare 0 _ => Raise (Builtin KeyboardInterrupt)
      | _ => Return tt
      end).

(** The exception leaves the event loop: [prepareDataSet] is not called
    for the second framework, nothing is unprepared, and the [finally]
    clause of [run] still calls [destruct] on both. *)
Lemma interrupted_prepare_calls :
  run interrupted_prepare rate_greet (fun _ => "fw") (fun _ => "ds")
      (fun _ _ => [mkEntry "hello" (Some "greet")])
      (fun _ _ => [mkEntry "hi" (Some "greet")])
      (fun _ e => (e, Return tt)) (fun _ => false)
      [0; 1] [0] 1 (mkTraced tt [] Running)
  = (mkTraced tt [Prepare 0 0; Destruct 0; Destruct 1] Cancelling,
     Raise (Builtin CancelledError)).
Proof. reflexivity. Qed.

(** When a [destruct] raises [KeyboardInterrupt] too, the event loop is
    closed and nothing runs any more. *)
Definition interrupted_twice (c : call nat nat) (e : unit)
  : unit * outcome (exc nat) unit :=
  (e, match c with
      | Prepare 0 _ => Raise (Builtin KeyboardInterrupt)
      | Destruct 0 => Raise (Builtin KeyboardInterrupt)
      | _ => Return tt
      end).

Lemma interrupted_twice_calls :
  run interrupted_twice rate_greet (fun _ => "fw") (fun _ => "ds")
      (fun _ _ => [mkEntry "hello" (Some "greet")])
      (fun _ _ => [mkEntry "hi" (Some "greet")])
      (fun _ e => (e, Return tt)) (fun _ => false)
      [0; 1] [0] 1 (mkTraced tt [] Running)
  = (mkTraced tt [Prepare 0 0; Destruct 0] Closed, Raise (Builtin KeyboardInterrupt)).
Proof. reflexivity. Qed.

End BenchmarkerFacts.

(** ** The threshold optimizer *)

Module OptimizerFacts.
Import Optimizer.

Section FloatKeys.

Variable V : Type.

(** No key of [d] is equal to [k]. *)
Definition fresh (d : Dict.t float V) (k : float) : Prop :=
  Forall (fun e => PrimFloat.eqb (fst e) k = false) d.

Lemma set_fresh (d : Dict.t float V) (k : float) (v : V) :
  fresh d k -> Dict.set PrimFloat.eqb d k v = d ++ [(k, v)].
Proof.
  induction 1 as [|[k' v'] d H _ IH]; simpl; [reflexivity|].
  simpl in H. now rewrite H, IH.
Qed.

Lemma get_fresh (d : Dict.t float V) (k : float) :
  fresh d k -> Dict.get PrimFloat.eqb d k = None.
Proof.
  induction 1 as [|[k' v'] d H _ IH]; simpl; [reflexivity|].
  simpl in H. now rewrite H.
Qed.

Lemma fresh_app (d : Dict.t float V) (k k' : float) (v : V) :
  fresh d k' -> PrimFloat.eqb k k' = false -> fresh (d ++ [(k, v)]) k'.
Proof.
  intros H E. unfold fresh. apply Forall_app. split; [exact H|].
  constructor; [exact E|constructor].
Qed.

End FloatKeys.

Lemma ascending_tail (t : float) (ts : list float) :
  ascending (t :: ts) = true ->
  ascending ts = true /\ Forall (fun t' => PrimFloat.ltb t t' = true) ts.
Proof.
  revert t. induction ts as [|t' ts IH]; intros t; [simpl; auto|].
  intros H. change (PrimFloat.ltb t t' && ascending (t' :: ts) = true) in H.
  apply andb_true_iff in H. destruct H as [H1 H2].
  split; [exact H2|]. constructor; [exact H1|].
  destruct (IH t' H2) as [_ F].
  eapply Forall_impl; [|exact F]. intros x Hx. exact (FloatOrder.ltb_trans H1 Hx).
Qed.

Lemma ascending_split (l1 l2 : list float) (x : float) :
  ascending (l1 ++ x :: l2) = true -> Forall (fun t' => PrimFloat.ltb x t' = true) l2.
Proof.
  induction l1 as [|y l1 IH]; simpl app; intros H.
  - now apply ascending_tail in H.
  - apply IH. now apply ascending_tail in H.
Qed.

Lemma thresholds_stepped (fuel : nat) (step t : float) (ts : list float) :
  thresholds_from fuel step t = Some ts -> stepped step t ts.
Proof.
  revert t ts. induction fuel as [|fuel IH]; intros t ts; simpl; [discriminate|].
  destruct (PrimFloat.ltb t 1) eqn:L.
  - destruct (thresholds_from fuel step (t + step)) as [ts'|] eqn:T; [|discriminate].
    intros H. injection H as <-. simpl. auto.
  - intros H. injection H as <-. exact L.
Qed.

Lemma stepped_below_1 (step t : float) (ts : list float) :
  stepped step t ts -> Forall (fun x => PrimFloat.ltb x 1 = true) ts.
Proof.
  revert t. induction ts as [|x ts IH]; intros t; simpl; [constructor|].
  intros [-> [L S]]. constructor; [exact L|]. exact (IH _ S).
Qed.

(** The grid search evaluates the thresholds of the loop, in order. *)
Lemma grid_search_thresholds (fuel : nat) (calc : float -> outcome pyerr pynum)
    (step t : float) (g0 g : Grid) :
  grid_search fuel calc step t g0 = Some (Return g) ->
  exists ts scores,
    thresholds_from fuel step t = Some ts
    /\ Forall2 (fun t s => calc t = Return s) ts scores
    /\ g = fold_left (fun g (e : float * pynum) => Dict.set PrimFloat.eqb g (fst e) (snd e))
                     (combine ts scores) g0.
Proof.
  revert t g0. induction fuel as [|fuel IH]; intros t g0; simpl; [discriminate|].
  destruct (PrimFloat.ltb t 1).
  - destruct (calc t) as [s|e] eqn:C; [|discriminate].
    intros H. destruct (IH _ _ H) as [ts [scores [T [F G]]]].
    exists (t :: ts), (s :: scores). rewrite T. simpl. auto.
  - intros H. injection H as <-. exists [], []. simpl. auto.
Qed.

(** A loop whose threshold does not change never ends. *)
Lemma thresholds_stuck (s t : float) :
  (t + s)%float = t -> PrimFloat.ltb t 1 = true ->
  forall fuel, thresholds_from fuel s t = None.
Proof.
  intros E L fuel. induction fuel as [|fuel IH]; [reflexivity|].
  cbn [thresholds_from]. now rewrite L, E, IH.
Qed.

(** Nor does one that steps downwards. *)
Lemma thresholds_down (s : float) :
  signed (Prim2SF s) = true -> Prim2SF s <> S754_zero true ->
  forall fuel t, signed (Prim2SF t) = true -> thresholds_from fuel s t = None.
Proof.
  intros Hs Zs fuel. induction fuel as [|fuel IH]; intros t Ht; [reflexivity|].
  cbn [thresholds_from]. rewrite (@FloatSteps.signed_below_1 t Ht).
  now rewrite (IH _ (@FloatSteps.add_neg_step t s Hs Zs Ht)).
Qed.

Lemma thresholds_head (fuel : nat) (s t t' : float) (ts : list float) :
  thresholds_from fuel s t = Some (t' :: ts) -> t' = t.
Proof.
  destruct fuel as [|fuel]; [discriminate|]. cbn [thresholds_from].
  destruct (PrimFloat.ltb t 1); [|discriminate].
  destruct (thresholds_from fuel s (t + s)); [|discriminate]. congruence.
Qed.

Lemma thresholds_end (fuel : nat) (s t : float) (ts : list float) :
  PrimFloat.ltb t 1 = false -> thresholds_from fuel s t = Some ts -> ts = [].
Proof.
  destruct fuel as [|fuel]; [discriminate|]. cbn [thresholds_from].
  intros ->. congruence.
Qed.

(** With a positive finite step the thresholds ascend. *)
Lemma thresholds_ascending_pos (s : float) (ms : positive) (es : Z) :
  Prim2SF s = S754_finite false ms es ->
  forall fuel t ts,
    nonneg (Prim2SF t) = true -> thresholds_from fuel s t = Some ts ->
    ascending ts = true.
Proof.
  intros Hs fuel. induction fuel as [|fuel IH]; intros t ts Ht T; [discriminate|].
  pose proof (@thresholds_stuck s t) as St.
  cbn [thresholds_from] in T, St.
  destruct (PrimFloat.ltb t 1) eqn:L; [|injection T as <-; reflexivity].
  destruct (thresholds_from fuel s (t + s)) as [ts'|] eqn:T'; [|discriminate].
  injection T as <-.
  destruct ts' as [|t' r]; [reflexivity|].
  pose proof (@thresholds_head _ _ _ _ _ T') as ->.
  destruct (@FloatSteps.add_pos_step t s ms es Hs Ht) as [[E|Lt] N].
  - specialize (St E eq_refl (S fuel)). cbn [thresholds_from] in St.
    rewrite L, T' in St. discriminate.
  - cbn [ascending]. rewrite Lt. cbn [andb].
    change (ascending ((t + s)%float :: r) = true).
    apply (IH (t + s)%float); [|exact T'].
    destruct N as [N|N]; [exact N|].
    pose proof (@thresholds_end _ _ _ _ (@FloatSteps.infinity_not_below _ 1 N) T'). discriminate.
Qed.

(** Whatever the step, the thresholds of a loop that ends ascend. *)
Lemma thresholds_ascending (fuel : nat) (s : float) (ts : list float) :
  thresholds_from fuel s 0 = Some ts -> ascending ts = true.
Proof.
  intros T.
  destruct (Prim2SF s) as [b|[]| |[] ms es] eqn:Ps.
  - assert (E : (0 + s)%float = 0%float).
    { apply Prim2SF_inj. rewrite add_spec, Ps. now destruct b. }
    rewrite (@thresholds_stuck s 0 E eq_refl fuel) in T. discriminate.
  - destruct fuel as [|fuel]; [discriminate|]. cbn [thresholds_from] in T.
    change (PrimFloat.ltb 0 1) with true in T. cbv iota in T.
    rewrite (@thresholds_down s) in T; [discriminate|now rewrite Ps|now rewrite Ps|].
    rewrite add_spec, Ps. reflexivity.
  - destruct fuel as [|fuel]; [discriminate|]. cbn [thresholds_from] in T.
    change (PrimFloat.ltb 0 1) with true in T. cbv iota in T.
    destruct (thresholds_from fuel s (0 + s)) as [ts'|] eqn:T'; [|discriminate].
    injection T as <-.
    rewrite (@thresholds_end _ _ _ _ (@FloatSteps.infinity_not_below (0 + s) 1
               ltac:(rewrite add_spec, Ps; reflexivity)) T').
    reflexivity.
  - destruct fuel as [|fuel]; [discriminate|]. cbn [thresholds_from] in T.
    change (PrimFloat.ltb 0 1) with true in T. cbv iota in T.
    destruct (thresholds_from fuel s (0 + s)) as [ts'|] eqn:T'; [|discriminate].
    injection T as <-.
    rewrite (@thresholds_end _ _ _ _ (@FloatSteps.nan_not_below (0 + s) 1
               ltac:(rewrite add_spec, Ps; reflexivity)) T').
    reflexivity.
  - destruct fuel as [|fuel]; [discriminate|]. cbn [thresholds_from] in T.
    change (PrimFloat.ltb 0 1) with true in T. cbv iota in T.
    rewrite (@thresholds_down s) in T; [discriminate|now rewrite Ps|now rewrite Ps|].
    rewrite add_spec, Ps. reflexivity.
  - exact (@thresholds_ascending_pos s ms es Ps fuel 0 ts eq_refl T).
Qed.


(** With a step of at least 2^-53 the loop ends. *)
Lemma thresholds_end_within (s : float) :
  PrimFloat.leb 0x1p-53 s = true ->
  forall (n : nat) (t : float),
    nonneg (Prim2SF t) = true ->
    (FloatSteps.height (Prim2SF 1) - FloatSteps.height (Prim2SF t) <= Z.of_nat n)%Z ->
    exists fuel ts, thresholds_from fuel s t = Some ts.
Proof.
  intros Hs n. induction n as [|n IH]; intros t N H;
    destruct (PrimFloat.ltb t 1) eqn:L;
    try (exists 1, []; cbn [thresholds_from]; now rewrite L);
    pose proof (@FloatSteps.below_1_height t N L) as B; [lia|].
  destruct (@FloatSteps.step_up t s Hs N L) as [E|[N' U]].
  - exists 2, [t]. cbn [thresholds_from]. now rewrite L, E.
  - destruct (IH (t + s)%float N' ltac:(lia)) as (fuel & ts & T).
    exists (S fuel), (t :: ts). cbn [thresholds_from]. now rewrite L, T.
Qed.

Lemma thresholds_total (s : float) :
  PrimFloat.leb 0x1p-53 s = true ->
  exists fuel ts, thresholds_from fuel s 0 = Some ts.
Proof.
  intros Hs.
  assert (P : (0 <= FloatSteps.height (Prim2SF 1))%Z).
  { pose proof (@FloatSteps.below_1_height 0 eq_refl eq_refl) as B.
    change (FloatSteps.height (Prim2SF 0)) with 0%Z in B. lia. }
  apply (@thresholds_end_within s Hs (Z.to_nat (FloatSteps.height (Prim2SF 1))) 0%float eq_refl).
  rewrite Z2Nat.id by exact P.
  change (FloatSteps.height (Prim2SF 0)) with 0%Z. lia.
Qed.

(** With a step that is zero or negative the loop never ends. *)
Lemma thresholds_endless (fuel : nat) (s : float) :
  PrimFloat.leb s 0 = true -> thresholds_from fuel s 0 = None.
Proof.
  rewrite leb_spec. change (Prim2SF 0) with (S754_zero false). intros L.
  destruct (Prim2SF s) as [b|[]| |[] ms es] eqn:Ps; try discriminate.
  - apply thresholds_stuck; [|reflexivity].
    apply Prim2SF_inj. rewrite add_spec, Ps. now destruct b.
  - destruct fuel as [|fuel]; [reflexivity|]. cbn [thresholds_from].
    change (PrimFloat.ltb 0 1) with true. cbv iota.
    rewrite (@thresholds_down s); [reflexivity|now rewrite Ps|now rewrite Ps|].
    rewrite add_spec, Ps. reflexivity.
  - destruct fuel as [|fuel]; [reflexivity|]. cbn [thresholds_from].
    change (PrimFloat.ltb 0 1) with true. cbv iota.
    rewrite (@thresholds_down s); [reflexivity|now rewrite Ps|now rewrite Ps|].
    rewrite add_spec, Ps. reflexivity.
Qed.

(** With the same fuel the grid search is over whenever the loop is. *)
Lemma grid_search_total (fuel : nat) (calc : float -> outcome pyerr pynum)
    (step t : float) (g0 : Grid) (ts : list float) :
  thresholds_from fuel step t = Some ts ->
  grid_search fuel calc step t g0 <> None.
Proof.
  revert t g0 ts. induction fuel as [|fuel IH]; intros t g0 ts; simpl; [discriminate|].
  destruct (PrimFloat.ltb t 1); [|discriminate].
  destruct (thresholds_from fuel step (t + step)) as [ts'|] eqn:T; [|discriminate].
  intros _. destruct (calc t); [|discriminate]. now apply (IH _ _ ts').
Qed.

Lemma iteration_grids_total (fuel : nat) (step : float) (ts : list float)
    (ratings_of_iterations : list Ratings) :
  thresholds_from fuel step 0 = Some ts ->
  iteration_grids fuel ratings_of_iterations step <> None.
Proof.
  intros T. induction ratings_of_iterations as [|ratings rest IH]; simpl; [discriminate|].
  pose proof (@grid_search_total fuel (calc_f1_for_threshold ratings) step 0%float [] ts T)
    as G.
  unfold iteration_grid.
  destruct (grid_search fuel (calc_f1_for_threshold ratings) step 0 []) as [[g|e]|];
    [|discriminate|congruence].
  destruct (iteration_grids fuel rest step) as [[gs|e]|]; [discriminate|discriminate|congruence].
Qed.

(** Filling a dictionary with ascending keys that are new to it appends
    the entries. *)
Lemma fill_ascending {V} (ts : list float) (vs : list V) (g0 : Dict.t float V) :
  ascending ts = true ->
  Forall (fresh g0) ts ->
  fold_left (fun g (e : float * V) => Dict.set PrimFloat.eqb g (fst e) (snd e))
            (combine ts vs) g0
  = g0 ++ combine ts vs.
Proof.
  revert vs g0. induction ts as [|t ts IH]; intros vs g0 A F; simpl.
  - now rewrite app_nil_r.
  - destruct vs as [|v vs]; simpl; [now rewrite app_nil_r|].
    inversion F as [|? ? F1 F2]; subst.
    destruct (ascending_tail _ _ A) as [A' L].
    rewrite (set_fresh _ F1), IH; [now rewrite <- app_assoc|exact A'|].
    rewrite Forall_forall in *. intros t' Ht'.
    apply fresh_app; [now apply F2|].
    now destruct (FloatOrder.ltb_eqb (L t' Ht')).
Qed.

(** *** Collecting the grids of the iterations *)

Lemma collect_new (ts : list float) (sc : list pynum) (g0 : Dict.t float (list pynum)) :
  ascending ts = true ->
  Forall (fresh g0) ts ->
  collect g0 (combine ts sc) = g0 ++ combine ts (map (fun s => [s]) sc).
Proof.
  unfold collect. revert sc g0. induction ts as [|t ts IH]; intros sc g0 A F; simpl.
  - now rewrite app_nil_r.
  - destruct sc as [|s sc]; simpl; [now rewrite app_nil_r|].
    inversion F as [|? ? F1 F2]; subst.
    destruct (ascending_tail _ _ A) as [A' L].
    rewrite (get_fresh F1), (set_fresh _ F1), IH; [now rewrite <- app_assoc|exact A'|].
    rewrite Forall_forall in *. intros t' Ht'.
    apply fresh_app; [now apply F2|].
    now destruct (FloatOrder.ltb_eqb (L t' Ht')).
Qed.

Lemma collect_insulated (t : float) (v : list pynum) (entries : Grid)
    (d : Dict.t float (list pynum)) :
  Forall (fun e => PrimFloat.eqb t (fst e) = false) entries ->
  collect ((t, v) :: d) entries = (t, v) :: collect d entries.
Proof.
  unfold collect. revert d. induction entries as [|e entries IH]; intros d F; simpl;
    [reflexivity|].
  inversion F as [|? ? F1 F2]; subst. rewrite F1. apply IH. exact F2.
Qed.

Lemma transpose_single (sc : list pynum) :
  transpose (List.length sc) [sc] = map (fun s => [s]) sc.
Proof. induction sc as [|s sc IH]; simpl; [reflexivity|]. now rewrite IH. Qed.

Lemma collect_transpose (ts : list float) (scs : list (list pynum)) (sc : list pynum) :
  ascending ts = true ->
  Forall (fun t => PrimFloat.eqb t t = true) ts ->
  List.length sc = List.length ts ->
  collect (combine ts (transpose (List.length ts) scs)) (combine ts sc)
  = combine ts (transpose (List.length ts) (scs ++ [sc])).
Proof.
  revert scs sc. induction ts as [|t ts IH]; intros scs sc A E L; [reflexivity|].
  destruct sc as [|s sc]; [discriminate|]. simpl in L.
  inversion E as [|? ? E1 E2]; subst.
  destruct (ascending_tail _ _ A) as [A' Lt].
  cbn [List.length transpose combine]. unfold collect at 1. cbn [fold_left fst snd].
  replace (Dict.get PrimFloat.eqb
             ((t, map (hd (PInt 0)) scs)
              :: combine ts (transpose (List.length ts) (map (@tl pynum) scs))) t)
    with (Some (map (hd (PInt 0)) scs)) by (simpl; now rewrite E1).
  replace (Dict.set PrimFloat.eqb
             ((t, map (hd (PInt 0)) scs)
              :: combine ts (transpose (List.length ts) (map (@tl pynum) scs))) t
             (map (hd (PInt 0)) scs ++ [s]))
    with ((t, map (hd (PInt 0)) scs ++ [s])
          :: combine ts (transpose (List.length ts) (map (@tl pynum) scs)))
    by (simpl; now rewrite E1).
  fold (collect ((t, map (hd (PInt 0)) scs ++ [s])
                 :: combine ts (transpose (List.length ts) (map (@tl pynum) scs)))
                (combine ts sc)).
  rewrite collect_insulated.
  - rewrite IH by (auto; lia). now rewrite !map_app.
  - rewrite Forall_forall in *. intros [k x] Hk. simpl.
    apply in_combine_l in Hk. now destruct (FloatOrder.ltb_eqb (Lt k Hk)).
Qed.

Lemma collect_all (ts : list float) (scs : list (list pynum)) :
  ascending ts = true ->
  Forall (fun t => PrimFloat.eqb t t = true) ts ->
  Forall (fun sc => List.length sc = List.length ts) scs ->
  fold_left collect (map (combine ts) scs) []
  = match scs with
    | [] => []
    | _ :: _ => combine ts (transpose (List.length ts) scs)
    end.
Proof.
  intros A E L. destruct scs as [|sc0 rest]; [reflexivity|].
  inversion L as [|? ? L0 L']; subst. simpl.
  rewrite (collect_new sc0 (g0 := []) A) by (apply Forall_forall; constructor).
  simpl. rewrite <- transpose_single, L0.
  assert (G : forall done, fold_left collect (map (combine ts) rest)
                             (combine ts (transpose (List.length ts) done))
                           = combine ts (transpose (List.length ts) (done ++ rest))).
  { clear L0 L. induction rest as [|sc rest IH]; intros done; simpl.
    - now rewrite app_nil_r.
    - inversion L' as [|? ? L1 L2]; subst.
      rewrite collect_transpose by auto.
      rewrite (IH L2). now rewrite <- app_assoc. }
  apply (G [sc0]).
Qed.

Lemma transpose_length (n : nat) (scs : list (list pynum)) :
  List.length (transpose n scs) = n.
Proof. revert scs. induction n as [|n IH]; intros scs; simpl; auto. Qed.

(** *** Selecting the threshold *)

(** What [select] leaves in [t_max] after the entries [avgs]: the initial
    value when no mean exceeded 0, and otherwise an entry whose mean exceeds
    0, is not reached by the mean of an earlier entry and not exceeded by
    the mean of a later one. *)
Definition chosen (avgs : Dict.t float Performance) (best : pynum * float) : Prop :=
  (Forall (fun e => py_gtb (mean (snd e)) (PFloat 0) = false) avgs
   /\ best = (PFloat 0, 0%float))
  \/ exists l1 p l2,
       avgs = l1 ++ (snd best, p) :: l2
       /\ fst best = mean p
       /\ py_gtb (mean p) (PFloat 0) = true
       /\ Forall (fun e => PrimFloat.leb (to_float (mean p)) (to_float (mean (snd e)))
                           = false) l1
       /\ Forall (fun e => py_gtb (mean (snd e)) (mean p) = false) l2.

Lemma not_reached (b q m : float) :
  PrimFloat.ltb b q = true -> PrimFloat.ltb b m = false -> PrimFloat.leb q m = false.
Proof.
  intros H1 H2. destruct (PrimFloat.leb q m) eqn:E; [|reflexivity].
  rewrite (FloatOrder.ltb_leb_trans H1 E) in H2. discriminate.
Qed.

Lemma leb_false_ltb_false (a b : float) :
  PrimFloat.leb a b = false -> PrimFloat.ltb a b = false.
Proof.
  intros H. destruct (PrimFloat.ltb a b) eqn:E; [|reflexivity].
  rewrite (FloatOrder.ltb_leb E) in H. discriminate.
Qed.

Lemma ltb_irrefl (a : float) : PrimFloat.ltb a a = false.
Proof.
  destruct (PrimFloat.ltb a a) eqn:E; [|reflexivity].
  pose proof (FloatOrder.ltb_not_leb E) as N.
  rewrite (FloatOrder.ltb_leb E) in N. discriminate.
Qed.

Lemma select_step_chosen (rest done : Dict.t float Performance) (best : pynum * float) :
  chosen done best ->
  chosen (done ++ rest)
         (fold_left (fun (t_max : pynum * float) (e : float * Performance) =>
                       if py_gtb (mean (snd e)) (fst t_max) then (mean (snd e), fst e)
                       else t_max) rest best).
Proof.
  revert done best. induction rest as [|[t q] rest IH]; intros done best C; simpl.
  - now rewrite app_nil_r.
  - replace (done ++ (t, q) :: rest) with ((done ++ [(t, q)]) ++ rest)
      by (now rewrite <- app_assoc).
    apply IH. destruct (py_gtb (mean q) (fst best)) eqn:G.
    + (* the new entry becomes the selected one *)
      right. exists done, q, []. simpl.
      assert (B : exists b, PrimFloat.ltb b (to_float (mean q)) = true
                            /\ PrimFloat.ltb 0 (to_float (mean q)) = true
                            /\ Forall (fun e => PrimFloat.ltb b (to_float (mean (snd e)))
                                                = false) done).
      { destruct C as [[N ->]|[l1 [p [l2 [-> [Eb [Gp [F1 F2]]]]]]]].
        - exists 0%float. auto.
        - rewrite Eb in G. exists (to_float (mean p)).
          split; [exact G|]. split; [exact (FloatOrder.ltb_trans Gp G)|].
          apply Forall_app. split.
          + eapply Forall_impl; [|exact F1]. intros e. apply leb_false_ltb_false.
          + constructor; [apply ltb_irrefl|exact F2]. }
      destruct B as [b [B1 [B2 B3]]].
      split; [reflexivity|]. split; [reflexivity|]. split; [exact B2|].
      split; [|constructor].
      eapply Forall_impl; [|exact B3]. intros e. now apply not_reached.
    + (* the selected entry stays *)
      destruct C as [[N ->]|[l1 [p [l2 [-> [Eb [Gp [F1 F2]]]]]]]].
      * left. split; [|reflexivity]. apply Forall_app. split; [exact N|].
        constructor; [exact G|constructor].
      * right. exists l1, p, (l2 ++ [(t, q)]).
        split; [now rewrite <- app_assoc|]. split; [exact Eb|]. split; [exact Gp|].
        split; [exact F1|]. apply Forall_app. split; [exact F2|].
        constructor; [now rewrite <- Eb|constructor].
Qed.

Lemma select_chosen (avgs : Dict.t float Performance) : chosen avgs (select avgs).
Proof.
  apply (select_step_chosen avgs (done := [])). left. split; [constructor|reflexivity].
Qed.

Lemma iteration_grids_scores (fuel : nat) (step : float) (ts : list float)
    (ratingss : list Ratings) (gs : list Grid) :
  thresholds_from fuel step 0 = Some ts ->
  ascending ts = true ->
  iteration_grids fuel ratingss step = Some (Return gs) ->
  exists scs,
    Forall2 (fun ratings sc =>
               Forall2 (fun t s => calc_f1_for_threshold ratings t = Return s) ts sc)
            ratingss scs
    /\ gs = map (combine ts) scs.
Proof.
  intros T A. revert gs. induction ratingss as [|ratings rest IH]; intros gs; simpl.
  - intros H. injection H as <-. exists []. split; [constructor|reflexivity].
  - destruct (iteration_grid fuel ratings step) as [[g|e]|] eqn:G; try discriminate.
    destruct (iteration_grids fuel rest step) as [[gs'|e]|]; try discriminate.
    intros H. injection H as <-.
    destruct (IH gs' eq_refl) as [scs [F ->]].
    destruct (grid_search_thresholds _ _ _ _ _ G) as [ts' [sc [T' [Fs ->]]]].
    rewrite T in T'. injection T' as <-.
    exists (sc :: scs). split; [now constructor|]. simpl. f_equal.
    rewrite fill_ascending; [reflexivity|exact A|].
    apply Forall_forall. intros; constructor.
Qed.

Section WithPow.

Variable libm_pow2 : float -> float.

Lemma average_ascending (ts : list float) (cols : list (list pynum))
    (a0 avgs : Dict.t float Performance) :
  ascending ts = true ->
  Forall (fresh a0) ts ->
  List.length cols = List.length ts ->
  ofold (fun grids_avg (e : float * list pynum) =>
           obind (average_scores libm_pow2 (snd e)) (fun p =>
           Return (Dict.set PrimFloat.eqb grids_avg (fst e) p)))
        (combine ts cols) a0 = Return avgs ->
  exists perfs,
    avgs = a0 ++ combine ts perfs
    /\ Forall2 (fun col p => average_scores libm_pow2 col = Return p) cols perfs.
Proof.
  revert cols a0. induction ts as [|t ts IH]; intros cols a0 A F L; simpl.
  - destruct cols; [|discriminate]. intros H. injection H as <-.
    exists []. rewrite app_nil_r. split; [reflexivity|constructor].
  - destruct cols as [|col cols]; [discriminate|]. simpl in L. simpl.
    destruct (average_scores libm_pow2 col) as [p|e] eqn:P; simpl; [|discriminate].
    inversion F as [|? ? F1 F2]; subst.
    destruct (ascending_tail _ _ A) as [A' Lt].
    rewrite (set_fresh _ F1). intros H.
    destruct (IH cols (a0 ++ [(t, p)]) A') as [perfs [E F']]; [|lia|exact H|].
    + rewrite Forall_forall in *. intros t' Ht'.
      apply fresh_app; [now apply F2|].
      now destruct (FloatOrder.ltb_eqb (Lt t' Ht')).
    + exists (p :: perfs). split; [rewrite E; now rewrite <- app_assoc|].
      now constructor.
Qed.

(** The mean that [optimize] keeps for a threshold is the population mean
    of its scores. *)
Lemma average_scores_mean (scores : list pynum) (p : Performance) :
  average_scores libm_pow2 scores = Return p ->
  Aggregation.population_mean scores = Return (mean p).
Proof.
  unfold average_scores, Aggregation.population_mean, Aggregation.mean_of.
  destruct (py_truediv (py_sum scores) (py_len scores)) as [m|e]; cbn [obind];
    [|discriminate].
  destruct (Aggregation.variance_of libm_pow2 m scores) as [v|e]; cbn [obind];
    [|discriminate].
  intros H. now injection H as <-.
Qed.

Lemma Forall2_combine_snd {A B C} (P : A -> B -> Prop) (ks : list C) (xs : list A)
    (ys : list B) :
  List.length ks = List.length ys ->
  Forall2 P xs ys ->
  Forall2 (fun x (e : C * B) => P x (snd e)) xs (combine ks ys)
  /\ map fst (combine ks ys) = ks.
Proof.
  intros L F. revert ks L. induction F as [|x y xs ys H F IH]; intros ks L.
  - destruct ks; [|discriminate]. split; [constructor|reflexivity].
  - destruct ks as [|k ks]; [discriminate|]. simpl in L.
    destruct (IH ks) as [I1 I2]; [lia|]. simpl. split; [now constructor|now rewrite I2].
Qed.


End WithPow.

(** The grid of the default step 0.01 has 100 ascending thresholds. *)
Lemma default_grid_ascending :
  exists ts, thresholds_from 200 0.01 0 = Some ts
             /\ List.length ts = 100 /\ ascending ts = true.
Proof.
  destruct (thresholds_from 200 0.01 0) as [ts|] eqn:E;
    vm_compute in E; [|discriminate].
  injection E as <-. eexists. split; [reflexivity|]. split; vm_compute; reflexivity.
Qed.


End OptimizerFacts.

(** ** The optimizer on a framework *)

Module OptimizerRunFacts.
Import Optimizer OptimizerRun.

Section Run.

Variables (Env F D : Type).
Variable engine : Benchmarker.call F D -> Env -> Env * outcome (Benchmarker.exc F) unit.
Variable rate :
  F -> string -> Env -> Env * outcome (Benchmarker.exc F) Rating.NLUIntentRating.
Variable training_data : D -> Env -> list NLUDataEntry.
Variable validation_data : D -> Env -> list NLUDataEntry.
Variable ds_reshuffle : D -> Env -> Env * outcome (Benchmarker.exc F) unit.
Variable libm_pow2 : float -> float.

(** An iteration that returns a grid returns the grid of the ratings it
    collected. *)
Lemma iteration_grid_of_ratings (fuel : nat) (f : F) (d : D) (grid_step_size : float)
    (w w' : Benchmarker.world Env F D) (grid : Grid) :
  iteration engine rate training_data validation_data ds_reshuffle
            fuel f d grid_step_size w = (w', Return (Some grid)) ->
  exists ratings, iteration_grid fuel ratings grid_step_size = Some (Return grid).
Proof.
  unfold iteration, Async.bind.
  destruct (classify engine rate training_data validation_data f d w)
    as [w1 [ratings|e]]; [|discriminate].
  destruct (Benchmarker.reshuffle ds_reshuffle d w1) as [w2 [[]|e]]; [|discriminate].
  destruct (iteration_grid fuel ratings grid_step_size) as [[g|e]|] eqn:E;
    unfold Benchmarker.builtin, Async.lift, Async.ret; intros H; inversion H; subst.
  now exists ratings.
Qed.

(** The loop of [optimize] collects the grids of its iterations in order. *)
Lemma collect_iterations_grids (fuel : nat) (f : F) (d : D) (grid_step_size : float)
    (iterations : nat) :
  forall (grids grids' : Dict.t float (list pynum)) (w w' : Benchmarker.world Env F D),
    collect_iterations engine rate training_data validation_data ds_reshuffle
                       fuel f d iterations grid_step_size grids w
    = (w', Return (Some grids')) ->
    exists ratings_of_iterations grids_of_iterations,
      List.length ratings_of_iterations = iterations
      /\ iteration_grids fuel ratings_of_iterations grid_step_size
         = Some (Return grids_of_iterations)
      /\ grids' = fold_left collect grids_of_iterations grids.
Proof.
  induction iterations as [|n IH]; intros grids grids' w w' H.
  - inversion H; subst. exists [], []. repeat split.
  - cbn [collect_iterations] in H. unfold Async.bind in H.
    destruct (iteration engine rate training_data validation_data ds_reshuffle
                        fuel f d grid_step_size w) as [w1 [[g|]|e]] eqn:E;
      try discriminate.
    destruct (iteration_grid_of_ratings _ _ _ _ _ E) as [ratings R].
    destruct (IH _ _ _ _ H) as (rs & gs & L & G & C).
    exists (ratings :: rs), (g :: gs). split; [simpl; now rewrite L|].
    split; [|exact C].
    cbn [iteration_grids]. now rewrite R, G.
Qed.

(** A run of [optimize] that returns a threshold returns the one
    [optimize_ratings] selects from the ratings of its iterations. *)
Lemma optimize_of_ratings (fuel : nat) (f : F) (d : D) (iterations : nat)
    (grid_step_size best : float) (w w' : Benchmarker.world Env F D) :
  optimize engine rate training_data validation_data ds_reshuffle libm_pow2
           fuel f d iterations grid_step_size w = (w', Return (Some best)) ->
  exists ratings_of_iterations,
    List.length ratings_of_iterations = iterations
    /\ optimize_ratings libm_pow2 fuel ratings_of_iterations grid_step_size
       = Some (Return best).
Proof.
  unfold optimize, Async.bind.
  destruct (collect_iterations engine rate training_data validation_data ds_reshuffle
                               fuel f d iterations grid_step_size [] w)
    as [w1 [[grids|]|e]] eqn:E; try discriminate.
  destruct (collect_iterations_grids _ _ _ _ _ _ _ E) as (rs & gs & L & G & C).
  unfold Benchmarker.builtin, Async.lift, Async.ret.
  destruct (average libm_pow2 grids) as [avg|e] eqn:A; intros H; inversion H; subst.
  exists rs. split; [reflexivity|].
  unfold optimize_ratings. rewrite G. unfold optimize_grids. now rewrite A.
Qed.

End Run.
End OptimizerRunFacts.

(** ** Facts on the total order of the numbers other than NaN *)

Module FloatTotal.

Lemma lexcmp_Gt_Lt (a b : Z * Z * Z) : lexcmp a b = Gt -> lexcmp b a = Lt.
Proof.
  destruct a as [[a1 a2] a3], b as [[b1 b2] b3]. unfold lexcmp. simpl.
  destruct (Z.compare_spec a1 b1), (Z.compare_spec b1 a1); try lia; try discriminate;
    try reflexivity;
  destruct (Z.compare_spec a2 b2), (Z.compare_spec b2 a2); try lia; try discriminate;
    try reflexivity;
  destruct (Z.compare_spec a3 b3), (Z.compare_spec b3 a3); try lia; try discriminate;
    reflexivity.
Qed.

(** A number that equals itself is not a NaN, and has a key. *)
Lemma eqb_refl_key (a : float) :
  PrimFloat.eqb a a = true -> exists k, sf_key (Prim2SF a) = Some k.
Proof.
  rewrite eqb_spec. unfold SFeqb. rewrite FloatOrder.SFcompare_key.
  destruct (sf_key (Prim2SF a)) as [k|]; [eauto|discriminate].
Qed.

(** Of two numbers that are not NaN, one is below the other or they are
    in the relation [<=]. *)
Lemma ltb_false_leb (a b : float) :
  PrimFloat.eqb a a = true -> PrimFloat.eqb b b = true ->
  PrimFloat.ltb a b = false -> PrimFloat.leb b a = true.
Proof.
  intros Ha Hb. destruct (eqb_refl_key Ha) as [ka Ka]. destruct (eqb_refl_key Hb) as [kb Kb].
  rewrite ltb_spec, leb_spec. unfold SFltb, SFleb. rewrite !FloatOrder.SFcompare_key, Ka, Kb.
  destruct (lexcmp ka kb) eqn:E; try discriminate; intros _.
  - now rewrite (FloatOrder.lexcmp_Eq_sym _ _ E).
  - now rewrite (lexcmp_Gt_Lt _ _ E).
Qed.

Lemma lexcmp_le_trans (a b c : Z * Z * Z) :
  lexcmp a b <> Gt -> lexcmp b c <> Gt -> lexcmp a c <> Gt.
Proof.
  destruct a as [[a1 a2] a3], b as [[b1 b2] b3], c as [[c1 c2] c3].
  unfold lexcmp. simpl.
  destruct (Z.compare_spec a1 b1), (Z.compare_spec b1 c1), (Z.compare_spec a1 c1);
    try lia; try congruence;
  destruct (Z.compare_spec a2 b2), (Z.compare_spec b2 c2), (Z.compare_spec a2 c2);
    try lia; try congruence;
  destruct (Z.compare_spec a3 b3), (Z.compare_spec b3 c3), (Z.compare_spec a3 c3);
    try lia; try congruence.
Qed.

Lemma leb_trans (a b c : float) :
  PrimFloat.leb a b = true -> PrimFloat.leb b c = true -> PrimFloat.leb a c = true.
Proof.
  rewrite !leb_spec. unfold SFleb. rewrite !FloatOrder.SFcompare_key.
  destruct (sf_key (Prim2SF a)) as [ka|], (sf_key (Prim2SF b)) as [kb|],
    (sf_key (Prim2SF c)) as [kc|]; try discriminate.
  intros H1 H2.
  assert (N : lexcmp ka kc <> Gt).
  { apply (@lexcmp_le_trans ka kb kc).
    - destruct (lexcmp ka kb); congruence.
    - destruct (lexcmp kb kc); congruence. }
  destruct (lexcmp ka kc); congruence.
Qed.

Lemma leb_refl (a : float) : PrimFloat.eqb a a = true -> PrimFloat.leb a a = true.
Proof. apply FloatOrder.eqb_leb. Qed.

(** A number above one of two equal numbers is not equal to the other. *)
Lemma ltb_eqb_false (a b c : float) :
  PrimFloat.ltb a b = true -> PrimFloat.eqb a c = true -> PrimFloat.eqb b c = false.
Proof.
  intros L E. destruct (PrimFloat.eqb b c) eqn:Q; [|reflexivity].
  pose proof (FloatOrder.eqb_leb Q) as Q1.
  pose proof (FloatOrder.eqb_leb_sym E) as E1.
  pose proof (leb_trans Q1 E1) as BA.
  rewrite (FloatOrder.ltb_not_leb L) in BA. discriminate.
Qed.

End FloatTotal.

(** ** Facts on [sorted] *)

Module SortedFacts.
Import Sorted.

Section SortedFacts.

Variable A : Type.
Variable key : A -> float.

Lemma insert_desc_perm (x : A) (l : list A) :
  Permutation (insert_desc key x l) (x :: l).
Proof.
  induction l as [|y l IH]; simpl; [reflexivity|].
  destruct (PrimFloat.ltb (key x) (key y)); [|reflexivity].
  rewrite IH. apply perm_swap.
Qed.

Lemma sorted_desc_perm (l : list A) : Permutation (sorted_desc key l) l.
Proof.
  induction l as [|x l IH]; simpl; [reflexivity|].
  rewrite insert_desc_perm. now constructor.
Qed.

Lemma no_nan_In (l : list A) (x : A) :
  no_nan key l = true -> In x l -> PrimFloat.eqb (key x) (key x) = true.
Proof. unfold no_nan. rewrite forallb_forall. auto. Qed.

Lemma no_nan_perm (l l' : list A) :
  Permutation l l' -> no_nan key l = true -> no_nan key l' = true.
Proof.
  unfold no_nan. rewrite !forallb_forall. intros P H x Hx.
  apply H. now apply (Permutation_in _ (Permutation_sym P)).
Qed.

Lemma insert_desc_descending (x : A) (l : list A) :
  PrimFloat.eqb (key x) (key x) = true -> no_nan key l = true ->
  descending key l = true -> descending key (insert_desc key x l) = true.
Proof.
  intros Hx. induction l as [|y l IH]; intros N D; [reflexivity|].
  cbn [insert_desc].
  assert (Hy : PrimFloat.eqb (key y) (key y) = true)
    by (apply (@no_nan_In _ _ N); now left).
  assert (N' : no_nan key l = true)
    by (unfold no_nan in *; simpl in N; now apply andb_true_iff in N).
  destruct (PrimFloat.ltb (key x) (key y)) eqn:L.
  - assert (D' : descending key l = true).
    { destruct l; [reflexivity|]. simpl in D. now apply andb_true_iff in D. }
    specialize (IH N' D').
    destruct l as [|z l]; cbn [insert_desc descending] in *.
    + now rewrite (FloatOrder.ltb_leb L).
    + destruct (PrimFloat.ltb (key x) (key z)).
      * apply andb_true_iff in D. destruct D as [D1 _].
        rewrite D1. exact IH.
      * rewrite (FloatOrder.ltb_leb L). exact IH.
  - cbn [descending]. rewrite (FloatTotal.ltb_false_leb Hx Hy L). exact D.
Qed.

Lemma sorted_desc_descending (l : list A) :
  no_nan key l = true -> descending key (sorted_desc key l) = true.
Proof.
  induction l as [|x l IH]; intros N; [reflexivity|].
  assert (N' : no_nan key l = true)
    by (unfold no_nan in *; simpl in N; now apply andb_true_iff in N).
  cbn [sorted_desc fold_right]. apply insert_desc_descending.
  - apply (@no_nan_In _ _ N). now left.
  - apply (no_nan_perm (Permutation_sym (sorted_desc_perm l)) N').
  - exact (IH N').
Qed.

Lemma insert_desc_filter (c : float) (x : A) (l : list A) :
  filter (fun y => PrimFloat.eqb (key y) c) (insert_desc key x l)
  = filter (fun y => PrimFloat.eqb (key y) c) (x :: l).
Proof.
  induction l as [|y l IH]; [reflexivity|].
  cbn [insert_desc]. destruct (PrimFloat.ltb (key x) (key y)) eqn:L; [|reflexivity].
  cbn [filter] in *. rewrite IH.
  destruct (PrimFloat.eqb (key x) c) eqn:E; [|reflexivity].
  now rewrite (FloatTotal.ltb_eqb_false L E).
Qed.

(** Entries with equal keys keep their relative order. *)
Lemma sorted_desc_stable (c : float) (l : list A) :
  filter (fun y => PrimFloat.eqb (key y) c) (sorted_desc key l)
  = filter (fun y => PrimFloat.eqb (key y) c) l.
Proof.
  induction l as [|x l IH]; [reflexivity|].
  cbn [sorted_desc fold_right]. rewrite insert_desc_filter.
  cbn [filter]. fold (sorted_desc key l). now rewrite IH.
Qed.

(** The first entry of the sorted list is the first entry of the list whose
    key no other key exceeds. *)
Lemma sorted_desc_head (l : list A) :
  no_nan key l = true -> l <> [] ->
  exists l1 x l2 rest,
    l = l1 ++ x :: l2
    /\ sorted_desc key l = x :: rest
    /\ Forall (fun y => PrimFloat.ltb (key y) (key x) = true) l1
    /\ Forall (fun y => PrimFloat.leb (key y) (key x) = true) l2.
Proof.
  induction l as [|x l IH]; intros N H; [congruence|]. clear H.
  assert (Hx : PrimFloat.eqb (key x) (key x) = true)
    by (apply (@no_nan_In _ _ N); now left).
  assert (N' : no_nan key l = true)
    by (unfold no_nan in *; simpl in N; now apply andb_true_iff in N).
  destruct l as [|y l'].
  - exists [], x, [], []. simpl. auto.
  - destruct (IH N' ltac:(discriminate)) as (l1 & m & l2 & rest & E & S & F1 & F2).
    change (sorted_desc key (x :: y :: l')) with (insert_desc key x (sorted_desc key (y :: l'))).
    rewrite S.
    cbn [insert_desc].
    assert (Hm : PrimFloat.eqb (key m) (key m) = true).
    { apply (@no_nan_In _ _ N'). rewrite E. apply in_or_app. right. now left. }
    destruct (PrimFloat.ltb (key x) (key m)) eqn:L.
    + exists (x :: l1), m, l2, (insert_desc key x rest).
      rewrite E. repeat split; auto.
    + pose proof (FloatTotal.ltb_false_leb Hx Hm L) as Lm.
      exists [], x, (y :: l'), (m :: rest). repeat split; auto.
      rewrite E. apply Forall_app. split; [|constructor; [exact Lm|]].
      * eapply Forall_impl; [|exact F1]. intros z Hz. cbv beta in Hz.
        apply FloatOrder.ltb_leb. exact (FloatOrder.ltb_leb_trans Hz Lm).
      * eapply Forall_impl; [|exact F2]. intros z Hz. cbv beta in Hz.
        exact (FloatTotal.leb_trans Hz Lm).
Qed.

End SortedFacts.

(** The sort of [NLUIntentRating.__init__] is this sort, by confidence. *)
Lemma rating_insert_desc (x : Intent * float) (l : list (Intent * float)) :
  Rating.insert_desc x l = insert_desc snd x l.
Proof. induction l as [|y l IH]; simpl; [reflexivity|]. now rewrite IH. Qed.

Lemma rating_sorted_desc (l : list (Intent * float)) :
  Rating.sorted_desc l = sorted_desc snd l.
Proof.
  induction l as [|x l IH]; [reflexivity|].
  unfold Rating.sorted_desc, sorted_desc in *. cbn [fold_right].
  now rewrite IH, rating_insert_desc.
Qed.

End SortedFacts.

(** ** nlu_intent_rating.py: the constructor *)

Module RatingInitFacts.
Import Sorted SortedFacts.

(** X1. [NLUIntentRating.__init__] sorts the rated intents: when no confidence
    is a NaN, [sorted_intents] holds the same entries, each confidence is at
    least the next one, and entries with the same confidence are in the
    order in which they were passed. *)
Theorem init_sorts (sentence : string) (rated_intents : list (Intent * float)) :
  no_nan snd rated_intents = true ->
  Permutation (Rating.sorted_intents (Rating.init sentence rated_intents)) rated_intents
  /\ descending snd (Rating.sorted_intents (Rating.init sentence rated_intents)) = true
  /\ forall c : float,
       filter (fun x => PrimFloat.eqb (snd x) c)
              (Rating.sorted_intents (Rating.init sentence rated_intents))
       = filter (fun x => PrimFloat.eqb (snd x) c) rated_intents.
Proof.
  intros N. cbn [Rating.init Rating.sorted_intents]. rewrite rating_sorted_desc.
  split; [apply sorted_desc_perm|]. split; [now apply sorted_desc_descending|].
  intros c. apply sorted_desc_stable.
Qed.

Lemma init_sorts_witness :
  Rating.sorted_intents
    (Rating.init "x" [(Some "A", 0.2%float); (Some "B", 0.9%float); (Some "C", 0.9%float)])
  = [(Some "B", 0.9%float); (Some "C", 0.9%float); (Some "A", 0.2%float)]
  /\ Permutation
       (Rating.sorted_intents
          (Rating.init "x" [(Some "A", 0.2%float); (Some "B", 0.9%float);
                            (Some "C", 0.9%float)]))
       [(Some "A", 0.2%float); (Some "B", 0.9%float); (Some "C", 0.9%float)].
Proof.
  split; [reflexivity|].
  exact (proj1 (@init_sorts "x" [(Some "A", 0.2%float); (Some "B", 0.9%float);
                                 (Some "C", 0.9%float)] eq_refl)).
Defined.

(** X2. The detected intent of a new rating is the first of the rated intents
    whose confidence no other confidence exceeds: every entry before it has
    a lower confidence, no entry after it has a higher one. *)
Theorem detected_intent_highest (sentence : string) (rated_intents : list (Intent * float)) :
  no_nan snd rated_intents = true -> rated_intents <> [] ->
  exists before intent confidence after,
    rated_intents = before ++ (intent, confidence) :: after
    /\ Rating.detected_intent (Rating.init sentence rated_intents) = Return intent
    /\ Forall (fun x => PrimFloat.ltb (snd x) confidence = true) before
    /\ Forall (fun x => PrimFloat.leb (snd x) confidence = true) after.
Proof.
  intros N H.
  destruct (sorted_desc_head snd N H) as (l1 & [i c] & l2 & rest & E & S & F1 & F2).
  exists l1, i, c, l2. split; [exact E|]. split; [|split; [exact F1|exact F2]].
  unfold Rating.detected_intent. cbn [Rating.init Rating.sorted_intents].
  now rewrite rating_sorted_desc, S.
Qed.

Lemma detected_intent_highest_witness :
  exists before after,
    [(Some "A", 0.2%float); (Some "B", 0.9%float); (Some "C", 0.9%float)]
    = before ++ (Some "B", 0.9%float) :: after
    /\ Rating.detected_intent
         (Rating.init "x" [(Some "A", 0.2%float); (Some "B", 0.9%float);
                           (Some "C", 0.9%float)])
       = Return (Some "B").
Proof.
  destruct (@detected_intent_highest "x"
              [(Some "A", 0.2%float); (Some "B", 0.9%float); (Some "C", 0.9%float)]
              eq_refl ltac:(discriminate))
    as (before & i & c & after & E & D & _).
  exists [(Some "A", 0.2%float)], [(Some "C", 0.9%float)]. split; reflexivity.
Defined.

End RatingInitFacts.

(** ** More facts on dictionaries *)

Module DictOrderFacts.
Section DictOrderFacts.

Variables (K V : Type) (eqb : K -> K -> bool).
Hypothesis eqb_eq : forall a b, eqb a b = true <-> a = b.

Lemma set_new (d : Dict.t K V) (k : K) (v : V) :
  ~ In k (Dict.keys d) -> Dict.set eqb d k v = d ++ [(k, v)].
Proof.
  induction d as [|[k' v'] d IH]; simpl; intros N; [reflexivity|].
  destruct (eqb k' k) eqn:E.
  - apply eqb_eq in E. subst. exfalso. apply N. now left.
  - rewrite IH; [reflexivity|]. intros H. apply N. now right.
Qed.

(** Filling a dictionary with keys that are distinct and new to it appends
    them in order. *)
Lemma fill_distinct {A} (key : A -> K) (f : A -> outcome pyerr V) (xs : list A) :
  forall d0 d : Dict.t K V,
    NoDup (map key xs) ->
    (forall x, In x xs -> ~ In (key x) (Dict.keys d0)) ->
    DictFacts.fill eqb key f xs d0 = Return d ->
    exists vs, d = d0 ++ combine (map key xs) vs
               /\ Forall2 (fun x v => f x = Return v) xs vs.
Proof.
  unfold DictFacts.fill.
  induction xs as [|x xs IH]; intros d0 d D N; simpl.
  - intros H. injection H as <-. exists []. rewrite app_nil_r. split; [reflexivity|constructor].
  - destruct (f x) as [v|e] eqn:F; simpl; [|discriminate].
    inversion D as [|? ? Nx D']; subst.
    rewrite set_new by (apply N; now left).
    intros H.
    assert (N' : forall y, In y xs -> ~ In (key y) (Dict.keys (d0 ++ [(key x, v)]))).
    { intros y Hy. unfold Dict.keys. rewrite map_app, in_app_iff. simpl.
      intros [I|[I|[]]].
      - apply (N y); [now right|exact I].
      - apply Nx. rewrite I. now apply in_map. }
    destruct (IH _ _ D' N' H) as [vs [E F2]].
    exists (v :: vs). split; [rewrite E; now rewrite <- app_assoc|now constructor].
Qed.

End DictOrderFacts.
End DictOrderFacts.

(** ** nlu_benchmarker.py: the counters and the keys of the F1 scores *)

Module MetricsMoreFacts.
Import Metrics.

Lemma cells_total_app (p : Intent -> Intent -> bool) (a b : list (Intent * Intent * Z)) :
  cells_total p (a ++ b) = (cells_total p a + cells_total p b)%Z.
Proof.
  unfold cells_total. induction a as [|x a IH]; simpl; [reflexivity|]. rewrite IH. lia.
Qed.

Lemma cells_total_cons (p : Intent -> Intent -> bool) (c : Intent * Intent * Z)
    (l : list (Intent * Intent * Z)) :
  cells_total p (c :: l)
  = ((if p (fst (fst c)) (snd (fst c)) then snd c else 0) + cells_total p l)%Z.
Proof. reflexivity. Qed.

Lemma count_cells (intent expected : Intent) (row : Dict.t Intent Z) :
  forall c0 : counts,
    let c := fold_left (count_cell intent expected) row c0 in
    let cells := map (fun cell : Intent * Z => (expected, fst cell, snd cell)) row in
    (true_positives c
     = true_positives c0
       + cells_total (fun e d => intent_eqb intent e && intent_eqb d intent) cells)%Z
    /\ (false_negatives c
        = false_negatives c0
          + cells_total (fun e d => intent_eqb intent e && negb (intent_eqb d intent))
                        cells)%Z
    /\ (false_positives c
        = false_positives c0
          + cells_total (fun e d => negb (intent_eqb intent e) && intent_eqb d intent)
                        cells)%Z
    /\ (true_negatives c
        = true_negatives c0
          + cells_total (fun e d => negb (intent_eqb intent e)
                                    && negb (intent_eqb d intent)) cells)%Z.
Proof.
  induction row as [|[d n] row IH]; intros c0; cbn zeta.
  - unfold cells_total. simpl. lia.
  - cbn [fold_left map]. rewrite !cells_total_cons. cbn [fst snd].
    specialize (IH (count_cell intent expected c0 (d, n))). cbn zeta in IH.
    destruct IH as (I1 & I2 & I3 & I4). rewrite I1, I2, I3, I4.
    unfold count_cell.
    destruct (intent_eqb intent expected), (intent_eqb d intent); cbn; lia.
Qed.

Lemma count_rows (intent : Intent) (cm : ConfusionMatrix) :
  forall c0 : counts,
    let c := fold_left
               (fun c (row : Intent * Dict.t Intent Z) =>
                  fold_left (count_cell intent (fst row)) (snd row) c) cm c0 in
    (true_positives c
     = true_positives c0
       + matrix_total (fun e d => intent_eqb intent e && intent_eqb d intent) cm)%Z
    /\ (false_negatives c
        = false_negatives c0
          + matrix_total (fun e d => intent_eqb intent e && negb (intent_eqb d intent)) cm)%Z
    /\ (false_positives c
        = false_positives c0
          + matrix_total (fun e d => negb (intent_eqb intent e) && intent_eqb d intent) cm)%Z
    /\ (true_negatives c
        = true_negatives c0
          + matrix_total (fun e d => negb (intent_eqb intent e)
                                     && negb (intent_eqb d intent)) cm)%Z.
Proof.
  unfold matrix_total, matrix_cells.
  induction cm as [|[e row] cm IH]; intros c0; cbn zeta.
  - unfold cells_total. simpl. lia.
  - cbn [fold_left flat_map fst snd]. rewrite !cells_total_app.
    specialize (IH (fold_left (count_cell intent e) row c0)). cbn zeta in IH.
    destruct IH as (I1 & I2 & I3 & I4). rewrite I1, I2, I3, I4.
    destruct (count_cells intent e row c0) as (J1 & J2 & J3 & J4).
    rewrite J1, J2, J3, J4. lia.
Qed.

Lemma matrix_total_split (p q : Intent -> Intent -> bool) (cm : ConfusionMatrix) :
  (matrix_total (fun e d => p e d && q e d) cm
   + matrix_total (fun e d => p e d && negb (q e d)) cm
   = matrix_total p cm)%Z.
Proof.
  unfold matrix_total. induction (matrix_cells cm) as [|c l IH]; [reflexivity|].
  rewrite !cells_total_cons.
  destruct (p (fst (fst c)) (snd (fst c))), (q (fst (fst c)) (snd (fst c))); simpl; lia.
Qed.

Lemma matrix_total_ext (p q : Intent -> Intent -> bool) (cm : ConfusionMatrix) :
  (forall e d, p e d = q e d) -> matrix_total p cm = matrix_total q cm.
Proof.
  intros H. unfold matrix_total, cells_total. f_equal. apply map_ext. intros c.
  now rewrite H.
Qed.

(** X3. [__prepareF1Score] counts every cell of the matrix in exactly one of its
    four counters.  The true positives and the false negatives are the
    entries expected to be [intent], the true and the false positives the
    entries detected as [intent], and the four counters add up to all
    entries. *)
Theorem prepareF1Score_totals (intent : Intent) (cm : ConfusionMatrix) :
  let c := prepareF1Score intent cm in
  (true_positives c
   = matrix_total (fun e d => intent_eqb intent e && intent_eqb d intent) cm
   /\ true_positives c + false_negatives c
      = matrix_total (fun e _ => intent_eqb intent e) cm
   /\ true_positives c + false_positives c
      = matrix_total (fun _ d => intent_eqb d intent) cm
   /\ true_positives c + true_negatives c + false_positives c + false_negatives c
      = matrix_total (fun _ _ => true) cm)%Z.
Proof.
  cbn zeta. unfold prepareF1Score.
  destruct (count_rows intent cm (mkCounts 0 0 0 0)) as (J1 & J2 & J3 & J4).
  cbn zeta in J1, J2, J3, J4. cbn [true_positives false_negatives false_positives
                                   true_negatives] in J1, J2, J3, J4.
  rewrite J1, J2, J3, J4.
  pose proof (matrix_total_split (fun e _ => intent_eqb intent e)
                                 (fun _ d => intent_eqb d intent) cm) as S1.
  pose proof (matrix_total_split (fun _ d => intent_eqb d intent)
                                 (fun e _ => intent_eqb intent e) cm) as S2.
  pose proof (matrix_total_split (fun e _ => negb (intent_eqb intent e))
                                 (fun _ d => intent_eqb d intent) cm) as S3.
  pose proof (matrix_total_split (fun _ _ => true)
                                 (fun e _ => intent_eqb intent e) cm) as S4.
  cbn beta in S1, S2, S3, S4.
  rewrite (matrix_total_ext
             (fun e d => intent_eqb d intent && intent_eqb intent e)
             (fun e d => intent_eqb intent e && intent_eqb d intent) cm) in S2
    by (intros; apply andb_comm).
  rewrite (matrix_total_ext
             (fun e d => intent_eqb d intent && negb (intent_eqb intent e))
             (fun e d => negb (intent_eqb intent e) && intent_eqb d intent) cm) in S2
    by (intros; apply andb_comm).
  rewrite (matrix_total_ext
             (fun e d => true && intent_eqb intent e)
             (fun e _ => intent_eqb intent e) cm) in S4 by reflexivity.
  rewrite (matrix_total_ext
             (fun e d => true && negb (intent_eqb intent e))
             (fun e _ => negb (intent_eqb intent e)) cm) in S4 by reflexivity.
  lia.
Qed.

(** X4. [confusionMatrixToF1Scores] scores exactly the keys of the matrix, in
    their order, each with the score of [__prepareF1Score]'s counters. *)
Theorem f1_scores_keys (cm : ConfusionMatrix) (scores : Dict.t Intent pynum) :
  NoDup (Dict.keys cm) ->
  confusionMatrixToF1Scores cm = Return scores ->
  Dict.keys scores = Dict.keys cm
  /\ Forall (fun kv => f1_score (fst kv) cm = Return (snd kv)) scores.
Proof.
  intros D H.
  destruct (@DictOrderFacts.fill_distinct _ _ intent_eqb intent_eqb_eq Intent
              (fun i => i) (fun i => f1_score i cm) (Dict.keys cm) [] scores)
    as [vs [E F]].
  - now rewrite map_id.
  - intros x _ [].
  - exact H.
  - simpl in E. rewrite map_id in E. subst scores.
    assert (L : List.length (Dict.keys cm) = List.length vs) by exact (Forall2_length F).
    split.
    + unfold Dict.keys at 1. clear F H. revert vs L.
      induction (Dict.keys cm) as [|k ks IH]; intros [|v vs] L; simpl in *;
        try discriminate; [reflexivity|]. f_equal. apply IH; [now inversion D|lia].
    + clear L D H. induction F as [|k v ks vs Hk F IH]; simpl; constructor; auto.
Qed.

Lemma f1_scores_keys_witness :
  exists scores,
    confusionMatrixToF1Scores Examples.matrix_AB = Return scores
    /\ Dict.keys scores = [Some "A"; Some "B"].
Proof.
  destruct (confusionMatrixToF1Scores Examples.matrix_AB) as [scores|e] eqn:E;
    [|vm_compute in E; discriminate].
  exists scores. split; [reflexivity|].
  refine (proj1 (@f1_scores_keys Examples.matrix_AB scores _ E)).
  repeat constructor; simpl; intuition discriminate.
Defined.

End MetricsMoreFacts.

(** ** Confusion matrices from ratings *)

Module ConfusionFacts.
Import Optimizer.

(** The body of the loop of [__toConfusionMatrix]. *)
Definition count_rating (confusion_matrix : ConfusionMatrix)
    (ir : Intent * Rating.NLUIntentRating) : outcome pyerr ConfusionMatrix :=
  let row := match Dict.get intent_eqb confusion_matrix (fst ir) with
             | Some row => row
             | None => []
             end in
  obind (Rating.detected_intent (snd ir)) (fun detected =>
  let count := match Dict.get intent_eqb row detected with
               | Some n => n
               | None => 0%Z
               end in
  Return (Dict.set intent_eqb confusion_matrix (fst ir)
                   (Dict.set intent_eqb row detected (count + 1)%Z))).

Lemma toConfusionMatrix_fold (ratings : Ratings) :
  toConfusionMatrix ratings = ofold count_rating ratings [].
Proof. reflexivity. Qed.

Lemma count_rating_cell (cm cm' : ConfusionMatrix) (ir : Intent * Rating.NLUIntentRating)
    (e d : Intent) :
  count_rating cm ir = Return cm' ->
  matrix_cell cm' e d = (matrix_cell cm e d + if rated_as e d ir then 1 else 0)%Z.
Proof.
  unfold count_rating, rated_as, matrix_cell.
  destruct ir as [e0 r]. cbn [fst snd].
  destruct (Rating.detected_intent r) as [d0|err]; simpl; [|discriminate].
  intros H. injection H as <-.
  destruct (intent_eqb e0 e) eqn:Ee.
  - apply intent_eqb_eq in Ee. subst e0.
    rewrite (@DictFacts.get_set_same _ _ intent_eqb intent_eqb_eq).
    destruct (intent_eqb d0 d) eqn:Ed.
    + apply intent_eqb_eq in Ed. subst d0.
      rewrite (@DictFacts.get_set_same _ _ intent_eqb intent_eqb_eq). simpl.
      destruct (Dict.get intent_eqb cm e) as [row|]; simpl; reflexivity.
    + assert (Nd : d0 <> d) by (intros ->; rewrite intent_eqb_refl in Ed; discriminate).
      rewrite (@DictFacts.get_set_other _ _ intent_eqb intent_eqb_eq _ _ _ _ Nd). simpl.
      destruct (Dict.get intent_eqb cm e) as [row|]; simpl; lia.
  - assert (Ne : e0 <> e) by (intros ->; rewrite intent_eqb_refl in Ee; discriminate).
    rewrite (@DictFacts.get_set_other _ _ intent_eqb intent_eqb_eq _ _ _ _ Ne). simpl. lia.
Qed.

Lemma cells_total_set_row (row : Dict.t Intent Z) (e d : Intent) (n : Z) :
  cells_total (fun _ _ => true)
    (map (fun cell : Intent * Z => (e, fst cell, snd cell)) (Dict.set intent_eqb row d n))
  = (cells_total (fun _ _ => true)
       (map (fun cell : Intent * Z => (e, fst cell, snd cell)) row)
     + n - match Dict.get intent_eqb row d with
           | Some m => m
           | None => 0
           end)%Z.
Proof.
  unfold cells_total. induction row as [|[k v] row IH]; simpl; [lia|].
  destruct (intent_eqb k d); simpl; [lia|]. rewrite IH. lia.
Qed.

Lemma matrix_total_set (cm : ConfusionMatrix) (e : Intent) (row : Dict.t Intent Z) :
  matrix_total (fun _ _ => true) (Dict.set intent_eqb cm e row)
  = (matrix_total (fun _ _ => true) cm
     + cells_total (fun _ _ => true)
         (map (fun cell : Intent * Z => (e, fst cell, snd cell)) row)
     - cells_total (fun _ _ => true)
         (map (fun cell : Intent * Z => (e, fst cell, snd cell))
              match Dict.get intent_eqb cm e with
              | Some r => r
              | None => []
              end))%Z.
Proof.
  unfold matrix_total, matrix_cells.
  induction cm as [|[k r] cm IH]; cbn [Dict.set Dict.get flat_map fst snd].
  - rewrite app_nil_r. unfold cells_total. simpl. lia.
  - destruct (intent_eqb k e) eqn:E; cbn [flat_map fst snd];
      rewrite !MetricsMoreFacts.cells_total_app.
    + assert (T : forall (a b : Intent) (l : Dict.t Intent Z),
                 cells_total (fun _ _ => true)
                   (map (fun cell : Intent * Z => (a, fst cell, snd cell)) l)
                 = cells_total (fun _ _ => true)
                     (map (fun cell : Intent * Z => (b, fst cell, snd cell)) l)).
      { intros a b l. unfold cells_total. rewrite !map_map. reflexivity. }
      rewrite (T k e row), (T k e r). lia.
    + rewrite IH. lia.
Qed.

Lemma count_rating_total (cm cm' : ConfusionMatrix) (ir : Intent * Rating.NLUIntentRating) :
  count_rating cm ir = Return cm' ->
  matrix_total (fun _ _ => true) cm' = (matrix_total (fun _ _ => true) cm + 1)%Z.
Proof.
  unfold count_rating. destruct ir as [e0 r]. cbn [fst snd].
  set (row := match Dict.get intent_eqb cm e0 with
              | Some row => row
              | None => []
              end).
  destruct (Rating.detected_intent r) as [d0|err]; cbn [obind]; [|discriminate].
  intros H. injection H as <-.
  rewrite matrix_total_set. fold row. rewrite cells_total_set_row. subst row.
  destruct (Dict.get intent_eqb cm e0) as [row|];
    [destruct (Dict.get intent_eqb row d0)|cbn [Dict.get]]; lia.
Qed.

Lemma count_rating_raises (cm : ConfusionMatrix) (ir : Intent * Rating.NLUIntentRating) :
  match count_rating cm ir with
  | Return _ => no_intents (snd ir) = false
  | Raise err => err = IndexError /\ no_intents (snd ir) = true
  end.
Proof.
  unfold count_rating, no_intents, Rating.detected_intent.
  destruct (Rating.sorted_intents (snd ir)); simpl; auto.
Qed.

Lemma count_ratings (ratings : Ratings) :
  forall cm0 : ConfusionMatrix,
    match ofold count_rating ratings cm0 with
    | Return cm =>
        existsb (fun ir => no_intents (snd ir)) ratings = false
        /\ (forall e d,
              matrix_cell cm e d
              = (matrix_cell cm0 e d
                 + Z.of_nat (List.length (filter (rated_as e d) ratings)))%Z)
        /\ matrix_total (fun _ _ => true) cm
           = (matrix_total (fun _ _ => true) cm0 + Z.of_nat (List.length ratings))%Z
    | Raise err =>
        err = IndexError /\ existsb (fun ir => no_intents (snd ir)) ratings = true
    end.
Proof.
  induction ratings as [|ir ratings IH]; intros cm0.
  - simpl. split; [reflexivity|]. split; [intros; lia|lia].
  - cbn [ofold existsb filter].
    pose proof (count_rating_raises cm0 ir) as R.
    pose proof (fun cm' e d => @count_rating_cell cm0 cm' ir e d) as C.
    pose proof (fun cm' => @count_rating_total cm0 cm' ir) as T.
    destruct (count_rating cm0 ir) as [cm1|err]; cbn [obind].
    + specialize (IH cm1). rewrite R. cbn [orb].
      destruct (ofold count_rating ratings cm1) as [cm|err]; [|exact IH].
      destruct IH as (I1 & I2 & I3). split; [exact I1|]. split.
      * intros e d. rewrite I2, (C cm1 e d eq_refl).
        destruct (rated_as e d ir); cbn [List.length]; lia.
      * rewrite I3, (T cm1 eq_refl). cbn [List.length]. lia.
    + destruct R as [-> R]. rewrite R. auto.
Qed.

(** X5. [__toConfusionMatrix] raises [IndexError] when a rating holds no intent,
    and no other exception.  Otherwise the entry of the matrix for an
    expected and a detected intent is the number of sentences expected and
    rated so, and all entries add up to the number of ratings. *)
Theorem toConfusionMatrix_counts (ratings : Ratings) :
  match toConfusionMatrix ratings with
  | Return cm =>
      existsb (fun ir => no_intents (snd ir)) ratings = false
      /\ (forall expected detected,
            matrix_cell cm expected detected
            = Z.of_nat (List.length (filter (rated_as expected detected) ratings)))
      /\ matrix_total (fun _ _ => true) cm = Z.of_nat (List.length ratings)
  | Raise err =>
      err = IndexError /\ existsb (fun ir => no_intents (snd ir)) ratings = true
  end.
Proof.
  rewrite toConfusionMatrix_fold. pose proof (count_ratings ratings []) as H.
  destruct (ofold count_rating ratings []) as [cm|err]; [|exact H].
  destruct H as (H1 & H2 & H3). split; [exact H1|]. split.
  - intros e d. rewrite H2. reflexivity.
  - rewrite H3. reflexivity.
Qed.

Section Validate.

Variables (Env F D : Type).
Variable rate :
  F -> string -> Env -> Env * outcome (Benchmarker.exc F) Rating.NLUIntentRating.

Lemma validate_datum_count (f : F) (cm : ConfusionMatrix) (x : NLUDataEntry)
    (w : Benchmarker.world Env F D) :
  Benchmarker.validate_datum rate f cm x w
  = match rate f (entry_sentence x) (env w) with
    | (e1, Return rating) =>
        (mkTraced e1 (trace w ++ [Benchmarker.Rate f (entry_sentence x)]) (event_loop w),
         match count_rating cm (entry_intent x, rating) with
         | Return cm' => Return cm'
         | Raise err => Raise (Builtin err)
         end)
    | (e1, Raise ex) =>
        (mkTraced e1 (trace w ++ [Benchmarker.Rate f (entry_sentence x)]) (event_loop w),
         Raise ex)
    end.
Proof.
  unfold Benchmarker.validate_datum, Async.bind, Benchmarker.rateIntents, invoke,
    Benchmarker.builtin, Async.lift, Async.ret, count_rating.
  destruct (rate f (entry_sentence x) (env w)) as [e1 [rating|ex]]; [|reflexivity].
  cbn [fst snd]. destruct (Rating.detected_intent rating); reflexivity.
Qed.

Lemma validate_from (f : F) (vd : list NLUDataEntry) :
  forall (cm0 cm : ConfusionMatrix) (w w' : Benchmarker.world Env F D),
    Async.fold_M (Benchmarker.validate_datum rate f) vd cm0 w = (w', Return cm) ->
    exists ratings,
      outcomes (fun x => rate f (entry_sentence x)) vd (env w)
      = (env w', map Return ratings)
      /\ ofold count_rating (combine (map entry_intent vd) ratings) cm0 = Return cm
      /\ trace w' = trace w ++ map (fun x => Benchmarker.Rate f (entry_sentence x)) vd.
Proof.
  induction vd as [|x vd IH]; intros cm0 cm w w'; cbn [Async.fold_M].
  - unfold Async.ret. intros H. injection H as <- <-. exists []. simpl.
    rewrite app_nil_r. auto.
  - unfold Async.bind. rewrite validate_datum_count. cbn [outcomes].
    destruct (rate f (entry_sentence x) (env w)) as [e1 [rating|ex]]; [|discriminate].
    destruct (count_rating cm0 (entry_intent x, rating)) as [cm1|err] eqn:C;
      [|discriminate].
    intros H. destruct (IH _ _ _ _ H) as (ratings & O & T & Tr). cbn [env trace] in O, Tr.
    exists (rating :: ratings). rewrite O. cbn [map combine ofold]. rewrite C. cbn [obind].
    split; [reflexivity|]. split; [exact T|]. rewrite Tr, <- app_assoc. reflexivity.
Qed.

(** X6. When [NLUFramework.__validate] returns, it has called [rateIntents]
    once for each validation sentence, in order, and its matrix is the one
    that [IntentThresholdOptimizer.__toConfusionMatrix] makes of the
    expected intents and the ratings it received. *)
Theorem validate_confusion_matrix (f : F) (validation_data : list NLUDataEntry)
    (cm : ConfusionMatrix) (w w' : Benchmarker.world Env F D) :
  Benchmarker.validate rate f validation_data w = (w', Return cm) ->
  exists ratings,
    outcomes (fun x => rate f (entry_sentence x)) validation_data (env w)
    = (env w', map Return ratings)
    /\ toConfusionMatrix (combine (map entry_intent validation_data) ratings) = Return cm
    /\ trace w'
       = trace w ++ map (fun x => Benchmarker.Rate f (entry_sentence x)) validation_data.
Proof. unfold Benchmarker.validate. apply validate_from. Qed.

Lemma validate_stops (f : F) (vd1 : list NLUDataEntry) :
  forall (x : NLUDataEntry) (vd2 : list NLUDataEntry) (cm0 : ConfusionMatrix)
         (ratings : list Rating.NLUIntentRating) (e1 e2 : Env) (r : Rating.NLUIntentRating)
         (w : Benchmarker.world Env F D),
    outcomes (fun x => rate f (entry_sentence x)) vd1 (env w) = (e1, map Return ratings) ->
    forallb (fun r => negb (no_intents r)) ratings = true ->
    rate f (entry_sentence x) e1 = (e2, Return r) ->
    no_intents r = true ->
    Async.fold_M (Benchmarker.validate_datum rate f) (vd1 ++ x :: vd2) cm0 w
    = (mkTraced e2 (trace w ++ map (fun x => Benchmarker.Rate f (entry_sentence x))
                                   (vd1 ++ [x])) (event_loop w),
       Raise (Builtin IndexError)).
Proof.
  induction vd1 as [|y vd1 IH]; intros x vd2 cm0 ratings e1 e2 r w O N Rx Nx.
  - cbn [outcomes] in O. injection O as <-. cbn [app Async.fold_M]. unfold Async.bind.
    rewrite validate_datum_count, Rx.
    pose proof (count_rating_raises cm0 (entry_intent x, r)) as C. cbn [snd] in C.
    destruct (count_rating cm0 (entry_intent x, r)) as [cm'|err]; [congruence|].
    destruct C as [-> _]. reflexivity.
  - cbn [outcomes] in O. cbn [app Async.fold_M]. unfold Async.bind.
    rewrite validate_datum_count.
    destruct (rate f (entry_sentence y) (env w)) as [e' [ry|ex]] eqn:Ry.
    + destruct (outcomes (fun x => rate f (entry_sentence x)) vd1 e') as [e'' rs] eqn:O'.
      injection O as -> O. destruct ratings as [|r0 ratings]; [discriminate|].
      cbn [map] in O. injection O as -> ->. cbn [forallb] in N.
      apply andb_true_iff in N. destruct N as [N0 N].
      pose proof (count_rating_raises cm0 (entry_intent y, r0)) as C. cbn [snd] in C.
      destruct (count_rating cm0 (entry_intent y, r0)) as [cm1|err].
      * rewrite (IH x vd2 cm1 ratings e1 e2 r
                    (mkTraced e' (trace w ++ [Benchmarker.Rate f (entry_sentence y)])
                              (event_loop w))
                    O' N Rx Nx).
        cbn [env trace map app].
        now rewrite <- app_assoc.
      * destruct C as [_ C]. rewrite C in N0. discriminate.
    + destruct (outcomes (fun x => rate f (entry_sentence x)) vd1 e') as [e'' rs].
      injection O as _ O. destruct ratings; discriminate.
Qed.

(** X7. When a framework rates a validation sentence without any intent,
    [__validate] raises [IndexError] at that sentence and rates none of the
    sentences after it. *)
Theorem validate_no_intents (f : F) (before : list NLUDataEntry) (x : NLUDataEntry)
    (after : list NLUDataEntry) (ratings : list Rating.NLUIntentRating) (e1 e2 : Env)
    (r : Rating.NLUIntentRating) (w : Benchmarker.world Env F D) :
  outcomes (fun x => rate f (entry_sentence x)) before (env w) = (e1, map Return ratings) ->
  forallb (fun r => negb (no_intents r)) ratings = true ->
  rate f (entry_sentence x) e1 = (e2, Return r) ->
  no_intents r = true ->
  Benchmarker.validate rate f (before ++ x :: after) w
  = (mkTraced e2 (trace w ++ map (fun x => Benchmarker.Rate f (entry_sentence x))
                                 (before ++ [x])) (event_loop w),
     Raise (Builtin IndexError)).
Proof. unfold Benchmarker.validate. apply validate_stops. Qed.

End Validate.

(** A framework that rates "hello" as a greeting, the empty sentence with no
    intent at all, and anything else as a farewell, and counts its calls. *)
Definition rate_words (f : nat) (s : string) (e : nat)
  : nat * outcome (Benchmarker.exc nat) Rating.NLUIntentRating :=
  (S e,
   Return (Rating.init s (if String.eqb s "hello" then [(Some "greet", 0.9%float)]
                          else if String.eqb s "" then []
                               else [(Some "bye", 0.8%float)]))).

Lemma validate_confusion_matrix_witness :
  exists cm w' ratings,
    Benchmarker.validate (D := nat) rate_words 0
      [mkEntry "hello" (Some "greet"); mkEntry "ciao" (Some "greet")] (mkTraced 0 [] Running)
    = (w', Return cm)
    /\ toConfusionMatrix (combine [Some "greet"; Some "greet"] ratings) = Return cm
    /\ matrix_cell cm (Some "greet") (Some "bye") = 1%Z.
Proof.
  destruct (Benchmarker.validate (D := nat) rate_words 0
              [mkEntry "hello" (Some "greet"); mkEntry "ciao" (Some "greet")]
              (mkTraced 0 [] Running)) as [w' [cm|e]] eqn:V; [|vm_compute in V; discriminate].
  destruct (@validate_confusion_matrix nat nat nat rate_words 0 _ cm _ w' V)
    as (ratings & _ & T & _).
  exists cm, w', ratings. split; [reflexivity|]. split; [exact T|].
  vm_compute in V. injection V as _ <-. reflexivity.
Defined.

Lemma validate_no_intents_witness :
  Benchmarker.validate (D := nat) rate_words 0
    [mkEntry "hello" (Some "greet"); mkEntry "" None; mkEntry "ciao" (Some "bye")]
    (mkTraced 0 [] Running)
  = (mkTraced 2 [Benchmarker.Rate 0 "hello"; Benchmarker.Rate 0 ""] Running,
     Raise (Builtin IndexError)).
Proof.
  exact (@validate_no_intents nat nat nat rate_words 0
           [mkEntry "hello" (Some "greet")] (mkEntry "" None)
           [mkEntry "ciao" (Some "bye")]
           [Rating.init "hello" [(Some "greet", 0.9%float)]] 1 2
           (Rating.init "" []) (mkTraced 0 [] Running) eq_refl eq_refl eq_refl eq_refl).
Defined.

End ConfusionFacts.

(** ** nlu_benchmarker.py: facts on the report *)

Module ReportFacts.
Import Report Sorted SortedFacts.

Lemma mean_of_nothing (xs : list pynum) :
  match py_truediv (py_sum xs) (py_len xs) with
  | Return _ => xs <> []
  | Raise err => err = ZeroDivisionError /\ xs = []
  end.
Proof.
  unfold py_truediv, py_len, py_eq0. destruct xs as [|x xs]; [cbn; auto|].
  cbn [List.length Z.of_nat Z.eqb]. destruct (py_sum (x :: xs)); discriminate.
Qed.

Lemma merge_intents_raises (intent_performances : Dict.t Intent Performance) :
  match merge_intents intent_performances with
  | Return _ => intent_performances <> []
  | Raise err => err = ZeroDivisionError /\ intent_performances = []
  end.
Proof.
  unfold merge_intents, Dict.values.
  pose proof (mean_of_nothing (map mean (map snd intent_performances))) as M.
  pose proof (mean_of_nothing (map variance (map snd intent_performances))) as V.
  destruct (py_truediv (py_sum (map mean (map snd intent_performances))) _) as [m|e];
    cbn [obind].
  - destruct (py_truediv (py_sum (map variance (map snd intent_performances))) _)
      as [v|e]; cbn [obind].
    + intros ->. now apply M.
    + destruct V as [-> V]. destruct intent_performances; [auto|discriminate].
  - destruct M as [-> M]. destruct intent_performances; [auto|discriminate].
Qed.

Lemma title_eqb_eq (a b : string) : String.eqb a b = true <-> a = b.
Proof. apply String.eqb_eq. Qed.

Lemma fill_raises {A K V} (eqb : K -> K -> bool) (key : A -> K) (f : A -> outcome pyerr V)
    (P : A -> Prop) (err0 : pyerr) (xs : list A) :
  (forall x, match f x with
             | Return _ => ~ P x
             | Raise err => err = err0 /\ P x
             end) ->
  forall d0,
    match DictFacts.fill eqb key f xs d0 with
    | Return _ => Forall (fun x => ~ P x) xs
    | Raise err => err = err0 /\ Exists P xs
    end.
Proof.
  intros H. unfold DictFacts.fill. induction xs as [|x xs IH]; intros d0; simpl.
  - constructor.
  - specialize (H x). destruct (f x) as [v|e]; simpl.
    + specialize (IH (Dict.set eqb d0 (key x) v)).
      destruct (ofold _ xs (Dict.set eqb d0 (key x) v)).
      * now constructor.
      * destruct IH as [-> IH]. split; [reflexivity|now right].
    + destruct H as [-> H]. split; [reflexivity|now left].
Qed.

Lemma Forall2_combine_keys {A K V} (key : A -> K) (R : A -> V -> Prop)
    (xs : list A) (vs : list V) :
  Forall2 R xs vs ->
  Forall2 (fun x (r : K * V) => fst r = key x /\ R x (snd r)) xs (combine (map key xs) vs).
Proof. induction 1; simpl; constructor; auto. Qed.

(** X8. [__mergeIntentPerformances] raises [ZeroDivisionError] when a framework
    has no performance for any intent of a data set, and no other exception.
    Otherwise it keeps the data sets and the frameworks in their order and
    gives each framework the means of the means and of the variances of its
    intents. *)
Theorem mergeIntentPerformances_keeps
    (performances : Dict.t DataSetTitle (Dict.t FrameworkTitle (Dict.t Intent Performance))) :
  NoDup (Dict.keys performances) ->
  Forall (fun e => NoDup (Dict.keys (snd e))) performances ->
  match mergeIntentPerformances performances with
  | Return result =>
      Forall (fun e => Forall (fun fp => snd fp <> []) (snd e)) performances
      /\ Forall2 (fun e r =>
                    fst r = fst e
                    /\ Forall2 (fun fp mp => fst mp = fst fp
                                             /\ merge_intents (snd fp) = Return (snd mp))
                               (snd e) (snd r))
                 performances result
  | Raise err =>
      err = ZeroDivisionError
      /\ Exists (fun e => Exists (fun fp => snd fp = []) (snd e)) performances
  end.
Proof.
  intros D1 D2.
  set (inner := fun e : DataSetTitle * Dict.t FrameworkTitle (Dict.t Intent Performance) =>
                  DictFacts.fill String.eqb fst (fun fp => merge_intents (snd fp))
                                 (snd e) []).
  assert (R : forall e,
             match inner e with
             | Return _ => ~ Exists (fun fp => snd fp = []) (snd e)
             | Raise err => err = ZeroDivisionError
                            /\ Exists (fun fp => snd fp = []) (snd e)
             end).
  { intros e. unfold inner.
    pose proof (@fill_raises _ _ _ String.eqb fst (fun fp => merge_intents (snd fp))
                  (fun fp : FrameworkTitle * Dict.t Intent Performance => snd fp = [])
                  ZeroDivisionError (snd e)
                  (fun x => merge_intents_raises (snd x)) []) as Hf.
    destruct (DictFacts.fill String.eqb fst
                (fun fp : string * Dict.t Intent Performance => merge_intents (snd fp))
                (snd e) []); [|exact Hf].
    intros Ex. apply Exists_exists in Ex. destruct Ex as [x [Hx Ex]].
    rewrite Forall_forall in Hf. exact (Hf x Hx Ex). }
  change (mergeIntentPerformances performances)
    with (DictFacts.fill String.eqb fst inner performances []).
  pose proof (@fill_raises _ _ _ String.eqb fst inner
                (fun e => Exists (fun fp => snd fp = []) (snd e))
                ZeroDivisionError performances R []) as Hf.
  destruct (DictFacts.fill String.eqb fst inner performances []) as [result|err] eqn:E;
    [|exact Hf].
  split.
  - eapply Forall_impl; [|exact Hf]. intros e Ne. cbv beta in Ne.
    apply Forall_forall. intros fp Hfp Efp. apply Ne. apply Exists_exists. eauto.
  - destruct (@DictOrderFacts.fill_distinct _ _ String.eqb title_eqb_eq _ fst inner
                performances [] result D1 ltac:(intros x _ []) E) as [vs [Er F]].
    simpl in Er. subst result.
    pose proof (@Forall2_combine_keys _ _ _ fst _ _ _ F) as F'. cbv beta in F'.
    clear E Hf D1 R F. induction F' as [|e r es rs [Hk Hv] F' IH]; [constructor|].
    inversion D2 as [|? ? De D2']; subst. constructor; [|exact (IH D2')].
    split; [exact Hk|]. unfold inner in Hv.
    destruct (@DictOrderFacts.fill_distinct _ _ String.eqb title_eqb_eq _ fst
                (fun fp => merge_intents (snd fp)) (snd e) [] (snd r) De
                ltac:(intros x _ []) Hv) as [ps [Ev Fv]].
    simpl in Ev. pose proof (@Forall2_combine_keys _ _ _ fst _ _ _ Fv) as G.
    rewrite <- Ev in G. exact G.
Qed.

Lemma mergeIntentPerformances_keeps_witness :
  mergeIntentPerformances
    [("ds", [("fw", [(Some "greet", mkPerformance (PFloat 100) (PFloat 0));
                     (None, mkPerformance (PFloat 50) (PFloat 4))])])]
  = Return [("ds", [("fw", mkPerformance (PFloat 75) (PFloat 2))])]
  /\ mergeIntentPerformances [("ds", [("fw", [])])] = Raise ZeroDivisionError.
Proof.
  pose proof (@mergeIntentPerformances_keeps
                [("ds", [("fw", [(Some "greet", mkPerformance (PFloat 100) (PFloat 0));
                                 (None, mkPerformance (PFloat 50) (PFloat 4))])])]
                ltac:(repeat constructor; simpl; tauto)
                ltac:(repeat constructor; simpl; tauto)) as H.
  split; reflexivity.
Defined.

Lemma set_fold_distinct {A K V} (eqb : K -> K -> bool)
    (eqb_eq : forall a b, eqb a b = true <-> a = b)
    (key : A -> K) (g : A -> V) (xs : list A) :
  forall d0 : Dict.t K V,
    NoDup (map key xs) ->
    (forall x, In x xs -> ~ In (key x) (Dict.keys d0)) ->
    fold_left (fun d x => Dict.set eqb d (key x) (g x)) xs d0
    = d0 ++ map (fun x => (key x, g x)) xs.
Proof.
  induction xs as [|x xs IH]; intros d0 D N; simpl.
  - now rewrite app_nil_r.
  - inversion D as [|? ? Nx D']; subst.
    rewrite (@DictOrderFacts.set_new _ _ eqb eqb_eq) by (apply N; now left).
    rewrite IH; [now rewrite <- app_assoc|exact D'|].
    intros y Hy. unfold Dict.keys. rewrite map_app, in_app_iff. simpl.
    intros [I|[I|[]]].
    + apply (N y); [now right|exact I].
    + apply Nx. rewrite I. now apply in_map.
Qed.

Lemma sortPerformances_map
    (performances : Dict.t DataSetTitle (Dict.t FrameworkTitle Performance)) :
  NoDup (Dict.keys performances) ->
  sortPerformances performances
  = map (fun e => (fst e, sorted_desc mean_key (snd e))) performances.
Proof.
  intros D.
  exact (@set_fold_distinct _ _ _ String.eqb title_eqb_eq fst
           (fun e => sorted_desc mean_key (snd e)) performances [] D
           ltac:(intros x _ [])).
Qed.

(** X9. [__sortPerformances] keeps the data sets in their order and sorts the
    frameworks of each by their mean: when no mean is a NaN, the list of a
    data set holds its frameworks with their performances, each mean is at
    least the next one, and frameworks with the same mean are in their
    former order. *)
Theorem sortPerformances_sorts
    (performances : Dict.t DataSetTitle (Dict.t FrameworkTitle Performance)) :
  NoDup (Dict.keys performances) ->
  Forall (fun e => no_nan mean_key (snd e) = true) performances ->
  Forall2 (fun e r =>
             fst r = fst e
             /\ Permutation (snd r) (snd e)
             /\ descending mean_key (snd r) = true
             /\ forall c : float,
                  filter (fun x => PrimFloat.eqb (mean_key x) c) (snd r)
                  = filter (fun x => PrimFloat.eqb (mean_key x) c) (snd e))
          performances (sortPerformances performances).
Proof.
  intros D N. rewrite (@sortPerformances_map _ D). clear D.
  induction N as [|e es Ne N IH]; simpl; constructor; [|exact IH].
  cbn [fst snd]. split; [reflexivity|].
  split; [apply sorted_desc_perm|]. split; [now apply sorted_desc_descending|].
  intros c. apply sorted_desc_stable.
Qed.

Lemma sortPerformances_sorts_witness :
  sortPerformances
    [("ds", [("a", mkPerformance (PFloat 50) (PFloat 1));
             ("b", mkPerformance (PFloat 75) (PFloat 2));
             ("c", mkPerformance (PFloat 75) (PFloat 3))])]
  = [("ds", [("b", mkPerformance (PFloat 75) (PFloat 2));
             ("c", mkPerformance (PFloat 75) (PFloat 3));
             ("a", mkPerformance (PFloat 50) (PFloat 1))])].
Proof.
  pose proof (@sortPerformances_sorts
                [("ds", [("a", mkPerformance (PFloat 50) (PFloat 1));
                         ("b", mkPerformance (PFloat 75) (PFloat 2));
                         ("c", mkPerformance (PFloat 75) (PFloat 3))])]
                ltac:(repeat constructor; simpl; tauto)
                ltac:(repeat constructor)) as H.
  reflexivity.
Defined.

(** X10. The framework that [__printWinner] names for a data set is the first of
    the data set's frameworks whose mean no other mean exceeds: every
    framework before it has a lower mean, no framework after it a higher
    one. *)
Theorem printWinner_best
    (performances : Dict.t DataSetTitle (Dict.t FrameworkTitle Performance))
    (data_sets : list DataSetView) :
  data_sets <> [] ->
  NoDup (Dict.keys performances) ->
  Forall (fun e => snd e <> [] /\ no_nan mean_key (snd e) = true) performances ->
  exists winners,
    printWinner (sortPerformances performances) data_sets = Return winners
    /\ Forall2 (fun e (win : DataSetTitle * FrameworkTitle * Performance) =>
                  fst (fst win) = fst e
                  /\ exists before after,
                       snd e = before ++ (snd (fst win), snd win) :: after
                       /\ Forall (fun y => PrimFloat.ltb (mean_key y)
                                             (to_float (mean (snd win))) = true) before
                       /\ Forall (fun y => PrimFloat.leb (mean_key y)
                                             (to_float (mean (snd win))) = true) after)
               performances winners.
Proof.
  intros Hd D N. rewrite (@sortPerformances_map _ D). clear D.
  unfold printWinner. destruct data_sets as [|d ds]; [congruence|]. clear Hd.
  induction N as [|e es [Ne Nn] N IH]; simpl.
  - exists []. split; [reflexivity|constructor].
  - destruct (sorted_desc_head mean_key Nn Ne) as (l1 & [t p] & l2 & rest & E & S & F1 & F2).
    cbn [fst snd]. rewrite S. cbn [obind].
    destruct IH as [winners [W F]]. rewrite W. cbn [obind].
    exists ((fst e, t, p) :: winners). split; [reflexivity|].
    constructor; [|exact F]. cbn [fst snd]. split; [reflexivity|].
    exists l1, l2. auto.
Qed.

Lemma printWinner_best_witness :
  printWinner
    (sortPerformances
       [("ds", [("a", mkPerformance (PFloat 50) (PFloat 1));
                ("b", mkPerformance (PFloat 75) (PFloat 2));
                ("c", mkPerformance (PFloat 75) (PFloat 3))])])
    [mkView "ds" []]
  = Return [("ds", "b", mkPerformance (PFloat 75) (PFloat 2))].
Proof.
  destruct (@printWinner_best
              [("ds", [("a", mkPerformance (PFloat 50) (PFloat 1));
                       ("b", mkPerformance (PFloat 75) (PFloat 2));
                       ("c", mkPerformance (PFloat 75) (PFloat 3))])]
              [mkView "ds" []]
              ltac:(discriminate)
              ltac:(repeat constructor; simpl; tauto)
              ltac:(repeat constructor; discriminate)) as [winners [W _]].
  reflexivity.
Defined.

Lemma set_all_same {A K V} (eqb : K -> K -> bool) (key : A -> K) (v : V) (xs : list A) :
  forall d0 : Dict.t K V,
    Forall (fun e => snd e = v) d0 ->
    Forall (fun e => snd e = v) (fold_left (fun d x => Dict.set eqb d (key x) v) xs d0)
    /\ (xs <> [] \/ d0 <> [] -> fold_left (fun d x => Dict.set eqb d (key x) v) xs d0 <> []).
Proof.
  assert (S : forall (d : Dict.t K V) k,
             Forall (fun e => snd e = v) d ->
             Forall (fun e => snd e = v) (Dict.set eqb d k v)
             /\ Dict.set eqb d k v <> []).
  { induction d as [|[k' v'] d IHd]; intros k F; simpl.
    - split; [repeat constructor|discriminate].
    - apply Forall_cons_iff in F as [Fv F']. destruct (eqb k' k).
      + split; [now constructor|discriminate].
      + split; [constructor; [exact Fv|apply (IHd k F')]|discriminate]. }
  induction xs as [|x xs IH]; intros d0 F; simpl.
  - split; [exact F|]. intros [H|H]; congruence.
  - destruct (S d0 (key x) F) as [S1 S2]. destruct (IH _ S1) as [I1 I2].
    split; [exact I1|]. intros _. apply I2. now right.
Qed.

Lemma ofold_set_same {A K V} (eqb : K -> K -> bool) (key : A -> K)
    (f : A -> outcome pyerr V) (v : V) (xs : list A) :
  (forall x, f x = Return v) ->
  forall d0 : Dict.t K V,
    ofold (fun d x => obind (f x) (fun r => Return (Dict.set eqb d (key x) r))) xs d0
    = Return (fold_left (fun d x => Dict.set eqb d (key x) v) xs d0).
Proof.
  intros H. induction xs as [|x xs IH]; intros d0; [reflexivity|].
  cbn [ofold fold_left]. rewrite H. cbn [obind]. apply IH.
Qed.

Section Degenerate.

Variable libm_pow2 : float -> float.
Variable chart : Dict.t FrameworkTitle (Dict.t Intent Performance) -> outcome pyerr unit.

Lemma no_iterations_framework (data_set_title : DataSetTitle) (intents : list Intent)
    (framework_title : FrameworkTitle) :
  Aggregation.framework_performances libm_pow2 [] data_set_title intents framework_title
  = Return [].
Proof.
  unfold Aggregation.framework_performances.
  induction intents as [|i intents IH]; [reflexivity|]. simpl. exact IH.
Qed.

Lemma no_iterations_data_set (frameworks : list FrameworkTitle) (data_set : DataSetView) :
  Aggregation.data_set_performances libm_pow2 frameworks [] data_set
  = Return (no_scores frameworks).
Proof.
  exact (@ofold_set_same _ _ _ String.eqb (fun k : FrameworkTitle => k)
           (Aggregation.framework_performances libm_pow2 [] (view_title data_set)
              (intent_set (map entry_intent (view_validation_data data_set))))
           [] frameworks
           (no_iterations_framework _ _) []).
Qed.

Lemma no_iterations_performances (frameworks : list FrameworkTitle)
    (data_sets : list DataSetView) :
  Aggregation.f1ScoreMeansAndVariances libm_pow2 frameworks data_sets []
  = Return (fold_left (fun d x => Dict.set String.eqb d (view_title x) (no_scores frameworks))
                      data_sets []).
Proof.
  exact (@ofold_set_same _ _ _ String.eqb view_title
           (Aggregation.data_set_performances libm_pow2 frameworks [])
           (no_scores frameworks) data_sets
           (no_iterations_data_set frameworks) []).
Qed.

Lemma no_frameworks_performances (data_sets : list DataSetView) (iterations : list Aggregation.Scores) :
  Aggregation.f1ScoreMeansAndVariances libm_pow2 [] data_sets iterations
  = Return (fold_left (fun d x => Dict.set String.eqb d (view_title x) []) data_sets []).
Proof.
  exact (@ofold_set_same _ _ _ String.eqb view_title
           (Aggregation.data_set_performances libm_pow2 [] iterations)
           [] data_sets (fun _ => eq_refl) []).
Qed.

Lemma plot_same (performances : Aggregation.Performances)
    (by_framework : Dict.t FrameworkTitle (Dict.t Intent Performance)) :
  performances <> [] ->
  Forall (fun e => snd e = by_framework) performances ->
  plot chart performances = chart by_framework.
Proof.
  unfold plot, Dict.values. intros N F. revert N.
  induction F as [|[t b] rest Hb F IH]; intros N; [now elim N|].
  cbn [snd] in Hb. subst b. cbn [map snd ofold].
  destruct (chart by_framework) as [[]|e] eqn:E; [|reflexivity]. cbn [obind].
  destruct rest as [|r rest']; [reflexivity|]. apply IH. discriminate.
Qed.

Lemma merge_raises_on_nothing (performances : Aggregation.Performances)
    (by_framework : Dict.t FrameworkTitle (Dict.t Intent Performance)) :
  performances <> [] -> by_framework <> [] ->
  Forall (fun e => snd e = by_framework) performances ->
  Forall (fun fp => snd fp = []) by_framework ->
  mergeIntentPerformances performances = Raise ZeroDivisionError.
Proof.
  intros Np Nb Fp Fb. unfold mergeIntentPerformances.
  destruct performances as [|[t b] rest]; [congruence|].
  apply Forall_cons_iff in Fp as [Hb _]. cbn [snd] in Hb. subst b.
  destruct by_framework as [|[ft ip] more]; [congruence|].
  apply Forall_cons_iff in Fb as [Hi _]. cbn [snd] in Hi. subst ip.
  reflexivity.
Qed.

Lemma merge_of_nothing (performances : Aggregation.Performances) :
  Forall (fun e => snd e = []) performances ->
  exists merged,
    mergeIntentPerformances performances = Return merged
    /\ (performances <> [] -> merged <> [])
    /\ Forall (fun e => snd e = []) merged.
Proof.
  intros F. unfold mergeIntentPerformances.
  assert (G : forall q0 : Dict.t DataSetTitle (Dict.t FrameworkTitle Performance),
             Forall (fun e => snd e = []) q0 ->
             exists q,
               ofold (fun result (e : DataSetTitle * Dict.t FrameworkTitle (Dict.t Intent Performance)) =>
                        obind (ofold (fun by_framework (fp : FrameworkTitle * Dict.t Intent Performance) =>
                                        obind (merge_intents (snd fp)) (fun p =>
                                        Return (Dict.set String.eqb by_framework (fst fp) p)))
                                     (snd e) []) (fun by_framework =>
                        Return (Dict.set String.eqb result (fst e) by_framework)))
                     performances q0 = Return q
               /\ (performances <> [] \/ q0 <> [] -> q <> [])
               /\ Forall (fun e => snd e = []) q).
  { induction F as [|[t b] rest Hb F IH]; intros q0 F0.
    - exists q0. split; [reflexivity|].
      split; [intros [H|H]; [now elim H|exact H]|exact F0].
    - cbn [snd] in Hb. subst b. cbn [ofold snd fst obind].
      destruct (@set_all_same _ _ _ String.eqb (fun k : DataSetTitle => k)
                  (@nil (FrameworkTitle * Performance)) [t] q0 F0) as [S1 S2].
      cbn [fold_left] in S1, S2.
      destruct (IH _ S1) as (q & Q1 & Q2 & Q3).
      exists q. split; [exact Q1|]. split; [|exact Q3].
      intros _. apply Q2. right. apply S2. left. discriminate. }
  destruct (G [] ltac:(constructor)) as (q & Q1 & Q2 & Q3).
  exists q. split; [exact Q1|]. split; [|exact Q3]. intros N. apply Q2. now left.
Qed.

Lemma sort_of_nothing (merged : Dict.t DataSetTitle (Dict.t FrameworkTitle Performance)) :
  Forall (fun e => snd e = []) merged ->
  Forall (fun e => snd e = []) (sortPerformances merged)
  /\ (merged <> [] -> sortPerformances merged <> []).
Proof.
  intros F. unfold sortPerformances.
  assert (E : forall r0,
             fold_left (fun result (e : DataSetTitle * Dict.t FrameworkTitle Performance) =>
                          Dict.set String.eqb result (fst e)
                                   (sorted_desc mean_key (snd e))) merged r0
             = fold_left (fun d (e : DataSetTitle * Dict.t FrameworkTitle Performance) =>
                            Dict.set String.eqb d (fst e) []) merged r0).
  { induction F as [|[t b] rest Hb F IH]; intros r0; [reflexivity|].
    cbn [snd] in Hb. subst b. cbn [fold_left fst snd]. apply IH. }
  rewrite E.
  destruct (@set_all_same _ _ _ String.eqb
              (fun e : DataSetTitle * Dict.t FrameworkTitle Performance => fst e)
              (@nil (FrameworkTitle * Performance)) merged [] ltac:(constructor)) as [S1 S2].
  split; [exact S1|]. intros N. apply S2. now left.
Qed.

Lemma printWinner_of_nothing
    (sorted : Dict.t DataSetTitle (list (FrameworkTitle * Performance)))
    (data_sets : list DataSetView) :
  data_sets <> [] -> sorted <> [] ->
  Forall (fun e => snd e = []) sorted ->
  printWinner sorted data_sets = Raise IndexError.
Proof.
  intros Nd Ns F. destruct data_sets as [|d ds]; [congruence|].
  destruct sorted as [|[t l] more]; [congruence|].
  apply Forall_cons_iff in F as [Hl _]. cbn [snd] in Hl. subst l. reflexivity.
Qed.

(** X11. Without a data set, a run whose benchmarks returned ends in the
    [ValueError] of [max] in [__printWinner]: nothing is plotted, nothing
    is logged. *)
Theorem report_no_data_sets (frameworks : list FrameworkTitle)
    (iterations : list (Dict.t DataSetTitle (Dict.t FrameworkTitle ConfusionMatrix))) :
  report libm_pow2 chart frameworks [] iterations
  = obind (Metrics.confusionMatricesToF1Scores iterations)
          (fun _ => Raise max_of_nothing).
Proof.
  unfold report. destruct (Metrics.confusionMatricesToF1Scores iterations); reflexivity.
Qed.

(** X12. Without a framework, but with a data set, the report draws the chart
    of the data sets without any framework, and, when the chart is drawn,
    ends in the [IndexError] of taking the best framework in
    [__printWinner]. *)
Theorem report_no_frameworks (data_sets : list DataSetView)
    (iterations : list (Dict.t DataSetTitle (Dict.t FrameworkTitle ConfusionMatrix))) :
  data_sets <> [] ->
  report libm_pow2 chart [] data_sets iterations
  = obind (Metrics.confusionMatricesToF1Scores iterations) (fun _ =>
    obind (chart []) (fun _ => Raise IndexError)).
Proof.
  intros Nd. unfold report.
  destruct (Metrics.confusionMatricesToF1Scores iterations) as [scores|e]; [|reflexivity].
  cbn [obind]. rewrite no_frameworks_performances. cbn [obind].
  destruct (@set_all_same _ _ _ String.eqb view_title
              (@nil (FrameworkTitle * Dict.t Intent Performance)) data_sets []
              ltac:(constructor)) as [S1 S2].
  specialize (S2 (or_introl Nd)).
  match type of S2 with ?x <> _ => set (p := x) in * end. clearbody p.
  rewrite (@plot_same p [] S2 S1).
  destruct (chart []) as [[]|e]; [|reflexivity]. cbn [obind].
  destruct (merge_of_nothing S1) as (q & -> & Nq & Fq). cbn [obind].
  destruct (sort_of_nothing Fq) as [T1 T2].
  apply printWinner_of_nothing; auto.
Qed.

(** X13. With frameworks and data sets but without an iteration, no intent has
    a score: the report draws the chart of frameworks without performances
    and, when the chart is drawn, ends in the [ZeroDivisionError] of the
    mean over no intents in [__mergeIntentPerformances]. *)
Theorem report_no_iterations (frameworks : list FrameworkTitle)
    (data_sets : list DataSetView) :
  frameworks <> [] -> data_sets <> [] ->
  report libm_pow2 chart frameworks data_sets []
  = obind (chart (no_scores frameworks)) (fun _ => Raise ZeroDivisionError).
Proof.
  intros Nf Nd. unfold report.
  cbn [Metrics.confusionMatricesToF1Scores omapM obind].
  rewrite no_iterations_performances. cbn [obind].
  destruct (@set_all_same _ _ _ String.eqb (fun k : FrameworkTitle => k)
              (@nil (Intent * Performance)) frameworks []
              ltac:(constructor)) as [B1 B2].
  specialize (B2 (or_introl Nf)). fold (no_scores frameworks) in B1, B2.
  destruct (@set_all_same _ _ _ String.eqb view_title
              (no_scores frameworks) data_sets [] ltac:(constructor)) as [P1 P2].
  specialize (P2 (or_introl Nd)).
  match type of P2 with ?x <> _ => set (p := x) in * end. clearbody p.
  rewrite (@plot_same p _ P2 P1).
  destruct (chart (no_scores frameworks)) as [[]|e]; [|reflexivity]. cbn [obind].
  now rewrite (@merge_raises_on_nothing p (no_scores frameworks)).
Qed.

End Degenerate.

Lemma report_no_frameworks_witness :
  report (fun x => PrimFloat.mul x x) (fun _ => Return tt) [] [mkView "ds" []] [[]]
  = Raise IndexError.
Proof.
  exact (@report_no_frameworks (fun x => PrimFloat.mul x x) (fun _ => Return tt)
           [mkView "ds" []] [[]] ltac:(discriminate)).
Defined.

Lemma report_no_iterations_witness :
  report (fun x => PrimFloat.mul x x) (fun _ => Return tt) ["f"] [mkView "ds" []] []
  = Raise ZeroDivisionError.
Proof.
  exact (@report_no_iterations (fun x => PrimFloat.mul x x) (fun _ => Return tt)
           ["f"] [mkView "ds" []] ltac:(discriminate) ltac:(discriminate)).
Defined.

End ReportFacts.

(** ** Floating-point numbers without a sign *)

Module SignFacts.

Section Rounded.

Variables prec emax : Z.

Lemma shr_fexp_nonneg (m e : Z) (l : location) :
  (0 <= m)%Z -> (0 <= shr_m (fst (shr_fexp prec emax m e l)))%Z.
Proof.
  intros H. unfold shr_fexp, shr.
  destruct (fexp prec emax (Zdigits2 m + e) - e)%Z as [|p|p]; cbn [fst];
    rewrite ?Rounding.iter_shr_1_div, ?Rounding.shr_m_of_loc;
    try lia; try (rewrite Rounding.shr_m_of_loc; lia).
  apply Z.div_pos; [exact H|]. apply Z.pow_pos_nonneg; lia.
Qed.

(** Rounding a mantissa that is not negative keeps the sign it is given. *)
Lemma binary_round_aux_sign (sx : bool) (m e : Z) (l : location) :
  (0 <= m)%Z ->
  binary_round_aux prec emax sx m e l = S754_zero sx
  \/ binary_round_aux prec emax sx m e l = S754_infinity sx
  \/ exists m' e', binary_round_aux prec emax sx m e l = S754_finite sx m' e'.
Proof.
  intros H. unfold binary_round_aux.
  pose proof (shr_fexp_nonneg e l H) as H1.
  destruct (shr_fexp prec emax m e l) as [mrs' e']. cbn [fst] in H1.
  pose proof (Rounding.round_nearest_even_ge (shr_m mrs') (loc_of_shr_record mrs')) as H2.
  pose proof (@shr_fexp_nonneg (round_nearest_even (shr_m mrs') (loc_of_shr_record mrs'))
                e' loc_Exact ltac:(lia)) as H3.
  destruct (shr_fexp prec emax (round_nearest_even (shr_m mrs') (loc_of_shr_record mrs'))
              e' loc_Exact) as [mrs'' e'']. cbn [fst] in H3.
  destruct (shr_m mrs'') as [|p|p]; [now left| |lia].
  destruct (e'' <=? emax - prec)%Z; [right; right; eauto|right; now left].
Qed.

Lemma binary_round_sign (sx : bool) (pm : positive) (e : Z) :
  binary_round prec emax sx pm e = S754_zero sx
  \/ binary_round prec emax sx pm e = S754_infinity sx
  \/ exists m' e', binary_round prec emax sx pm e = S754_finite sx m' e'.
Proof.
  unfold binary_round.
  destruct (shl_align pm e (fexp prec emax (Z.pos (digits2_pos pm) + e))) as [mz ez].
  apply binary_round_aux_sign. lia.
Qed.

Lemma binary_round_plus (pm : positive) (e : Z) :
  plus_sign (binary_round prec emax false pm e) = true.
Proof.
  destruct (binary_round_sign false pm e) as [H|[H|[m' [e' H]]]]; now rewrite H.
Qed.

Lemma binary_normalize_plus (z : Z) :
  (0 <= z)%Z -> plus_sign (binary_normalize prec emax z 0 false) = true.
Proof.
  intros H. destruct z as [|p|p]; [reflexivity|apply binary_round_plus|lia].
Qed.

Lemma SFldexp_plus (x : spec_float) (e : Z) :
  plus_sign x = true -> plus_sign (SFldexp prec emax x e) = true.
Proof.
  destruct x as [s|s| |s m ex]; simpl; try (intros H; exact H).
  destruct s; [discriminate|]. intros _. apply binary_round_plus.
Qed.

(** A quotient of numbers without a sign has no sign. *)
Lemma SFdiv_plus (x y : spec_float) :
  plus_sign x = true -> plus_sign y = true -> signed (SFdiv prec emax x y) = false.
Proof.
  destruct x as [sx|sx| |sx mx ex], y as [sy|sy| |sy my ey]; simpl;
    try destruct sx; try destruct sy; try discriminate; try reflexivity.
  intros _ _. unfold SFdiv_core_binary.
  set (s := (ex - ey
             - Z.min (fexp prec emax (Zdigits2 (Z.pos mx) + ex - (Zdigits2 (Z.pos my) + ey)))
                     (ex - ey))%Z).
  set (m' := match s with
             | Z.pos _ => Z.shiftl (Z.pos mx) s
             | 0%Z => Z.pos mx
             | Z.neg _ => 0%Z
             end).
  assert (Hm : (0 <= m')%Z).
  { subst m'. destruct s; try lia. apply Z.shiftl_nonneg. lia. }
  pose proof (Z.div_pos m' (Z.pos my) Hm ltac:(lia)) as Hq.
  unfold Z.div in Hq. destruct (Z.div_eucl m' (Z.pos my)) as [q r]. cbn [fst] in Hq.
  destruct (binary_round_aux_sign false
              (Z.min (fexp prec emax (Zdigits2 (Z.pos mx) + ex - (Zdigits2 (Z.pos my) + ey)))
                     (ex - ey))%Z
              (new_location (Z.pos my) r) Hq) as [H|[H|[m2 [e2 H]]]];
    cbn [xorb]; now rewrite H.
Qed.

End Rounded.

Lemma plus_not_signed (x : spec_float) : plus_sign x = true -> signed x = false.
Proof. destruct x as [[]|[]| |[] m e]; simpl; congruence. Qed.

(** The float of an integer that is not negative has no sign. *)
Lemma Z2float_plus (z : Z) : (0 <= z)%Z -> plus_sign (Prim2SF (Z2float z)) = true.
Proof.
  intros H. unfold Z2float.
  pose proof (binary_normalize_plus prec emax H) as N.
  destruct (binary_normalize prec emax z 0 false) as [[]|[]| |[] m e];
    try discriminate; try reflexivity.
  unfold SF2Prim. rewrite Z_ldexp_spec, of_uint63_spec.
  apply SFldexp_plus. apply binary_normalize_plus.
  apply Uint63.to_Z_bounded.
Qed.

(** Converting a number without a sign gives a float without a sign. *)
Lemma SF2Prim_unsigned (x : spec_float) :
  signed x = false -> signed (Prim2SF (SF2Prim x)) = false.
Proof.
  destruct x as [[]|[]| |[] m e]; try discriminate; try reflexivity.
  intros _. apply plus_not_signed. unfold SF2Prim.
  rewrite Z_ldexp_spec, of_uint63_spec.
  apply SFldexp_plus. apply binary_normalize_plus.
  apply Uint63.to_Z_bounded.
Qed.

Lemma Z2SF_plus (z : Z) : (0 <= z)%Z -> plus_sign (Z2SF z) = true.
Proof. destruct z; [reflexivity|reflexivity|lia]. Qed.

(** A quotient of integers that are not negative has no sign. *)
Lemma quotient_unsigned (a d : Z) :
  (0 <= a)%Z -> (0 <= d)%Z -> signed (Prim2SF (int_truediv a d)) = false.
Proof.
  intros Ha Hd. unfold int_truediv. apply SF2Prim_unsigned.
  apply SFdiv_plus; now apply Z2SF_plus.
Qed.

Lemma eqb_0_zero (x : float) :
  PrimFloat.eqb x 0 = true <-> exists s, Prim2SF x = S754_zero s.
Proof.
  rewrite eqb_spec. change (Prim2SF 0) with (S754_zero false).
  destruct (Prim2SF x) as [s|s| |s m e]; simpl; split;
    try discriminate; try (intros [s' H]; discriminate); eauto.
  - destruct s; discriminate.
  - destruct s; discriminate.
Qed.

(** A sum of numbers that are not negative is zero only when both are. *)
Lemma add_zero (x y : float) :
  signed (Prim2SF x) = false -> signed (Prim2SF y) = false ->
  PrimFloat.eqb (x + y) 0 = true ->
  PrimFloat.eqb x 0 = true /\ PrimFloat.eqb y 0 = true.
Proof.
  intros Sx Sy. rewrite !eqb_0_zero, add_spec.
  pose proof (FloatSteps.valid_bounded x) as Bx.
  pose proof (FloatSteps.valid_bounded y) as By.
  destruct (Prim2SF x) as [sx|sx| |sx mx ex], (Prim2SF y) as [sy|sy| |sy my ey];
    try destruct sx; try destruct sy; try discriminate;
    simpl; intros [s H]; try discriminate; eauto.
  exfalso.
  destruct (@Rounding.SFadd_pos prec emax FloatSteps.prec_pos mx my ex ey
              (Bx _ _ _ eq_refl) (By _ _ _ eq_refl)) as [E|[mz [ez [E _]]]];
    unfold SF64add in H; unfold SFadd in E; simpl in E; rewrite E in H; discriminate.
Qed.

(** A finite number times zero is zero. *)
Lemma mul_zero (c x : float) :
  (exists s, Prim2SF c = S754_zero s) \/ (exists s m e, Prim2SF c = S754_finite s m e) ->
  PrimFloat.eqb x 0 = true -> PrimFloat.eqb (c * x) 0 = true.
Proof.
  intros Hc. rewrite !eqb_0_zero, mul_spec. intros [s ->].
  destruct Hc as [[sc ->]|[sc [m [e ->]]]]; simpl; eauto.
Qed.

End SignFacts.

(** ** nlu_benchmarker.py: the F1 scores of counts *)

Module ScoreFacts.
Import Metrics SignFacts.

Lemma count_cell_nonneg (intent expected : Intent) (c : counts) (cell : Intent * Z) :
  (0 <= snd cell)%Z ->
  (0 <= true_positives c /\ 0 <= true_negatives c
   /\ 0 <= false_positives c /\ 0 <= false_negatives c)%Z ->
  let c' := count_cell intent expected c cell in
  (0 <= true_positives c' /\ 0 <= true_negatives c'
   /\ 0 <= false_positives c' /\ 0 <= false_negatives c')%Z.
Proof.
  unfold count_cell. destruct cell as [detected amount]. cbn [snd].
  destruct (intent_eqb intent expected), (intent_eqb detected intent); simpl; lia.
Qed.

Lemma prepareF1Score_nonneg (intent : Intent) (cm : ConfusionMatrix) :
  no_negative_count cm = true ->
  let c := prepareF1Score intent cm in
  (0 <= true_positives c /\ 0 <= true_negatives c
   /\ 0 <= false_positives c /\ 0 <= false_negatives c)%Z.
Proof.
  unfold prepareF1Score, no_negative_count.
  assert (G : forall c0 : counts,
             (0 <= true_positives c0 /\ 0 <= true_negatives c0
              /\ 0 <= false_positives c0 /\ 0 <= false_negatives c0)%Z ->
             forallb (fun row : Intent * Dict.t Intent Z =>
                        forallb (fun cell : Intent * Z => (0 <=? snd cell)%Z) (snd row)) cm
             = true ->
             let c := fold_left
                        (fun c (row : Intent * Dict.t Intent Z) =>
                           fold_left (count_cell intent (fst row)) (snd row) c) cm c0 in
             (0 <= true_positives c /\ 0 <= true_negatives c
              /\ 0 <= false_positives c /\ 0 <= false_negatives c)%Z).
  { induction cm as [|row cm IH]; intros c0 H0 N; [exact H0|].
    cbn [forallb] in N. apply andb_true_iff in N as [Nr N].
    cbn [fold_left]. apply IH; [|exact N]. clear IH N.
    generalize dependent c0. generalize (fst row).
    induction (snd row) as [|cell cells IHc]; intros expected c0 H0; [exact H0|].
    cbn [forallb] in Nr. apply andb_true_iff in Nr as [Nc Nr].
    cbn [fold_left]. apply IHc; [exact Nr|].
    apply count_cell_nonneg; [lia|exact H0]. }
  intros N. apply G; [simpl; lia|exact N].
Qed.

Lemma safeDivide_returns (dividend divisor : pynum) :
  (py_eq0 divisor = true -> py_eq0 dividend = true) ->
  exists q, safeDivide dividend divisor = Return q.
Proof.
  intros H. unfold safeDivide, py_truediv.
  destruct (py_eq0 divisor).
  - rewrite H by reflexivity. simpl. eauto.
  - rewrite andb_false_r. destruct dividend, divisor; eauto.
Qed.

Lemma safeDivide_ratio (a d : Z) :
  (0 <= a <= d)%Z -> exists p, safeDivide (PInt a) (PInt d) = Return p /\ ratio p.
Proof.
  intros H. unfold safeDivide, py_truediv, py_eq0.
  destruct (d =? 0)%Z eqn:Ed.
  - apply Z.eqb_eq in Ed. replace (a =? 0)%Z with true by (symmetry; apply Z.eqb_eq; lia).
    exists (PInt 0). split; [reflexivity|now left].
  - rewrite andb_false_r. eexists. split; [reflexivity|]. right.
    eexists. split; [reflexivity|]. apply quotient_unsigned; lia.
Qed.

Lemma Z2float_0 : Prim2SF (Z2float 0) = S754_zero false.
Proof. reflexivity. Qed.

Lemma Z2float_200 : exists s m e, Prim2SF (Z2float 200) = S754_finite s m e.
Proof. do 3 eexists. vm_compute. reflexivity. Qed.

(** The last division of an F1 score does not raise. *)
Lemma f1_of_ratios (precision recall : pynum) :
  ratio precision -> ratio recall ->
  exists s,
    safeDivide (py_mul (py_mul (py_mul (PInt 100) (PInt 2)) precision) recall)
               (py_add precision recall) = Return s.
Proof.
  assert (Z0s : signed (Prim2SF (Z2float 0)) = false) by (now rewrite Z2float_0).
  assert (Z0e : PrimFloat.eqb (Z2float 0) 0 = true) by (apply eqb_0_zero; exists false; apply Z2float_0).
  intros [->|[x [-> Sx]]] [->|[y [-> Sy]]]; apply safeDivide_returns;
    cbn [py_mul py_add py_eq0 to_float Z.mul Pos.mul].
  - reflexivity.
  - intros E. destruct (add_zero Z0s Sy E) as [_ Ey].
    apply mul_zero; [left; exists false; apply Z2float_0|exact Ey].
  - intros E. destruct (add_zero Sx Z0s E) as [Ex _].
    apply mul_zero; [|exact Z0e]. left. apply eqb_0_zero.
    apply mul_zero; [right; apply Z2float_200|exact Ex].
  - intros E. destruct (add_zero Sx Sy E) as [Ex Ey].
    apply mul_zero; [|exact Ey]. left. apply eqb_0_zero.
    apply mul_zero; [right; apply Z2float_200|exact Ex].
Qed.

Lemma f1_score_returns (intent : Intent) (cm : ConfusionMatrix) :
  no_negative_count cm = true -> exists s, f1_score intent cm = Return s.
Proof.
  intros N. unfold f1_score.
  pose proof (prepareF1Score_nonneg intent cm N) as H. cbv zeta in H.
  destruct (@safeDivide_ratio (true_positives (prepareF1Score intent cm))
              (true_positives (prepareF1Score intent cm)
               + false_positives (prepareF1Score intent cm))%Z ltac:(lia))
    as [p [-> Rp]].
  destruct (@safeDivide_ratio (true_positives (prepareF1Score intent cm))
              (true_positives (prepareF1Score intent cm)
               + false_negatives (prepareF1Score intent cm))%Z ltac:(lia))
    as [r [-> Rr]].
  cbn [obind]. apply f1_of_ratios; assumption.
Qed.

Lemma scores_return (cm : ConfusionMatrix) :
  no_negative_count cm = true ->
  exists scores, confusionMatrixToF1Scores cm = Return scores.
Proof.
  intros N. unfold confusionMatrixToF1Scores.
  generalize (@nil (Intent * pynum)). generalize (Dict.keys cm).
  induction l as [|intent l IH]; intros d0; [eexists; reflexivity|].
  cbn [ofold]. destruct (f1_score_returns intent cm N) as [s ->]. cbn [obind]. apply IH.
Qed.

(** X14. [confusionMatrixToF1Scores] returns for every matrix without a
    negative count: none of its divisions raises [ZeroDivisionError]. *)
Theorem f1_scores_of_counts (cm : ConfusionMatrix) :
  no_negative_count cm = true ->
  exists scores, confusionMatrixToF1Scores cm = Return scores.
Proof.
  exact (scores_return cm).
Qed.

Lemma f1_scores_of_counts_witness :
  exists scores,
    confusionMatrixToF1Scores
      [(Some "greet", [(Some "greet", 0%Z); (None, 2%Z)]); (None, [])]
    = Return scores.
Proof.
  exact (@f1_scores_of_counts
           [(Some "greet", [(Some "greet", 0%Z); (None, 2%Z)]); (None, [])] eq_refl).
Defined.

(** With a negative count the first division can have a divisor that is
    zero while the dividend is not. *)
Lemma f1_scores_negative_count :
  confusionMatrixToF1Scores [(Some "greet", [(Some "greet", 1%Z)]); (None, [(Some "greet", (-1)%Z)])]
  = Raise ZeroDivisionError.
Proof. reflexivity. Qed.

Lemma forallb_set {K V} (eqb : K -> K -> bool) (Q : V -> bool) (d : Dict.t K V)
    (k : K) (v : V) :
  forallb (fun kv => Q (snd kv)) d = true -> Q v = true ->
  forallb (fun kv => Q (snd kv)) (Dict.set eqb d k v) = true.
Proof.
  intros H Hv. induction d as [|[k' v'] d IH]; simpl in *; [now rewrite Hv|].
  apply andb_true_iff in H as [H1 H2].
  destruct (eqb k' k); simpl; [now rewrite Hv|]. now rewrite H1, IH.
Qed.

Lemma forallb_get {K V} (eqb : K -> K -> bool) (Q : V -> bool) (d : Dict.t K V)
    (k : K) (v : V) :
  forallb (fun kv => Q (snd kv)) d = true -> Dict.get eqb d k = Some v -> Q v = true.
Proof.
  intros H. induction d as [|[k' v'] d IH]; simpl in *; [discriminate|].
  apply andb_true_iff in H as [H1 H2].
  destruct (eqb k' k); [intros E; now injection E as <-|now apply IH].
Qed.

Lemma count_rating_nonneg (cm cm' : ConfusionMatrix) (ir : Intent * Rating.NLUIntentRating) :
  no_negative_count cm = true ->
  ConfusionFacts.count_rating cm ir = Return cm' ->
  no_negative_count cm' = true.
Proof.
  unfold no_negative_count, ConfusionFacts.count_rating. intros N.
  destruct (Rating.detected_intent (snd ir)) as [detected|err]; cbn [obind]; [|discriminate].
  intros H. injection H as <-.
  set (Qc := fun n : Z => (0 <=? n)%Z).
  set (Qr := fun row : Dict.t Intent Z => forallb (fun cell : Intent * Z => Qc (snd cell)) row).
  change (forallb (fun row : Intent * Dict.t Intent Z => Qr (snd row)) cm = true) in N.
  apply (forallb_set intent_eqb Qr _ _ _ N). unfold Qr.
  assert (R : forallb (fun cell : Intent * Z => Qc (snd cell))
                      match Dict.get intent_eqb cm (fst ir) with
                      | Some row => row
                      | None => []
                      end = true).
  { destruct (Dict.get intent_eqb cm (fst ir)) as [row|] eqn:G; [|reflexivity].
    exact (forallb_get intent_eqb Qr _ _ N G). }
  apply (forallb_set intent_eqb Qc _ _ _ R). unfold Qc.
  destruct (Dict.get intent_eqb _ detected) as [n|] eqn:G; [|reflexivity].
  pose proof (forallb_get intent_eqb Qc _ _ R G) as Hn. unfold Qc in Hn. lia.
Qed.

Lemma ratings_nonneg (ratings : Optimizer.Ratings) :
  forall cm0 cm : ConfusionMatrix,
    no_negative_count cm0 = true ->
    ofold ConfusionFacts.count_rating ratings cm0 = Return cm ->
    no_negative_count cm = true.
Proof.
  induction ratings as [|ir ratings IH]; intros cm0 cm N0 E; cbn [ofold] in E.
  - now injection E as <-.
  - destruct (ConfusionFacts.count_rating cm0 ir) as [cm1|err] eqn:C;
      cbn [obind] in E; [|discriminate].
    exact (IH cm1 cm (count_rating_nonneg _ _ N0 C) E).
Qed.

(** X15. The matrix that [__toConfusionMatrix] makes of ratings can always be
    scored: [confusionMatrixToF1Scores] returns for it. *)
Theorem f1_scores_of_ratings (ratings : Optimizer.Ratings) (cm : ConfusionMatrix) :
  Optimizer.toConfusionMatrix ratings = Return cm ->
  no_negative_count cm = true
  /\ exists scores, confusionMatrixToF1Scores cm = Return scores.
Proof.
  intros H. rewrite ConfusionFacts.toConfusionMatrix_fold in H.
  pose proof (ratings_nonneg ratings [] eq_refl H) as N.
  split; [exact N|exact (scores_return cm N)].
Qed.

Lemma f1_scores_of_ratings_witness :
  exists scores,
    confusionMatrixToF1Scores [(Some "greet", [(None, 1%Z)])] = Return scores.
Proof.
  exact (proj2 (@f1_scores_of_ratings
                  [(Some "greet", Rating.init "hello" [(None, 0x1p-1%float)])]
                  [(Some "greet", [(None, 1%Z)])] eq_refl)).
Defined.

End ScoreFacts.

(** ** nlu_benchmarker.py: a run after [cancel] *)

Module CancelFacts.
Import Benchmarker.

Section Cancelled.

Variables (Env F D : Type).
Variable engine : call F D -> Env -> Env * outcome (exc F) unit.
Variable rate : F -> string -> Env -> Env * outcome (exc F) Rating.NLUIntentRating.
Variable fw_title : F -> FrameworkTitle.
Variable ds_title : D -> DataSetTitle.
Variable training_data : D -> Env -> list NLUDataEntry.
Variable validation_data : D -> Env -> list NLUDataEntry.
Variable ds_reshuffle : D -> Env -> Env * outcome (exc F) unit.
Variable cancel_flag : Env -> bool.

(** [cancel] was called, and nothing clears the flag. *)
Hypothesis cancelled : forall e, cancel_flag e = true.

(** No method of a framework raises [KeyboardInterrupt] or [SystemExit]. *)
Hypothesis kept : stays_in_loop engine rate.

Lemma bind_raised {W X A B} (m : Async.M W X A) (k : A -> Async.M W X B) (w : W) :
  is_return (snd (m w)) = false ->
  fst (Async.bind m k w) = fst (m w) /\ is_return (snd (Async.bind m k w)) = false.
Proof.
  unfold Async.bind. destruct (m w) as [w1 [a|e]]; simpl; [discriminate|auto].
Qed.

Lemma bind_returns {W X A B} (m : Async.M W X A) (k : A -> Async.M W X B) (w w1 : W)
    (a : A) :
  m w = (w1, Return a) -> Async.bind m k w = k a w1.
Proof. unfold Async.bind. now intros ->. Qed.

Lemma bind_raises {W X A B} (m : Async.M W X A) (k : A -> Async.M W X B) (w w1 : W)
    (e : X) :
  m w = (w1, Raise e) -> Async.bind m k w = (w1, Raise e).
Proof. unfold Async.bind. now intros ->. Qed.

(** The first data set of a cancelled run: the frameworks are prepared and
    unprepared, and the data set is not done. *)
Lemma run_data_set_cancelled (frameworks : list F) (n : nat) (its : Iterations) (d : D)
    (w : world Env F D) :
  event_loop w <> Closed ->
  let m := run_data_set engine rate fw_title ds_title training_data validation_data
             ds_reshuffle cancel_flag frameworks n its d w in
  let results := snd (outcomes (fun f => engine (Prepare f d)) frameworks (env w)) in
  is_return (snd m) = false
  /\ event_loop (fst m) = event_loop w
  /\ trace (fst m)
     = trace w ++ prepares frameworks d
       ++ map (@Unprepare F D)
              (if forallb is_return results then frameworks
               else map fst (succeeded_objects frameworks results)).
Proof.
  intros Op. cbv zeta. unfold run_data_set, prepareDataSet, unprepareDataSet.
  pose proof (@ParallelFacts.run_in_parallel_invoke_Some _ _ _ _ unit _ _
                (as_exception (F := F) (fun _ : unit => VNone))
                (fun x => Prepare x d) (fun x => engine (Prepare x d))
                (fun x (_ : unit) => Unprepare x) (fun x (_ : unit) => engine (Unprepare x))
                frameworks
                (String.append "Error while preparing all frameworks for the "
                   (String.append (ds_title d) " data set.")) w) as P.
  cbv zeta in P. destruct P as (_ & R & Lp & T).
  { apply BenchmarkerFacts.outcomes_captured. intros x e'. apply (proj1 kept). }
  { apply BenchmarkerFacts.outcomes_captured. intros x e'. apply (proj1 kept). }
  set (prepare := Parallel.run_in_parallel _ _ _ _ _) in *.
  destruct (prepare w) as [w1 [prepared|e]] eqn:E; cbn [fst snd] in *.
  - rewrite (bind_returns prepare _ w E).
    rewrite <- R in *. cbn [is_return is_raise negb] in *.
    rewrite app_nil_r in T.
    assert (B : Async.bind (observe cancel_flag)
                  (fun cancelled0 : bool =>
                     if cancelled0 then Async.raise (Builtin KeyboardInterrupt)
                     else Async.fold_M
                            (iteration engine rate fw_title ds_title training_data
                               validation_data ds_reshuffle cancel_flag frameworks d)
                            (seq 0 n) its) w1
                = (w1, Raise (Builtin KeyboardInterrupt))).
    { unfold Async.bind, observe. now rewrite cancelled. }
    pose proof (@BenchmarkerFacts.try_finally_invoke _ _ _ engine rate kept _
                  (Async.bind (observe cancel_flag)
                     (fun cancelled0 : bool =>
                        if cancelled0 then Async.raise (Builtin KeyboardInterrupt)
                        else Async.fold_M
                               (iteration engine rate fw_title ds_title training_data
                                  validation_data ds_reshuffle cancel_flag frameworks d)
                               (seq 0 n) its))
                  (@Unprepare F D) frameworks
                  "Error unpreparing all frameworks." w1) as Q.
    rewrite B in Q. cbn [fst snd] in Q. cbv zeta in Q.
    destruct Q as (Q1 & Q2 & Q3); [now rewrite Lp|]. split; [|split].
    + match goal with
      | |- ?b = false => destruct b eqn:I; [|reflexivity]
      end.
      specialize (Q3 I). discriminate.
    + etransitivity; [exact Q2|exact Lp].
    + etransitivity; [exact Q1|]. rewrite T. unfold prepares. now rewrite <- app_assoc.
  - rewrite (bind_raises prepare _ w E). cbn [fst snd].
    rewrite <- R in *. cbn [is_return is_raise negb] in *. split; [reflexivity|].
    split; [exact Lp|].
    rewrite T. unfold prepares. now rewrite map_map.
Qed.

(** X17. Let no method of a framework raise [KeyboardInterrupt] or
    [SystemExit], and let the event loop be open.  Once [cancel] was called,
    a run with a data set trains no framework and does not return: the
    frameworks are prepared for the first data set, those that were
    prepared are unprepared, and all are destructed. *)
Theorem run_cancelled (frameworks : list F) (d : D) (rest : list D) (n : nat)
    (w : world Env F D) :
  event_loop w <> Closed ->
  let m := run engine rate fw_title ds_title training_data validation_data
             ds_reshuffle cancel_flag frameworks (d :: rest) n w in
  let results := snd (outcomes (fun f => engine (Prepare f d)) frameworks (env w)) in
  is_return (snd m) = false
  /\ trace (fst m)
     = trace w ++ prepares frameworks d
       ++ map (@Unprepare F D)
              (if forallb is_return results then frameworks
               else map fst (succeeded_objects frameworks results))
       ++ map (@Destruct F D) frameworks.
Proof.
  intros Op. cbv zeta. unfold run, Benchmarker.destruct.
  pose proof (run_data_set_cancelled frameworks n [] d w Op) as C. cbv zeta in C.
  destruct C as (C1 & CL & C2).
  pose proof (bind_raised
                (run_data_set engine rate fw_title ds_title training_data validation_data
                   ds_reshuffle cancel_flag frameworks n [] d)
                (Async.fold_M
                   (run_data_set engine rate fw_title ds_title training_data
                      validation_data ds_reshuffle cancel_flag frameworks n) rest)
                w C1) as [B1 B2].
  change (Async.bind _ _ w)
    with (run_iterations engine rate fw_title ds_title training_data validation_data
            ds_reshuffle cancel_flag frameworks (d :: rest) n w) in B1, B2.
  pose proof (@BenchmarkerFacts.try_finally_invoke _ _ _ engine rate kept _
                (run_iterations engine rate fw_title ds_title training_data
                   validation_data ds_reshuffle cancel_flag frameworks (d :: rest) n)
                (@Destruct F D) frameworks
                "Error deconstructing all frameworks." w) as Q.
  cbv zeta in Q. destruct Q as (Q1 & _ & Q2); [rewrite B1; now rewrite CL|].
  split.
  - match goal with
    | |- ?b = false => destruct b eqn:I; [|reflexivity]
    end.
    specialize (Q2 I). congruence.
  - etransitivity; [exact Q1|]. rewrite B1, C2. now rewrite <- !app_assoc.
Qed.

End Cancelled.

Lemma run_cancelled_witness :
  trace (fst (run (fun _ (e : unit) => (e, Return tt))
                  (fun (_ : nat) s (e : unit) =>
                     (e, Return (Rating.init s [(Some "greet", 0x1p-1%float)])))
                  (fun _ : nat => "fw") (fun _ : nat => "ds")
                  (fun _ _ => [mkEntry "hello" (Some "greet")])
                  (fun _ _ => [mkEntry "hi" (Some "greet")])
                  (fun _ e => (e, Return tt)) (fun _ => true)
                  [7] [0; 1] 3 (mkTraced tt [] Running)))
  = [Prepare 7 0; Unprepare 7; Destruct 7].
Proof.
  refine (proj2 (@run_cancelled unit nat nat
                   (fun _ (e : unit) => (e, Return tt))
                   (fun (_ : nat) s (e : unit) =>
                      (e, Return (Rating.init s [(Some "greet", 0x1p-1%float)])))
                   (fun _ : nat => "fw") (fun _ : nat => "ds")
                   (fun _ _ => [mkEntry "hello" (Some "greet")])
                   (fun _ _ => [mkEntry "hi" (Some "greet")])
                   (fun _ e => (e, Return tt)) (fun _ => true)
                   (fun _ => eq_refl) (conj (fun _ _ => eq_refl) (fun _ _ _ => eq_refl))
                   [7] 0 [1] 3 (mkTraced tt [] Running) _)).
  discriminate.
Defined.

End CancelFacts.

(** ** nlu_data_set.py: facts on the cache *)

Module StoredFacts.
Import Stored.

Lemma fromSerialized_serialize (x : Entry) : fromSerialized (serialize x) = Return x.
Proof. now destruct x. Qed.

Lemma entries_back (entries : list Entry) :
  omapM fromSerialized (map serialize entries) = Return entries.
Proof.
  induction entries as [|x entries IH]; [reflexivity|].
  cbn [map omapM]. rewrite fromSerialized_serialize. cbn [obind]. now rewrite IH.
Qed.

Lemma filter_all {A} (p : A -> bool) (l : list A) :
  Forall (fun x => p x = true) l -> filter p l = l.
Proof. induction 1 as [|x l H _ IH]; simpl; [reflexivity|]. now rewrite H, IH. Qed.

Lemma filter_none {A} (p : A -> bool) (l : list A) :
  Forall (fun x => p x = false) l -> filter p l = [].
Proof. induction 1 as [|x l H _ IH]; simpl; [reflexivity|]. now rewrite H. Qed.

(** X18. The cache gives back what was stored: when the entries of [data] have
    an intent and those of [none_data] have none, [__loadCachedData] on
    the value that [__cacheData] dumped returns [True] and assigns the same
    language, the same [data] and the same [none_data], in the same order,
    provided that the object has no language yet or the language that was
    stored. *)
Theorem cache_round_trip (language : option string) (stored : json)
    (data none_data : list Entry) :
  Forall (fun x => is_None (intent x) = false) data ->
  Forall (fun x => is_None (intent x) = true) none_data ->
  language = None \/ stored = language_value language ->
  loadCachedData language (Return (cacheData stored data none_data))
  = (stored, Some (data, none_data)).
Proof.
  intros Hd Hn Hl. unfold loadCachedData, cacheData.
  cbn [subscript Dict.get String.eqb Ascii.eqb Bool.eqb andb].
  assert (L : language_fits language stored = true).
  { destruct Hl as [->| ->]; [reflexivity|].
    destruct language as [t|]; [apply String.eqb_refl|reflexivity]. }
  rewrite L. cbn [obind iterate]. rewrite entries_back. rewrite !filter_app.
  rewrite (filter_all (fun x => negb (is_None (intent x))) (l := data)),
          (filter_none (fun x => negb (is_None (intent x))) (l := none_data)),
          (filter_none (fun x => is_None (intent x)) (l := data)),
          (filter_all (fun x => is_None (intent x)) (l := none_data)).
  - now rewrite app_nil_r.
  - exact Hn.
  - exact Hd.
  - eapply Forall_impl; [|exact Hn]. intros x H. cbv beta. now rewrite H.
  - eapply Forall_impl; [|exact Hd]. intros x H. cbv beta. now rewrite H.
Qed.

Lemma cache_round_trip_witness :
  loadCachedData (Some "en-Latn-US")
    (Return (cacheData (JStr "en-Latn-US")
               [raw (mkEntry "hello" (Some "greet"))] [raw (mkEntry "bla" None)]))
  = (JStr "en-Latn-US",
     Some ([raw (mkEntry "hello" (Some "greet"))], [raw (mkEntry "bla" None)])).
Proof.
  apply (@cache_round_trip (Some "en-Latn-US") (JStr "en-Latn-US")
           [raw (mkEntry "hello" (Some "greet"))] [raw (mkEntry "bla" None)]).
  - repeat constructor.
  - repeat constructor.
  - right. reflexivity.
Defined.

(** X19. When [__loadCachedData] returns [False], the language of the object is
    as before, unless the object had no language and the cache file holds
    one whose entries cannot be loaded: then the object has the language of
    the cache file. *)
Theorem cache_failure_language (language : option string)
    (cache_file : outcome exception json) :
  snd (loadCachedData language cache_file) = None ->
  fst (loadCachedData language cache_file) = language_value language
  \/ exists data,
       cache_file = Return data
       /\ language = None
       /\ subscript data "language" = Return (fst (loadCachedData language cache_file)).
Proof.
  unfold loadCachedData. destruct cache_file as [data|e]; [|now left].
  destruct (subscript data "language") as [cached|e] eqn:S; [|now left].
  destruct (language_fits language cached) eqn:L; [|now left].
  destruct (obind (subscript data "entries") _) as [entries|e]; cbn [fst snd];
    [discriminate|]. intros _.
  destruct language as [t|].
  - left. simpl in L. destruct cached; try discriminate.
    apply String.eqb_eq in L. now subst.
  - right. exists data. auto.
Qed.

Lemma cache_failure_language_witness :
  loadCachedData None (Return (JObj [("language", JStr "en-Latn-US")]))
  = (JStr "en-Latn-US", None).
Proof.
  pose proof (@cache_failure_language None
                (Return (JObj [("language", JStr "en-Latn-US")])) eq_refl) as H.
  reflexivity.
Defined.

Lemma filter_twice {A} (q : A -> bool) (l : list A) :
  filter (fun x => negb (q x)) (filter (fun x => negb (q x)) l ++ filter q l)
  = filter (fun x => negb (q x)) l
  /\ filter q (filter (fun x => negb (q x)) l ++ filter q l) = filter q l.
Proof.
  rewrite !filter_app. split.
  - rewrite (filter_all (fun x => negb (q x)) (l := filter (fun x => negb (q x)) l)),
            (filter_none (fun x => negb (q x)) (l := filter q l)).
    + apply app_nil_r.
    + apply Forall_forall. intros x H. apply filter_In in H.
      destruct H as [_ H]. now rewrite H.
    + apply Forall_forall. intros x H. now apply filter_In in H.
  - rewrite (filter_none q (l := filter (fun x => negb (q x)) l)),
            (filter_all q (l := filter q l)).
    + reflexivity.
    + apply Forall_forall. intros x H. now apply filter_In in H.
    + apply Forall_forall. intros x H. apply filter_In in H.
      destruct H as [_ H]. now destruct (q x).
Qed.

Section Reload.

Variable tag : json -> outcome exception string.
Variable path_exists : bool.
Variable cache_file : outcome exception json.
Variables write_cache write_cache' : json -> outcome exception unit.
Variables loadData loadData' : json -> outcome exception (json * list Entry).

(** X20. A construction that read the data itself has written a cache from
    which the next construction with the same language gets the same
    language and the same data, in the same order, without reading the
    data again and without writing the cache, provided that [_loadData]
    left a language alone that the constructor had set. *)
Theorem reload_from_cache (language : option string) (ignore_cache : bool)
    (loaded : Loaded) (dumped : json) :
  load tag path_exists cache_file write_cache loadData language ignore_cache
  = Return loaded ->
  written loaded = Some dumped ->
  (forall l t, language = Some l -> tag (JStr l) = Return t ->
               Stored.language loaded = JStr t) ->
  load tag path_exists (Return dumped) write_cache' loadData' language false
  = Return (mkLoaded (Stored.language loaded) (data loaded) (none_data loaded) None).
Proof.
  unfold load. intros H W L.
  destruct (match language with
            | Some l => obind (setLanguage tag JNull (JStr l)) (fun t => Return (Some t))
            | None => Return None
            end) as [language1|e] eqn:E1; cbn [obind] in *; [|discriminate].
  destruct (negb path_exists); [discriminate|].
  assert (F : language_fits language1 (Stored.language loaded) = true).
  { destruct language as [l|].
    - unfold setLanguage in E1. cbn [is_None] in E1.
      destruct (tag (JStr l)) as [t|e] eqn:T; cbn [obind] in E1; [|discriminate].
      injection E1 as <-. rewrite (L l t eq_refl T). apply String.eqb_refl.
    - now injection E1 as <-. }
  destruct (if ignore_cache then (language_value language1, None)
            else loadCachedData language1 cache_file) as [language2 [[d nd]|]].
  - injection H as <-. discriminate.
  - destruct (loadData language2) as [[language3 entries]|e]; cbn [obind fst snd] in H;
      [|discriminate].
    destruct (write_cache _) as [[]|e]; cbn [obind] in H; [|discriminate].
    injection H as <-. cbn [written Stored.language data none_data] in *.
    injection W as <-.
    unfold loadCachedData, cacheData.
    cbn [subscript Dict.get String.eqb Ascii.eqb Bool.eqb andb].
    rewrite F.
    cbn [obind iterate]. rewrite entries_back.
    destruct (filter_twice (fun x => is_None (intent x)) entries) as [T1 T2].
    now rewrite T1, T2.
Qed.

End Reload.

Lemma reload_from_cache_witness :
  exists dumped,
    load (fun _ => Return "en-Latn-US") true (Return dumped) (fun _ => Raise OSError)
         (fun _ => Raise OSError) None false
    = Return (mkLoaded (JStr "en-Latn-US") [raw (mkEntry "hello" (Some "greet"))]
                       [raw (mkEntry "bla" None)] None).
Proof.
  eexists.
  apply (@reload_from_cache (fun _ => Return "en-Latn-US") true (Raise OSError)
           (fun _ => Return tt) (fun _ => Raise OSError)
           (fun _ => Return (JStr "en-Latn-US",
                             [raw (mkEntry "bla" None); raw (mkEntry "hello" (Some "greet"))]))
           (fun _ => Raise OSError) None false
           (mkLoaded (JStr "en-Latn-US") [raw (mkEntry "hello" (Some "greet"))]
                     [raw (mkEntry "bla" None)]
                     (Some (cacheData (JStr "en-Latn-US")
                              [raw (mkEntry "hello" (Some "greet"))]
                              [raw (mkEntry "bla" None)])))
           (cacheData (JStr "en-Latn-US") [raw (mkEntry "hello" (Some "greet"))]
                      [raw (mkEntry "bla" None)])
           eq_refl eq_refl).
  intros l t H. discriminate.
Defined.

Section SimpleJSONFacts.

Variable tag : json -> outcome exception string.
Variable path_exists : bool.
Variable cache_file : outcome exception json.
Variable write_cache : json -> outcome exception unit.
Variable data_file : outcome exception json.

Lemma simple_loadData_set (current : json) :
  is_None current = false ->
  exists e, simple_loadData tag data_file current = Raise e.
Proof.
  intros H. unfold simple_loadData, setLanguage. rewrite H.
  destruct data_file as [data|e]; cbn [obind]; [|eauto].
  destruct (subscript data "lang") as [lang|e]; cbn [obind]; eauto.
Qed.

Lemma loadCachedData_language (t : string) :
  is_None (fst (loadCachedData (Some t) cache_file)) = false.
Proof.
  unfold loadCachedData. destruct cache_file as [data|e]; [|reflexivity].
  destruct (subscript data "language") as [cached|e]; [|reflexivity].
  destruct (language_fits (Some t) cached) eqn:L; [|reflexivity].
  simpl in L. destruct cached; try discriminate.
  now destruct (obind (subscript data "entries") _).
Qed.

(** X21. A [SimpleJSONDataSet] reads its data file with success only when no
    language was passed to the constructor and the cache, if it was tried,
    left the object without a language: otherwise [_setLanguage] raises in
    [_loadData], and the constructor returns only with the data of the
    cache. *)
Theorem simple_loads_without_language (language : option string) (ignore_cache : bool)
    (loaded : Loaded) (dumped : json) :
  load tag path_exists cache_file write_cache (simple_loadData tag data_file)
       language ignore_cache = Return loaded ->
  written loaded = Some dumped ->
  language = None
  /\ (ignore_cache = true \/ fst (loadCachedData None cache_file) = JNull).
Proof.
  unfold load. destruct language as [l|].
  - unfold setLanguage at 1. cbn [is_None].
    destruct (tag (JStr l)) as [t|e]; cbn [obind]; [|discriminate].
    destruct (negb path_exists); [discriminate|].
    destruct ignore_cache.
    + cbn [language_value].
      destruct (@simple_loadData_set (JStr t) eq_refl) as [e ->]. discriminate.
    + pose proof (loadCachedData_language t) as N.
      destruct (loadCachedData (Some t) cache_file) as [language2 [[d nd]|]];
        cbn [fst] in N.
      * intros H. injection H as <-. discriminate.
      * destruct (simple_loadData_set language2 N) as [e ->]. discriminate.
  - cbn [obind]. destruct (negb path_exists); [discriminate|].
    destruct ignore_cache; [intros _ _; auto|].
    destruct (loadCachedData None cache_file) as [language2 [[d nd]|]] eqn:C; cbn [fst].
    + intros H. injection H as <-. discriminate.
    + destruct (is_None language2) eqn:N.
      * intros _ _. split; [reflexivity|]. right. now destruct language2.
      * destruct (simple_loadData_set language2 N) as [e ->]. discriminate.
Qed.

End SimpleJSONFacts.

Lemma simple_loads_without_language_witness :
  exists loaded,
    load (fun _ => Return "en-Latn-US") true (Raise OSError) (fun _ => Return tt)
         (simple_loadData (fun _ => Return "en-Latn-US")
            (Return (JObj [("lang", JStr "en");
                           ("sentences",
                            JList [JObj [("text", JStr "hello"); ("intent", JStr "greet")];
                                   JObj [("text", JStr "bla"); ("intent", JStr "None")]])])))
         None false = Return loaded
    /\ data loaded = [raw (mkEntry "hello" (Some "greet"))]
    /\ none_data loaded = [raw (mkEntry "bla" None)].
Proof.
  eexists. split; [reflexivity|].
  pose proof (@simple_loads_without_language (fun _ => Return "en-Latn-US") true
                (Raise OSError) (fun _ => Return tt)
                (Return (JObj [("lang", JStr "en");
                               ("sentences",
                                JList [JObj [("text", JStr "hello"); ("intent", JStr "greet")];
                                       JObj [("text", JStr "bla"); ("intent", JStr "None")]])]))
                None false _ _ eq_refl eq_refl) as H.
  split; reflexivity.
Defined.

End StoredFacts.

(** ** intent_threshold_optimizer.py: the score of a threshold *)

Module ThresholdScoreFacts.
Import Optimizer.

Lemma noneIfBelow_keeps (threshold : float) (r : Rating.NLUIntentRating) :
  match Rating.noneIfBelow threshold r with
  | Return r' => no_intents r = false /\ no_intents r' = false
  | Raise e => e = IndexError /\ no_intents r = true
  end.
Proof.
  unfold Rating.noneIfBelow, no_intents.
  destruct (Rating.sorted_intents r) as [|top rest] eqn:E; [auto|].
  destruct (PrimFloat.leb (snd top) threshold); cbn [Rating.sorted_intents];
    rewrite ?E; auto.
Qed.

Lemma thresholded (threshold : float) (ratings : Ratings) :
  match omapM (fun ir : Intent * Rating.NLUIntentRating =>
                 obind (Rating.noneIfBelow threshold (snd ir)) (fun r =>
                 Return (fst ir, r))) ratings with
  | Return ratings' =>
      List.length ratings' = List.length ratings
      /\ existsb (fun ir => no_intents (snd ir)) ratings = false
      /\ existsb (fun ir => no_intents (snd ir)) ratings' = false
  | Raise e => e = IndexError /\ existsb (fun ir => no_intents (snd ir)) ratings = true
  end.
Proof.
  induction ratings as [|ir ratings IH]; cbn [omapM existsb]; [auto|].
  pose proof (noneIfBelow_keeps threshold (snd ir)) as K.
  destruct (Rating.noneIfBelow threshold (snd ir)) as [r|e]; cbn [obind].
  - destruct K as [K1 K2]. rewrite K1. cbn [orb].
    destruct (omapM _ ratings) as [ratings'|e]; cbn [obind]; [|exact IH].
    destruct IH as (L & E1 & E2). cbn [existsb snd List.length]. rewrite K2, E2. auto.
  - destruct K as [-> K]. now rewrite K.
Qed.

Lemma scores_nonempty (cm : ConfusionMatrix) (f1 : Dict.t Intent pynum) :
  Metrics.confusionMatrixToF1Scores cm = Return f1 -> cm <> [] -> f1 <> [].
Proof.
  unfold Metrics.confusionMatrixToF1Scores, Dict.keys.
  destruct cm as [|row cm]; [congruence|]. intros H _. cbn [map ofold] in H.
  destruct (Metrics.f1_score (fst row) (row :: cm)) as [s|e]; cbn [obind] in H;
    [|discriminate].
  assert (G : forall (l : list Intent) (d0 : Dict.t Intent pynum),
             d0 <> [] ->
             ofold (fun f1_scores intent =>
                      obind (Metrics.f1_score intent (row :: cm)) (fun s0 =>
                      Return (Dict.set intent_eqb f1_scores intent s0))) l d0
             = Return f1 -> f1 <> []).
  { induction l as [|i l IH]; intros d0 N E; cbn [ofold] in E.
    - now injection E as <-.
    - destruct (Metrics.f1_score i (row :: cm)) as [s0|e]; cbn [obind] in E;
        [|discriminate].
      apply (IH (Dict.set intent_eqb d0 i s0)); [|exact E].
      destruct d0 as [|[k v] d0]; [congruence|]. simpl.
      destruct (intent_eqb k i); discriminate. }
  apply (G (map fst cm) (Dict.set intent_eqb [] (fst row) s)); [discriminate|exact H].
Qed.

(** X22. [calc_f1_for_threshold] raises [IndexError] exactly when a rating holds
    no intent, and [ZeroDivisionError] exactly when there is no rating;
    with at least one rating and an intent in each, it returns a score. *)
Theorem calc_f1_for_threshold_outcome (ratings : Ratings) (threshold : float) :
  match calc_f1_for_threshold ratings threshold with
  | Return _ =>
      ratings <> [] /\ existsb (fun ir => no_intents (snd ir)) ratings = false
  | Raise e =>
      (e = IndexError /\ existsb (fun ir => no_intents (snd ir)) ratings = true)
      \/ (e = ZeroDivisionError /\ ratings = [])
  end.
Proof.
  unfold calc_f1_for_threshold.
  pose proof (thresholded threshold ratings) as T.
  destruct (omapM _ ratings) as [ratings'|e]; cbn [obind]; [|now left].
  destruct T as (L & E & E').
  rewrite ConfusionFacts.toConfusionMatrix_fold.
  pose proof (ConfusionFacts.count_ratings ratings' []) as C.
  pose proof (ScoreFacts.ratings_nonneg ratings' []) as N.
  destruct (ofold ConfusionFacts.count_rating ratings' []) as [cm|e] eqn:Ecm; cbn [obind].
  - destruct C as (_ & _ & Ct). specialize (N cm eq_refl eq_refl).
    destruct (ScoreFacts.scores_return cm N) as [f1 S]. rewrite S. cbn [obind].
    pose proof (ReportFacts.mean_of_nothing (Dict.values f1)) as M.
    destruct (py_truediv _ _) as [score|e].
    + split; [|exact E]. intros ->.
      destruct ratings'; [|discriminate].
      cbn [ofold] in Ecm. injection Ecm as <-.
      cbn in S. injection S as <-. now apply M.
    + right. destruct M as [-> M]. split; [reflexivity|].
      destruct ratings as [|ir ratings]; [reflexivity|]. exfalso.
      assert (Nc : cm <> []).
      { intros ->. cbn in Ct. destruct ratings'; simpl in *; lia. }
      apply (scores_nonempty S) in Nc. unfold Dict.values in M.
      destruct f1; [congruence|discriminate].
  - destruct C as [_ C]. congruence.
Qed.

End ThresholdScoreFacts.

(** ** nlu_benchmarker.py: facts on the configuration *)

Module ConfigFacts.
Import Stored Config.

Lemma rsplit_dot_shape (s : string) :
  (has_dot s = false /\ rsplit_dot s = [s])
  \/ (has_dot s = true
      /\ exists a b, rsplit_dot s = [a; b] /\ s = (a ++ "." ++ b)%string /\ has_dot b = false).
Proof.
  induction s as [|c s IH]; [now left|].
  cbn [rsplit_dot has_dot]. destruct IH as [[H ->]|[H (a & b & -> & E & Hb)]].
  - rewrite H, orb_false_r. destruct (Ascii.eqb c dot) eqn:Ec.
    + right. split; [reflexivity|]. exists "", s. apply Ascii.eqb_eq in Ec. subst c.
      auto.
    + left. destruct s; auto.
  - rewrite H, orb_true_r. right. split; [reflexivity|].
    exists (String c a), b. subst s. auto.
Qed.

Lemma rsplit_dot_last (a b : string) :
  has_dot b = false -> rsplit_dot (a ++ "." ++ b)%string = [a; b].
Proof.
  intros Hb. induction a as [|c a IH]; cbn [append rsplit_dot].
  - destruct (rsplit_dot_shape b) as [[_ ->]|[H _]]; [|congruence].
    cbn. now destruct b.
  - cbn [append] in IH. now rewrite IH.
Qed.

Lemma has_dot_app (a b : string) : has_dot (a ++ b)%string = has_dot a || has_dot b.
Proof.
  induction a as [|c a IH]; [reflexivity|]. cbn [append has_dot].
  now rewrite IH, orb_assoc.
Qed.

(** X23. The split of a class path.  [module_and_class] raises [ValueError]
    exactly for a string without a dot; otherwise it splits at the last
    dot.  After the convenience of [runFromConfigFile] it does not raise: a
    name without a dot is looked up in [nlutestframework.implementations]
    with [kind] appended, any other name as it is written. *)
Theorem class_path_split (kind class : string) :
  has_dot kind = false ->
  match module_and_class class with
  | Return (module, class_name) =>
      has_dot class = true /\ class = (module ++ "." ++ class_name)%string
      /\ has_dot class_name = false
      /\ module_and_class (qualified kind class) = Return (module, class_name)
  | Raise e =>
      e = too_few /\ has_dot class = false
      /\ module_and_class (qualified kind class)
         = Return ("nlutestframework.implementations", (class ++ kind)%string)
  end.
Proof.
  intros K. unfold module_and_class, qualified.
  destruct (rsplit_dot_shape class) as [[H E]|[H (a & b & E & S & Hb)]]; rewrite H.
  - assert (R : rsplit_dot ("nlutestframework.implementations." ++ class ++ kind)%string
                = ["nlutestframework.implementations"; (class ++ kind)%string]).
    { apply (rsplit_dot_last "nlutestframework.implementations").
      now rewrite has_dot_app, H, K. }
    rewrite R, E. destruct class; auto.
  - rewrite E. auto.
Qed.

Lemma class_path_split_witness :
  module_and_class (qualified "DataSet" "SimpleJSON")
  = Return ("nlutestframework.implementations", "SimpleJSONDataSet")
  /\ module_and_class "SimpleJSON" = Raise too_few.
Proof.
  pose proof (@class_path_split "DataSet" "SimpleJSON" eq_refl) as H.
  split; reflexivity.
Defined.

Lemma get_del (d : Dict.t string json) (key : string) :
  Dict.get String.eqb (del d key) key = None.
Proof.
  unfold del. induction d as [|[k v] d IH]; [reflexivity|]. cbn [filter fst].
  destruct (String.eqb k key) eqn:E; cbn [negb]; [exact IH|].
  cbn [Dict.get]. now rewrite E.
Qed.

Section LoadFacts.

Variables (C I : Type).
Variable resolve : string -> string -> outcome exception C.
Variable construct : C -> DataSetTitle -> Dict.t string json -> outcome exception I.

(** What a data set was constructed from. *)
Definition constructed (global_ignore_cache : bool) (config' : DataSetTitle * json)
    (instance : I) : Prop :=
  exists cls kwargs,
    snd config' = JObj kwargs
    /\ construct cls (fst config') kwargs = Return instance
    /\ Dict.get String.eqb kwargs "class" = None
    /\ (global_ignore_cache = true ->
        Dict.get String.eqb kwargs "ignore_cache" = Some (JBool true)).

Lemma load_one_returns (g : bool) (title : DataSetTitle) (config config' : json)
    (instance : I) :
  load_one resolve construct g title config = (config', Return instance) ->
  constructed g (title, config') instance.
Proof.
  unfold load_one. destruct config as [|b|z|f|s|items|members]; try discriminate.
  destruct (Dict.get String.eqb members "class") as [[|b|z|f|class|items|ms]|];
    try discriminate.
  destruct (module_and_class class) as [[module class_name]|e]; [|discriminate].
  destruct (resolve module class_name) as [cls|e]; [|discriminate].
  intros H. injection H as <- H. exists cls. eexists. split; [reflexivity|].
  split; [exact H|]. destruct g.
  - split; [|intros _; apply (@DictFacts.get_set_same _ _ String.eqb String.eqb_eq)].
    rewrite (@DictFacts.get_set_other _ _ String.eqb String.eqb_eq) by discriminate.
    apply get_del.
  - split; [apply get_del|discriminate].
Qed.

Lemma load_one_again (g g' : bool) (title : DataSetTitle) (config config' : json)
    (instance : I) :
  load_one resolve construct g title config = (config', Return instance) ->
  load_one resolve construct g' title config' = (config', Raise (KeyError "class")).
Proof.
  intros H. destruct (@load_one_returns _ _ _ _ _ H) as (cls & kwargs & E & _ & K & _).
  cbn [snd] in E. subst config'. unfold load_one. now rewrite K.
Qed.

(** X24. [loadDataSets] uses up the configurations it is given: when it
    returns, every data set was constructed from its configuration without
    the key ["class"], and with [ignore_cache] set if it is set globally;
    the configurations of the caller are left as these keyword arguments,
    so that loading them again raises [KeyError] for the first of them. *)
Theorem loadDataSets_consumes (configs configs' : Dict.t DataSetTitle json) (g : bool)
    (instances : list I) :
  loadDataSets resolve construct configs g = (configs', Return instances) ->
  Dict.keys configs' = Dict.keys configs
  /\ Forall2 (constructed g) configs' instances
  /\ (configs <> [] ->
      forall g', loadDataSets resolve construct configs' g'
                 = (configs', Raise (KeyError "class"))).
Proof.
  revert configs' instances.
  induction configs as [|[title config] rest IH]; intros configs' instances H;
    cbn [loadDataSets] in H.
  - injection H as <- <-. split; [reflexivity|]. split; [constructor|congruence].
  - destruct (load_one resolve construct g title config) as [config1 [instance|e]] eqn:L;
      [|discriminate].
    destruct (loadDataSets resolve construct rest g) as [rest' [rest_instances|e]];
      [|discriminate].
    injection H as <- <-. destruct (IH _ _ eq_refl) as (K & F & _).
    split; [unfold Dict.keys in *; cbn [map fst]; now rewrite K|].
    split; [constructor; [exact (@load_one_returns _ _ _ _ _ L)|exact F]|].
    intros _ g'. cbn [loadDataSets]. now rewrite (@load_one_again g g' _ _ _ _ L).
Qed.

End LoadFacts.

Lemma loadDataSets_consumes_witness :
  loadDataSets (I := string) (fun m c => Return (m, c))
               (fun cls title kwargs => Return title)
               [("ds", JObj [("data_path", JStr "ds.json")])] false
  = ([("ds", JObj [("data_path", JStr "ds.json")])], Raise (KeyError "class")).
Proof.
  apply (proj2 (proj2
    (@loadDataSets_consumes (string * string) string (fun m c => Return (m, c))
       (fun cls title kwargs => Return title)
       [("ds", JObj [("class", JStr "package.Class"); ("data_path", JStr "ds.json")])]
       [("ds", JObj [("data_path", JStr "ds.json")])] false ["ds"] eq_refl))).
  discriminate.
Defined.

End ConfigFacts.

(** ** nlu_benchmarker.py: facts on the result of a run *)

Module RunResultFacts.
Import Benchmarker.

Lemma In_keys_set {V} (d : Dict.t string V) (k : string) (v : V) (t : string) :
  In t (Dict.keys (Dict.set String.eqb d k v)) <-> t = k \/ In t (Dict.keys d).
Proof.
  induction d as [|[k' v'] d IH]; simpl.
  - intuition congruence.
  - destruct (String.eqb k' k) eqn:E; simpl.
    + apply String.eqb_eq in E. subst k'. intuition congruence.
    + unfold Dict.keys in IH. rewrite IH. intuition congruence.
Qed.

Lemma Forall_set {V} (Q : V -> Prop) (d : Dict.t string V) (k : string) (v : V) :
  Forall (fun e => Q (snd e)) d -> Q v ->
  Forall (fun e => Q (snd e)) (Dict.set String.eqb d k v).
Proof.
  intros H Hv. induction H as [|[k' v'] d H0 H IH]; simpl.
  - now repeat constructor.
  - destruct (String.eqb k' k); constructor; auto.
Qed.

Lemma keyed_by_fold {A V} (key : A -> string) (val : A -> V) (l : list A) :
  forall d0 : Dict.t string V,
    forall t, In t (Dict.keys (fold_left (fun acc x => Dict.set String.eqb acc (key x) (val x))
                                         l d0))
              <-> In t (Dict.keys d0) \/ In t (map key l).
Proof.
  induction l as [|x l IH]; intros d0 t; simpl; [tauto|].
  rewrite IH, In_keys_set. intuition congruence.
Qed.

Lemma forallb_fold {A V} (Q : V -> bool) (key : A -> string) (val : A -> V) (l : list A) :
  Forall (fun x => Q (val x) = true) l ->
  forall d0 : Dict.t string V,
    forallb (fun kv => Q (snd kv)) d0 = true ->
    forallb (fun kv => Q (snd kv))
            (fold_left (fun acc x => Dict.set String.eqb acc (key x) (val x)) l d0) = true.
Proof.
  induction 1 as [|x l Hx _ IH]; intros d0 H0; simpl; [exact H0|].
  apply IH. now apply ScoreFacts.forallb_set.
Qed.

Lemma map_fst_combine {A B} (xs : list A) (ys : list B) :
  List.length xs = List.length ys -> map fst (combine xs ys) = xs.
Proof.
  revert ys. induction xs as [|x xs IH]; intros [|y ys] L; simpl in *;
    try discriminate; [reflexivity|]. f_equal. apply IH. lia.
Qed.

Lemma list_set_middle {A} (done : list A) (x v : A) (rest : list A) :
  list_set (done ++ x :: rest) (List.length done) v = done ++ v :: rest.
Proof. induction done as [|y done IH]; simpl; [reflexivity|]. now rewrite IH. Qed.

(** A complete entry whose matrices have no negative count. *)
Definition sound (fts dts : list string)
    (it : Dict.t DataSetTitle (Dict.t FrameworkTitle ConfusionMatrix)) : Prop :=
  complete_iteration fts dts it /\ counted it = true.

Lemma sound_set (fts dts : list string)
    (it : Dict.t DataSetTitle (Dict.t FrameworkTitle ConfusionMatrix))
    (t : DataSetTitle) (by_framework : Dict.t FrameworkTitle ConfusionMatrix) :
  sound fts dts it -> keyed_by fts by_framework ->
  forallb (fun fp : FrameworkTitle * ConfusionMatrix => no_negative_count (snd fp))
          by_framework = true ->
  sound fts (dts ++ [t]) (Dict.set String.eqb it t by_framework).
Proof.
  intros [[K V] N] B Nb. split; [split|].
  - intros x. rewrite In_keys_set, in_app_iff, (K x). simpl. intuition congruence.
  - now apply (Forall_set (keyed_by fts)).
  - unfold counted.
    apply (ScoreFacts.forallb_set String.eqb
             (fun row : Dict.t FrameworkTitle ConfusionMatrix =>
                forallb (fun fp : FrameworkTitle * ConfusionMatrix =>
                           no_negative_count (snd fp)) row)); assumption.
Qed.

Lemma bind_returned {W X A B} (m : Async.M W X A) (k : A -> Async.M W X B) (w w' : W)
    (b : B) :
  Async.bind m k w = (w', Return b) ->
  exists a w1, m w = (w1, Return a) /\ k a w1 = (w', Return b).
Proof.
  unfold Async.bind. destruct (m w) as [w1 [a|e]]; [eauto|discriminate].
Qed.

Lemma try_finally_returned {W X A B} {L : Loop W} (body : Async.M W X A)
    (finalizer : Async.M W X B) (w w' : W) (a : A) :
  Async.try_finally body finalizer w = (w', Return a) ->
  exists w1, body w = (w1, Return a).
Proof.
  unfold Async.try_finally. destruct (body w) as [w1 r].
  destruct (loop w1); [| |intros H; injection H as _ ->; eauto];
    (destruct (finalizer w1) as [w2 [b|e]]; [|discriminate]);
    intros H; injection H as _ ->; eauto.
Qed.

Lemma gather_returned {W X O R} {L : Loop W} {IX : Interrupts X}
    (op : O -> Async.M W X R) (xs : list O) :
  forall (w w' : W) (rs : list (outcome X R)) (r : R),
    Async.gather (map op xs) w = (w', Return rs) ->
    In r (Parallel.returned_of rs) ->
    exists x w0 w1, op x w0 = (w1, Return r).
Proof.
  induction xs as [|x xs IH]; intros w w' rs r; cbn [map Async.gather].
  - intros H. injection H as _ <-. intros [].
  - destruct (op x w) as [w1 r0] eqn:E.
    destruct (Async.leaving r0) as [e|].
    + unfold Async.interrupt. destruct (loop w1); discriminate.
    + destruct (Async.gather (map op xs) w1) as [w2 [rs'|e]] eqn:G; [|discriminate].
      intros H. injection H as _ <-.
      unfold Parallel.returned_of. cbn [flat_map]. rewrite in_app_iff. intros [H|H].
      * destruct r0 as [r1|e]; [|destruct H]. destruct H as [->|[]]. eauto.
      * exact (IH w1 w2 rs' r G H).
Qed.

Lemma returned_all {W O R A X} {L : Loop W} {IX : Interrupts X}
    (as_exception : ParallelException O R X -> X)
    (P : R -> Prop) (objects : list O) (op : O -> Async.M W X R) (msg : string)
    (w w' : W) (rs : list R) :
  (forall x w0 w1 r, op x w0 = (w1, Return r) -> P r) ->
  Parallel.run_in_parallel as_exception objects op
    (@None (O -> R -> Async.M W X A)) msg w = (w', Return rs) ->
  List.length rs = List.length objects /\ Forall P rs.
Proof.
  intros HP. rewrite ParallelFacts.run_in_parallel_None.
  destruct (Async.gather (map op objects) w) as [w1 [results|e]] eqn:G; [|discriminate].
  destruct (forallb is_return results) eqn:E; [|discriminate].
  intros H. injection H as _ <-. split.
  - rewrite <- (length_map (@Return X R)), (ParallelFacts.returned_of_aligned _ E),
      (ParallelFacts.gather_length _ _ G).
    apply length_map.
  - apply Forall_forall. intros r Hr.
    destruct (gather_returned op objects w r G Hr) as (x & w0 & w2 & Hx).
    exact (HP _ _ _ _ Hx).
Qed.

Section RunResult.

Variables (Env F D : Type).
Variable engine : call F D -> Env -> Env * outcome (exc F) unit.
Variable rate : F -> string -> Env -> Env * outcome (exc F) Rating.NLUIntentRating.
Variable fw_title : F -> FrameworkTitle.
Variable ds_title : D -> DataSetTitle.
Variable training_data : D -> Env -> list NLUDataEntry.
Variable validation_data : D -> Env -> list NLUDataEntry.
Variable ds_reshuffle : D -> Env -> Env * outcome (exc F) unit.
Variable cancel_flag : Env -> bool.

(** The matrix of a benchmark has no negative count. *)
Lemma benchmark_counts (f : F) (d : D) (w w' : world Env F D) (cm : ConfusionMatrix) :
  benchmark engine rate training_data validation_data f d w = (w', Return cm) ->
  no_negative_count cm = true.
Proof.
  unfold benchmark. intros H. apply try_finally_returned in H. destruct H as [w1 H].
  apply bind_returned in H. destruct H as (td & w2 & _ & H).
  apply bind_returned in H. destruct H as (u & w3 & _ & H).
  apply bind_returned in H. destruct H as (vd & w4 & _ & H).
  unfold validate in H.
  destruct (@ConfusionFacts.validate_from _ _ _ rate f vd [] cm w4 w1 H)
    as (ratings & _ & C & _).
  exact (ScoreFacts.ratings_nonneg _ [] eq_refl C).
Qed.

(** One iteration on a data set assigns, in the entry of its index, a
    matrix for every framework to the title of the data set; it appends the
    entry when the list ends before the index. *)
Lemma iteration_value (frameworks : list F) (d : D) (done todo : Iterations)
    (w w' : world Env F D) (its' : Iterations) :
  iteration engine rate fw_title ds_title training_data validation_data ds_reshuffle
            cancel_flag frameworks d (done ++ todo) (List.length done) w
  = (w', Return its') ->
  exists by_framework,
    keyed_by (map fw_title frameworks) by_framework
    /\ forallb (fun fp : FrameworkTitle * ConfusionMatrix => no_negative_count (snd fp))
               by_framework = true
    /\ its' = (done ++ [Dict.set String.eqb (hd [] todo) (ds_title d) by_framework])
              ++ tl todo.
Proof.
  unfold iteration, Async.bind.
  destruct (Parallel.run_in_parallel _ frameworks _ _ _ w) as [w1 [performances|e]] eqn:P;
    [|discriminate].
  apply (@returned_all _ _ _ _ _ _ _ _ (fun cm => no_negative_count cm = true)) in P;
    [|intros x w0 w2 r; apply benchmark_counts].
  destruct P as [P N].
  destruct (reshuffle ds_reshuffle d w1) as [w2 [[]|e]]; [|discriminate].
  remember (if Nat.eqb (List.length (done ++ todo)) (List.length done)
            then (done ++ todo) ++ [[]] else done ++ todo) as its1 eqn:E1.
  assert (S : its1 = done ++ hd [] todo :: tl todo).
  { subst its1. destruct todo as [|x rest]; cbn [hd tl].
    - now rewrite app_nil_r, Nat.eqb_refl.
    - replace (Nat.eqb (List.length (done ++ x :: rest)) (List.length done)) with false;
        [reflexivity|].
      symmetry. apply Nat.eqb_neq. rewrite length_app. simpl. lia. }
  rewrite S. clear E1 S its1.
  rewrite nth_error_app2, Nat.sub_diag by lia. cbn [nth_error].
  unfold builtin, Async.lift, observe.
  destruct (cancel_flag (env w2)); unfold Async.raise, Async.ret; [discriminate|].
  rewrite list_set_middle. intros H. injection H as _ <-.
  eexists. split; [|split; [|rewrite <- app_assoc; reflexivity]].
  - intros t.
    rewrite (keyed_by_fold (fun fp : F * ConfusionMatrix => fw_title (fst fp))
               (fun fp => snd fp) (combine frameworks performances) [] t).
    rewrite <- (map_map fst fw_title), map_fst_combine by (symmetry; exact P).
    simpl. tauto.
  - apply (forallb_fold no_negative_count
             (fun fp : F * ConfusionMatrix => fw_title (fst fp)) (fun fp => snd fp));
      [|reflexivity].
    apply Forall_forall. intros [f cm] H. apply in_combine_r in H.
    rewrite Forall_forall in N. exact (N cm H).
Qed.

(** The iterations [a, a + m) on a data set: the entries before [a] have
    the data set, the entries from [a] on do not have it yet. *)
Lemma iterations_value (frameworks : list F) (d : D) (dts : list string) (m : nat) :
  forall (done todo : Iterations) (w w' : world Env F D) (its' : Iterations),
    (todo = [] /\ dts = []) \/ m <= List.length todo ->
    Forall (sound (map fw_title frameworks) (dts ++ [ds_title d])) done ->
    Forall (sound (map fw_title frameworks) dts) todo ->
    Async.fold_M (iteration engine rate fw_title ds_title training_data validation_data
                            ds_reshuffle cancel_flag frameworks d)
                 (seq (List.length done) m) (done ++ todo) w
    = (w', Return its') ->
    exists done' todo',
      its' = done' ++ todo'
      /\ List.length done' = List.length done + m
      /\ List.length todo' = List.length todo - m
      /\ Forall (sound (map fw_title frameworks) (dts ++ [ds_title d])) done'
      /\ Forall (sound (map fw_title frameworks) dts) todo'.
Proof.
  induction m as [|m IH]; intros done todo w w' its' C Fd Ft; cbn [seq Async.fold_M].
  - unfold Async.ret. intros H. injection H as _ <-.
    exists done, todo. repeat split; auto; lia.
  - unfold Async.bind.
    destruct (iteration _ _ _ _ _ _ _ _ frameworks d (done ++ todo) (List.length done) w)
      as [w1 [its1|e]] eqn:I; [|discriminate].
    apply iteration_value in I. destruct I as [by_framework (B & Nb & ->)].
    set (new := Dict.set String.eqb (hd [] todo) (ds_title d) by_framework).
    assert (N : sound (map fw_title frameworks) (dts ++ [ds_title d]) new).
    { apply sound_set; [|exact B|exact Nb].
      destruct todo as [|x rest]; cbn [hd].
      - destruct C as [[_ ->]|C]; [|simpl in C; lia].
        split; [split; [intros t; simpl; tauto|constructor]|reflexivity].
      - now inversion Ft. }
    replace (S (List.length done)) with (List.length (done ++ [new]))
      by (rewrite length_app; simpl; lia).
    intros H. apply IH in H.
    + destruct H as (done' & todo' & -> & L1 & L2 & F1 & F2).
      exists done', todo'. repeat split; auto.
      * rewrite L1, length_app. simpl. lia.
      * rewrite L2. destruct todo; simpl; lia.
    + destruct C as [[-> ->]|C]; [left; auto|].
      right. destruct todo; simpl in *; lia.
    + apply Forall_app. split; [exact Fd|]. constructor; [exact N|constructor].
    + destruct todo as [|x rest]; cbn [tl]; [constructor|now inversion Ft].
Qed.

(** The result of [__run] after some data sets: nothing before the first,
    and then one complete entry per iteration. *)
Definition run_result (frameworks : list F) (n : nat) (dts : list string)
    (its : Iterations) : Prop :=
  match dts with
  | [] => its = []
  | _ :: _ => List.length its = n
              /\ Forall (sound (map fw_title frameworks) dts) its
  end.

Lemma run_data_set_value (frameworks : list F) (n : nat) (dts : list string) (d : D)
    (its its' : Iterations) (w w' : world Env F D) :
  run_result frameworks n dts its ->
  run_data_set engine rate fw_title ds_title training_data validation_data ds_reshuffle
               cancel_flag frameworks n its d w = (w', Return its') ->
  run_result frameworks n (dts ++ [ds_title d]) its'.
Proof.
  intros R. unfold run_data_set, Async.bind at 1.
  destruct (Parallel.run_in_parallel _ frameworks _ _ _ w) as [w1 [prepared|e]];
    [|discriminate].
  intros H. apply try_finally_returned in H. destruct H as [w2 H].
  unfold Async.bind, observe in H.
  destruct (cancel_flag (env w1)); [discriminate|].
  assert (C : (its = [] /\ dts = []) \/ n <= List.length its).
  { destruct dts; simpl in R; [left; auto|right; lia]. }
  assert (Ft : Forall (sound (map fw_title frameworks) dts) its).
  { destruct dts; simpl in R; [subst; constructor|tauto]. }
  apply (@iterations_value frameworks d dts n [] its _ _ _ C (Forall_nil _) Ft) in H.
  destruct H as (done' & todo' & -> & L1 & L2 & F1 & F2).
  assert (T : todo' = []).
  { apply length_zero_iff_nil. rewrite L2.
    destruct dts; simpl in R; [subst; reflexivity|lia]. }
  subst todo'. rewrite app_nil_r.
  unfold run_result. destruct (dts ++ [ds_title d]) eqn:E;
    [now destruct dts|]. split; [simpl in L1; lia|exact F1].
Qed.

Lemma run_iterations_value (frameworks : list F) (n : nat) (data_sets : list D) :
  forall (dts : list string) (its its' : Iterations) (w w' : world Env F D),
    run_result frameworks n dts its ->
    Async.fold_M (run_data_set engine rate fw_title ds_title training_data validation_data
                               ds_reshuffle cancel_flag frameworks n) data_sets its w
    = (w', Return its') ->
    run_result frameworks n (dts ++ map ds_title data_sets) its'.
Proof.
  induction data_sets as [|d data_sets IH]; intros dts its its' w w' R;
    cbn [Async.fold_M map].
  - unfold Async.ret. intros H. injection H as _ <-. now rewrite app_nil_r.
  - unfold Async.bind.
    destruct (run_data_set _ _ _ _ _ _ _ _ frameworks n its d w) as [w1 [its1|e]] eqn:E;
      [|discriminate].
    intros H. apply (@run_data_set_value frameworks n dts d its its1 w w1 R) in E.
    apply (IH _ _ _ _ _ E) in H. now rewrite <- app_assoc in H.
Qed.

Lemma run_value (frameworks : list F) (data_sets : list D) (n : nat)
    (w w' : world Env F D) (its : Iterations) :
  run engine rate fw_title ds_title training_data validation_data ds_reshuffle
      cancel_flag frameworks data_sets n w = (w', Return its) ->
  run_result frameworks n (map ds_title data_sets) its.
Proof.
  unfold run. intros H. apply try_finally_returned in H. destruct H as [w1 H].
  unfold run_iterations in H.
  exact (@run_iterations_value frameworks n data_sets [] [] its w w1 eq_refl H).
Qed.

(** X16. When [run] gets past its [try] statement, [iterations] holds nothing
    if there is no data set, and otherwise one entry per iteration, each
    with the titles of the data sets as its keys and, for every data set,
    the titles of the frameworks as the keys of the matrices, none of which
    has a negative count. *)
Theorem run_returns_complete (frameworks : list F) (data_sets : list D) (n : nat)
    (w w' : world Env F D) (its : Iterations) :
  run engine rate fw_title ds_title training_data validation_data ds_reshuffle
      cancel_flag frameworks data_sets n w = (w', Return its) ->
  match data_sets with
  | [] => its = []
  | _ :: _ =>
      List.length its = n
      /\ Forall (fun it =>
                   complete_iteration (map fw_title frameworks) (map ds_title data_sets) it
                   /\ counted it = true) its
  end.
Proof.
  intros H. apply run_value in H. unfold run_result in H.
  destruct data_sets; exact H.
Qed.

End RunResult.

Lemma run_returns_complete_witness :
  exists cm1 cm2,
    snd (run (fun _ (e : unit) => (e, Return tt))
             (fun (_ : nat) s (e : unit) =>
                (e, Return (Rating.init s [(Some "greet", 0x1p-1%float)])))
             (fun f : nat => if Nat.eqb f 0 then "fw0" else "fw1") (fun _ : nat => "ds")
             (fun _ _ => [mkEntry "hello" (Some "greet")])
             (fun _ _ => [mkEntry "hi" (Some "greet")])
             (fun _ e => (e, Return tt)) (fun _ => false)
             [0; 1] [0] 1 (mkTraced tt [] Running))
    = Return [[("ds", [("fw0", cm1); ("fw1", cm2)])]].
Proof.
  pose proof (@run_returns_complete unit nat nat
                (fun _ (e : unit) => (e, Return tt))
                (fun (_ : nat) s (e : unit) =>
                   (e, Return (Rating.init s [(Some "greet", 0x1p-1%float)])))
                (fun f : nat => if Nat.eqb f 0 then "fw0" else "fw1") (fun _ : nat => "ds")
                (fun _ _ => [mkEntry "hello" (Some "greet")])
                (fun _ _ => [mkEntry "hi" (Some "greet")])
                (fun _ e => (e, Return tt)) (fun _ => false)
                [0; 1] [0] 1 (mkTraced tt [] Running)
                (mkTraced tt
                   [Prepare 0 0; Prepare 1 0;
                    Train 0 [mkEntry "hello" (Some "greet")]; Rate 0 "hi"; Cleanup 0;
                    Train 1 [mkEntry "hello" (Some "greet")]; Rate 1 "hi"; Cleanup 1;
                    Unprepare 0; Unprepare 1; Destruct 0; Destruct 1] Running)
                [[("ds", [("fw0", [(Some "greet", [(Some "greet", 1%Z)])]);
                          ("fw1", [(Some "greet", [(Some "greet", 1%Z)])])])]]
                eq_refl) as H.
  exists [(Some "greet", [(Some "greet", 1%Z)])], [(Some "greet", [(Some "greet", 1%Z)])].
  reflexivity.
Defined.

(** *** From the result of a run to the means and variances *)

Lemma get_In {V} (d : Dict.t string V) (k : string) (v : V) :
  Dict.get String.eqb d k = Some v -> In (k, v) d.
Proof.
  induction d as [|[k' v'] d IH]; simpl; [discriminate|].
  destruct (String.eqb k' k) eqn:E.
  - apply String.eqb_eq in E. subst k'. intros H. injection H as ->. now left.
  - intros H. right. now apply IH.
Qed.

Lemma item_present {V} (titles : list string) (d : Dict.t string V) (k : string) :
  keyed_by titles d -> In k titles ->
  exists v, Dict.item String.eqb d k = Return v /\ In (k, v) d.
Proof.
  intros K H. apply K in H.
  destruct (@DictFacts.In_keys_get _ _ String.eqb String.eqb_eq d k H) as [v G].
  exists v. unfold Dict.item. rewrite G. split; [reflexivity|now apply get_In].
Qed.

Lemma ofold_total {E A B} (body : B -> A -> outcome E B) (xs : list A) :
  (forall acc x, In x xs -> exists acc', body acc x = Return acc') ->
  forall acc0, exists r, ofold body xs acc0 = Return r.
Proof.
  induction xs as [|x xs IH]; intros H acc0; cbn [ofold]; [eauto|].
  destruct (H acc0 x (or_introl eq_refl)) as [acc1 ->]. cbn [obind].
  apply IH. intros acc y Hy. apply H. now right.
Qed.

Lemma omapM_total {E A B} (f : A -> outcome E B) (xs : list A) :
  (forall x, In x xs -> exists y, f x = Return y) ->
  exists ys, omapM f xs = Return ys /\ Forall2 (fun x y => f x = Return y) xs ys.
Proof.
  induction xs as [|x xs IH]; intros H; cbn [omapM]; [eauto|].
  destruct (H x (or_introl eq_refl)) as [y Hy]. rewrite Hy. cbn [obind].
  destruct IH as [ys [-> F]]; [intros z Hz; apply H; now right|]. cbn [obind]. eauto.
Qed.

(** A loop that assigns [d[key x] = f x], where [f] returns. *)
Lemma fill_total {A V} (key : A -> string) (f : A -> outcome pyerr V) (Q : V -> Prop)
    (xs : list A) :
  (forall x, In x xs -> exists v, f x = Return v /\ Q v) ->
  forall d0 : Dict.t string V,
    Forall (fun e => Q (snd e)) d0 ->
    exists d,
      ofold (fun acc x => obind (f x) (fun v => Return (Dict.set String.eqb acc (key x) v)))
            xs d0 = Return d
      /\ (forall t, In t (Dict.keys d) <-> In t (Dict.keys d0) \/ In t (map key xs))
      /\ Forall (fun e => Q (snd e)) d.
Proof.
  induction xs as [|x xs IH]; intros H d0 Q0; cbn [ofold].
  - exists d0. split; [reflexivity|]. split; [simpl; tauto|exact Q0].
  - destruct (H x (or_introl eq_refl)) as [v [-> Qv]]. cbn [obind].
    destruct (IH (fun y Hy => H y (or_intror Hy)) (Dict.set String.eqb d0 (key x) v)
                 (Forall_set Q _ _ Q0 Qv)) as (d & -> & K & Qd).
    exists d. split; [reflexivity|]. split; [|exact Qd].
    intros t. rewrite K, In_keys_set. simpl. intuition congruence.
Qed.

(** The scores of complete entries without a negative count are there and
    complete. *)
Lemma scores_complete (fts dts : list string) (iterations : Iterations) :
  Forall (sound fts dts) iterations ->
  exists scores,
    Metrics.confusionMatricesToF1Scores iterations = Return scores
    /\ Forall (complete_iteration fts dts) scores.
Proof.
  intros H. unfold Metrics.confusionMatricesToF1Scores.
  induction H as [|it its [[K V] N] _ IH]; cbn [omapM]; [eauto|].
  assert (R : forall e, In e it ->
                exists by_framework,
                  ofold (fun performances_result (p : FrameworkTitle * ConfusionMatrix) =>
                           obind (Metrics.confusionMatrixToF1Scores (snd p)) (fun s =>
                           Return (Dict.set String.eqb performances_result (fst p) s)))
                        (snd e) [] = Return by_framework
                  /\ keyed_by fts by_framework).
  { intros e He. unfold counted in N. rewrite forallb_forall in N.
    specialize (N e He). rewrite forallb_forall in N.
    destruct (@fill_total _ _ fst
                (fun p : FrameworkTitle * ConfusionMatrix =>
                   Metrics.confusionMatrixToF1Scores (snd p))
                (fun _ => True) (snd e)
                (fun p Hp => match ScoreFacts.scores_return (snd p) (N p Hp) with
                             | ex_intro _ s Hs => ex_intro _ s (conj Hs I)
                             end)
                [] (Forall_nil _)) as (by_framework & E & Kb & _).
    exists by_framework. split; [exact E|].
    rewrite Forall_forall in V. intros t. rewrite Kb. simpl.
    rewrite <- (V e He t). unfold Dict.keys. tauto. }
  destruct (@fill_total _ _ fst
              (fun e : DataSetTitle * Dict.t FrameworkTitle ConfusionMatrix =>
                 ofold (fun performances_result (p : FrameworkTitle * ConfusionMatrix) =>
                          obind (Metrics.confusionMatrixToF1Scores (snd p)) (fun s =>
                          Return (Dict.set String.eqb performances_result (fst p) s)))
                       (snd e) [])
              (keyed_by fts) it R [] (Forall_nil _)) as (s & E & Ks & Vs).
  match goal with
  | |- exists scores, obind ?X _ = Return scores /\ _ =>
      replace X with (Return (E := pyerr) s) by (symmetry; exact E)
  end.
  cbn [obind]. destruct IH as [scores [-> Fs]]. cbn [obind].
  eexists. split; [reflexivity|]. constructor; [|exact Fs]. split; [|exact Vs].
  intros t. rewrite Ks. simpl. rewrite <- (K t). unfold Dict.keys. tauto.
Qed.

Section Aggregated.

Variable libm_pow2 : float -> float.

Lemma score_getter_returns (fts dts : list string) (dt : DataSetTitle)
    (ft : FrameworkTitle) (intent : Intent) (x : Aggregation.Scores) :
  complete_iteration fts dts x -> In dt dts -> In ft fts ->
  exists o, Aggregation.score_getter dt ft intent x = Return o.
Proof.
  intros [K V] Hd Hf. unfold Aggregation.score_getter.
  destruct (item_present dt K Hd) as [by_framework [-> I]]. cbn [obind].
  rewrite Forall_forall in V. pose proof (V _ I) as Kb. cbn [snd] in Kb.
  destruct (item_present ft Kb Hf) as [by_intent [-> _]]. cbn [obind]. eauto.
Qed.

Lemma intent_performance_returns (fts dts : list string) (dt : DataSetTitle)
    (ft : FrameworkTitle) (intent : Intent) (scores : list Aggregation.Scores) :
  Forall (complete_iteration fts dts) scores -> In dt dts -> In ft fts ->
  exists p, Aggregation.intent_performance libm_pow2 scores dt ft intent = Return p.
Proof.
  intros H Hd Hf. unfold Aggregation.intent_performance.
  destruct (@omapM_total _ _ _ (Aggregation.score_getter dt ft intent) scores) as [os [-> _]].
  { rewrite Forall_forall in H. intros x Hx.
    exact (@score_getter_returns fts dts dt ft intent x (H x Hx) Hd Hf). }
  cbn [obind]. destruct (Nat.eqb (List.length (filter_not_None os)) 0) eqn:E; [eauto|].
  assert (N : filter_not_None os <> []).
  { intros C. rewrite C in E. discriminate. }
  unfold Aggregation.mean_of, Aggregation.variance_of.
  destruct (AggregationFacts.truediv_len (py_sum (filter_not_None os)) N) as [m ->].
  cbn [obind].
  destruct (AggregationFacts.truediv_len
              (py_sum (map (fun x => Aggregation.py_pow2 libm_pow2 (py_sub x (PFloat m)))
                           (filter_not_None os))) N) as [v ->].
  cbn [obind]. eauto.
Qed.

(** [__f1ScoreMeansAndVariances] returns for complete scores: it finds
    every data set and every framework in every entry, and it does not
    divide by zero. *)
Lemma aggregation_returns (fts dts : list string) (frameworks : list FrameworkTitle)
    (data_sets : list DataSetView) (scores : list Aggregation.Scores) :
  Forall (complete_iteration fts dts) scores ->
  (forall ft, In ft frameworks -> In ft fts) ->
  (forall d, In d data_sets -> In (view_title d) dts) ->
  exists performances,
    Aggregation.f1ScoreMeansAndVariances libm_pow2 frameworks data_sets scores
    = Return performances.
Proof.
  intros H Hf Hd. unfold Aggregation.f1ScoreMeansAndVariances.
  apply ofold_total. intros acc d Id.
  assert (B : exists by_framework,
             Aggregation.data_set_performances libm_pow2 frameworks scores d
             = Return by_framework).
  { unfold Aggregation.data_set_performances. apply ofold_total. intros acc1 ft Ift.
    assert (P : exists by_intent,
               Aggregation.framework_performances libm_pow2 scores (view_title d)
                 (intent_set (map entry_intent (view_validation_data d))) ft
               = Return by_intent).
    { unfold Aggregation.framework_performances. apply ofold_total. intros acc2 i _.
      destruct (@intent_performance_returns fts dts (view_title d) ft i scores H
                  (Hd d Id) (Hf ft Ift)) as [[p|] ->];
        cbn [obind]; eauto. }
    destruct P as [by_intent ->]. cbn [obind]. eauto. }
  destruct B as [by_framework ->]. cbn [obind]. eauto.
Qed.

Section Aggregate.

Variables (Env F D : Type).
Variable engine : call F D -> Env -> Env * outcome (exc F) unit.
Variable rate : F -> string -> Env -> Env * outcome (exc F) Rating.NLUIntentRating.
Variable fw_title : F -> FrameworkTitle.
Variable ds_title : D -> DataSetTitle.
Variable training_data : D -> Env -> list NLUDataEntry.
Variable validation_data : D -> Env -> list NLUDataEntry.
Variable ds_reshuffle : D -> Env -> Env * outcome (exc F) unit.
Variable cancel_flag : Env -> bool.

(** X25. What [run] computes first from the [iterations] of its [try]
    statement does not fail: [__confusionMatricesToF1Scores] returns,
    without a division by zero, and [__f1ScoreMeansAndVariances] returns for
    the frameworks and the data sets of the run, without a missing key and
    without a division by zero. *)
Theorem run_is_aggregated (frameworks : list F) (data_sets : list D) (n : nat)
    (w w' : world Env F D) (its : Iterations) (views : list DataSetView) :
  run engine rate fw_title ds_title training_data validation_data ds_reshuffle
      cancel_flag frameworks data_sets n w = (w', Return its) ->
  map view_title views = map ds_title data_sets ->
  exists scores performances,
    Metrics.confusionMatricesToF1Scores its = Return scores
    /\ Aggregation.f1ScoreMeansAndVariances libm_pow2 (map fw_title frameworks) views scores
       = Return performances.
Proof.
  intros H T. apply run_value in H. unfold run_result in H.
  assert (S : Forall (sound (map fw_title frameworks) (map ds_title data_sets)) its).
  { destruct (map ds_title data_sets); [subst; constructor|tauto]. }
  destruct (scores_complete S) as [scores [E C]]. exists scores.
  destruct (@aggregation_returns (map fw_title frameworks) (map ds_title data_sets)
              (map fw_title frameworks) views scores C (fun _ I => I)) as [performances P].
  { intros d Hd. rewrite <- T. now apply in_map. }
  eauto.
Qed.

End Aggregate.

End Aggregated.

Lemma run_is_aggregated_witness :
  exists scores performances,
    Metrics.confusionMatricesToF1Scores
      [[("ds", [("fw", [(Some "greet", [(Some "greet", 1%Z)])])])]] = Return scores
    /\ Aggregation.f1ScoreMeansAndVariances (fun x => PrimFloat.mul x x) ["fw"]
         [mkView "ds" [mkEntry "hi" (Some "greet")]] scores
       = Return performances.
Proof.
  exact (@run_is_aggregated (fun x => PrimFloat.mul x x) unit nat nat
           (fun _ (e : unit) => (e, Return tt))
           (fun (_ : nat) s (e : unit) =>
              (e, Return (Rating.init s [(Some "greet", 0x1p-1%float)])))
           (fun _ : nat => "fw") (fun _ : nat => "ds")
           (fun _ _ => [mkEntry "hello" (Some "greet")])
           (fun _ _ => [mkEntry "hi" (Some "greet")])
           (fun _ e => (e, Return tt)) (fun _ => false)
           [0] [0] 1 (mkTraced tt [] Running) _ _ [mkView "ds" [mkEntry "hi" (Some "greet")]]
           eq_refl eq_refl).
Defined.

End RunResultFacts.

(** ** nlu_benchmarker.py: facts on a run from a configuration *)

Module FromConfigFacts.
Import Benchmarker FromConfig.

Section Created.

Variables (Env F D Cfg : Type).
Variable engine : call F D -> Env -> Env * outcome (exc F) unit.
Variable rate : F -> string -> Env -> Env * outcome (exc F) Rating.NLUIntentRating.
Variable fw_title : F -> FrameworkTitle.
Variable ds_title : D -> DataSetTitle.
Variable training_data : D -> Env -> list NLUDataEntry.
Variable validation_data : D -> Env -> list NLUDataEntry.
Variable ds_reshuffle : D -> Env -> Env * outcome (exc F) unit.
Variable cancel_flag : Env -> bool.
Variable create : Cfg -> Env -> Env * outcome (exc F) F.
Variable configure : Env -> Env * outcome (exc F) (nat * list D).
Variable creation_failed : ParallelException Cfg F (exc F) -> exc F.

(** Neither a method of a framework nor the creation of one raises
    [KeyboardInterrupt] or [SystemExit]. *)
Hypothesis kept : stays_in_loop engine rate.
Hypothesis create_kept : forall x e, Async.captured (snd (create x e)) = true.

Lemma gather_quietly (xs : list Cfg) (w : world Env F D) :
  Async.gather (map (fun x => quietly (D := D) (create x)) xs) w
  = (mkTraced (fst (outcomes create xs (env w))) (trace w) (event_loop w),
     Return (snd (outcomes create xs (env w)))).
Proof.
  revert w. induction xs as [|x xs IH]; intros w; cbn [map Async.gather outcomes].
  - now destruct w.
  - unfold quietly at 1. pose proof (create_kept x (env w)) as K.
    destruct (create x (env w)) as [e1 r]. cbn [snd] in K.
    rewrite (ParallelFacts.captured_leaving _ K), IH. cbn [env trace event_loop].
    now destruct (outcomes create xs e1).
Qed.

Lemma succeeded_returned {O R X} (objects : list O) (results : list (outcome X R)) :
  List.length objects = List.length results ->
  map snd (succeeded_objects objects results) = Parallel.returned_of results.
Proof.
  revert results. induction objects as [|o os IH]; intros [|[r|e] rs] L;
    simpl in *; try discriminate; try reflexivity.
  - f_equal. apply IH. lia.
  - apply IH. lia.
Qed.

(** The calls of [createFrameworks]: none when every framework was
    created, and otherwise [destruct] on the frameworks that were. *)
Lemma createFrameworks_calls (framework_configs : list Cfg) (w : world Env F D) :
  let results := snd (outcomes create framework_configs (env w)) in
  let m := createFrameworks engine create creation_failed framework_configs w in
  event_loop (fst m) = event_loop w
  /\ (forallb is_return results = true ->
      trace (fst m) = trace w /\ snd m = Return (Parallel.returned_of results))
  /\ (forallb is_return results = false ->
      trace (fst m) = trace w ++ map (@Destruct F D) (Parallel.returned_of results)
      /\ is_return (snd m) = false).
Proof.
  cbv zeta.
  unfold createFrameworks, Parallel.run_in_parallel, Parallel.run_in_parallel_with,
    Async.bind.
  rewrite gather_quietly.
  pose proof (ParallelFacts.outcomes_length create framework_configs (env w)) as Ln.
  set (results := snd (outcomes create framework_configs (env w))) in *.
  rewrite ParallelFacts.failed_of_combine, ParallelFacts.succeeded_of_combine.
  rewrite (ParallelFacts.failed_objects_length framework_configs results (eq_sym Ln)).
  destruct (forallb is_return results).
  - cbn. split; [reflexivity|]. split; [auto|discriminate].
  - unfold Benchmarker.destruct, world. cbv beta.
    rewrite (ParallelFacts.gather_invoke (fun x : Cfg * F => Destruct (snd x))
               (fun x : Cfg * F => engine (Destruct (snd x))))
      by (apply BenchmarkerFacts.outcomes_captured; intros x e'; apply (proj1 kept)).
    cbn [fst snd trace event_loop Async.ret Async.raise]. split; [reflexivity|].
    split; [discriminate|]. intros _. split; [|reflexivity].
    now rewrite <- (succeeded_returned framework_configs results (eq_sym Ln)), map_map.
Qed.

Lemma run_destructs (frameworks : list F) (data_sets : list D) (n : nat)
    (w : world Env F D) :
  event_loop w <> Closed ->
  exists c,
    trace (fst (run engine rate fw_title ds_title training_data validation_data
                    ds_reshuffle cancel_flag frameworks data_sets n w))
    = trace w ++ c
    /\ filter (@is_Destruct F D) c = map (@Destruct F D) frameworks.
Proof.
  intros Op.
  destruct (BenchmarkerFacts.run_trace fw_title ds_title training_data validation_data
              ds_reshuffle cancel_flag kept frameworks data_sets n w Op)
    as (_ & c & ok & T & C & _).
  destruct (BenchmarkerFacts.data_sets_calls_filter C) as [Fd _].
  exists (c ++ map (@Destruct F D) frameworks). split; [exact T|].
  rewrite filter_app, Fd. cbn [app]. apply BenchmarkerFacts.filter_destructs.
Qed.

(** X26. Let neither a method of a framework nor the creation of one
    raise [KeyboardInterrupt] or [SystemExit], and let the event loop be
    open.  Then [runFromConfig] leaves no framework behind: whether a
    creation fails, the benchmark raises or all goes well, [destruct] is
    called exactly on the frameworks whose creation succeeded, once on each
    and in the order of the configuration.  When the global configuration
    or the data sets cannot be loaded, no framework is created and
    [destruct] is not called. *)
Theorem runFromConfig_destructs (framework_configs : list Cfg) (w : world Env F D) :
  event_loop w <> Closed ->
  let m := runFromConfig engine rate fw_title ds_title training_data validation_data
             ds_reshuffle cancel_flag create configure creation_failed
             framework_configs w in
  exists c,
    trace (fst m) = trace w ++ c
    /\ filter (@is_Destruct F D) c
       = match snd (configure (env w)) with
         | Return _ =>
             map (@Destruct F D)
                 (Parallel.returned_of
                    (snd (outcomes create framework_configs (fst (configure (env w))))))
         | Raise _ => []
         end.
Proof.
  intros Op. cbv zeta. unfold runFromConfig, Async.bind at 1, quietly at 1.
  destruct (configure (env w)) as [e1 [[n data_sets]|ex]]; cbn [fst snd].
  - set (w1 := mkTraced e1 (trace w) (event_loop w) : world Env F D).
    destruct (createFrameworks_calls framework_configs w1) as (Lp & A & B).
    cbv zeta in A, B.
    change (env w1) with e1 in A, B. change (trace w1) with (trace w) in A, B.
    change (event_loop w1) with (event_loop w) in Lp.
    unfold Async.bind.
    destruct (forallb is_return (snd (outcomes create framework_configs e1))).
    + destruct (A eq_refl) as [T R].
      destruct (createFrameworks engine create creation_failed framework_configs w1)
        as [w2 r]. cbn [fst snd] in T, R, Lp. subst r.
      destruct (run_destructs (Parallel.returned_of
                                 (snd (outcomes create framework_configs e1)))
                              data_sets n w2) as (c & Tc & Fc); [now rewrite Lp|].
      exists c. now rewrite Tc, T.
    + destruct (B eq_refl) as [T R].
      destruct (createFrameworks engine create creation_failed framework_configs w1)
        as [w2 [frameworks|ex]]; cbn [fst snd] in T, R; [discriminate|].
      eexists. split; [exact T|]. apply BenchmarkerFacts.filter_destructs.
  - exists []. now rewrite app_nil_r.
Qed.

End Created.

(** Three configurations, of which the second cannot be created; the
    frameworks have no state. *)
Definition create_but_1 (x : nat) (e : unit) : unit * outcome (exc nat) nat :=
  (e, if Nat.eqb x 1 then Raise (Builtin (EngineError 1)) else Return (10 + x)).

Lemma runFromConfig_destructs_witness :
  exists c,
    trace (fst (runFromConfig (D := nat) (fun _ (e : unit) => (e, Return tt))
                  BenchmarkerFacts.rate_greet (fun _ => "fw") (fun _ => "ds")
                  (fun _ _ => [mkEntry "hello" (Some "greet")])
                  (fun _ _ => [mkEntry "hi" (Some "greet")])
                  (fun _ e => (e, Return tt)) (fun _ => false)
                  create_but_1 (fun e => (e, Return (1, [0])))
                  (as_exception (F := nat) (fun _ : nat => VNone))
                  [0; 1; 2] (mkTraced tt [] Running)))
    = [] ++ c
    /\ filter (@is_Destruct nat nat) c = [Destruct 10; Destruct 12].
Proof.
  apply (@runFromConfig_destructs unit nat nat nat (fun _ (e : unit) => (e, Return tt))
           BenchmarkerFacts.rate_greet (fun _ => "fw") (fun _ => "ds")
           (fun _ _ => [mkEntry "hello" (Some "greet")])
           (fun _ _ => [mkEntry "hi" (Some "greet")])
           (fun _ e => (e, Return tt)) (fun _ => false)
           create_but_1 (fun e => (e, Return (1, [0])))
                  (as_exception (F := nat) (fun _ : nat => VNone))
           (conj (fun _ _ => eq_refl) (fun _ _ _ => eq_refl))).
  - intros [|[|x]] e; reflexivity.
  - discriminate.
Defined.

(** When the creation of the second framework raises [KeyboardInterrupt],
    the exception leaves the event loop: [createFrameworks] does not roll
    back, and the first framework, which was created, is not destructed. *)
Definition create_interrupted (x : nat) (e : unit) : unit * outcome (exc nat) nat :=
  (e, if Nat.eqb x 1 then Raise (Builtin KeyboardInterrupt) else Return (10 + x)).

Lemma interrupted_creation_calls :
  runFromConfig (D := nat) (fun _ (e : unit) => (e, Return tt))
    BenchmarkerFacts.rate_greet (fun _ => "fw") (fun _ => "ds")
    (fun _ _ => [mkEntry "hello" (Some "greet")])
    (fun _ _ => [mkEntry "hi" (Some "greet")])
    (fun _ e => (e, Return tt)) (fun _ => false)
    create_interrupted (fun e => (e, Return (1, [0])))
                  (as_exception (F := nat) (fun _ : nat => VNone))
    [0; 1; 2] (mkTraced tt [] Running)
  = (mkTraced tt [] Cancelling, Raise (Builtin CancelledError)).
Proof. reflexivity. Qed.

End FromConfigFacts.
